(* ===== verification/_CoqProject ===== *)
-Q . S2P
Prelude.v
Errors.v
GoMem.v
Netip.v
Cmsg.v
Gso.v
Sticky.v
Message.v
Coalesce.v
Split.v
Env.v
SimNet.v
ControlFns.v
Conn.v
StdNet.v
StdSend.v
StdRecv.v
StdConc.v
BatchingConn.v
BatchConc.v
WinRio.v
WinSim.v
WinRing.v
WinIO.v
ChannelBind.v
BindLife.v
PingPong.v
Session.v
