(* ===== verification/Prelude.v ===== *)
(** * A verification development for batchudp

    The repository is a Go package (package [conn], with the helper packages
    [winrio] and [bindtest] and a ping-pong example) that sends and receives UDP
    datagrams in batches through a [Bind].  This library models the package in
    Rocq, function by function, and proves what callers rely on.

    ** The program and its parts

    - A [Bind] (conn.go) listens on one port for both address families: [Open]
      returns receive functions, [Send] sends a batch to an endpoint, [Close]
      ends it.  There are three: [StdNetBind] (bind_std.go) over any
      gonnect.Network, [WinRingBind] (bind_windows.go) over the registered I/O
      of Windows, which it calls through winrio/rio_windows.go, and
      [ChannelBind] (bindtest/bindtest.go), a pair of binds in memory.
    - On Linux and Android [StdNetBind] packs equal-sized datagrams into one
      message and lets the kernel cut it (UDP GSO: [coalesceMessages],
      gso_linux.go), and receives packed datagrams (UDP GRO) that
      [splitCoalescedMessages] takes apart.  Endpoints remember the local
      address a peer was heard on ("sticky" source, sticky_linux.go).
    - batching_conn_linux.go gives the same batching to a single connection.
    - controlfns*.go, features*.go and mark*.go set socket options and probe for
      offload; errors*.go decides when an error means that offload must go;
      gonnect_helpers.go, closer_tracking.go and default.go unwrap connections
      and choose a bind.
    - examples/udp_pingpong/main.go runs ping-pong sessions over pairs of binds.

    ** Conventions of the model

    A Go function is a Rocq function with the same name; what the code mutates
    is an argument and part of the result.  The type [go] below tells a normal
    return from a panic (index or slice bounds, a failed type assertion, an
    explicit [panic]) and from a loop that ran out of the bound of the model;
    fallible results are sums with [error] (Errors.v).  Byte slices that callers
    own live in a shared memory, with aliasing, [append] and [copy] (GoMem.v);
    slices that the package owns alone are values with a capacity.  Machine
    integers wrap at their width where the code can reach it: the ring counters
    (32 bits), ports (16 bits), the kernel version parser (64 bits).

    Code outside the repository is never made up.  The class [Env] lists the
    calls into gonnect, x/net and the socket layer, [UnixABI] the functions and
    layouts of x/sys/unix, [WinSys] the Windows calls; [EnvLaws], [EnvFrame],
    [UnixLaws], [WinLaws] and [WinQueues] (which requests Windows has accepted
    and has still to complete) state what their documentation promises, and each
    has an instance ([sim], [linux64], [winsim]) on which the theorems are also
    evaluated.  netip.ParseAddrPort and the printers of netip are arguments.

    ** Files

    - Prelude: the type [go] with its monad and notation, tactics, and lemmas on
      lists, options and integers.  Errors, GoMem, Netip, Cmsg, Message: error
      values, slices, addresses, control messages and messages.
    - Gso, Sticky: control data of gso_*.go and sticky_*.go, endpoints.
    - Coalesce: [coalesceMessages].  Split: [splitCoalescedMessages] and
      [groReadBatchSize].
    - Env: the environment of a bind, and SimNet: a simulated machine.
    - ControlFns: controlfns*.go, features*.go, mark*.go, the kernel version.
      Conn: validateReceiveBuffers, networkDown, PrettyName, unwrapping.
    - StdNet: construction, [Open] with its retries, [Close], the pools.
      StdSend: [Send] and [send].  StdRecv: [receiveIP] and the receive
      functions.  StdConc: [Send] on Linux as a state machine between locks and
      system calls, interleaved with everything else a bind does; the calls
      share one memory, the pools and the bind.
    - BatchingConn: batching_conn_linux.go and batching_conn_default.go.
      BatchConc: [WriteBatchTo] as a state machine, any number of calls at once
      (it only reads the caller's memory).
    - WinRio, WinSim: winrio/rio_windows.go and a simulated Windows.  WinRing:
      the ring buffer, endpoints, [Open] and [Close] of the ring bind.  WinIO:
      [Receive], [Send], binding to interfaces, construction of binds.
    - ChannelBind: bindtest/bindtest.go as functions and as a concurrent system.
    - BindLife: the contract of [Bind] as a class, the three binds as instances,
      and the theorem that each of them follows the life cycle.
    - PingPong: the example up to the session over channel binds, as a system of
      five goroutines with their task groups, from the first [Send] to the
      return.  Session: [runSession] against the interface of a bind,
      [runScenario], the factories.

    ** What is proved

    - Sending: the kernel cuts what [coalesceMessages] makes of non-empty
      datagrams in separate buffers back into exactly the datagrams passed, with
      the cached source of the endpoint on Linux (Coalesce.coalesce_lossless_linux
      and _android); [Send] offers them in order to the endpoint, falls back once
      exactly when GSO is rejected, and leaves buffers and pools in order
      (StdSend.Send_linux; without the zone of an IPv6 address, which the code
      does not pass on).  The batching connection likewise, except that its
      fallback sends wrong datagrams, which the theorem describes
      (BatchingConn.WriteBatchTo_delivers, retry_sends_concatenation).
    - Receiving: splitting equals segmentation (Split.split_correct), cannot
      overflow for batches of a multiple of 64 (Split.gro_window_has_room), and
      receive functions deliver each datagram once with size, sender and source
      (StdRecv.receiveIP_plain, receiveIP_gro, BatchingConn.ReadBatch_gro).  With
      offload an empty datagram hides those read behind it: the theorems say what
      is delivered then.  Sticky sources survive the round trip
      (Sticky.sticky_roundtrip4/6).
    - Life cycle: [Open] leaks nothing on any path and uses one port
      (StdNet.Open_no_leak, Open_same_port), the ring bind too, with a receive
      request accepted for every slot (WinRing.wb_Open_spec), [Close] gives
      everything back; the three binds refine the abstract life cycle
      (BindLife.lifecycle_refines), and a client of two binds releases both on
      every error path (Session.runSession_releases).
    - Concurrency: under every interleaving, concurrent sends on Linux whose
      buffers do not overlap each emit their own datagrams, the bind stays well
      formed and owns exactly its sockets, and every send returns within a bound
      (StdConc.concurrent_sends, concurrent_bind, concurrent_send_returns); the
      state machine agrees with the sequential function (StdConc.Send_steps), and
      calls that do share a buffer can mix their datagrams
      (StdConc.shared_buffer_mixes_calls).  The same for the writes of a batching
      connection, which take no lock (BatchConc.concurrent_writes,
      concurrent_write_returns, WriteBatchTo_steps).  Channel binds are a
      lossless FIFO network (ChannelBind.channel_fifo), and a session over them
      returns nil after a fixed number of steps under every schedule, its receive
      loops ended and its binds closed (PingPong.session_correct).
    - Windows: the ring refines a queue of 256 slots although its counters wrap
      (WinRing.ring_refines_queue); receiving and sending panic only when Windows
      reports a corrupt queue or a transfer longer than a slot, never reuse a
      slot in flight, and receiving ends (WinIO.Receive_total, Receive_delivers,
      af_Send_spec); the probe leaks nothing (WinRio.Initialize_once).
    - Where the code does not do what it means to, the theorem says what it
      does: set_dst_after_v4, retry_sends_concatenation, ReadBatch_redelivers,
      gro_loses_source, gro_empty_hides_next, gro_small_batch_overflows,
      android_retry_keeps_gso, coalesce_drops_empty, wb_Open_twice_closes,
      refused_sends_fill_ring, rearm_slot, stale_send_disables_offload,
      retry_lost, cb_reopen_orphans_signal, channel_large_payload,
      WinRingEndpoint_agrees.

    ** Bounds

    Loops over data are structural.  [Open] retries at most 100 times, as in the
    code.  [send_batch] gets one more than the number of messages, which is
    enough because a batched write without an error makes progress; unwrapping
    takes a bound above the depth of the wrappers (a hypothesis of the theorems,
    met by any finite nesting); the receive loop of the ring takes more than the
    number of completions that come in on its queue, and PingPong.receiveLoop
    one more than the number of batches.  In each case a theorem shows that the
    bound suffices, so no statement is only about runs that happen to end.

    ** Not modelled

    Logging, printing and the measurement of time; garbage collection and the
    emptying of sync.Pool (a pool may return any entry or a new one); data races
    on memory, except that shared state is read and written in the steps in
    which the code holds the lock; the gonnect networks, x/net, x/sys and the
    kernels, which are parameters; the assembly function procyield, which only
    waits.  The interleavings of StdConc are those of Linux builds, and do not
    include a network that closes the sockets of a bind behind its back
    ([Network.Down]); the locks of the ring bind are not modelled, its calls are
    taken one at a time; the deadline of the session's context is not reached in
    PingPong. *)

From Stdlib Require Export Strings.Byte ZArith Lia ZifyNat.
From stdpp Require Export base gmap list strings numbers.

(** ** The result of running a piece of Go code

    [Ret a] is a normal return, [Panic] a run-time panic (index or slice
    bounds out of range, a failed type assertion, an explicit [panic]) and
    [NoFuel] marks a loop that was cut off by the bound given to the model. *)
Inductive go (A : Type) : Type :=
| Ret (a : A)
| Panic
| NoFuel.
Arguments Ret {A} a.
Arguments Panic {A}.
Arguments NoFuel {A}.

#[export] Instance go_mret : MRet go := fun A => @Ret A.
#[export] Instance go_mbind : MBind go := fun A B f m =>
  match m with Ret a => f a | Panic => Panic | NoFuel => NoFuel end.

(** A Go index expression: [None] is the out-of-range panic. *)
Definition must {A} (o : option A) : go A :=
  match o with Some a => Ret a | None => Panic end.

(** A Go run-time check: panic unless [b] holds. *)
Definition check (b : bool) : go unit := if b then Ret tt else Panic.

#[export] Instance go_eq_dec `{EqDecision A} : EqDecision (go A).
Proof. solve_decision. Defined.

(** The values of [(T, error)] results: [inl e] is the error return. *)
Notation "A +e E" := (sum E A) (at level 50, left associativity, only parsing).

Create HintDb batchudp.
Create Rewrite HintDb go_inv.
Create Rewrite HintDb len.

Lemma go_bind_Ret {A B} (m : go A) (f : A -> go B) b :
  m ≫= f = Ret b <-> exists a, m = Ret a /\ f a = Ret b.
Proof.
  destruct m; simpl; split; try (intros (? & [=] & ?)); try discriminate; subst; eauto.
Qed.

Lemma must_Ret {A} (o : option A) a : must o = Ret a <-> o = Some a.
Proof. destruct o; naive_solver. Qed.

Lemma check_Ret b : check b = Ret tt <-> b = true.
Proof. destruct b; naive_solver. Qed.

#[export] Hint Rewrite @go_bind_Ret @must_Ret check_Ret : go_inv.

(** [go_inv] turns a hypothesis [prog = Ret r] into the intermediate results of
    the steps of [prog]. *)
Ltac go_step H :=
  lazymatch type of H with
  | mbind _ _ = Ret _ => apply go_bind_Ret in H; destruct H as (? & ? & H)
  | must _ = Ret _ => apply must_Ret in H
  | check _ = Ret _ => apply check_Ret in H
  end.
Ltac go_inv :=
  repeat match goal with
  | H : mbind _ _ = Ret _ |- _ => go_step H
  | H : must _ = Ret _ |- _ => go_step H
  | H : check _ = Ret _ |- _ => go_step H
  | H : Ret _ = Ret _ |- _ => injection H as H; try subst
  | H : Panic = Ret _ |- _ => discriminate H
  | H : NoFuel = Ret _ |- _ => discriminate H
  end.

(** [case_bool] splits on the booleans of [if]s and turns the comparisons into
    facts for [lia]. *)
Ltac bool_simp :=
  repeat match goal with
  | H : andb _ _ = true |- _ => apply andb_true_iff in H; destruct H
  | H : orb _ _ = false |- _ => apply orb_false_iff in H; destruct H
  | H : negb _ = true |- _ => apply negb_true_iff in H
  | H : negb _ = false |- _ => apply negb_false_iff in H
  | H : (_ <=? _)%nat = true |- _ => apply Nat.leb_le in H
  | H : (_ <=? _)%nat = false |- _ => apply Nat.leb_gt in H
  | H : (_ <? _)%nat = true |- _ => apply Nat.ltb_lt in H
  | H : (_ <? _)%nat = false |- _ => apply Nat.ltb_ge in H
  | H : (_ =? _)%nat = true |- _ => apply Nat.eqb_eq in H
  | H : (_ =? _)%nat = false |- _ => apply Nat.eqb_neq in H
  | H : (_ <=? _)%Z = true |- _ => apply Z.leb_le in H
  | H : (_ <=? _)%Z = false |- _ => apply Z.leb_gt in H
  | H : (_ <? _)%Z = true |- _ => apply Z.ltb_lt in H
  | H : (_ <? _)%Z = false |- _ => apply Z.ltb_ge in H
  | H : (_ =? _)%Z = true |- _ => apply Z.eqb_eq in H
  | H : (_ =? _)%Z = false |- _ => apply Z.eqb_neq in H
  | H : bool_decide _ = true |- _ => apply bool_decide_eq_true_1 in H
  | H : bool_decide _ = false |- _ => apply bool_decide_eq_false_1 in H
  end.
Ltac case_if :=
  match goal with
  | |- context [if ?b then _ else _] => destruct b eqn:?; bool_simp
  | H : context [if ?b then _ else _] |- _ => destruct b eqn:?; bool_simp
  end.

(** ** Machine integers *)

Section MachineInts.
Local Open Scope Z_scope.

Definition u16 (z : Z) : Z := z mod 2 ^ 16.
Definition u32 (z : Z) : Z := z mod 2 ^ 32.
(** The signed reading of a 32-bit pattern, Go's [int32(x)]. *)
Definition i32 (z : Z) : Z :=
  let w := z mod 2 ^ 32 in if w <? 2 ^ 31 then w else w - 2 ^ 32.

Lemma u16_range z : 0 <= u16 z < 2 ^ 16.
Proof. unfold u16. apply Z.mod_pos_bound. lia. Qed.
Lemma u16_small z : 0 <= z < 2 ^ 16 -> u16 z = z.
Proof. apply Z.mod_small. Qed.
Lemma u32_range z : 0 <= u32 z < 2 ^ 32.
Proof. unfold u32. apply Z.mod_pos_bound. lia. Qed.
Lemma u32_small z : 0 <= z < 2 ^ 32 -> u32 z = z.
Proof. apply Z.mod_small. Qed.
Lemma i32_small z : - 2 ^ 31 <= z < 2 ^ 31 -> i32 (z mod 2 ^ 32) = z.
Proof.
  intros H. unfold i32. rewrite Z.mod_mod by lia.
  destruct (Z.ltb_spec (z mod 2 ^ 32) (2 ^ 31)) as [Hl|Hg].
  - destruct (decide (0 <= z)); [apply Z.mod_small; lia|].
    replace (z mod 2 ^ 32) with (z + 2 ^ 32) in Hl; [lia|].
    symmetry. rewrite <- (Z.mod_small (z + 2 ^ 32) (2 ^ 32)) by lia.
    replace (z + 2 ^ 32) with (z + 1 * 2 ^ 32) by lia. by rewrite Z_mod_plus_full.
  - destruct (decide (0 <= z)); [rewrite Z.mod_small in Hg by lia; lia|].
    replace (z mod 2 ^ 32) with (z + 2 ^ 32); [lia|].
    symmetry. rewrite <- (Z.mod_small (z + 2 ^ 32) (2 ^ 32)) by lia.
    replace (z + 2 ^ 32) with (z + 1 * 2 ^ 32) by lia. by rewrite Z_mod_plus_full.
Qed.

End MachineInts.

(** ** Bytes and the little-endian memory image of integers *)

Section Bytes.
Local Open Scope Z_scope.

#[export] Instance byte_eq_dec : EqDecision byte := Byte.byte_eq_dec.
#[export] Instance byte_inhabited : Inhabited byte := populate x00.

Definition byte_val (b : byte) : Z := Z.of_N (Byte.to_N b).
Definition byte_of (z : Z) : byte :=
  default x00 (Byte.of_N (Z.to_N (z mod 256))).

Lemma byte_val_range b : 0 <= byte_val b < 256.
Proof. unfold byte_val. pose proof (Byte.to_N_bounded b). lia. Qed.

Lemma byte_val_of z : byte_val (byte_of z) = z mod 256.
Proof.
  unfold byte_of, byte_val. pose proof (Z.mod_pos_bound z 256 ltac:(lia)) as Hb.
  destruct (Byte.of_N _) as [b|] eqn:E; simpl.
  - apply Byte.to_of_N in E. rewrite E. lia.
  - apply Byte.of_N_None_iff in E. lia.
Qed.

Lemma byte_of_val b : byte_of (byte_val b) = b.
Proof.
  unfold byte_of. rewrite Z.mod_small by apply byte_val_range.
  unfold byte_val. by rewrite N2Z.id, Byte.of_to_N.
Qed.

(** The [n]-byte little-endian image of [z], and its reading. *)
Fixpoint le_bytes (n : nat) (z : Z) : list byte :=
  match n with
  | O => []
  | S n' => byte_of z :: le_bytes n' (z / 256)
  end.
Fixpoint le_val (bs : list byte) : Z :=
  match bs with
  | [] => 0
  | b :: r => byte_val b + 256 * le_val r
  end.

Lemma length_le_bytes n z : length (le_bytes n z) = n.
Proof. revert z; induction n; simpl; auto. Qed.

Lemma le_val_range bs : 0 <= le_val bs < 256 ^ Z.of_nat (length bs).
Proof.
  induction bs as [|b bs IH]; cbn [le_val length]; [lia|].
  pose proof (byte_val_range b). rewrite Nat2Z.inj_succ, Z.pow_succ_r by lia. lia.
Qed.

Lemma le_val_bytes n z : le_val (le_bytes n z) = z mod 256 ^ Z.of_nat n.
Proof.
  revert z; induction n as [|n IH]; intros z; cbn [le_bytes le_val];
    [by rewrite Z.mod_1_r|].
  rewrite IH, byte_val_of, Nat2Z.inj_succ, Z.pow_succ_r by lia.
  symmetry. apply Z.rem_mul_r; [lia|]. apply Z.pow_pos_nonneg; lia.
Qed.

Lemma le_bytes_val bs : le_bytes (length bs) (le_val bs) = bs.
Proof.
  induction bs as [|b bs IH]; cbn [le_val length le_bytes]; [done|].
  pose proof (byte_val_range b). f_equal.
  - rewrite <- (byte_of_val b) at 2. unfold byte_of. do 3 f_equal.
    rewrite Z.mul_comm, Z_mod_plus_full. done.
  - rewrite Z.mul_comm, Z_div_plus_full by lia.
    rewrite Z.div_small by lia. by rewrite Z.add_0_l.
Qed.

Lemma le_val_bytes_small n z :
  0 <= z < 256 ^ Z.of_nat n -> le_val (le_bytes n z) = z.
Proof. intros. rewrite le_val_bytes. by apply Z.mod_small. Qed.

End Bytes.

#[export] Hint Rewrite length_le_bytes : len.
#[export] Hint Rewrite @length_app @length_take @length_drop @length_replicate
  @length_insert @length_fmap : len.

(** [len] normalises list lengths and calls [lia]. *)
Ltac len := autorewrite with len in *; simpl in *; lia.

(** [dlia] is [lia] with division and remainder. *)
Ltac dlia := zify; Z.to_euclidean_division_equations; lia.

(** ** Lists *)

(** Overwrite the elements of [l] from index [i] with [k]. *)
Definition splice {A} (i : nat) (k l : list A) : list A :=
  take i l ++ k ++ drop (i + length k) l.

Section Lists.
Context {A : Type}.
Implicit Types (l k : list A).

Lemma length_splice i k l : (i + length k <= length l)%nat -> length (splice i k l) = length l.
Proof. intros. unfold splice. len. Qed.

Lemma take_drop_splice i k l :
  (i + length k <= length l)%nat -> take (length k) (drop i (splice i k l)) = k.
Proof.
  intros. unfold splice. rewrite drop_app_length' by len. by rewrite take_app_length.
Qed.

(** Reading a range that is disjoint from the overwritten one. *)
Lemma read_splice_disjoint i k l o n :
  (i + length k <= length l)%nat -> (o + n <= i \/ i + length k <= o)%nat ->
  take n (drop o (splice i k l)) = take n (drop o l).
Proof.
  intros Hl Hd. apply list_eq. intros j.
  destruct (decide (j < n)%nat) as [Hj|Hj].
  2: { rewrite !lookup_take_ge by lia. done. }
  rewrite !lookup_take_lt, !lookup_drop by lia. unfold splice.
  destruct Hd as [Hd|Hd].
  - destruct (decide (o + j < length l)%nat).
    + rewrite lookup_app_l by len. by rewrite lookup_take_lt by lia.
    + lia.
  - rewrite lookup_app_r by len. rewrite lookup_app_r by len.
    rewrite lookup_drop. f_equal. len.
Qed.

(** [splice] replaces a middle part of the same length. *)
Lemma splice_app i k k' l1 l2 :
  i = length l1 -> length k' = length k -> splice i k (l1 ++ k' ++ l2) = l1 ++ k ++ l2.
Proof.
  intros -> Hk. unfold splice. rewrite take_app_length. do 2 f_equal.
  rewrite app_assoc, drop_app_length' by len. done.
Qed.

Lemma splice_0_app k k' l : length k' = length k -> splice 0 k (k' ++ l) = k ++ l.
Proof. intros. by apply (splice_app 0 k k' []). Qed.

Lemma split_at l n : (n <= length l)%nat -> exists l1 l2, l = l1 ++ l2 /\ length l1 = n.
Proof. intros. exists (take n l), (drop n l). by rewrite take_drop, length_take, Nat.min_l. Qed.

Lemma splice_nil i l : splice i [] l = l.
Proof. unfold splice. simpl. rewrite Nat.add_0_r. apply take_drop. Qed.

Lemma take_splice i k l n :
  (i + length k <= length l)%nat -> (n <= i)%nat -> take n (splice i k l) = take n l.
Proof.
  intros. pose proof (read_splice_disjoint i k l 0 n) as E. rewrite !drop_0 in E.
  apply E; lia.
Qed.
End Lists.

#[export] Hint Rewrite @length_splice using lia : len.
