(* ===== verification/Errors.v ===== *)
(** * Go error values

    The error values the package returns, the chains [errors.Is] and
    [errors.As] walk, and the decision of [errors_linux.go] and
    [errors_default.go] whether an error means that UDP GSO must be disabled. *)

From S2P Require Import Prelude.

(** [syscall.Errno] values the code compares with; [ErrnoOther] is any other
    number. *)
Inductive errno :=
| EAFNOSUPPORT | EADDRINUSE | EIO | EINVAL | EMSGSIZE | ErrnoOther (n : Z).
#[export] Instance errno_eq_dec : EqDecision errno.
Proof. solve_decision. Defined.

(** Error values. [ESyscall] is an [*os.SyscallError], [EWrap] an
    [fmt.Errorf] with [%w] (or any other error with an [Unwrap] method, such as
    [*net.OpError]), [EOther] an opaque leaf. *)
Inductive error :=
| EErrno (e : errno)
| ErrClosed                        (* net.ErrClosed *)
| ErrBindAlreadyOpen
| ErrReadBufferTooShort
| ErrNoNetwork
| ErrWrongEndpointType
| ErrSinglePacketReadUnsupported
| ErrBatchTooLarge
| ErrSplitOverflow                 (* splitting coalesced packet resulted in overflow *)
| ErrShortBuffer                   (* io.ErrShortBuffer *)
| ErrNoProgress                    (* io.ErrNoProgress *)
| ErrInvalid                       (* os.ErrInvalid *)
| ESyscall (call : string) (err : error)
| EWrap (msg : string) (err : error)
| ErrUDPGSODisabled (onLaddr : string) (retryErr : option error)
| EOther (msg : string).
#[export] Instance error_eq_dec : EqDecision error.
Proof.
  unfold EqDecision, Decision. fix IH 1. intros x y.
  destruct x, y; try (right; discriminate); try (left; reflexivity).
  - destruct (decide (e = e0)); [left|right]; congruence.
  - destruct (decide (call = call0)); [|right; congruence].
    destruct (IH x y); [left|right]; congruence.
  - destruct (decide (msg = msg0)); [|right; congruence].
    destruct (IH x y); [left|right]; congruence.
  - destruct (decide (onLaddr = onLaddr0)); [|right; congruence].
    destruct retryErr as [x|], retryErr0 as [y|]; try (right; congruence);
      [|left; congruence].
    destruct (IH x y); [left|right]; congruence.
  - destruct (decide (msg = msg0)); [left|right]; congruence.
Defined.

(** [errors.Is(err, target)]: [err] or an error it wraps equals [target]. *)
Fixpoint errors_Is (err target : error) : bool :=
  bool_decide (err = target) ||
  match err with
  | ESyscall _ e | EWrap _ e => errors_Is e target
  | ErrUDPGSODisabled _ (Some e) => errors_Is e target
  | _ => false
  end.

(** [errors.As(err, &serr)] with [serr *os.SyscallError]: the error wrapped by
    the first [*os.SyscallError] of the chain. *)
Fixpoint errors_As_SyscallError (err : error) : option error :=
  match err with
  | ESyscall _ e => Some e
  | EWrap _ e => errors_As_SyscallError e
  | ErrUDPGSODisabled _ (Some e) => errors_As_SyscallError e
  | _ => None
  end.

(** [ErrUDPGSODisabled.Unwrap]. *)
Definition ErrUDPGSODisabled_Unwrap (e : error) : option error :=
  match e with ErrUDPGSODisabled _ r => r | _ => None end.

(** The operating systems the build tags and [runtime.GOOS] tests distinguish. *)
Inductive GOOS := Linux | Android | Windows | FreeBSD | OpenBSD | Darwin | Wasm.
#[export] Instance GOOS_eq_dec : EqDecision GOOS.
Proof. solve_decision. Defined.

(** The build tag [linux], which android builds satisfy too, and the run-time
    test [runtime.GOOS == "linux" || runtime.GOOS == "android"]. *)
Definition linux_or_android (os : GOOS) : bool :=
  match os with Linux | Android => true | _ => false end.

(** [errShouldDisableUDPGSO] of errors_linux.go. *)
Definition errShouldDisableUDPGSO_linux (err : error) : bool :=
  match errors_As_SyscallError err with
  | Some serr => bool_decide (serr = EErrno EIO)
  | None => false
  end.

(** What it must recognise: a system call that failed with EIO, however wrapped
    (the kernel's answer when the interface cannot segment). *)
Inductive gso_rejection : error -> Prop :=
| rejected_EIO call : gso_rejection (ESyscall call (EErrno EIO))
| rejected_wrap msg e : gso_rejection e -> gso_rejection (EWrap msg e)
| rejected_retry l e : gso_rejection e -> gso_rejection (ErrUDPGSODisabled l (Some e)).

Lemma errShouldDisableUDPGSO_linux_spec e : errShouldDisableUDPGSO_linux e = true <-> gso_rejection e.
Proof.
  unfold errShouldDisableUDPGSO_linux. split.
  - revert e. fix IH 1. intros [| | | | | | | | | | | |call e|msg e|l [e|]|]; cbn; try done.
    + case_bool_decide as E; [|done]. intros _. subst. constructor.
    + intros E. constructor. by apply IH.
    + intros E. constructor. by apply IH.
  - induction 1; cbn; [|done..]. by rewrite bool_decide_eq_true_2.
Qed.

(** [errShouldDisableUDPGSO] of errors_default.go. *)
Definition errShouldDisableUDPGSO_default (_ : error) : bool := false.

Definition errShouldDisableUDPGSO (os : GOOS) (err : error) : bool :=
  if linux_or_android os then errShouldDisableUDPGSO_linux err
  else errShouldDisableUDPGSO_default err.

Lemma errors_Is_refl e : errors_Is e e = true.
Proof. destruct e; cbn [errors_Is]; by rewrite bool_decide_eq_true_2. Qed.

Lemma errors_Is_wrap m e t : errors_Is e t = true -> errors_Is (EWrap m e) t = true.
Proof. intros H. simpl. rewrite H. apply orb_true_r. Qed.

(** The error that a GSO-disabling send returns still exposes the outcome of
    the retry to [errors.Is]. *)
Lemma errors_Is_ErrUDPGSODisabled l e t :
  errors_Is e t = true -> errors_Is (ErrUDPGSODisabled l (Some e)) t = true.
Proof. intros H. simpl. rewrite H. apply orb_true_r. Qed.

Lemma errShouldDisable_EIO os call :
  errShouldDisableUDPGSO os (ESyscall call (EErrno EIO)) = linux_or_android os.
Proof. by destruct os. Qed.

#[export] Hint Resolve errors_Is_refl errors_Is_wrap errors_Is_ErrUDPGSODisabled : batchudp.
