(* ===== verification/GoMem.v ===== *)
(** * Go byte slices

    Two representations of [[]byte]:
    - [slice], a window of an array of a shared memory, for the packet buffers
      a caller passes in: several slices may share an array, and [append] and
      [copy] write into it;
    - [gobuf], a slice whose array nothing else refers to, for the ancillary
      data buffers and the cached source of an endpoint, which the package
      allocates itself. *)

From S2P Require Import Prelude.

(** ** Shared memory *)

Abbreviation mem := (gmap nat (list byte)).

(** A slice header: array, offset of the first element, length, capacity. *)
Record slice := Slice { s_arr : nat; s_off : nat; s_len : nat; s_cap : nat }.
#[export] Instance slice_eq_dec : EqDecision slice.
Proof. solve_decision. Defined.

Definition array (m : mem) (a : nat) : list byte := default [] (m !! a).

(** The bytes of a slice, and the bytes of the array over its capacity. *)
Definition load (m : mem) (s : slice) : list byte :=
  take (s_len s) (drop (s_off s) (array m (s_arr s))).

(** Overwrite the array of [s] from element [at_] of [s] on. *)
Definition store (m : mem) (s : slice) (at_ : nat) (bs : list byte) : mem :=
  <[s_arr s := splice (s_off s + at_) bs (array m (s_arr s))]> m.

(** [s[lo:hi]]: bounds are checked against the capacity. *)
Definition reslice (s : slice) (lo hi : nat) : go slice :=
  _ ← check ((lo <=? hi)%nat && (hi <=? s_cap s)%nat);
  Ret (Slice (s_arr s) (s_off s + lo) (hi - lo) (s_cap s - lo)).

(** [copy(dst, src)]: the source bytes are read before anything is written. *)
Definition go_copy (m : mem) (dst src : slice) : mem * nat :=
  let n := Nat.min (s_len dst) (s_len src) in
  (store m dst 0 (take n (load m src)), n).

(** [append(s, bs...)]: in place when the capacity allows, otherwise into a
    fresh array. *)
Definition append (m : mem) (s : slice) (bs : list byte) : mem * slice :=
  if (s_len s + length bs <=? s_cap s)%nat then
    (store m s (s_len s) bs,
     Slice (s_arr s) (s_off s) (s_len s + length bs) (s_cap s))
  else
    let a := fresh (dom m) in
    let n := (s_len s + length bs)%nat in
    (<[a := load m s ++ bs]> m, Slice a 0 n n).

#[global] Arguments go_copy : simpl never.
#[global] Arguments append : simpl never.
#[global] Arguments reslice : simpl never.

(** A slice whose header fits its array. *)
Definition slice_ok (m : mem) (s : slice) : Prop :=
  (s_len s <= s_cap s /\ s_off s + s_cap s <= length (array m (s_arr s)))%nat.

(** Two slices whose capacities do not overlap. *)
Definition sep (s t : slice) : Prop :=
  s_arr s <> s_arr t \/
  (s_off s + s_cap s <= s_off t \/ s_off t + s_cap t <= s_off s)%nat.

#[export] Instance slice_ok_dec m s : Decision (slice_ok m s).
Proof. unfold slice_ok. apply _. Defined.
#[export] Instance sep_dec s t : Decision (sep s t).
Proof. unfold sep. apply _. Defined.

Lemma sep_sym s t : sep s t -> sep t s.
Proof. unfold sep. intuition. Qed.

Lemma length_load m s : slice_ok m s -> length (load m s) = s_len s.
Proof. intros [? ?]. unfold load. len. Qed.

Lemma array_store m s i bs a :
  array (store m s i bs) a =
  if decide (a = s_arr s) then splice (s_off s + i) bs (array m a) else array m a.
Proof.
  unfold array, store. case_decide; subst.
  - by rewrite lookup_insert_eq.
  - by rewrite lookup_insert_ne.
Qed.

Lemma length_array_store m s i bs a :
  slice_ok m s -> (i + length bs <= s_cap s)%nat ->
  length (array (store m s i bs) a) = length (array m a).
Proof.
  intros [? ?] ?. rewrite array_store. case_decide; [subst; apply length_splice; lia|done].
Qed.

Lemma slice_ok_store m s i bs t :
  slice_ok m s -> (i + length bs <= s_cap s)%nat ->
  slice_ok m t -> slice_ok (store m s i bs) t.
Proof. intros ? ? [? ?]. split; [done|]. by rewrite length_array_store. Qed.

(** Frame: writing inside the capacity of [s] does not change a slice that is
    separate from it. *)
Lemma load_store_sep m s i bs t :
  slice_ok m s -> (i + length bs <= s_cap s)%nat -> slice_ok m t -> sep s t ->
  load (store m s i bs) t = load m t.
Proof.
  intros [? ?] ? [? ?] Hsep. unfold load. rewrite array_store.
  case_decide as Ha; [|done]. rewrite Ha in *. apply read_splice_disjoint; [lia|].
  destruct Hsep as [|[|]]; [congruence|right; lia|left; lia].
Qed.

(** Writing past the length of a slice does not change its bytes. *)
Lemma load_store_tail m s i bs :
  slice_ok m s -> (i + length bs <= s_cap s)%nat -> (s_len s <= i)%nat ->
  load (store m s i bs) s = load m s.
Proof.
  intros [? ?] ? ?. unfold load. rewrite array_store, decide_True by done.
  apply read_splice_disjoint; lia.
Qed.

(** What a prefix write leaves in the slice. *)
Lemma load_store_prefix m s bs n :
  slice_ok m s -> n = length bs -> (n <= s_cap s)%nat ->
  load (store m s 0 bs) (Slice (s_arr s) (s_off s) n (s_cap s)) = bs.
Proof.
  intros [? ?] -> ?. unfold load. simpl. rewrite array_store, decide_True by done.
  rewrite Nat.add_0_r. apply take_drop_splice. lia.
Qed.

Lemma reslice_Ret s lo hi t :
  reslice s lo hi = Ret t <->
  (lo <= hi <= s_cap s)%nat /\
  t = Slice (s_arr s) (s_off s + lo) (hi - lo) (s_cap s - lo).
Proof.
  unfold reslice, check. destruct (_ && _) eqn:E; simpl; bool_simp.
  - naive_solver.
  - split; [done|]. intros [[? ?] _]. apply andb_false_iff in E. destruct E; bool_simp; lia.
Qed.

Lemma load_reslice m s lo hi t :
  reslice s lo hi = Ret t -> load m t = take (hi - lo) (drop (s_off s + lo) (array m (s_arr s))).
Proof. intros (? & ->)%reslice_Ret. done. Qed.

Lemma load_reslice_within m s lo hi t :
  reslice s lo hi = Ret t -> (hi <= s_len s)%nat ->
  load m t = take (hi - lo) (drop lo (load m s)).
Proof.
  intros H Hi. rewrite (load_reslice _ _ _ _ _ H). apply reslice_Ret in H as [? _].
  unfold load. rewrite skipn_firstn_comm, drop_drop, take_take. f_equal. lia.
Qed.

(** [append] within the capacity: the result holds the old bytes then the new
    ones, and separate slices keep theirs. *)
Lemma append_in_place m s bs m' s' :
  slice_ok m s -> (s_len s + length bs <= s_cap s)%nat ->
  append m s bs = (m', s') ->
  m' = store m s (s_len s) bs /\
  s' = Slice (s_arr s) (s_off s) (s_len s + length bs) (s_cap s) /\
  load m' s' = load m s ++ bs.
Proof.
  intros Hok Hc. unfold append. rewrite (proj2 (Nat.leb_le _ _) Hc).
  intros [= <- <-]. split_and!; [done..|].
  destruct Hok as [? ?]. unfold load. simpl. rewrite array_store, decide_True by done.
  unfold splice. rewrite drop_app_le by len. rewrite take_app_ge by len.
  rewrite skipn_firstn_comm. f_equal; [f_equal; lia|].
  rewrite take_app_le by len. apply take_ge. len.
Qed.

(** A change of memory inside the capacities of [bufs] only. *)
Definition untouched (bufs : list slice) (m m' : mem) : Prop :=
  forall x, slice_ok m x -> Forall (sep x) bufs -> slice_ok m' x /\ load m' x = load m x.

Lemma untouched_refl bufs m : untouched bufs m m.
Proof. by intros x ? _. Qed.
Lemma untouched_trans bufs m1 m2 m3 : untouched bufs m1 m2 -> untouched bufs m2 m3 -> untouched bufs m1 m3.
Proof.
  intros H1 H2 x Hx Hs. destruct (H1 x Hx Hs) as [Hx2 E2]. destruct (H2 x Hx2 Hs) as [Hx3 E3].
  split; [done|]. congruence.
Qed.
(** Writing inside one of the buffers. *)
Lemma untouched_store bufs m b i bs :
  b ∈ bufs -> slice_ok m b -> (i + length bs <= s_cap b)%nat -> untouched bufs m (store m b i bs).
Proof.
  intros Hb Hok Hi x Hx Hs. split; [by apply slice_ok_store|]. apply load_store_sep; try done.
  apply sep_sym. rewrite list.Forall_forall in Hs. by apply Hs.
Qed.

(** A change inside the buffers that keeps them in bounds. *)
Definition writes_in (bufs : list slice) (m m' : mem) : Prop :=
  untouched bufs m m' /\ forall t, slice_ok m t -> slice_ok m' t.

Lemma writes_in_refl bufs m : writes_in bufs m m.
Proof. split; [apply untouched_refl|done]. Qed.
Lemma writes_in_trans bufs m1 m2 m3 : writes_in bufs m1 m2 -> writes_in bufs m2 m3 -> writes_in bufs m1 m3.
Proof. intros [H1 K1] [H2 K2]. split; [by eapply untouched_trans|auto]. Qed.
Lemma writes_in_store bufs m b i bs :
  b ∈ bufs -> slice_ok m b -> (i + length bs <= s_cap b)%nat -> writes_in bufs m (store m b i bs).
Proof. intros. split; [by apply untouched_store|]. intros. by apply slice_ok_store. Qed.

(** ** Owned buffers *)

(** [gb_arr] is the array over the capacity of the slice. *)
Record gobuf := GoBuf { gb_arr : list byte; gb_len : nat }.
#[export] Instance gobuf_eq_dec : EqDecision gobuf.
Proof. solve_decision. Defined.

Definition gb_cap (b : gobuf) : nat := length (gb_arr b).
Definition gb_bytes (b : gobuf) : list byte := take (gb_len b) (gb_arr b).
Definition gb_ok (b : gobuf) : Prop := (gb_len b <= gb_cap b)%nat.

(** [make([]byte, n, c)] *)
Definition gb_make (n c : nat) : gobuf := GoBuf (replicate c x00) n.
(** [b[:n]] *)
Definition gb_reslice (b : gobuf) (n : nat) : go gobuf :=
  _ ← check (n <=? gb_cap b)%nat; Ret (GoBuf (gb_arr b) n).
(** [copy(b[i:], bs)] for [i] within the length. *)
Definition gb_copy_at (b : gobuf) (i : nat) (bs : list byte) : go gobuf :=
  _ ← check (i <=? gb_len b)%nat;
  Ret (GoBuf (splice i (take (gb_len b - i) bs) (gb_arr b)) (gb_len b)).
(** [append(b, bs...)] *)
Definition gb_append (b : gobuf) (bs : list byte) : gobuf :=
  if (gb_len b + length bs <=? gb_cap b)%nat then
    GoBuf (splice (gb_len b) bs (gb_arr b)) (gb_len b + length bs)
  else GoBuf (gb_bytes b ++ bs) (gb_len b + length bs).

Lemma gb_reslice_Ret b n b' :
  gb_reslice b n = Ret b' <-> (n <= gb_cap b)%nat /\ b' = GoBuf (gb_arr b) n.
Proof.
  unfold gb_reslice, check. destruct (Nat.leb_spec n (gb_cap b)); simpl; [naive_solver|].
  split; [done|]. intros []; lia.
Qed.

Lemma gb_append_bytes b bs : gb_ok b -> gb_bytes (gb_append b bs) = gb_bytes b ++ bs.
Proof.
  unfold gb_ok, gb_cap. intros Hok. unfold gb_append, gb_bytes, gb_cap.
  destruct (Nat.leb_spec (gb_len b + length bs) (length (gb_arr b))); simpl.
  - unfold splice. rewrite app_assoc, take_app_le by len. rewrite take_ge by len. done.
  - rewrite take_ge by len. done.
Qed.

Lemma gb_append_cap b bs :
  (gb_len b + length bs <= gb_cap b)%nat -> gb_cap (gb_append b bs) = gb_cap b.
Proof.
  intros H. unfold gb_append. rewrite (proj2 (Nat.leb_le _ _) H). unfold gb_cap in *.
  simpl. apply length_splice. lia.
Qed.

Lemma gb_append_ok b bs : gb_ok b -> gb_ok (gb_append b bs).
Proof.
  unfold gb_ok, gb_append, gb_cap, gb_bytes. intros. destruct (Nat.leb_spec (gb_len b + length bs) (length (gb_arr b))); simpl; len.
Qed.

Lemma length_gb_bytes b : gb_ok b -> length (gb_bytes b) = gb_len b.
Proof. unfold gb_ok, gb_cap, gb_bytes. intros. len. Qed.

#[export] Hint Resolve sep_sym slice_ok_store gb_append_ok : batchudp.
