(* ===== verification/Netip.v ===== *)
(** * Addresses

    The parts of [net/netip] and [net] the package uses: IP addresses with the
    IPv4-mapped form, address/port pairs and their binary encoding,
    [*net.UDPAddr] and its conversion, and host:port strings. *)

From Stdlib Require Import Ascii.
From S2P Require Import Prelude GoMem.

(** [netip.Addr]: the zero value, an IPv4 address (4 bytes) or an IPv6 address
    (16 bytes) with its zone. *)
Inductive Addr :=
| AddrZero
| Addr4 (ip : list byte)
| Addr6 (ip : list byte) (zone : string).
#[export] Instance Addr_eq_dec : EqDecision Addr.
Proof. solve_decision. Defined.

(** The values [netip] can build. *)
Definition Addr_ok (a : Addr) : Prop :=
  match a with
  | AddrZero => True
  | Addr4 ip => length ip = 4
  | Addr6 ip _ => length ip = 16
  end.

Definition Is4 (a : Addr) : bool := match a with Addr4 _ => true | _ => false end.
Definition Is6 (a : Addr) : bool := match a with Addr6 _ _ => true | _ => false end.

(** The prefix ::ffff:0:0/96 of IPv4-mapped addresses. *)
Definition v4InV6Prefix : list byte := replicate 10 x00 ++ [xff; xff].

Definition Is4In6 (a : Addr) : bool :=
  match a with Addr6 ip _ => bool_decide (take 12 ip = v4InV6Prefix) | _ => false end.

(** [Addr.Unmap]: an IPv4-mapped address becomes the IPv4 address. *)
Definition Unmap (a : Addr) : Addr :=
  match a with
  | Addr6 ip _ => if Is4In6 a then Addr4 (drop 12 ip) else a
  | _ => a
  end.

(** [Addr.As4]: panics on the zero value and on a proper IPv6 address. *)
Definition As4 (a : Addr) : go (list byte) :=
  match a with
  | Addr4 ip => Ret ip
  | Addr6 ip _ => if Is4In6 a then Ret (drop 12 ip) else Panic
  | AddrZero => Panic
  end.

Definition As16 (a : Addr) : list byte :=
  match a with
  | Addr4 ip => v4InV6Prefix ++ ip
  | Addr6 ip _ => ip
  | AddrZero => replicate 16 x00
  end.

(** [netip.AddrFromSlice], the invalid address when the length is neither 4
    nor 16. *)
Definition AddrFromSlice (bs : list byte) : Addr :=
  if (length bs =? 4)%nat then Addr4 bs
  else if (length bs =? 16)%nat then Addr6 bs "" else AddrZero.

(** [Addr.WithZone]: only IPv6 addresses carry a zone. *)
Definition WithZone (a : Addr) (zone : string) : Addr :=
  match a with Addr6 ip _ => Addr6 ip zone | _ => a end.

Record AddrPort := mkAddrPort { ap_addr : Addr; ap_port : Z }.
#[export] Instance AddrPort_eq_dec : EqDecision AddrPort.
Proof. solve_decision. Defined.

Definition string_bytes (s : string) : list byte := String.list_byte_of_string s.

(** [Addr.MarshalBinary] and [AddrPort.MarshalBinary]: the address bytes (with
    the zone for IPv6), then the port in little-endian order. *)
Definition Addr_MarshalBinary (a : Addr) : list byte :=
  match a with
  | AddrZero => []
  | Addr4 ip => ip
  | Addr6 ip zone => ip ++ string_bytes zone
  end.
Definition AddrPort_MarshalBinary (p : AddrPort) : list byte :=
  Addr_MarshalBinary (ap_addr p) ++ le_bytes 2 (ap_port p).

(** [*net.UDPAddr]: the IP slice keeps its own length and capacity, because
    pooled values are rewritten in place. *)
Record UDPAddr := mkUDPAddr { ua_IP : gobuf; ua_Port : Z; ua_Zone : string }.
#[export] Instance UDPAddr_eq_dec : EqDecision UDPAddr.
Proof. solve_decision. Defined.

(** [UDPAddr.AddrPort]. *)
Definition UDPAddr_AddrPort (u : UDPAddr) : AddrPort :=
  mkAddrPort (WithZone (AddrFromSlice (gb_bytes (ua_IP u))) (ua_Zone u)) (u16 (ua_Port u)).

(** [IP.To4() != nil]: a 4-byte slice, or 16 bytes with the mapped prefix. *)
Definition IP_To4 (bs : list byte) : option (list byte) :=
  if (length bs =? 4)%nat then Some bs
  else if (length bs =? 16)%nat && bool_decide (take 12 bs = v4InV6Prefix)
  then Some (drop 12 bs) else None.

Fixpoint has_colon (s : string) : bool :=
  match s with
  | "" => false
  | String c s' => bool_decide (c = ":"%char) || has_colon s'
  end%string.

(** [net.JoinHostPort]: a host with a colon is put in brackets. *)
Definition JoinHostPort (host port : string) : string :=
  (if has_colon host then "[" +:+ host +:+ "]:" +:+ port else host +:+ ":" +:+ port)%string.

Lemma Unmap_not_mapped a : Is4In6 (Unmap a) = false.
Proof.
  destruct a as [|ip|ip z]; [done..|]. unfold Unmap.
  destruct (Is4In6 (Addr6 ip z)) eqn:E; [done|exact E].
Qed.

Lemma Unmap_ok a : Addr_ok a -> Addr_ok (Unmap a).
Proof. destruct a; simpl; try done. intros. case_bool_decide; simpl; len. Qed.

Lemma Unmap_idemp a : Unmap (Unmap a) = Unmap a.
Proof.
  pose proof (Unmap_not_mapped a) as H. destruct (Unmap a) as [| |ip z]; [done..|].
  unfold Unmap. by rewrite H.
Qed.

(** The IPv4 address behind a mapped one is what [Unmap] exposes. *)
Lemma Unmap_As16 ip : length ip = 4 -> Unmap (Addr6 (As16 (Addr4 ip)) "") = Addr4 ip.
Proof.
  intros H. unfold Unmap, Is4In6, As16.
  rewrite take_app_length' by done. rewrite bool_decide_eq_true_2 by done.
  by rewrite drop_app_length'.
Qed.

Lemma AddrFromSlice_As16 ip z :
  length ip = 16 -> WithZone (AddrFromSlice (As16 (Addr6 ip z))) z = Addr6 ip z.
Proof. intros H. unfold AddrFromSlice, As16. by rewrite H. Qed.

#[export] Hint Resolve Unmap_ok : batchudp.
