(* ===== verification/Cmsg.v ===== *)
(** * Socket control messages

    The interface of [golang.org/x/sys/unix] that gso_linux.go and
    sticky_linux.go use: the class [UnixABI] lists the functions, constants and
    struct layouts they call, [UnixLaws] what the documentation of the package
    and of cmsg(3) says about them.  The value [linux64] (64-bit
    little-endian Linux) shows that the laws can be met. *)

From S2P Require Import Prelude Errors.

(** [unix.Cmsghdr]. *)
Record Cmsghdr := mkCmsghdr { hdr_Len : Z; hdr_Level : Z; hdr_Type : Z }.
#[export] Instance Cmsghdr_eq_dec : EqDecision Cmsghdr.
Proof. solve_decision. Defined.

Class UnixABI := {
  SizeofCmsghdr : nat;
  CmsgLen : nat -> nat;
  CmsgSpace : nat -> nat;
  SizeofInet4Pktinfo : nat;
  SizeofInet6Pktinfo : nat;
  IPPROTO_IP : Z;
  IPPROTO_IPV6 : Z;
  IP_PKTINFO : Z;
  IPV6_PKTINFO : Z;
  SOL_UDP : Z;
  UDP_GRO : Z;
  UDP_SEGMENT : Z;
  (** the memory image of a [Cmsghdr] *)
  hdr_bytes : Cmsghdr -> list byte;
  (** header, data and remainder *)
  ParseOneSocketControlMessage :
    list byte -> error + (Cmsghdr * list byte * list byte);
  (** the memory images of [Inet4Pktinfo] (Ifindex, Spec_dst, Addr) and
      [Inet6Pktinfo] (Addr, Ifindex), and the fields read through them *)
  Inet4Pktinfo_bytes : Z -> list byte -> list byte -> list byte;
  Inet4Pktinfo_Ifindex : list byte -> Z;
  Inet4Pktinfo_Spec_dst : list byte -> list byte;
  Inet6Pktinfo_bytes : list byte -> Z -> list byte;
  Inet6Pktinfo_Addr : list byte -> list byte;
  Inet6Pktinfo_Ifindex : list byte -> Z;
}.

(** A control message as cmsg(3) lays it out: header, padding up to
    [CmsgLen(0)], data, padding up to [CmsgSpace]. *)
Record cmsg := mkCmsg {
  cm_level : Z; cm_type : Z; cm_data : list byte; cm_hpad : list byte; cm_dpad : list byte }.

Definition int32_range (z : Z) : Prop := (- 2 ^ 31 <= z < 2 ^ 31)%Z.

Section Layout.
Context {U : UnixABI}.

Definition cm_hdr (c : cmsg) : Cmsghdr :=
  mkCmsghdr (Z.of_nat (CmsgLen (length (cm_data c)))) (cm_level c) (cm_type c).
Definition cmsg_bytes (c : cmsg) : list byte :=
  hdr_bytes (cm_hdr c) ++ cm_hpad c ++ cm_data c ++ cm_dpad c.
Definition cmsg_wf (c : cmsg) : Prop :=
  int32_range (cm_level c) /\ int32_range (cm_type c) /\
  (Z.of_nat (CmsgLen (length (cm_data c))) < 2 ^ 32)%Z /\
  length (cm_hpad c) = CmsgLen 0 - SizeofCmsghdr /\
  length (cm_dpad c) = CmsgSpace (length (cm_data c)) - CmsgLen (length (cm_data c)).

(** The bytes of a sequence of control messages. *)
Definition control_bytes (cs : list cmsg) : list byte := concat (map cmsg_bytes cs).

End Layout.

Class UnixLaws (U : UnixABI) : Prop := {
  cmsg_len_add n : CmsgLen n = CmsgLen 0 + n;
  cmsg_len_space n : CmsgLen n <= CmsgSpace n;
  cmsg_len_hdr : SizeofCmsghdr <= CmsgLen 0;
  cmsg_len_fits n : (Z.of_nat n < 2 ^ 16 -> Z.of_nat (CmsgLen n) < 2 ^ 32)%Z;
  hdr_bytes_length h : length (hdr_bytes h) = SizeofCmsghdr;
  (** a parsed message is consumed: the loops over the remainder end *)
  parse_progress b h d r :
    ParseOneSocketControlMessage b = inr (h, d, r) -> length r < length b;
  (** a message laid out by cmsg(3) is read back, with what follows it *)
  parse_one c r :
    cmsg_wf c ->
    ParseOneSocketControlMessage (cmsg_bytes c ++ r) = inr (cm_hdr c, cm_data c, r);
  pktinfo_spaces : CmsgSpace SizeofInet4Pktinfo <> CmsgSpace SizeofInet6Pktinfo;
  gro_not_segment : UDP_GRO <> UDP_SEGMENT;
  ip_not_ip6 : IPPROTO_IP <> IPPROTO_IPV6;
  cmsghdr_size : 0 < SizeofCmsghdr;
  pktinfo_sizes : 0 < SizeofInet4Pktinfo /\ 0 < SizeofInet6Pktinfo;
  ip_not_udp : IPPROTO_IP <> SOL_UDP;
  ip6_not_udp : IPPROTO_IPV6 <> SOL_UDP;
  udp_segment_range : int32_range SOL_UDP /\ int32_range UDP_SEGMENT;
  inet4_length i s a : length s = 4 -> length a = 4 ->
    length (Inet4Pktinfo_bytes i s a) = SizeofInet4Pktinfo;
  inet4_fields i s a t : int32_range i -> length s = 4 -> length a = 4 ->
    Inet4Pktinfo_Ifindex (Inet4Pktinfo_bytes i s a ++ t) = i /\
    Inet4Pktinfo_Spec_dst (Inet4Pktinfo_bytes i s a ++ t) = s;
  inet6_length a i : length a = 16 ->
    length (Inet6Pktinfo_bytes a i) = SizeofInet6Pktinfo;
  inet6_fields a i t : (0 <= i < 2 ^ 32)%Z -> length a = 16 ->
    Inet6Pktinfo_Addr (Inet6Pktinfo_bytes a i ++ t) = a /\
    Inet6Pktinfo_Ifindex (Inet6Pktinfo_bytes a i ++ t) = i;
}.

(** ** The loop over a control buffer

    [for len(rem) > unix.SizeofCmsghdr { hdr, data, rem, err = Parse...(rem);
    if err != nil {...}; if <match> {... return} }], with the branch taken on a
    match given by [body]. *)
Inductive scan_result (R : Type) :=
| ScanFound (r : R)
| ScanErr (e : error)
| ScanEnd.
Arguments ScanFound {R} r.
Arguments ScanErr {R} e.
Arguments ScanEnd {R}.

Section Scan.
Context {U : UnixABI} {R : Type} (body : Cmsghdr -> list byte -> option R).

Fixpoint scan (fuel : nat) (rem : list byte) : go (scan_result R) :=
  if (SizeofCmsghdr <? length rem)%nat then
    match fuel with
    | O => NoFuel
    | S fuel' =>
        match ParseOneSocketControlMessage rem with
        | inl e => Ret (ScanErr e)
        | inr (h, data, rem') =>
            match body h data with
            | Some r => Ret (ScanFound r)
            | None => scan fuel' rem'
            end
        end
    end
  else Ret ScanEnd.

(** The number of iterations is at most the number of bytes. *)
Definition scan_control (control : list byte) : go (scan_result R) :=
  scan (length control) control.

Context {UL : UnixLaws U}.

Lemma scan_fuel_enough fuel rem : length rem <= fuel -> exists r, scan fuel rem = Ret r.
Proof.
  revert rem. induction fuel as [|fuel IH]; intros rem Hf; simpl.
  - destruct (Nat.ltb_spec SizeofCmsghdr (length rem)); [lia|eauto].
  - destruct (_ <? _)%nat; [|eauto].
    destruct (ParseOneSocketControlMessage rem) as [e|[[h d] r]] eqn:E; [eauto|].
    destruct (body h d); [eauto|]. apply IH. pose proof (parse_progress _ _ _ _ E). lia.
Qed.

Lemma scan_fuel_irrel f1 f2 rem :
  length rem <= f1 -> length rem <= f2 -> scan f1 rem = scan f2 rem.
Proof.
  revert f2 rem. induction f1 as [|f1 IH]; intros [|f2] rem H1 H2; simpl; [done| | |].
  - destruct (Nat.ltb_spec SizeofCmsghdr (length rem)); [lia|done].
  - destruct (Nat.ltb_spec SizeofCmsghdr (length rem)); [lia|done].
  - destruct (_ <? _)%nat; [|done].
    destruct (ParseOneSocketControlMessage rem) as [e|[[h d] r]] eqn:E; [done|].
    destruct (body h d); [done|]. pose proof (parse_progress _ _ _ _ E). apply IH; lia.
Qed.

Lemma length_cmsg_bytes c :
  cmsg_wf c -> length (cmsg_bytes c) = CmsgSpace (length (cm_data c)).
Proof.
  intros (_ & _ & _ & Hh & Hd). unfold cmsg_bytes. rewrite !length_app, hdr_bytes_length, Hh, Hd.
  pose proof cmsg_len_hdr. pose proof (cmsg_len_add (length (cm_data c))).
  pose proof (cmsg_len_space (length (cm_data c))). lia.
Qed.

(** One iteration on a well-formed message with data. *)
Lemma scan_control_cons c rem :
  cmsg_wf c -> cm_data c ++ rem <> [] ->
  scan_control (cmsg_bytes c ++ rem) =
  match body (cm_hdr c) (cm_data c) with
  | Some r => Ret (ScanFound r)
  | None => scan_control rem
  end.
Proof.
  intros Hwf Hne. unfold scan_control.
  assert (SizeofCmsghdr < length (cmsg_bytes c ++ rem)) as Hlt.
  { rewrite length_app, length_cmsg_bytes by done.
    pose proof cmsg_len_hdr. pose proof (cmsg_len_add (length (cm_data c))).
    pose proof (cmsg_len_space (length (cm_data c))).
    destruct (cm_data c), rem; simpl in *; [done|lia..]. }
  destruct (length (cmsg_bytes c ++ rem)) as [|n] eqn:En; [lia|]. simpl. rewrite En.
  rewrite (proj2 (Nat.ltb_lt _ _) Hlt), parse_one by done.
  destruct (body _ _); [done|]. apply scan_fuel_irrel; [|lia].
  assert (length rem < S n); [|lia]. rewrite <- En.
  apply (parse_progress (cmsg_bytes c ++ rem) (cm_hdr c) (cm_data c) rem). by apply parse_one.
Qed.

(** The loop over well-formed messages finds the first one [body] accepts. *)
Lemma scan_control_bytes cs :
  Forall cmsg_wf cs -> Forall (fun c => cm_data c <> []) cs ->
  scan_control (control_bytes cs) =
  match list_find (fun c => is_Some (body (cm_hdr c) (cm_data c))) cs with
  | Some (_, c) =>
      match body (cm_hdr c) (cm_data c) with
      | Some r => Ret (ScanFound r) | None => Ret ScanEnd end
  | None => Ret ScanEnd
  end.
Proof.
  intros Hwf Hne. induction cs as [|c cs IH]; [by unfold scan_control|].
  inversion Hwf; inversion Hne; subst. cbn [control_bytes map concat].
  rewrite scan_control_cons; [|done|by destruct (cm_data c)]. simpl.
  destruct (body (cm_hdr c) (cm_data c)) as [r|] eqn:E.
  - rewrite decide_True by eauto. by rewrite E.
  - rewrite decide_False by (intros [? ?]; congruence).
    unfold control_bytes in IH. rewrite IH by done.
    destruct (list_find _ cs) as [[i c']|]; done.
Qed.

Lemma scan_control_total control : exists r, scan_control control = Ret r.
Proof. by apply scan_fuel_enough. Qed.

Lemma scan_control_nil : scan_control [] = Ret ScanEnd.
Proof. done. Qed.
End Scan.

(** ** 64-bit little-endian Linux *)

Definition cmsg_align (n : nat) : nat := (n + 7) / 8 * 8.

Definition linux64 : UnixABI := {|
  SizeofCmsghdr := 16;
  CmsgLen n := 16 + n;
  CmsgSpace n := 16 + cmsg_align n;
  SizeofInet4Pktinfo := 12;
  SizeofInet6Pktinfo := 20;
  IPPROTO_IP := 0;
  IPPROTO_IPV6 := 41;
  IP_PKTINFO := 8;
  IPV6_PKTINFO := 50;
  SOL_UDP := 17;
  UDP_GRO := 104;
  UDP_SEGMENT := 103;
  hdr_bytes h := le_bytes 8 (hdr_Len h) ++ le_bytes 4 (hdr_Level h) ++ le_bytes 4 (hdr_Type h);
  ParseOneSocketControlMessage b :=
    let n := Z.to_nat (le_val (take 8 b)) in
    let h := mkCmsghdr (le_val (take 8 b)) (i32 (le_val (take 4 (drop 8 b))))
                       (i32 (le_val (take 4 (drop 12 b)))) in
    if ((n <? 16) || (length b <? n) || (length b <? 16))%nat then inl (EErrno EINVAL)
    else inr (h, take (n - 16) (drop 16 b),
              if (cmsg_align n <? length b)%nat then drop (cmsg_align n) b else []);
  Inet4Pktinfo_bytes i s a := le_bytes 4 i ++ s ++ a;
  Inet4Pktinfo_Ifindex b := i32 (le_val (take 4 b));
  Inet4Pktinfo_Spec_dst b := take 4 (drop 4 b);
  Inet6Pktinfo_bytes a i := a ++ le_bytes 4 i;
  Inet6Pktinfo_Addr b := take 16 b;
  Inet6Pktinfo_Ifindex b := le_val (take 4 (drop 16 b));
|}.

#[local] Existing Instance linux64.

Lemma i32_le_bytes z : int32_range z -> i32 (le_val (le_bytes 4 z)) = z.
Proof. intros. rewrite le_val_bytes. apply i32_small. done. Qed.

(** Reading the three fields of a header image. *)
Lemma hdr_image n lv ty rest :
  let b := (le_bytes 8 n ++ le_bytes 4 lv ++ le_bytes 4 ty) ++ rest in
  take 8 b = le_bytes 8 n /\ take 4 (drop 8 b) = le_bytes 4 lv /\
  take 4 (drop 12 b) = le_bytes 4 ty /\ drop 16 b = rest.
Proof.
  intros b. subst b. rewrite <- !app_assoc. split_and!.
  - by rewrite take_app_length' by len.
  - rewrite drop_app_length' by len.
    by rewrite take_app_length' by len.
  - rewrite (app_assoc (le_bytes 8 n)), drop_app_length' by len.
    by rewrite take_app_length' by len.
  - rewrite (app_assoc (le_bytes 8 n)), app_assoc, drop_app_length' by len. done.
Qed.

Lemma cmsg_align_spec n : n <= cmsg_align n < n + 8 /\ cmsg_align (16 + n) = 16 + cmsg_align n.
Proof. unfold cmsg_align. split; dlia. Qed.

Lemma linux64_parse_one c r :
  cmsg_wf c ->
  ParseOneSocketControlMessage (cmsg_bytes c ++ r) = inr (cm_hdr c, cm_data c, r).
Proof.
  destruct c as [lv ty d hp dp]. intros (Hl & Ht & Hn & Hh & Hd).
  unfold cmsg_bytes, cm_hdr.
  cbn [cm_data cm_level cm_type cm_hpad cm_dpad CmsgLen CmsgSpace SizeofCmsghdr hdr_bytes
       linux64 ParseOneSocketControlMessage hdr_Len hdr_Level hdr_Type] in *.
  destruct hp; [|discriminate]. rewrite app_nil_l. rewrite <- app_assoc.
  set (n := 16 + length d) in *. destruct (cmsg_align_spec (length d)) as [Ha Ha'].
  edestruct (hdr_image (Z.of_nat n) lv ty ((d ++ dp) ++ r)) as (E1 & E2 & E3 & E4).
  rewrite E1, E2, E3, E4. rewrite !i32_le_bytes by done.
  rewrite le_val_bytes_small by (change (256 ^ Z.of_nat 8)%Z with (2 ^ 64)%Z; lia).
  rewrite Nat2Z.id.
  assert (length ((le_bytes 8 (Z.of_nat n) ++ le_bytes 4 lv ++ le_bytes 4 ty) ++ (d ++ dp) ++ r)
          = 16 + cmsg_align (length d) + length r) as Hlen.
  { rewrite !length_app, !length_le_bytes, Hd. lia. }
  rewrite Hlen. subst n. rewrite Ha'.
  destruct (_ || _) eqn:E; [exfalso|].
  { rewrite !orb_true_iff, !Nat.ltb_lt in E. lia. }
  f_equal. f_equal; [f_equal|].
  - replace (16 + length d - 16) with (length d) by lia.
    by rewrite <- app_assoc, take_app_length.
  - destruct (Nat.ltb_spec (16 + cmsg_align (length d)) (16 + cmsg_align (length d) + length r)).
    + rewrite <- drop_drop, E4. apply drop_app_length'. rewrite length_app, Hd. lia.
    + destruct r; [done|simpl in *; lia].
Qed.

#[export] Instance linux64_laws : UnixLaws linux64.
Proof.
  split.
  - done.
  - intros n. pose proof (cmsg_align_spec n). cbn [CmsgLen CmsgSpace linux64]. lia.
  - done.
  - intros n ?. cbn [CmsgLen linux64]. lia.
  - intros h. cbn [hdr_bytes linux64]. by rewrite !length_app, !length_le_bytes.
  - intros b h d r. cbn [ParseOneSocketControlMessage linux64].
    destruct (_ || _) eqn:E; [done|]. bool_simp. intros [= _ _ <-].
    destruct (cmsg_align_spec (Z.to_nat (le_val (take 8 b)))) as [? _].
    case_if; [rewrite length_drop|simpl]; lia.
  - apply linux64_parse_one.
  - by vm_compute.
  - done.
  - done.
  - cbn. lia.
  - cbn. lia.
  - done.
  - done.
  - by vm_compute.
  - intros i s a ? ?. cbn [Inet4Pktinfo_bytes SizeofInet4Pktinfo linux64]. rewrite !length_app, length_le_bytes. lia.
  - intros i s a t Hi Hs Ha. cbn [Inet4Pktinfo_bytes Inet4Pktinfo_Ifindex Inet4Pktinfo_Spec_dst linux64].
    rewrite <- !app_assoc. rewrite take_app_length' by len.
    rewrite drop_app_length' by len. rewrite take_app_length' by done.
    by rewrite i32_le_bytes.
  - intros a i ?. cbn [Inet6Pktinfo_bytes SizeofInet6Pktinfo linux64]. rewrite length_app, length_le_bytes. lia.
  - intros a i t Hi Ha. cbn [Inet6Pktinfo_bytes Inet6Pktinfo_Ifindex Inet6Pktinfo_Addr linux64].
    rewrite <- !app_assoc. rewrite take_app_length', drop_app_length' by done.
    rewrite take_app_length' by len.
    rewrite le_val_bytes_small; [done|exact Hi].
Qed.
