(* ===== verification/Gso.v ===== *)
(** * UDP segmentation control data (gso_linux.go, gso_default.go)

    [getGSOSize] reads the segment size the kernel attached to a coalesced
    datagram, [setGSOSize] appends the segment size to outgoing control data.
    Multi-byte integers are stored in the byte order of the machine, which is
    little-endian here. *)

From S2P Require Import Prelude Errors GoMem Cmsg.

Definition sizeOfGSOData : nat := 2.

Section Gso.
Context {U : UnixABI}.

(** [getGSOSize] of gso_linux.go. *)
Definition getGSOSize_match (hdr : Cmsghdr) (data : list byte) : option Z :=
  if bool_decide (hdr_Level hdr = SOL_UDP) && bool_decide (hdr_Type hdr = UDP_GRO)
     && (sizeOfGSOData <=? length data)%nat
  then Some (le_val (take sizeOfGSOData data)) else None.

Definition getGSOSize_linux (control : list byte) : go (error + Z) :=
  r ← scan_control getGSOSize_match control;
  Ret match r with
      | ScanFound gso => inr gso
      | ScanErr e => inl (EWrap "error parsing socket control message" e)
      | ScanEnd => inr 0%Z
      end.

(** [setGSOSize] of gso_linux.go; [gsoSize] is a uint16. *)
Definition setGSOSize_linux (control : gobuf) (gsoSize : Z) : go gobuf :=
  let existingLen := gb_len control in
  let avail := (gb_cap control - existingLen)%nat in
  let space := CmsgSpace sizeOfGSOData in
  if (avail <? space)%nat then Ret control else
  control ← gb_reslice control (gb_cap control);
  _ ← check (existingLen <? gb_len control)%nat;
  let hdr := mkCmsghdr (Z.of_nat (CmsgLen sizeOfGSOData)) SOL_UDP UDP_SEGMENT in
  control ← gb_copy_at control existingLen (hdr_bytes hdr);
  control ← gb_copy_at control (existingLen + CmsgLen 0) (le_bytes sizeOfGSOData gsoSize);
  gb_reslice control (existingLen + space).

Definition gsoControlSize_linux : nat := CmsgSpace sizeOfGSOData.

End Gso.

(** gso_default.go *)
Definition getGSOSize_default (control : list byte) : go (error + Z) := Ret (inr 0%Z).
Definition setGSOSize_default (control : gobuf) (gsoSize : Z) : go gobuf := Ret control.
Definition gsoControlSize_default : nat := 0.

Section GsoDispatch.
Context {U : UnixABI} (os : GOOS).

(** The build selects the file by the tag [linux]. *)
Definition getGSOSize (control : list byte) : go (error + Z) :=
  if linux_or_android os then getGSOSize_linux control else getGSOSize_default control.
Definition setGSOSize (control : gobuf) (gsoSize : Z) : go gobuf :=
  if linux_or_android os then setGSOSize_linux control gsoSize
  else setGSOSize_default control gsoSize.
Definition gsoControlSize : nat :=
  if linux_or_android os then gsoControlSize_linux else gsoControlSize_default.
End GsoDispatch.

(** ** What the kernel reads from outgoing control data

    udp(7): a UDP_SEGMENT message with a 16-bit value makes the kernel cut the
    payload into datagrams of that size.  [segment_size] is the value of the
    first such message, [None] when there is none (the payload is one
    datagram). *)
Section Segment.
Context {U : UnixABI}.

Definition segment_match (hdr : Cmsghdr) (data : list byte) : option Z :=
  if bool_decide (hdr_Level hdr = SOL_UDP) && bool_decide (hdr_Type hdr = UDP_SEGMENT)
     && (length data =? 2)%nat
  then Some (le_val data) else None.
Definition segment_size (control : list byte) : option Z :=
  match scan_control segment_match control with Ret (ScanFound g) => Some g | _ => None end.

(** The message [setGSOSize] appends; the padding keeps what was there. *)
Definition gso_cmsg (gsoSize : Z) (hpad dpad : list byte) : cmsg :=
  mkCmsg SOL_UDP UDP_SEGMENT (le_bytes sizeOfGSOData gsoSize) hpad dpad.

End Segment.

Section GsoLaws.
Context {U : UnixABI} {UL : UnixLaws U}.
Local Open Scope nat_scope.

(** [setGSOSize] with room: the old bytes are kept and one well-formed
    UDP_SEGMENT message follows them. *)
Lemma setGSOSize_linux_spec control g :
  gb_ok control ->
  CmsgSpace sizeOfGSOData <= gb_cap control - gb_len control ->
  exists hpad dpad control',
    setGSOSize_linux control g = Ret control' /\
    cmsg_wf (gso_cmsg g hpad dpad) /\
    gb_bytes control' = gb_bytes control ++ cmsg_bytes (gso_cmsg g hpad dpad) /\
    gb_cap control' = gb_cap control /\ gb_ok control'.
Proof.
  destruct control as [a n]. unfold gb_ok, gb_cap. cbn [gb_arr gb_len]. intros Hok Hroom.
  pose proof (cmsg_len_fits sizeOfGSOData ltac:(done)) as H32.
  pose proof cmsg_len_hdr as Hh. pose proof (cmsg_len_add sizeOfGSOData) as Hadd.
  pose proof (cmsg_len_space sizeOfGSOData) as Hsp. pose proof udp_segment_range as [? ?].
  set (h := mkCmsghdr (Z.of_nat (CmsgLen sizeOfGSOData)) SOL_UDP UDP_SEGMENT).
  pose proof (hdr_bytes_length h) as Hhl. pose proof (length_le_bytes sizeOfGSOData g) as Hll.
  set (hb := hdr_bytes h) in *. set (lb := le_bytes sizeOfGSOData g) in *.
  set (sp := CmsgSpace sizeOfGSOData) in *.
  assert (0 < sizeOfGSOData) as Hs2 by (unfold sizeOfGSOData; lia).
  set (s2 := sizeOfGSOData) in *.
  destruct (split_at a n) as (p & a1 & -> & Hp); [lia|]. rewrite length_app in *.
  destruct (split_at a1 SizeofCmsghdr) as (h0 & a2 & -> & Hh0); [lia|]. rewrite length_app in *.
  destruct (split_at a2 (CmsgLen 0 - SizeofCmsghdr)) as (hp & a3 & -> & Hhp); [lia|].
  rewrite length_app in *.
  destruct (split_at a3 s2) as (d0 & a4 & -> & Hd0); [lia|]. rewrite length_app in *.
  destruct (split_at a4 (sp - CmsgLen s2)) as (dp & rest & -> & Hdp); [lia|]. rewrite length_app in *.
  exists hp, dp, (GoBuf (p ++ hb ++ hp ++ lb ++ dp ++ rest) (n + sp)).
  split_and!; cbn [gb_arr gb_len]; try (rewrite ?length_app; lia).
  - unfold setGSOSize_linux, gb_copy_at, gb_reslice, gb_cap. cbn [gb_arr gb_len].
    rewrite !length_app. fold s2 sp h hb lb.
    rewrite (proj2 (Nat.ltb_ge _ _)) by lia. rewrite Nat.leb_refl. simpl.
    rewrite (proj2 (Nat.ltb_lt _ _)) by lia. simpl.
    rewrite (proj2 (Nat.leb_le _ _)) by lia. simpl.
    rewrite (take_ge hb), splice_app by lia.
    rewrite (proj2 (Nat.leb_le _ _)) by lia. simpl.
    rewrite (take_ge lb) by lia.
    replace (p ++ hb ++ hp ++ d0 ++ dp ++ rest) with ((p ++ hb ++ hp) ++ d0 ++ dp ++ rest)
      by (by rewrite <- !app_assoc).
    rewrite splice_app by (rewrite ?length_app; lia).
    rewrite <- !app_assoc, !length_app. by rewrite (proj2 (Nat.leb_le _ _)) by lia.
  - unfold cmsg_wf, gso_cmsg. cbn [cm_level cm_type cm_data cm_hpad cm_dpad]. change (le_bytes sizeOfGSOData g) with lb.
    by rewrite Hll.
  - unfold gb_bytes, cmsg_bytes, cm_hdr, gso_cmsg.
    cbn [gb_arr gb_len cm_level cm_type cm_data cm_hpad cm_dpad]. change (le_bytes sizeOfGSOData g) with lb. rewrite Hll.
    fold s2 h hb. rewrite (take_app_length' p _ n) by lia.
    replace (n + sp) with (length (p ++ hb ++ hp ++ lb ++ dp)) by (rewrite !length_app; lia).
    replace (p ++ hb ++ hp ++ lb ++ dp ++ rest) with ((p ++ hb ++ hp ++ lb ++ dp) ++ rest)
      by (by rewrite <- !app_assoc).
    apply take_app_length.
Qed.

(** Without room the control data is left as it was. *)
Lemma setGSOSize_linux_short control g :
  gb_cap control - gb_len control < CmsgSpace sizeOfGSOData ->
  setGSOSize_linux control g = Ret control.
Proof. intros Hs. unfold setGSOSize_linux. by rewrite (proj2 (Nat.ltb_lt _ _) Hs). Qed.

Lemma scan_app_skip {R} (body : Cmsghdr -> list byte -> option R) cs rem :
  Forall cmsg_wf cs -> rem <> [] ->
  Forall (fun c => body (cm_hdr c) (cm_data c) = None) cs ->
  scan_control body (control_bytes cs ++ rem) = scan_control body rem.
Proof.
  intros Hwf Hne Hn. induction cs as [|c cs IH]; [done|].
  inversion Hwf; inversion Hn; subst. cbn [control_bytes map concat]. rewrite <- app_assoc.
  rewrite (scan_control_cons body); [|done|].
  - match goal with E : body _ _ = None |- _ => rewrite E end. by apply IH.
  - destruct (cm_data c); [|done]. destruct (concat _); [|done]. done.
Qed.

(** The kernel reads from the result the size that was set. *)
Lemma segment_size_gso_cmsg cs g hpad dpad :
  Forall cmsg_wf cs -> Forall (fun c => cm_level c <> SOL_UDP) cs ->
  cmsg_wf (gso_cmsg g hpad dpad) -> (0 <= g < 2 ^ 16)%Z ->
  segment_size (control_bytes cs ++ cmsg_bytes (gso_cmsg g hpad dpad)) = Some g.
Proof.
  intros Hcs Hlv Hwf Hg. unfold segment_size.
  assert (cmsg_bytes (gso_cmsg g hpad dpad) <> []) as Hne.
  { intros E%(f_equal length). rewrite length_cmsg_bytes in E by done.
    pose proof (cmsg_len_space (length (le_bytes 2 g))). pose proof (cmsg_len_add (length (le_bytes 2 g))).
    cbn [gso_cmsg cm_data length le_bytes sizeOfGSOData] in *. lia. }
  rewrite scan_app_skip; [|done|done|].
  2: { revert Hlv. apply Forall_impl. intros c Hc. unfold segment_match.
       cbn [cm_hdr hdr_Level]. by rewrite bool_decide_eq_false_2. }
  rewrite <- (app_nil_r (cmsg_bytes _)), (scan_control_cons segment_match) by done.
  unfold segment_match. cbn [cm_hdr gso_cmsg hdr_Level hdr_Type cm_level cm_type cm_data].
  rewrite !bool_decide_eq_true_2 by done. rewrite length_le_bytes. simpl andb.
  cbn [Nat.eqb sizeOfGSOData]. by rewrite le_val_bytes_small.
Qed.

Lemma segment_size_none cs :
  Forall cmsg_wf cs -> Forall (fun c => cm_level c <> SOL_UDP) cs ->
  Forall (fun c => cm_data c <> []) cs -> segment_size (control_bytes cs) = None.
Proof.
  intros Hcs Hlv Hd. unfold segment_size. rewrite (scan_control_bytes segment_match) by done.
  destruct (list_find _ cs) as [[i c]|] eqn:E; [|done].
  apply list_find_Some in E as (E & Hs & _).
  assert (cm_level c <> SOL_UDP) as Hc by (eapply (Forall_lookup_1 _ _ _ _ Hlv E)).
  unfold segment_match, cm_hdr. cbn [hdr_Level]. by rewrite bool_decide_eq_false_2.
Qed.

(** [getGSOSize] always returns: the loop makes progress. *)
Lemma getGSOSize_linux_total control : exists r, getGSOSize_linux control = Ret r.
Proof.
  unfold getGSOSize_linux. destruct (scan_control_total getGSOSize_match control) as [r ->].
  simpl. eauto.
Qed.
End GsoLaws.
