(* ===== verification/Sticky.v ===== *)
(** * Endpoints and sticky sockets (bind_std.go, sticky_linux.go, sticky_default.go)

    A [StdNetEndpoint] is a destination with a cached source: the PKTINFO
    control message of the last datagram received from it.  [getSrcFromControl]
    fills the cache from received control data, [setSrcControl] replays it on
    outgoing messages. *)

From S2P Require Import Prelude Errors GoMem Netip Cmsg Gso.

Record StdNetEndpoint := mkEndpoint { ep_AddrPort : AddrPort; ep_src : option gobuf }.
#[export] Instance StdNetEndpoint_eq_dec : EqDecision StdNetEndpoint.
Proof. solve_decision. Defined.

Definition ClearSrc (e : StdNetEndpoint) : StdNetEndpoint :=
  match ep_src e with
  | Some s => mkEndpoint (ep_AddrPort e) (Some (GoBuf (gb_arr s) 0))
  | None => e
  end.
Definition DstIP (e : StdNetEndpoint) : Addr := ap_addr (ep_AddrPort e).
Definition DstToBytes (e : StdNetEndpoint) : list byte := AddrPort_MarshalBinary (ep_AddrPort e).

(** [DstToString] and [ParseEndpoint], given the printer and the parser of
    netip. *)
Definition DstToString (AddrPort_String : AddrPort -> string) (e : StdNetEndpoint) : string :=
  AddrPort_String (ep_AddrPort e).
Definition ParseEndpoint (ParseAddrPort : string -> error + AddrPort) (s : string) : error + StdNetEndpoint :=
  match ParseAddrPort s with
  | inl err => inl err
  | inr e => inr (mkEndpoint e None)
  end.

(** [len(e.src)] and the bytes of [e.src]; both treat nil as empty. *)
Definition src_len (e : StdNetEndpoint) : nat :=
  match ep_src e with Some s => gb_len s | None => 0 end.
Definition src_bytes (e : StdNetEndpoint) : list byte :=
  match ep_src e with Some s => gb_bytes s | None => [] end.

Section Sticky.
Context {U : UnixABI}.

(** [SrcIP] of sticky_linux.go; the struct is read from the memory that starts
    at [e.src[CmsgLen(0)]]. *)
Definition SrcIP_linux (e : StdNetEndpoint) : go Addr :=
  if (src_len e =? CmsgSpace SizeofInet4Pktinfo)%nat then
    _ ← check (CmsgLen 0 <? src_len e)%nat;
    Ret (Addr4 (Inet4Pktinfo_Spec_dst (drop (CmsgLen 0) (src_bytes e))))
  else if (src_len e =? CmsgSpace SizeofInet6Pktinfo)%nat then
    _ ← check (CmsgLen 0 <? src_len e)%nat;
    Ret (Addr6 (Inet6Pktinfo_Addr (drop (CmsgLen 0) (src_bytes e))) "")
  else Ret AddrZero.

Definition SrcIfidx_linux (e : StdNetEndpoint) : go Z :=
  if (src_len e =? CmsgSpace SizeofInet4Pktinfo)%nat then
    _ ← check (CmsgLen 0 <? src_len e)%nat;
    Ret (Inet4Pktinfo_Ifindex (drop (CmsgLen 0) (src_bytes e)))
  else if (src_len e =? CmsgSpace SizeofInet6Pktinfo)%nat then
    _ ← check (CmsgLen 0 <? src_len e)%nat;
    Ret (i32 (Inet6Pktinfo_Ifindex (drop (CmsgLen 0) (src_bytes e))))
  else Ret 0%Z.

Definition SrcToString_linux (Addr_String : Addr -> string) (e : StdNetEndpoint) : go string :=
  a ← SrcIP_linux e; Ret (Addr_String a).

(** The two branches of the loop of [getSrcFromControl]: the size of the
    PKTINFO struct that was found, with its header and data. *)
Definition pktinfo_match (hdr : Cmsghdr) (data : list byte)
    : option (nat * Cmsghdr * list byte) :=
  if bool_decide (hdr_Level hdr = IPPROTO_IP) && bool_decide (hdr_Type hdr = IP_PKTINFO)
  then Some (SizeofInet4Pktinfo, hdr, data)
  else if bool_decide (hdr_Level hdr = IPPROTO_IPV6) && bool_decide (hdr_Type hdr = IPV6_PKTINFO)
  then Some (SizeofInet6Pktinfo, hdr, data)
  else None.

(** The body of either branch. *)
Definition set_src (src : option gobuf) (size : nat) (hdr : Cmsghdr) (data : list byte)
    : go gobuf :=
  let space := CmsgSpace size in
  let s := match src with
           | Some s => if (gb_cap s <? space)%nat then gb_make 0 space else s
           | None => gb_make 0 space
           end in
  s ← gb_reslice s space;
  s ← gb_copy_at s 0 (hdr_bytes hdr);
  gb_copy_at s (CmsgLen 0) data.

Definition getSrcFromControl_linux (control : list byte) (ep : StdNetEndpoint)
    : go StdNetEndpoint :=
  let ep := ClearSrc ep in
  r ← scan_control pktinfo_match control;
  match r with
  | ScanFound (size, hdr, data) =>
      s ← set_src (ep_src ep) size hdr data;
      Ret (mkEndpoint (ep_AddrPort ep) (Some s))
  | _ => Ret ep
  end.

Definition setSrcControl_linux (control : gobuf) (ep : StdNetEndpoint) : gobuf :=
  if (gb_cap control <? src_len ep)%nat then control
  else gb_append (GoBuf (gb_arr control) 0) (src_bytes ep).

Definition stickyControlSize_linux : nat := CmsgSpace SizeofInet6Pktinfo.
End Sticky.

(** sticky_default.go *)
Definition SrcIP_default (e : StdNetEndpoint) : go Addr := Ret AddrZero.
Definition SrcIfidx_default (e : StdNetEndpoint) : go Z := Ret 0%Z.
Definition SrcToString_default (e : StdNetEndpoint) : string := "".
Definition getSrcFromControl_default (control : list byte) (ep : StdNetEndpoint)
    : go StdNetEndpoint := Ret ep.
Definition setSrcControl_default (control : gobuf) (ep : StdNetEndpoint) : gobuf := control.
Definition stickyControlSize_default : nat := 0.

Section StickyDispatch.
Context {U : UnixABI} (os : GOOS).

(** sticky_linux.go is built for [linux && !android]. *)
Definition StdNetSupportsStickySockets : bool :=
  match os with Linux => true | _ => false end.
Definition SrcIP (e : StdNetEndpoint) : go Addr :=
  if StdNetSupportsStickySockets then SrcIP_linux e else SrcIP_default e.
Definition SrcIfidx (e : StdNetEndpoint) : go Z :=
  if StdNetSupportsStickySockets then SrcIfidx_linux e else SrcIfidx_default e.
Definition getSrcFromControl (control : list byte) (ep : StdNetEndpoint) : go StdNetEndpoint :=
  if StdNetSupportsStickySockets then getSrcFromControl_linux control ep
  else getSrcFromControl_default control ep.
Definition setSrcControl (control : gobuf) (ep : StdNetEndpoint) : gobuf :=
  if StdNetSupportsStickySockets then setSrcControl_linux control ep
  else setSrcControl_default control ep.
Definition stickyControlSize : nat :=
  if StdNetSupportsStickySockets then stickyControlSize_linux else stickyControlSize_default.
End StickyDispatch.

Section StickyLaws.
Context {U : UnixABI} {UL : UnixLaws U}.
Local Open Scope nat_scope.

(** A PKTINFO message of either family with a complete struct. *)
Definition is_pktinfo (c : cmsg) (size : nat) : Prop :=
  cmsg_wf c /\ length (cm_data c) = size /\
  pktinfo_match (cm_hdr c) (cm_data c) = Some (size, cm_hdr c, cm_data c).

Definition src_ok (e : StdNetEndpoint) : Prop :=
  match ep_src e with Some s => gb_ok s | None => True end.

Lemma length_src_bytes e : src_ok e -> length (src_bytes e) = src_len e.
Proof. unfold src_ok, src_bytes, src_len. destruct (ep_src e); [apply length_gb_bytes|done]. Qed.

(** What [set_src] leaves: the header and the data, padded to [CmsgSpace]. *)
Lemma set_src_spec src size hdr data :
  length data = size ->
  exists hpad dpad s,
    set_src src size hdr data = Ret s /\ gb_ok s /\
    gb_len s = CmsgSpace size /\
    length hpad = CmsgLen 0 - SizeofCmsghdr /\
    length dpad = CmsgSpace size - CmsgLen size /\
    gb_bytes s = hdr_bytes hdr ++ hpad ++ data ++ dpad.
Proof.
  intros Hd. pose proof cmsg_len_hdr as Hh. pose proof (cmsg_len_add size) as Hadd.
  pose proof (cmsg_len_space size) as Hsp. pose proof (hdr_bytes_length hdr) as Hhl.
  unfold set_src.
  set (s0 := match src with Some s => _ | None => _ end).
  assert (CmsgSpace size <= gb_cap s0) as Hcap.
  { subst s0. unfold gb_make, gb_cap. destruct src as [s|]; [case_if|]; simpl; len. }
  clearbody s0. destruct s0 as [a n]. unfold gb_reslice, gb_copy_at, gb_cap in *. cbn [gb_arr gb_len] in *.
  rewrite (proj2 (Nat.leb_le _ _) Hcap). simpl.
  destruct (split_at a SizeofCmsghdr) as (h0 & a1 & -> & Hh0); [lia|]. rewrite length_app in *.
  destruct (split_at a1 (CmsgLen 0 - SizeofCmsghdr)) as (hp & a2 & -> & Hhp); [lia|].
  rewrite length_app in *.
  destruct (split_at a2 size) as (d0 & a3 & -> & Hd0); [lia|]. rewrite length_app in *.
  destruct (split_at a3 (CmsgSpace size - CmsgLen size)) as (dp & rest & -> & Hdp); [lia|].
  rewrite length_app in *.
  exists hp, dp, (GoBuf (hdr_bytes hdr ++ hp ++ data ++ dp ++ rest) (CmsgSpace size)).
  rewrite (take_ge (hdr_bytes hdr)), splice_0_app by lia.
  rewrite (proj2 (Nat.leb_le _ _)) by lia. rewrite (take_ge data) by lia. cbn [app mbind go_mbind].
  replace (hdr_bytes hdr ++ hp ++ d0 ++ dp ++ rest)
    with ((hdr_bytes hdr ++ hp) ++ d0 ++ dp ++ rest) by (by rewrite <- !app_assoc).
  rewrite splice_app by (rewrite ?length_app; lia). rewrite <- app_assoc.
  split_and!; try done.
  - unfold gb_ok, gb_cap. cbn [gb_arr gb_len]. rewrite !length_app. lia.
  - unfold gb_bytes. cbn [gb_arr gb_len].
    replace (hdr_bytes hdr ++ hp ++ data ++ dp ++ rest)
      with ((hdr_bytes hdr ++ hp ++ data ++ dp) ++ rest) by (by rewrite <- !app_assoc).
    apply take_app_length'. rewrite !length_app. lia.
Qed.

(** [getSrcFromControl] takes the first PKTINFO message of the control data,
    whatever the endpoint cached before. *)
Lemma getSrcFromControl_linux_first pre c rest ep size :
  Forall cmsg_wf pre ->
  Forall (fun c => pktinfo_match (cm_hdr c) (cm_data c) = None) pre ->
  is_pktinfo c size -> 0 < size ->
  exists s hpad dpad,
    getSrcFromControl_linux (control_bytes pre ++ cmsg_bytes c ++ rest) ep =
      Ret (mkEndpoint (ep_AddrPort ep) (Some s)) /\
    gb_ok s /\ gb_len s = CmsgSpace size /\
    gb_bytes s = cmsg_bytes (mkCmsg (cm_level c) (cm_type c) (cm_data c) hpad dpad) /\
    cmsg_wf (mkCmsg (cm_level c) (cm_type c) (cm_data c) hpad dpad).
Proof.
  intros Hpre Hnone (Hwf & Hlen & Hm) Hpos. unfold getSrcFromControl_linux.
  destruct (set_src_spec (ep_src (ClearSrc ep)) size (cm_hdr c) (cm_data c) Hlen)
    as (hpad & dpad & s & Hs & Hok & Hl & Hh & Hd & Hb).
  exists s, hpad, dpad. assert (cm_data c <> []) by (intros E; rewrite E in Hlen; simpl in *; lia).
  assert (cmsg_bytes c ++ rest <> []) as Hne.
  { unfold cmsg_bytes. intros E%(f_equal length). rewrite !length_app in E. simpl in E. lia. }
  split_and!; try done.
  - rewrite (scan_app_skip pktinfo_match) by done.
    rewrite (scan_control_cons pktinfo_match); [|done|by destruct (cm_data c)].
    rewrite Hm. simpl. rewrite Hs. simpl. unfold ClearSrc. by destruct (ep_src ep).
  - destruct Hwf as (? & ? & ? & _ & _). unfold cmsg_wf. cbn. subst size. by split_and!.
Qed.

Lemma set_src_total src size hdr data : exists s, set_src src size hdr data = Ret s /\ gb_ok s.
Proof.
  pose proof cmsg_len_hdr as Hh. pose proof (cmsg_len_add size) as Hadd.
  pose proof (cmsg_len_space size) as Hsp. pose proof (hdr_bytes_length hdr) as Hhl.
  unfold set_src.
  set (s0 := match src with Some s => _ | None => _ end).
  assert (CmsgSpace size <= gb_cap s0) as Hcap.
  { subst s0. unfold gb_make, gb_cap. destruct src as [s|]; [case_if|]; simpl; len. }
  clearbody s0. unfold gb_reslice, gb_copy_at. rewrite (proj2 (Nat.leb_le _ _) Hcap). simpl.
  rewrite (proj2 (Nat.leb_le _ _)) by lia. simpl. eexists; split; [done|].
  unfold gb_ok, gb_cap in *. cbn [gb_arr gb_len].
  assert (length (splice 0 (take (CmsgSpace size - 0) (hdr_bytes hdr)) (gb_arr s0))
          = length (gb_arr s0)) as L1 by (apply length_splice; rewrite length_take; lia).
  rewrite length_splice; rewrite L1; [lia|]. rewrite length_take. lia.
Qed.

(** No control data makes [getSrcFromControl] panic or loop. *)
Lemma getSrcFromControl_linux_total control ep :
  exists ep', getSrcFromControl_linux control ep = Ret ep' /\ ep_AddrPort ep' = ep_AddrPort ep.
Proof.
  unfold getSrcFromControl_linux.
  assert (ep_AddrPort (ClearSrc ep) = ep_AddrPort ep) as Hc
    by (unfold ClearSrc; by destruct (ep_src ep)).
  destruct (scan_control_total pktinfo_match control) as [r ->]. simpl.
  destruct r as [[[size hdr] data]| |]; eauto.
  destruct (set_src_total (ep_src (ClearSrc ep)) size hdr data) as (s & -> & _). simpl. eauto.
Qed.

Lemma setSrcControl_linux_bytes control ep :
  src_ok ep -> src_len ep <= gb_cap control ->
  gb_bytes (setSrcControl_linux control ep) = src_bytes ep /\
  gb_cap (setSrcControl_linux control ep) = gb_cap control /\
  gb_ok (setSrcControl_linux control ep).
Proof.
  intros Hok Hc. unfold setSrcControl_linux. rewrite (proj2 (Nat.ltb_ge _ _) Hc).
  pose proof (length_src_bytes ep Hok) as Hl.
  split_and!.
  - rewrite gb_append_bytes by (unfold gb_ok; simpl; lia). done.
  - rewrite gb_append_cap; [done|]. unfold gb_cap in *. simpl. lia.
  - apply gb_append_ok. unfold gb_ok. simpl. lia.
Qed.

(** The cached source read back through the struct layout. *)
Lemma src_data ep s hpad dpad lv ty d :
  ep_src ep = Some s -> gb_ok s ->
  gb_bytes s = cmsg_bytes (mkCmsg lv ty d hpad dpad) -> cmsg_wf (mkCmsg lv ty d hpad dpad) ->
  drop (CmsgLen 0) (src_bytes ep) = d ++ dpad /\ src_len ep = CmsgSpace (length d).
Proof.
  intros Hs Hok Hb Hwf. unfold src_len, src_bytes. rewrite Hs. split.
  - rewrite Hb. destruct Hwf as (_ & _ & _ & Hh & _). unfold cmsg_bytes. cbn in *.
    rewrite app_assoc, drop_app_length'; [done|].
    rewrite length_app, hdr_bytes_length, Hh. pose proof cmsg_len_hdr. lia.
  - rewrite <- (length_gb_bytes s Hok), Hb. by rewrite length_cmsg_bytes.
Qed.

(** What a reply carries after the cached source was replayed. *)
Lemma setSrcControl_replays control ep s c :
  ep_src ep = Some s -> gb_ok s -> gb_bytes s = cmsg_bytes c -> cmsg_wf c ->
  CmsgSpace (length (cm_data c)) <= gb_cap control ->
  ParseOneSocketControlMessage (gb_bytes (setSrcControl_linux control ep)) =
    inr (cm_hdr c, cm_data c, []).
Proof.
  intros Hs Hok Hb Hwf Hc.
  destruct (setSrcControl_linux_bytes control ep) as (-> & _ & _).
  - unfold src_ok. by rewrite Hs.
  - unfold src_len. rewrite Hs, <- (length_gb_bytes s Hok), Hb. by rewrite length_cmsg_bytes.
  - unfold src_bytes. rewrite Hs, Hb, <- (app_nil_r (cmsg_bytes c)). by apply parse_one.
Qed.

Definition no_pktinfo (c : cmsg) : Prop := pktinfo_match (cm_hdr c) (cm_data c) = None.

Lemma pktinfo4_match d hp dp :
  pktinfo_match (cm_hdr (mkCmsg IPPROTO_IP IP_PKTINFO d hp dp)) d =
  Some (SizeofInet4Pktinfo, cm_hdr (mkCmsg IPPROTO_IP IP_PKTINFO d hp dp), d).
Proof. unfold pktinfo_match. cbn [cm_hdr hdr_Level hdr_Type cm_level cm_type].
  rewrite (bool_decide_eq_true_2 (IPPROTO_IP = _)), (bool_decide_eq_true_2 (IP_PKTINFO = _)) by done.
  done.
Qed.

Lemma pktinfo6_match d hp dp :
  pktinfo_match (cm_hdr (mkCmsg IPPROTO_IPV6 IPV6_PKTINFO d hp dp)) d =
  Some (SizeofInet6Pktinfo, cm_hdr (mkCmsg IPPROTO_IPV6 IPV6_PKTINFO d hp dp), d).
Proof.
  unfold pktinfo_match. cbn [cm_hdr hdr_Level hdr_Type cm_level cm_type].
  rewrite (bool_decide_eq_false_2 (IPPROTO_IPV6 = IPPROTO_IP)); [|pose proof ip_not_ip6; congruence].
  cbn [andb]. by rewrite !bool_decide_eq_true_2.
Qed.

(** C25: IPv4 sticky sockets.  A received IP_PKTINFO message, with any other
    messages before it and anything after it, makes the endpoint report that
    local address and interface, and a reply to the endpoint carries the same
    IP_PKTINFO message again. *)
Theorem sticky_roundtrip4 pre i s a hp dp rest ep control :
  let c := mkCmsg IPPROTO_IP IP_PKTINFO (Inet4Pktinfo_bytes i s a) hp dp in
  Forall cmsg_wf pre -> Forall no_pktinfo pre -> cmsg_wf c ->
  int32_range i -> length s = 4 -> length a = 4 ->
  CmsgSpace SizeofInet4Pktinfo <= gb_cap control ->
  exists ep',
    getSrcFromControl_linux (control_bytes pre ++ cmsg_bytes c ++ rest) ep = Ret ep' /\
    ep_AddrPort ep' = ep_AddrPort ep /\
    SrcIP_linux ep' = Ret (Addr4 s) /\ SrcIfidx_linux ep' = Ret i /\
    ParseOneSocketControlMessage (gb_bytes (setSrcControl_linux control ep')) =
      inr (cm_hdr c, cm_data c, []).
Proof.
  intros c Hpre Hno Hwf Hi Hs Ha Hcap.
  pose proof (inet4_length i s a Hs Ha) as Hlen. pose proof pktinfo_sizes as [Hp _].
  destruct (getSrcFromControl_linux_first pre c rest ep SizeofInet4Pktinfo)
    as (b & hpad & dpad & Hget & Hok & Hl & Hb & Hwf'); try done.
  { split; [done|split; [done|apply pktinfo4_match]]. }
  eexists; split; [exact Hget|]. split; [done|].
  destruct (src_data (mkEndpoint (ep_AddrPort ep) (Some b)) b hpad dpad
    _ _ _ eq_refl Hok Hb Hwf') as [Hdrop Hsl]. cbn [cm_data c] in *. rewrite Hlen in Hsl.
  destruct (inet4_fields i s a dpad Hi Hs Ha) as [Hif Hsd].
  pose proof (cmsg_len_space SizeofInet4Pktinfo). pose proof (cmsg_len_add SizeofInet4Pktinfo).
  unfold SrcIP_linux, SrcIfidx_linux. rewrite Hsl, Nat.eqb_refl, Hdrop.
  rewrite (proj2 (Nat.ltb_lt _ _)) by lia. cbn [check mbind go_mbind]. rewrite Hif, Hsd.
  split_and!; [done..|].
  apply (setSrcControl_replays control _ b (mkCmsg IPPROTO_IP IP_PKTINFO (Inet4Pktinfo_bytes i s a) hpad dpad));
    [done|exact Hok|exact Hb|exact Hwf'|cbn [cm_data]; by rewrite Hlen].
Qed.

(** C26: IPv6 sticky sockets, the same for IPV6_PKTINFO. *)
Theorem sticky_roundtrip6 pre i a hp dp rest ep control :
  let c := mkCmsg IPPROTO_IPV6 IPV6_PKTINFO (Inet6Pktinfo_bytes a i) hp dp in
  Forall cmsg_wf pre -> Forall no_pktinfo pre -> cmsg_wf c ->
  (0 <= i < 2 ^ 32)%Z -> length a = 16 ->
  CmsgSpace SizeofInet6Pktinfo <= gb_cap control ->
  exists ep',
    getSrcFromControl_linux (control_bytes pre ++ cmsg_bytes c ++ rest) ep = Ret ep' /\
    ep_AddrPort ep' = ep_AddrPort ep /\
    SrcIP_linux ep' = Ret (Addr6 a "") /\ SrcIfidx_linux ep' = Ret (i32 i) /\
    ParseOneSocketControlMessage (gb_bytes (setSrcControl_linux control ep')) =
      inr (cm_hdr c, cm_data c, []).
Proof.
  intros c Hpre Hno Hwf Hi Ha Hcap.
  pose proof (inet6_length a i Ha) as Hlen. pose proof pktinfo_sizes as [_ Hp].
  destruct (getSrcFromControl_linux_first pre c rest ep SizeofInet6Pktinfo)
    as (b & hpad & dpad & Hget & Hok & Hl & Hb & Hwf'); try done.
  { split; [done|split; [done|apply pktinfo6_match]]. }
  eexists; split; [exact Hget|]. split; [done|].
  destruct (src_data (mkEndpoint (ep_AddrPort ep) (Some b)) b hpad dpad
    _ _ _ eq_refl Hok Hb Hwf') as [Hdrop Hsl]. cbn [cm_data c] in *. rewrite Hlen in Hsl.
  destruct (inet6_fields a i dpad Hi Ha) as [Had Hif].
  pose proof (cmsg_len_space SizeofInet6Pktinfo). pose proof (cmsg_len_add SizeofInet6Pktinfo).
  pose proof pktinfo_spaces.
  unfold SrcIP_linux, SrcIfidx_linux. rewrite Hsl, Nat.eqb_refl, Hdrop.
  rewrite (proj2 (Nat.eqb_neq _ _)) by lia.
  rewrite (proj2 (Nat.ltb_lt _ _)) by lia. cbn [check mbind go_mbind]. rewrite Hif, Had.
  split_and!; [done..|].
  apply (setSrcControl_replays control _ b (mkCmsg IPPROTO_IPV6 IPV6_PKTINFO (Inet6Pktinfo_bytes a i) hpad dpad));
    [done|exact Hok|exact Hb|exact Hwf'|cbn [cm_data]; by rewrite Hlen].
Qed.

(** A datagram without PKTINFO clears the cached source, whatever was
    cached before: the endpoint reports no source and a reply carries no
    source control data. *)
Theorem sticky_cleared cs ep control :
  Forall cmsg_wf cs -> Forall no_pktinfo cs -> Forall (fun c => cm_data c <> []) cs ->
  exists ep',
    getSrcFromControl_linux (control_bytes cs) ep = Ret ep' /\
    SrcIP_linux ep' = Ret AddrZero /\ SrcIfidx_linux ep' = Ret 0%Z /\
    gb_bytes (setSrcControl_linux control ep') = [].
Proof.
  intros Hwf Hno Hne. exists (ClearSrc ep).
  assert (src_len (ClearSrc ep) = 0 /\ src_bytes (ClearSrc ep) = []) as [H0 Hb].
  { unfold ClearSrc, src_len, src_bytes. destruct (ep_src ep) eqn:E; simpl; rewrite ?E; done. }
  pose proof pktinfo_sizes as [? ?].
  pose proof (cmsg_len_space SizeofInet4Pktinfo). pose proof (cmsg_len_add SizeofInet4Pktinfo).
  pose proof (cmsg_len_space SizeofInet6Pktinfo). pose proof (cmsg_len_add SizeofInet6Pktinfo).
  unfold SrcIP_linux, SrcIfidx_linux, setSrcControl_linux, getSrcFromControl_linux. rewrite H0, Hb.
  rewrite !(proj2 (Nat.eqb_neq _ _)) by lia. rewrite (scan_control_bytes pktinfo_match) by done.
  destruct (list_find _ cs) as [[j c]|] eqn:E.
  - apply list_find_Some in E as (Hj & [? Hsome] & _).
    assert (no_pktinfo c) as Hc by (eapply (Forall_lookup_1 _ _ _ _ Hno Hj)).
    unfold no_pktinfo in Hc. congruence.
  - split_and!; [done..|]. done.
Qed.
End StickyLaws.

(** *** Concrete inputs: a UDP_GRO message, then PKTINFO on interface 5 *)
Section Examples.
#[local] Existing Instance linux64.

Definition ex_gro : cmsg := mkCmsg SOL_UDP UDP_GRO (le_bytes 4 1200) [] (replicate 4 x00).
Definition ex_pad (n : nat) : list byte := replicate (CmsgSpace n - CmsgLen n) x00.
Definition ex_peer : StdNetEndpoint := mkEndpoint (mkAddrPort (Addr4 [x7f; x00; x00; x01]) 1) None.

Lemma ex_gro_wf : Forall cmsg_wf [ex_gro].
Proof. constructor; [|constructor]. by vm_compute. Qed.
Lemma ex_gro_no : Forall no_pktinfo [ex_gro].
Proof. constructor; [|constructor]. by vm_compute. Qed.

Lemma sticky_roundtrip4_witness :
  let c := mkCmsg IPPROTO_IP IP_PKTINFO
             (Inet4Pktinfo_bytes 5 [x7f; x00; x00; x01] [x7f; x00; x00; x02]) [] (ex_pad 12) in
  exists ep',
    getSrcFromControl_linux (control_bytes [ex_gro] ++ cmsg_bytes c ++ []) ex_peer = Ret ep' /\
    ep_AddrPort ep' = ep_AddrPort ex_peer /\
    SrcIP_linux ep' = Ret (Addr4 [x7f; x00; x00; x01]) /\ SrcIfidx_linux ep' = Ret 5%Z /\
    ParseOneSocketControlMessage (gb_bytes (setSrcControl_linux (gb_make 0 64) ep')) =
      inr (cm_hdr c, cm_data c, []).
Proof.
  intros c. apply (sticky_roundtrip4 [ex_gro] 5 [x7f; x00; x00; x01] [x7f; x00; x00; x02] [] (ex_pad 12)).
  - apply ex_gro_wf.
  - apply ex_gro_no.
  - by vm_compute.
  - by vm_compute.
  - done.
  - done.
  - vm_compute. lia.
Defined.

Lemma sticky_roundtrip6_witness :
  let a := replicate 15 x00 ++ [x01] in
  let c := mkCmsg IPPROTO_IPV6 IPV6_PKTINFO (Inet6Pktinfo_bytes a 5) [] (ex_pad 20) in
  exists ep',
    getSrcFromControl_linux (control_bytes [ex_gro] ++ cmsg_bytes c ++ []) ex_peer = Ret ep' /\
    ep_AddrPort ep' = ep_AddrPort ex_peer /\
    SrcIP_linux ep' = Ret (Addr6 a "") /\ SrcIfidx_linux ep' = Ret (i32 5) /\
    ParseOneSocketControlMessage (gb_bytes (setSrcControl_linux (gb_make 0 64) ep')) =
      inr (cm_hdr c, cm_data c, []).
Proof.
  intros a c. apply (sticky_roundtrip6 [ex_gro] 5 a [] (ex_pad 20)).
  - apply ex_gro_wf.
  - apply ex_gro_no.
  - by vm_compute.
  - by vm_compute.
  - done.
  - vm_compute. lia.
Defined.

Lemma sticky_cleared_witness :
  let ep := mkEndpoint (ep_AddrPort ex_peer) (Some (gb_make 32 32)) in
  SrcIP_linux ep = Ret (Addr4 [x00; x00; x00; x00]) /\
  exists ep',
    getSrcFromControl_linux (control_bytes [ex_gro]) ep = Ret ep' /\
    SrcIP_linux ep' = Ret AddrZero /\ SrcIfidx_linux ep' = Ret 0%Z /\
    gb_bytes (setSrcControl_linux (gb_make 0 64) ep') = [].
Proof.
  intros ep. split; [by vm_compute|]. apply (sticky_cleared [ex_gro]).
  - apply ex_gro_wf.
  - apply ex_gro_no.
  - by repeat constructor.
Defined.
End Examples.
