(* ===== verification/Message.v ===== *)
(** * Messages and what they put on the wire

    [Message] is [ipv6.Message] (an alias of the x/net socket message), the
    unit of the batched system calls.  [wire_datagrams] is the abstract view
    the send path is verified against: the datagrams the kernel emits for a
    message, given the segment size its control data carries. *)

From S2P Require Import Prelude Errors GoMem Netip Cmsg Gso.

Record Message := mkMessage {
  m_Buffers : list slice;
  m_OOB : gobuf;
  m_Addr : option UDPAddr;
  m_N : nat;
  m_NN : nat;
  m_Flags : Z;
}.
#[export] Instance Message_eq_dec : EqDecision Message.
Proof. solve_decision. Defined.

Definition set_Buffers (m : Message) b :=
  mkMessage b (m_OOB m) (m_Addr m) (m_N m) (m_NN m) (m_Flags m).
Definition set_OOB (m : Message) o :=
  mkMessage (m_Buffers m) o (m_Addr m) (m_N m) (m_NN m) (m_Flags m).
Definition set_Addr (m : Message) a :=
  mkMessage (m_Buffers m) (m_OOB m) a (m_N m) (m_NN m) (m_Flags m).
Definition set_N (m : Message) n :=
  mkMessage (m_Buffers m) (m_OOB m) (m_Addr m) n (m_NN m) (m_Flags m).

(** [m.Buffers[0]] as a value and as an assignment target. *)
Definition buf0 (m : Message) : go slice := must (m_Buffers m !! 0).
Definition set_buf0 (m : Message) (b : slice) : go Message :=
  match m_Buffers m with
  | _ :: r => Ret (set_Buffers m (b :: r))
  | [] => Panic
  end.

(** The payload of a message: its buffers in order. *)
Definition payload (m : mem) (msg : Message) : list byte := concat (map (load m) (m_Buffers msg)).

(** ** Segmentation

    The kernel cuts a payload into pieces of [g] bytes, the last one possibly
    shorter.  A payload that fits one piece, the empty one included, is one
    datagram. *)
Fixpoint chunks_aux (fuel g : nat) (p : list byte) : list (list byte) :=
  match fuel with
  | O => [p]
  | S fuel' =>
      if (g =? 0)%nat || (length p <=? g)%nat then [p]
      else take g p :: chunks_aux fuel' g (drop g p)
  end.
Definition chunks (g : nat) (p : list byte) : list (list byte) := chunks_aux (length p) g p.

Definition wire_datagrams {U : UnixABI} (m : mem) (msg : Message) : list (list byte) :=
  match segment_size (gb_bytes (m_OOB msg)) with
  | Some g => chunks (Z.to_nat g) (payload m msg)
  | None => [payload m msg]
  end.

(** A group of datagrams that one payload can carry: all of size [g] except the
    last, which is not empty and not longer. *)
Definition gso_group (g : nat) (G : list (list byte)) : Prop :=
  exists init last, G = init ++ [last] /\
    Forall (fun p => length p = g) init /\ 0 < length last <= g.

Lemma chunks_aux_group fuel g G :
  0 < g -> gso_group g G -> length (concat G) <= fuel -> chunks_aux fuel g (concat G) = G.
Proof.
  intros Hg (init & last & -> & Hi & Hl). revert fuel.
  induction init as [|p init IH]; intros fuel Hf.
  - simpl in *. rewrite app_nil_r in *. destruct fuel as [|fuel]; [done|]. simpl.
    rewrite (proj2 (Nat.leb_le (length last) g)) by lia. by rewrite orb_true_r.
  - inversion Hi as [|? ? Hp Hi']; subst. simpl in *. rewrite length_app in Hf.
    destruct fuel as [|fuel]; [lia|]. simpl.
    rewrite (proj2 (Nat.eqb_neq _ _)) by lia.
    rewrite (proj2 (Nat.leb_gt _ _)).
    + simpl. rewrite take_app_length, drop_app_length. f_equal. apply IH; [done|lia].
    + rewrite concat_app, !length_app. simpl. rewrite app_nil_r. lia.
Qed.

(** Segmenting a coalesced group gives the group back. *)
Lemma chunks_group g G : 0 < g -> gso_group g G -> chunks g (concat G) = G.
Proof. intros. by apply chunks_aux_group. Qed.

Lemma gso_group_single p : 0 < length p -> gso_group (length p) [p].
Proof. intros. exists [], p. split_and!; [done|constructor|done..]. Qed.

(** A group can be extended while its last datagram has the full size. *)
Lemma gso_group_snoc g G p :
  Forall (fun q => length q = g) G -> 0 < length p <= g -> gso_group g (G ++ [p]).
Proof. intros. exists G, p. done. Qed.

(** ** Segmentation counts *)
Lemma chunks_aux_count fuel g p :
  0 < g -> length p <= fuel ->
  length (chunks_aux fuel g p) = Nat.max 1 ((length p + g - 1) / g).
Proof.
  intros Hg. revert p. induction fuel as [|fuel IH]; intros p Hf; simpl.
  - replace (length p) with 0 by lia. rewrite Nat.div_small; lia.
  - rewrite (proj2 (Nat.eqb_neq _ _)) by lia. simpl.
    destruct (Nat.leb_spec (length p) g) as [Hle|Hgt].
    + simpl. symmetry. apply Nat.max_l. apply Nat.lt_succ_r, Nat.Div0.div_lt_upper_bound. lia.
    + simpl. rewrite IH by len. rewrite length_drop.
      replace (length p + g - 1) with (length p - g + g - 1 + 1 * g) by lia.
      rewrite Nat.div_add by lia.
      assert (1 <= (length p - g + g - 1) / g).
      { apply Nat.div_le_lower_bound; lia. }
      lia.
Qed.
