(* ===== verification/Coalesce.v ===== *)
(** * Coalescing datagrams for UDP GSO ([coalesceMessages] of bind_std.go)

    Datagrams for one destination are appended to the spare capacity of the
    first buffer of a batch, so that one message carries many of them; the
    segment size is attached as control data.  The main result is that the
    kernel's segmentation of the produced messages yields exactly the datagrams
    the caller passed, in order. *)

From S2P Require Import Prelude Errors GoMem Netip Cmsg Gso Sticky Message.

Definition maxIPv4PayloadLen : Z := 2 ^ 16 - 1 - 20 - 8.
Definition maxIPv6PayloadLen : Z := 2 ^ 16 - 1 - 8.
Definition udpSegmentMaxDatagrams : nat := 64.

Section Coalesce.
Context {U : UnixABI} (os : GOOS).
(** [setGSOFunc] *)
Context (setGSO : gobuf -> Z -> go gobuf).
Context (addr : UDPAddr) (ep : StdNetEndpoint).

(** The local variables of the loop, with the memory and the messages. *)
Record coalesce_st := mkCo {
  co_mem : mem;
  co_msgs : list Message;
  co_base : Z;
  co_gsoSize : nat;
  co_dgramCnt : nat;
  co_endBatch : bool;
}.

(** [msgs[base]]: a negative index panics. *)
Definition msg_at (msgs : list Message) (base : Z) : go Message :=
  _ ← check (0 <=? base)%Z; must (msgs !! Z.to_nat base).
(** [msgs[base] = m], for an index that was read before. *)
Definition put_msg (msgs : list Message) (base : Z) (m : Message) : list Message :=
  <[Z.to_nat base := m]> msgs.

(** [setGSO(&msgs[base].OOB, uint16(gsoSize))] *)
Definition mark_gso (msgs : list Message) (base : Z) (gsoSize : nat) : go (list Message) :=
  m ← msg_at msgs base;
  oob ← setGSO (m_OOB m) (u16 (Z.of_nat gsoSize));
  Ret (put_msg msgs base (set_OOB m oob)).

Definition maxPayloadLen : Z :=
  if Is6 (DstIP ep) then maxIPv6PayloadLen else maxIPv4PayloadLen.

(** The part of the loop body after the [if i > 0] block: start a new message. *)
Definition start_batch (buf : slice) (st : coalesce_st) : go coalesce_st :=
  msgs ← (if (1 <? co_dgramCnt st)%nat
          then mark_gso (co_msgs st) (co_base st) (co_gsoSize st) else Ret (co_msgs st));
  let base := (co_base st + 1)%Z in
  m ← msg_at msgs base;
  m ← set_buf0 (set_OOB m (setSrcControl os (m_OOB m) ep)) buf;
  Ret (mkCo (co_mem st) (put_msg msgs base (set_Addr m (Some addr))) base (s_len buf) 1 false).

(** One iteration: [i] is the index of [buf], [n] is [len(bufs)]. *)
Definition coalesce_step (n i : nat) (buf : slice) (st : coalesce_st) : go coalesce_st :=
  if (0 <? i)%nat then
    let msgLen := s_len buf in
    m ← msg_at (co_msgs st) (co_base st);
    b ← buf0 m;
    let baseLenBefore := s_len b in
    let freeBaseCap := (s_cap b - baseLenBefore)%nat in
    if (Z.of_nat (msgLen + baseLenBefore) <=? maxPayloadLen)%Z
       && (msgLen <=? co_gsoSize st)%nat
       && (msgLen <=? freeBaseCap)%nat
       && (co_dgramCnt st <? udpSegmentMaxDatagrams)%nat
       && negb (co_endBatch st)
    then
      let '(mem', b') := append (co_mem st) b (load (co_mem st) buf) in
      m ← set_buf0 m b';
      let msgs := put_msg (co_msgs st) (co_base st) m in
      msgs ← (if (i =? n - 1)%nat then mark_gso msgs (co_base st) (co_gsoSize st) else Ret msgs);
      Ret (mkCo mem' msgs (co_base st) (co_gsoSize st) (co_dgramCnt st + 1)
                (if (msgLen <? co_gsoSize st)%nat then true else co_endBatch st))
    else start_batch buf st
  else start_batch buf st.

Fixpoint coalesce_loop (n i : nat) (bufs : list slice) (st : coalesce_st) : go coalesce_st :=
  match bufs with
  | [] => Ret st
  | buf :: rest => st ← coalesce_step n i buf st; coalesce_loop n (S i) rest st
  end.

(** The number of messages used, with the messages and the memory. *)
Definition coalesceMessages (m : mem) (bufs : list slice) (msgs : list Message)
    : go (nat * list Message * mem) :=
  st ← coalesce_loop (length bufs) 0 bufs (mkCo m msgs (-1) 0 0 false);
  Ret (Z.to_nat (co_base st + 1), co_msgs st, co_mem st).
End Coalesce.

(** ** Separation of lists of slices *)

Fixpoint seps (l : list slice) : Prop :=
  match l with
  | [] => True
  | s :: r => Forall (sep s) r /\ seps r
  end.
#[export] Instance seps_dec l : Decision (seps l).
Proof. induction l; simpl; apply _. Defined.

Lemma seps_app l1 l2 :
  seps (l1 ++ l2) <-> seps l1 /\ seps l2 /\ Forall (fun s => Forall (sep s) l2) l1.
Proof.
  induction l1 as [|s l1 IH]; simpl; [naive_solver|].
  rewrite IH, Forall_app, list.Forall_cons. naive_solver.
Qed.

Lemma seps_delete l1 s l2 : seps (l1 ++ s :: l2) -> seps (l1 ++ l2).
Proof.
  rewrite !seps_app. simpl. intros (? & [? ?] & Hf). split_and!; try done.
  eapply list.Forall_impl; [exact Hf|]. intros ? Hx. by inversion Hx.
Qed.

(** Two slices over the same window of an array. *)
Definition window (s t : slice) : Prop :=
  s_arr s = s_arr t /\ s_off s = s_off t /\ s_cap s = s_cap t.

Lemma window_sep s s' t : window s s' -> sep s' t -> sep s t.
Proof. intros (? & ? & ?). unfold sep. destruct s, s'; simpl in *; subst. done. Qed.

Lemma window_ok m s t : window s t -> slice_ok m t -> s_len s <= s_cap s -> slice_ok m s.
Proof. intros (Ha & Ho & Hc) [? ?] ?. split; [done|]. rewrite Ha, Ho, Hc. done. Qed.

(** ** The contract between coalescing and the control data helpers

    [oob_ok] describes the control buffers of unused messages, [gso_ready]
    those that [setSrcControl] prepared and that have no segment size yet. *)
Class ControlContract {U : UnixABI} (os : GOOS) (setGSO : gobuf -> Z -> go gobuf)
    (ep : StdNetEndpoint) (oob_ok gso_ready : gobuf -> Prop) : Prop := {
  cc_src o : oob_ok o -> gso_ready (setSrcControl os o ep);
  cc_none o : gso_ready o -> segment_size (gb_bytes o) = None;
  cc_gso o g : gso_ready o -> (0 <= g < 2 ^ 16)%Z ->
    exists o', setGSO o g = Ret o' /\ segment_size (gb_bytes o') = Some g;
}.

(** On Linux: room for the cached source and a segment size; the cached source
    is a sequence of messages of other levels than UDP. *)
Definition oob_ok_linux {U : UnixABI} (ep : StdNetEndpoint) (o : gobuf) : Prop :=
  src_len ep + gsoControlSize_linux <= gb_cap o.
Definition gso_ready_linux {U : UnixABI} (ep : StdNetEndpoint) (o : gobuf) : Prop :=
  gb_ok o /\ gb_bytes o = src_bytes ep /\ gsoControlSize_linux <= gb_cap o - gb_len o.
Definition src_control {U : UnixABI} (ep : StdNetEndpoint) : Prop :=
  src_ok ep /\ exists cs, src_bytes ep = control_bytes cs /\ Forall cmsg_wf cs /\
    Forall (fun c => cm_level c <> SOL_UDP) cs /\ Forall (fun c => cm_data c <> []) cs.

Lemma control_linux {U : UnixABI} {UL : UnixLaws U} ep :
  src_control ep ->
  ControlContract Linux (setGSOSize Linux) ep (oob_ok_linux ep) (gso_ready_linux ep).
Proof.
  intros (Hok & cs & Hcs & Hwf & Hlv & Hne). split.
  - intros o Ho. unfold oob_ok_linux in Ho.
    change (setSrcControl Linux o ep) with (setSrcControl_linux o ep).
    destruct (setSrcControl_linux_bytes o ep Hok) as (Hb & Hc & Hk); [lia|].
    unfold gso_ready_linux. rewrite Hb, Hc. split_and!; [done..|].
    rewrite <- (length_gb_bytes _ Hk), Hb, length_src_bytes by done. lia.
  - intros o (_ & -> & _). rewrite Hcs. by apply segment_size_none.
  - intros o g (Hk & Hb & Hr) Hg. unfold setGSOSize. cbn [linux_or_android].
    destruct (setGSOSize_linux_spec o g Hk Hr) as (hp & dp & o' & -> & Hwf' & Hb' & _ & _).
    exists o'. split; [done|]. rewrite Hb', Hb, Hcs. by apply segment_size_gso_cmsg.
Qed.

(** On Android nothing is cached: the control buffers are empty. *)
Definition oob_ok_android {U : UnixABI} (o : gobuf) : Prop :=
  gb_ok o /\ gb_len o = 0 /\ gsoControlSize_linux <= gb_cap o.

Lemma control_android {U : UnixABI} {UL : UnixLaws U} ep :
  ControlContract Android (setGSOSize Android) ep oob_ok_android oob_ok_android.
Proof.
  assert (forall o, oob_ok_android o -> gb_bytes o = []) as Hnil.
  { intros o (_ & Hl & _). unfold gb_bytes. by rewrite Hl. }
  split.
  - done.
  - intros o Ho. by rewrite Hnil.
  - intros o g Ho Hg. unfold setGSOSize. cbn [linux_or_android].
    destruct Ho as (Hk & Hl & Hr). unfold gsoControlSize_linux in Hr.
    destruct (setGSOSize_linux_spec o g Hk) as (hp & dp & o' & -> & Hwf' & Hb' & _ & _); [lia|].
    exists o'. split; [done|]. rewrite Hb'.
    replace (gb_bytes o) with (control_bytes []) by (unfold gb_bytes; by rewrite Hl).
    by apply segment_size_gso_cmsg.
Qed.

(** ** Correctness *)

Section CoalesceCorrect.
Context {U : UnixABI} {UL : UnixLaws U} {os : GOOS} {setGSO : gobuf -> Z -> go gobuf}.
Context {addr : UDPAddr} {ep : StdNetEndpoint} {oob_ok gso_ready : gobuf -> Prop}.
Context `{!ControlContract os setGSO ep oob_ok gso_ready}.
Local Open Scope nat_scope.

(** A message of the pool, ready to be filled. *)
Definition msg_ready (msg : Message) : Prop :=
  oob_ok (m_OOB msg) /\ exists b, m_Buffers msg = [b].

(** The limits of one UDP_SEGMENT send. *)
Definition group_limits (G : list (list byte)) : Prop :=
  length G <= udpSegmentMaxDatagrams /\
  (1 < length G -> (Z.of_nat (length (concat G)) <= maxPayloadLen ep)%Z).

(** Control data that is complete: as [setSrcControl] left it, or with a segment
    size attached to that. *)
Definition oob_done (o : gobuf) : Prop :=
  gso_ready o \/ exists o0 g, gso_ready o0 /\ (0 <= g < 2 ^ 16)%Z /\ setGSO o0 g = Ret o.

(** A finished message: it lives in the window [own] and the kernel makes the
    datagrams [G] of it. *)
Definition closed_msg (m : mem) (msg : Message) (own : slice) (G : list (list byte)) : Prop :=
  m_Addr msg = Some addr /\ wire_datagrams m msg = G /\ group_limits G /\ oob_done (m_OOB msg) /\
  exists b, m_Buffers msg = [b] /\ window b own /\ s_len b <= s_cap b.

(** The message being filled, whose segment size is not attached yet. *)
Definition open_msg (m : mem) (msg : Message) (own : slice) (G : list (list byte))
    (gso : nat) (endb : bool) : Prop :=
  m_Addr msg = Some addr /\ gso_ready (m_OOB msg) /\ group_limits G /\
  gso_group gso G /\ 0 < gso /\
  (1 < length G -> (Z.of_nat gso < 2 ^ 16)%Z) /\
  (endb = false -> Forall (fun p => length p = gso) G) /\
  exists b, m_Buffers msg = [b] /\ window b own /\ s_len b <= s_cap b /\ load m b = concat G /\
    s_len own <= s_len b.

Lemma payload_single m msg b : m_Buffers msg = [b] -> payload m msg = load m b.
Proof. intros E. unfold payload. rewrite E. simpl. by rewrite app_nil_r. Qed.

(** Frame: writing inside a window that is separate from a message's. *)
Lemma closed_msg_store m s i bs msg own G :
  slice_ok m s -> i + length bs <= s_cap s -> slice_ok m own -> sep s own ->
  closed_msg m msg own G -> closed_msg (store m s i bs) msg own G.
Proof.
  intros Hs Hi Hown Hsep (Ha & Hw & Hl & Ho & b & Hb & Hwin & Hlc). split_and!; try done; [|eauto].
  unfold wire_datagrams in *. rewrite !(payload_single _ _ _ Hb) in *.
  rewrite load_store_sep; [done|done|done| |].
  - eapply window_ok; eauto.
  - apply sep_sym. eapply window_sep; [exact Hwin|]. by apply sep_sym.
Qed.

(** A group of one datagram needs no segment size. *)
Lemma open_single_closed m msg own G gso endb :
  length G = 1 -> open_msg m msg own G gso endb -> closed_msg m msg own G.
Proof.
  intros HG (Ha & Hr & Hl & _ & _ & _ & _ & b & Hb & Hwin & Hlc & Hld & _).
  split_and!; try done; [|by left|eauto]. unfold wire_datagrams.
  rewrite (cc_none _ Hr), (payload_single _ _ _ Hb), Hld.
  destruct G as [|p [|]]; try discriminate. simpl. by rewrite app_nil_r.
Qed.

Lemma u16_nat n : (Z.of_nat n < 2 ^ 16)%Z -> u16 (Z.of_nat n) = Z.of_nat n.
Proof. intros. apply u16_small. lia. Qed.

(** Attaching the segment size closes a group of several datagrams. *)
Lemma mark_gso_closes m done cur rest own G gso endb :
  1 < length G -> open_msg m cur own G gso endb ->
  exists cur', mark_gso setGSO (done ++ cur :: rest) (Z.of_nat (length done)) gso
                 = Ret (done ++ cur' :: rest) /\ closed_msg m cur' own G.
Proof.
  intros HG (Ha & Hr & Hl & Hg & Hpos & H16 & _ & b & Hb & Hwin & Hlc & Hld & _).
  specialize (H16 HG). unfold mark_gso, msg_at, put_msg.
  rewrite (proj2 (Z.leb_le _ _)) by lia. simpl.
  rewrite Nat2Z.id, list_lookup_middle by done. simpl.
  rewrite u16_nat by done.
  destruct (cc_gso (m_OOB cur) (Z.of_nat gso) Hr) as (o' & Hset & Hseg); [lia|]. rewrite Hset. simpl.
  exists (set_OOB cur o'). rewrite insert_app_r_alt by lia. rewrite Nat.sub_diag. simpl.
  split; [done|]. split_and!; try done; [|right; exists (m_OOB cur), (Z.of_nat gso); split_and!; (done || lia)|eauto].
  unfold wire_datagrams. simpl. rewrite Hseg, Nat2Z.id.
  rewrite (payload_single _ _ b) by done. rewrite Hld. by apply chunks_group.
Qed.
(** The caller's buffers [all], and the bytes they hold. *)
Context {all : list slice} {bytes : list (list byte)} (Hall : seps all).
Definition caller_ok (m : mem) : Prop := Forall (slice_ok m) all /\ map (load m) all = bytes.

Lemma seps_elem l s t : seps l -> s ∈ l -> t ∈ l -> s = t \/ sep s t.
Proof.
  induction l as [|x l IH]; simpl; [by intros _ ?%not_elem_of_nil|].
  intros [Hx Hl] Hs Ht. rewrite list.Forall_forall in Hx.
  apply elem_of_cons in Hs as [->|Hs]; apply elem_of_cons in Ht as [->|Ht]; eauto.
  right. apply sep_sym. by apply Hx.
Qed.

(** Writing in the spare capacity of one of the caller's buffers. *)
Lemma caller_ok_store m b own bs :
  caller_ok m -> own ∈ all -> window b own -> slice_ok m b -> s_len own <= s_len b ->
  s_len b + length bs <= s_cap b -> caller_ok (store m b (s_len b) bs).
Proof.
  intros [Hok Hb] Hown Hwin Hbok Hle Hfit. split.
  - eapply list.Forall_impl; [exact Hok|]. intros. by apply slice_ok_store.
  - rewrite <- Hb. apply map_ext_in. intros t Ht%list_elem_of_In.
    rewrite list.Forall_forall in Hok. specialize (Hok t Ht) as Htok.
    destruct (seps_elem all own t Hall Hown Ht) as [->|Hs].
    + destruct Hwin as (Ha & Ho & Hc).
      replace (store m b (s_len b) bs) with (store m t (s_len b) bs)
        by (unfold store; by rewrite Ha, Ho).
      apply load_store_tail; [done|lia|done].
    + apply load_store_sep; try done. by eapply window_sep.
Qed.

(** The loop invariant, with [rem] the buffers still to come, [done_] the
    datagrams of the messages so far and [todo] those of [rem]. *)
Definition coalesce_inv (st : coalesce_st) (rem : list slice) (done_ todo : list (list byte)) : Prop :=
  exists closed cur rest owns own Gs G,
    co_msgs st = closed ++ cur :: rest /\
    co_base st = Z.of_nat (length closed) /\
    Forall3 (closed_msg (co_mem st)) closed owns Gs /\
    open_msg (co_mem st) cur own G (co_gsoSize st) (co_endBatch st) /\
    length G = co_dgramCnt st /\
    concat Gs ++ G = done_ /\
    seps (owns ++ own :: rem) /\
    Forall (slice_ok (co_mem st)) (owns ++ own :: rem) /\
    map (load (co_mem st)) rem = todo /\
    Forall (fun s => 0 < s_len s) rem /\
    Forall msg_ready rest /\ length rem <= length rest /\
    caller_ok (co_mem st) /\ Forall (fun s => s ∈ all) (owns ++ own :: rem).

(** The end state: every used message is finished. *)
Definition coalesce_post (st : coalesce_st) (dgrams : list (list byte)) : Prop :=
  exists used rest owns Gs,
    co_msgs st = used ++ rest /\ (co_base st + 1 = Z.of_nat (length used))%Z /\
    Forall3 (closed_msg (co_mem st)) used owns Gs /\ concat Gs = dgrams /\
    caller_ok (co_mem st) /\ Forall (fun s => s ∈ all) owns.

Lemma Forall3_snoc {A B C} (P : A -> B -> C -> Prop) l1 l2 l3 x y z :
  Forall3 P l1 l2 l3 -> P x y z -> Forall3 P (l1 ++ [x]) (l2 ++ [y]) (l3 ++ [z]).
Proof. intros. apply Forall3_app; [done|]. repeat constructor. done. Qed.

(** Filling the next message of the pool with one datagram. *)
Lemma start_batch_fresh st pre msg rest buf :
  0 < s_len buf -> slice_ok (co_mem st) buf -> msg_ready msg ->
  (if (1 <? co_dgramCnt st)%nat
   then mark_gso setGSO (co_msgs st) (co_base st) (co_gsoSize st) else Ret (co_msgs st))
    = Ret (pre ++ msg :: rest) ->
  (co_base st + 1 = Z.of_nat (length pre))%Z ->
  exists cur,
    start_batch os setGSO addr ep buf st =
      Ret (mkCo (co_mem st) (pre ++ cur :: rest) (Z.of_nat (length pre)) (s_len buf) 1 false) /\
    open_msg (co_mem st) cur buf [load (co_mem st) buf] (s_len buf) false.
Proof.
  intros Hpos Hok [Hoob [b0 Hb0]] Hmark Hbase. unfold start_batch. rewrite Hmark. simpl.
  rewrite Hbase. unfold msg_at, put_msg.
  rewrite (proj2 (Z.leb_le _ _)) by lia. simpl.
  rewrite Nat2Z.id, list_lookup_middle by done. simpl.
  unfold set_buf0. cbn [m_Buffers set_OOB]. rewrite Hb0. simpl.
  eexists. split.
  - rewrite insert_app_r_alt by lia. rewrite Nat.sub_diag. simpl. done.
  - pose proof (length_load _ _ Hok) as Hll. unfold open_msg, group_limits, udpSegmentMaxDatagrams.
    cbn [m_Addr m_OOB m_Buffers set_Addr set_Buffers set_OOB length].
    split_and!; try done; try lia.
    + by apply cc_src.
    + rewrite <- Hll. apply gso_group_single. lia.
    + intros _. by constructor.
    + exists buf. destruct Hok. split_and!; try done. simpl. by rewrite app_nil_r.
Qed.

(** Starting a new message keeps the invariant: the current one is finished. *)
Lemma start_batch_inv st buf rem done_ d todo :
  coalesce_inv st (buf :: rem) done_ (d :: todo) ->
  exists st', start_batch os setGSO addr ep buf st = Ret st' /\
    coalesce_inv st' rem (done_ ++ [d]) todo /\ co_dgramCnt st' = 1.
Proof.
  intros (closed & cur & rest & owns & own & Gs & G & Hm & Hb & Hcl & Hop & HG & Hd & Hsep & Hoks &
          Hld & Hpos & Hrdy & Hlen & Hcal & Hown).
  injection Hld as Hd1 Hd2. inversion Hpos as [|? ? Hp1 Hp2]; subst.
  destruct rest as [|msg rest]; [simpl in Hlen; lia|]. inversion Hrdy as [|? ? Hr1 Hr2]; subst.
  assert (slice_ok (co_mem st) buf) as Hbuf.
  { rewrite Forall_app in Hoks. destruct Hoks as [_ Hoks]. inversion Hoks as [|? ? _ Hx]; subst.
    by inversion Hx. }
  assert (exists cur', (if (1 <? co_dgramCnt st)%nat
     then mark_gso setGSO (co_msgs st) (co_base st) (co_gsoSize st) else Ret (co_msgs st))
      = Ret ((closed ++ [cur']) ++ msg :: rest) /\ closed_msg (co_mem st) cur' own G)
    as (cur' & Hmark & Hcl').
  { rewrite <- HG, Hm, Hb. destruct (Nat.ltb_spec 1 (length G)) as [Hlt|Hge].
    - destruct (mark_gso_closes (co_mem st) closed cur (msg :: rest) own G
                  (co_gsoSize st) (co_endBatch st) Hlt Hop) as (cur' & ? & ?).
      exists cur'. by rewrite <- app_assoc.
    - exists cur. rewrite <- app_assoc. split; [done|].
      eapply open_single_closed; [|exact Hop].
      destruct Hop as (_ & _ & _ & (i & l & -> & _) & _). rewrite length_app in *. simpl in *. lia. }
  destruct (start_batch_fresh st (closed ++ [cur']) msg rest buf Hp1 Hbuf Hr1 Hmark)
    as (cur2 & Hst & Hop2).
  { rewrite Hb, length_app. simpl. lia. }
  eexists. split; [exact Hst|]. split; [|done].
  exists (closed ++ [cur']), cur2, rest, (owns ++ [own]), buf, (Gs ++ [G]), [load (co_mem st) buf].
  cbn [co_mem co_msgs co_base co_gsoSize co_dgramCnt co_endBatch].
  split_and!; try done.
  - by apply Forall3_snoc.
  - rewrite concat_app. simpl. by rewrite app_nil_r.
  - by rewrite <- app_assoc.
  - by rewrite <- app_assoc.
  - simpl in Hlen. lia.
  - by rewrite <- app_assoc.
Qed.

(** Appending to the current message. *)
Lemma append_open m cur own buf G gso m' b b' :
  open_msg m cur own G gso false -> m_Buffers cur = [b] ->
  slice_ok m own -> slice_ok m buf -> sep own buf ->
  0 < s_len buf -> s_len buf <= gso -> s_len buf <= s_cap b - s_len b ->
  (Z.of_nat (s_len buf + s_len b) <= maxPayloadLen ep)%Z ->
  length G < udpSegmentMaxDatagrams ->
  append m b (load m buf) = (m', b') ->
  open_msg m' (set_Buffers cur [b']) own (G ++ [load m buf]) gso
    (if s_len buf <? gso then true else false) /\
  m' = store m b (s_len b) (load m buf) /\ window b own /\ slice_ok m b /\
  s_len b + length (load m buf) <= s_cap b /\ s_len own <= s_len b.
Proof.
  intros (Ha & Hr & Hl & Hg & Hpos & H16 & Hfull & b0 & Hb & Hwin & Hlc & Hld & Hob) Hb'
    Hown Hbuf Hsep Hp Hle Hfree Hmax Hcnt Happ.
  rewrite Hb in Hb'. injection Hb' as ->. specialize (Hfull eq_refl).
  pose proof (length_load _ _ Hbuf) as Hll. pose proof (window_ok m b own Hwin Hown Hlc) as Hbok.
  destruct (append_in_place m b (load m buf) m' b' Hbok) as (-> & -> & Hld'); [lia|done|].
  pose proof (length_load _ _ Hbok) as Hlb.
  assert (gso <= s_len b) as Hgl.
  { rewrite <- Hlb, Hld. destruct Hg as (i & l & -> & Hi & Hlast).
    apply Forall_app in Hfull as [_ Hlst]. inversion Hlst; subst.
    rewrite concat_app, length_app. simpl. rewrite app_nil_r. lia. }
  assert (maxPayloadLen ep < 2 ^ 16)%Z as Hm16.
  { unfold maxPayloadLen, maxIPv4PayloadLen, maxIPv6PayloadLen. destruct (Is6 _); lia. }
  split; [|split_and!; try done; lia].
  unfold open_msg, group_limits. cbn [m_Addr m_OOB m_Buffers set_Buffers].
  split_and!; try done; try (rewrite length_app; simpl; lia); try lia.
  - intros _. rewrite concat_app, length_app, <- Hld. simpl. rewrite app_nil_r. lia.
  - apply gso_group_snoc; [done|lia].
  - destruct (Nat.ltb_spec (s_len buf) gso); [done|]. intros _.
    apply Forall_app. split; [done|]. repeat constructor. lia.
  - eexists. split; [done|]. cbn [s_len s_cap]. split_and!.
    + destruct Hwin as (? & ? & ?). unfold window. done.
    + lia.
    + rewrite Hld', Hld, concat_app. simpl. by rewrite app_nil_r.
    + lia.
Qed.
(** The condition under which a datagram joins the current message. *)
Definition fits (st : coalesce_st) (b buf : slice) : bool :=
  (Z.of_nat (s_len buf + s_len b) <=? maxPayloadLen ep)%Z
  && (s_len buf <=? co_gsoSize st)%nat
  && (s_len buf <=? s_cap b - s_len b)%nat
  && (co_dgramCnt st <? udpSegmentMaxDatagrams)%nat
  && negb (co_endBatch st).

(** Memory facts that survive a write inside the current window. *)
Lemma store_frame m b own owns rem (i : nat) bs closed Gs :
  window b own -> slice_ok m b -> i + length bs <= s_cap b ->
  seps (owns ++ own :: rem) -> Forall (slice_ok m) (owns ++ own :: rem) ->
  Forall3 (closed_msg m) closed owns Gs ->
  Forall3 (closed_msg (store m b i bs)) closed owns Gs /\
  Forall (slice_ok (store m b i bs)) (owns ++ own :: rem) /\
  map (load (store m b i bs)) rem = map (load m) rem.
Proof.
  intros Hwin Hb Hi Hsep Hoks Hcl. split_and!.
  - rewrite seps_app in Hsep. destruct Hsep as (_ & _ & Hx). apply Forall_app in Hoks as [Ho _].
    clear - Hwin Hb Hi Hcl Hx Ho. induction Hcl as [|c o G cs os Gs Hc _ IH]; [constructor|].
    inversion Hx as [|? ? Hs Hx']; subst. inversion Ho as [|? ? Ho1 Ho2]; subst.
    constructor; [|by apply IH]. apply closed_msg_store; try done.
    inversion Hs; subst. eapply window_sep; [exact Hwin|]. by apply sep_sym.
  - eapply list.Forall_impl; [exact Hoks|]. intros. by apply slice_ok_store.
  - rewrite seps_app in Hsep. destruct Hsep as (_ & [Hs _] & _).
    apply Forall_app in Hoks as [_ Ho]. inversion Ho as [|? ? _ Ho']; subst.
    clear - Hwin Hb Hi Hs Ho'. induction rem as [|t rem IH]; [done|].
    inversion Hs; inversion Ho'; subst. simpl. f_equal; [|by apply IH].
    apply load_store_sep; try done. eapply window_sep; eauto.
Qed.

(** A datagram that fits joins the current message. *)
Lemma coalesce_step_append n i buf rem st b closed cur rest owns own Gs G d todo :
  0 < i -> n = i + S (length rem) ->
  co_msgs st = closed ++ cur :: rest -> co_base st = Z.of_nat (length closed) ->
  Forall3 (closed_msg (co_mem st)) closed owns Gs ->
  open_msg (co_mem st) cur own G (co_gsoSize st) (co_endBatch st) ->
  length G = co_dgramCnt st ->
  seps (owns ++ own :: buf :: rem) ->
  Forall (slice_ok (co_mem st)) (owns ++ own :: buf :: rem) ->
  map (load (co_mem st)) (buf :: rem) = d :: todo ->
  Forall (fun s => 0 < s_len s) (buf :: rem) ->
  Forall msg_ready rest -> length rem <= length rest ->
  m_Buffers cur = [b] -> fits st b buf = true ->
  caller_ok (co_mem st) -> Forall (fun s => s ∈ all) (owns ++ own :: buf :: rem) ->
  exists st', coalesce_step os setGSO addr ep n i buf st = Ret st' /\
    (rem <> [] -> coalesce_inv st' rem (concat Gs ++ G ++ [d]) todo) /\
    (rem = [] -> coalesce_post st' (concat Gs ++ G ++ [d])).
Proof.
  intros Hi Hn Hm Hb Hcl Hop HG Hsep Hoks Hld Hpos Hrdy Hlen Hcur Hfit Hcal Howns.
  unfold coalesce_step. rewrite (proj2 (Nat.ltb_lt _ _) Hi), Hm, Hb.
  unfold msg_at, buf0. rewrite (proj2 (Z.leb_le _ _)) by lia. simpl.
  rewrite Nat2Z.id, list_lookup_middle by done. simpl. rewrite Hcur. simpl.
  unfold fits in Hfit. rewrite Hfit. bool_simp.
  match goal with E : co_endBatch st = false |- _ => rewrite E in * end.
  injection Hld as Hd1 Hd2. inversion Hpos as [|? ? Hp1 Hp2]; subst d.
  pose proof Hoks as Hoks'. apply Forall_app in Hoks' as [_ Hox].
  inversion Hox as [|? ? Hown Hox']; subst. inversion Hox' as [|? ? Hbuf _]; subst.
  pose proof Hsep as Hsep'. rewrite seps_app in Hsep'. destruct Hsep' as (_ & [Hso _] & _).
  inversion Hso as [|? ? Hsb _]; subst.
  destruct (append (co_mem st) b (load (co_mem st) buf)) as [m' b'] eqn:Happ.
  destruct (append_open (co_mem st) cur own buf G (co_gsoSize st) m' b b')
    as (Hop' & -> & Hwin & Hbok & Hfit' & Hob); try done; try lia.
  apply Forall_app in Howns as [Hoalls Howns].
  inversion Howns as [|? ? Hoall Hx2]; subst. inversion Hx2 as [|? ? _ Hrall]; subst.
  assert (Forall (fun s => s ∈ all) (owns ++ own :: rem)) as Howns2
    by (apply Forall_app; split; [done|by constructor]).
  pose proof (caller_ok_store _ b own (load (co_mem st) buf) Hcal Hoall Hwin Hbok Hob Hfit') as Hcal'.
  assert (seps (owns ++ own :: rem)) as Hsep2.
  { pose proof (seps_delete (owns ++ [own]) buf rem) as X. rewrite <- !app_assoc in X. by apply X. }
  assert (Forall (slice_ok (co_mem st)) (owns ++ own :: rem)) as Hoks2.
  { apply Forall_app in Hoks as [? ?]. apply Forall_app. split; [done|]. by constructor; inversion Hox'. }
  destruct (store_frame (co_mem st) b own owns rem (s_len b) (load (co_mem st) buf) closed Gs)
    as (Hcl' & Hoks3 & Hrem); try done.
  unfold set_buf0. rewrite Hcur. simpl. unfold put_msg.
  rewrite Nat2Z.id, insert_app_r_alt by lia. rewrite Nat.sub_diag. cbn [insert list_insert].
  destruct rem as [|r rem].
  - rewrite (proj2 (Nat.eqb_eq _ _)) by (simpl; lia).
    assert (1 < length (G ++ [load (co_mem st) buf])) as HG1.
    { destruct Hop as (_ & _ & _ & (? & ? & -> & _) & _). rewrite !length_app. simpl. lia. }
    destruct (mark_gso_closes _ closed _ rest own _ _ _ HG1 Hop') as (cur' & Hmk & Hclosed).
    rewrite Hmk. simpl. eexists. split; [done|]. split; [done|]. intros _.
    exists (closed ++ [cur']), rest, (owns ++ [own]), (Gs ++ [G ++ [load (co_mem st) buf]]).
    cbn [co_mem co_msgs co_base]. split_and!.
    + by rewrite <- app_assoc.
    + rewrite length_app. simpl. lia.
    + by apply Forall3_snoc.
    + rewrite concat_app. simpl. by rewrite app_nil_r.
    + done.
    + apply Forall_app. by split; [|repeat constructor].
  - rewrite (proj2 (Nat.eqb_neq _ _)) by (simpl; lia). simpl.
    eexists. split; [done|]. split; [|done]. intros _.
    exists closed, (set_Buffers cur [b']), rest, owns, own, Gs, (G ++ [load (co_mem st) buf]).
    cbn [co_mem co_msgs co_base co_gsoSize co_dgramCnt co_endBatch].
    split_and!; try done. rewrite length_app; simpl; lia.
Qed.

(** The loop from the second buffer on. *)
Lemma coalesce_loop_inv n i bufs st done_ todo :
  0 < i -> n = i + length bufs -> bufs <> [] ->
  coalesce_inv st bufs done_ todo ->
  exists st', coalesce_loop os setGSO addr ep n i bufs st = Ret st' /\
    coalesce_post st' (done_ ++ todo).
Proof.
  revert i st done_ todo. induction bufs as [|buf rem IH]; intros i st done_ todo Hi Hn Hne Hinv;
    [done|].
  pose proof Hinv as (closed & cur & rest & owns & own & Gs & G & Hm & Hb & Hcl & Hop & HG & Hd &
    Hsep & Hoks & Hld & Hpos & Hrdy & Hlen & Hcal & Hown).
  destruct todo as [|d todo]; [discriminate|].
  assert (exists b, m_Buffers cur = [b]) as [b Hcur]
    by (destruct Hop as (_ & _ & _ & _ & _ & _ & _ & b & ? & _); eauto).
  assert (exists st', coalesce_step os setGSO addr ep n i buf st = Ret st' /\
    (rem <> [] -> coalesce_inv st' rem (done_ ++ [d]) todo) /\
    (rem = [] -> coalesce_post st' (done_ ++ [d]))) as (st' & Hst & H1 & H2).
  { destruct (fits st b buf) eqn:Hfit.
    - subst done_. rewrite <- (app_assoc (concat Gs)).
      eapply (coalesce_step_append n i buf rem st b closed cur rest owns own Gs G d todo); try done.
      simpl in Hlen. lia.
    - destruct (start_batch_inv st buf rem done_ d todo Hinv) as (st' & Hst & Hinv' & Hc1).
      exists st'. split; [|split; [done|]].
      + unfold coalesce_step. rewrite (proj2 (Nat.ltb_lt _ _) Hi), Hm, Hb.
        unfold msg_at, buf0. rewrite (proj2 (Z.leb_le _ _)) by lia. simpl.
        rewrite Nat2Z.id, list_lookup_middle by done. simpl. rewrite Hcur. simpl.
        unfold fits in Hfit. by rewrite Hfit.
      + intros ->. clear Hinv. destruct Hinv' as (c' & cur' & r' & os' & own' & Gs' & G' & Hm' & Hb' &
          Hcl' & Hop' & HG' & Hd' & _ & _ & Hld' & _ & _ & _ & Hcal' & Hown').
        exists (c' ++ [cur']), r', (os' ++ [own']), (Gs' ++ [G']). split_and!.
        * by rewrite <- app_assoc.
        * rewrite Hb', length_app. simpl. lia.
        * apply Forall3_snoc; [done|]. eapply open_single_closed; [|exact Hop']. congruence.
        * rewrite concat_app. simpl. by rewrite app_nil_r.
        * done.
        * done. }
  simpl. rewrite Hst. simpl. destruct rem as [|r rem].
  - exists st'. injection Hld as _ <-. split; [done|]. by apply H2.
  - destruct (IH (S i) st' (done_ ++ [d]) todo) as (st2 & Hl2 & Hp2); try done.
    + lia.
    + simpl in *. lia.
    + by apply H1.
    + exists st2. split; [done|]. by rewrite <- app_assoc in Hp2.
Qed.

(** From the first buffer on. *)
Lemma coalesce_all m msgs bufs :
  caller_ok m -> Forall (fun s => s ∈ all) bufs -> seps bufs ->
  Forall (slice_ok m) bufs -> Forall (fun s => 0 < s_len s) bufs ->
  Forall msg_ready msgs -> length bufs <= length msgs ->
  exists st, coalesce_loop os setGSO addr ep (length bufs) 0 bufs (mkCo m msgs (-1) 0 0 false) = Ret st
    /\ coalesce_post st (map (load m) bufs).
Proof.
  intros Hcal Hown Hsep Hok Hpos Hrdy Hlen. destruct bufs as [|buf rem].
  { eexists. split; [done|]. exists [], msgs, [], []. simpl. split_and!; try done. constructor. }
  destruct msgs as [|msg rest]; [simpl in Hlen; lia|].
  inversion Hok as [|? ? Hok1 Hok2]; subst. inversion Hpos as [|? ? Hp1 Hp2]; subst.
  inversion Hrdy as [|? ? Hr1 Hr2]; subst.
  destruct (start_batch_fresh (mkCo m (msg :: rest) (-1) 0 0 false) [] msg rest buf) as (cur & Hst & Hop);
    try done.
  cbn [co_mem] in *.
  assert (coalesce_inv (mkCo m (cur :: rest) 0 (s_len buf) 1 false) rem [load m buf]
            (map (load m) rem)) as Hinv.
  { exists [], cur, rest, [], buf, [], [load m buf].
    cbn [co_mem co_msgs co_base co_gsoSize co_dgramCnt co_endBatch].
    split_and!; try done; [constructor|simpl in Hlen; lia]. }
  cbn [coalesce_loop]. unfold coalesce_step at 1. cbn [Nat.ltb Nat.leb]. rewrite Hst.
  cbn [mbind go_mbind length app].
  destruct rem as [|r rem].
  - eexists. split; [done|]. exists [cur], rest, [buf], [[load m buf]]. simpl.
    split_and!; try done. constructor; [|constructor]. by eapply open_single_closed.
  - destruct (coalesce_loop_inv (S (length (r :: rem))) 1 (r :: rem) _ _ _
      ltac:(lia) eq_refl ltac:(done) Hinv) as (st & Hl & Hp).
    exists st. split; [exact Hl|exact Hp].
Qed.
End CoalesceCorrect.

(** ** The statements *)

(** What a caller gets from coalescing [bufs] in memory [m]: the first [n]
    messages carry exactly its datagrams in order, go to [addr], respect the
    limits of UDP_SEGMENT, and its own buffers still hold the same bytes. *)
Definition carries {U : UnixABI} (addr : UDPAddr) (ep : StdNetEndpoint) (m : mem) (bufs : list slice)
    (r : nat * list Message * mem) : Prop :=
  let '(n, msgs', m') := r in
  n <= length bufs /\
  concat (map (wire_datagrams m') (take n msgs')) = map (load m) bufs /\
  Forall (fun msg => m_Addr msg = Some addr) (take n msgs') /\
  Forall (fun msg => group_limits (ep := ep) (wire_datagrams m' msg)) (take n msgs') /\
  map (load m') bufs = map (load m) bufs.

(** The message lives in one of the buffers. *)
Definition in_window (bufs : list slice) (msg : Message) : Prop :=
  exists b own, m_Buffers msg = [b] /\ own ∈ bufs /\ window b own /\ s_len b <= s_cap b.

Lemma group_count {U : UnixABI} {setGSO gso_ready} addr ep m bufs msgs owns Gs :
  Forall3 (closed_msg (addr := addr) (ep := ep) (setGSO := setGSO) (gso_ready := gso_ready) m) msgs owns Gs ->
  Forall (fun s => s ∈ bufs) owns ->
  map (wire_datagrams m) msgs = Gs /\ Forall (fun msg => m_Addr msg = Some addr) msgs /\
  Forall (fun msg => group_limits (ep := ep) (wire_datagrams m msg)) msgs /\
  Forall (in_window bufs) msgs /\
  Forall (fun msg => oob_done (setGSO := setGSO) (gso_ready := gso_ready) (m_OOB msg)) msgs.
Proof.
  induction 1 as [|msg o G ms os Gs (Ha & Hw & Hl & Ho & b & Hb & Hwin & Hlen) _ IH]; [done|].
  intros Hin. inversion Hin as [|? ? Hin1 Hin2]; subst. destruct (IH Hin2) as (IH1 & IH2 & IH3 & IH4 & IH5).
  simpl. rewrite IH1. split_and!; [done|by constructor|by constructor| |by constructor].
  constructor; [|done]. by exists b, o.
Qed.

Lemma chunks_nonempty g p : chunks g p <> [].
Proof. unfold chunks. destruct (length p); simpl; [done|]. by destruct (_ || _). Qed.

Lemma length_le_concat {A} (ls : list (list A)) :
  Forall (fun l => l <> []) ls -> length ls <= length (concat ls).
Proof.
  induction 1 as [|l ls Hl _ IH]; simpl; [done|]. rewrite length_app.
  destruct l; [done|]. simpl. lia.
Qed.

Lemma wire_datagrams_nonempty {U : UnixABI} m msg : wire_datagrams m msg <> [].
Proof. unfold wire_datagrams. destruct (segment_size _); [apply chunks_nonempty|done]. Qed.

(** Coalescing under any control data that meets the contract: the datagrams, and
    what memory and messages look like afterwards. *)
Lemma coalesce_contract {U : UnixABI} {UL : UnixLaws U} os setGSO addr ep oob_ok gso_ready
    `{!ControlContract os setGSO ep oob_ok gso_ready} m bufs msgs :
  seps bufs -> Forall (slice_ok m) bufs -> Forall (fun s => 0 < s_len s) bufs ->
  Forall (msg_ready (oob_ok := oob_ok)) msgs -> length bufs <= length msgs ->
  exists n msgs' m', coalesceMessages os setGSO addr ep m bufs msgs = Ret (n, msgs', m') /\
    carries addr ep m bufs (n, msgs', m') /\ untouched bufs m m' /\ Forall (slice_ok m') bufs /\
    Forall (in_window bufs) (take n msgs') /\
    Forall (fun msg => oob_done (setGSO := setGSO) (gso_ready := gso_ready) (m_OOB msg)) (take n msgs').
Proof.
  intros Hsep Hok Hpos Hrdy Hlen.
  assert (Forall (fun s => s ∈ bufs) bufs) as Hin by (by rewrite list.Forall_forall).
  destruct (coalesce_all (addr := addr) (ep := ep) (all := bufs) (bytes := map (load m) bufs)
    Hsep m msgs bufs (conj Hok eq_refl) Hin Hsep Hok Hpos Hrdy Hlen)
    as (st & Hst & used & rest & owns & Gs & Hm & Hb & Hcl & Hd & [Hok' Hcal] & Hall).
  unfold coalesceMessages. rewrite Hst. simpl. eexists _, _, _. split; [done|]. unfold carries.
  rewrite Hb, Nat2Z.id, Hm, take_app_length. apply (group_count _ _ _ bufs) in Hcl as (Hw & Ha & Hl & Hwin & Ho); [|done].
  split; [split_and!; try done; [|congruence]|split; [|done]].
  - rewrite <- (length_map (load m) bufs), <- Hd, <- (length_map (wire_datagrams (co_mem st)) used), Hw.
    apply length_le_concat. rewrite <- Hw. apply Forall_map, list.Forall_true.
    intros; apply wire_datagrams_nonempty.
  - intros x Hx Hs.
    destruct (coalesce_all (addr := addr) (ep := ep) (all := x :: bufs) (bytes := map (load m) (x :: bufs))
      (conj Hs Hsep) m msgs bufs) as (st2 & Hst2 & _ & _ & _ & _ & _ & _ & _ & _ & [Hok2 Hcal2] & _); try done.
    { split; [by constructor|done]. }
    { eapply list.Forall_impl; [exact Hin|]. intros. by apply elem_of_cons; right. }
    rewrite Hst in Hst2. injection Hst2 as <-. inversion Hok2; subst. split; [done|]. by injection Hcal2.
Qed.

(** The control data of a sent message on Linux: the cached source of the
    endpoint, and behind it at most a segment size. *)
Definition with_source {U : UnixABI} (ep : StdNetEndpoint) (oob : list byte) : Prop :=
  oob = src_bytes ep \/
  exists g hpad dpad, cmsg_wf (gso_cmsg g hpad dpad) /\ oob = src_bytes ep ++ cmsg_bytes (gso_cmsg g hpad dpad).

Lemma oob_done_source {U : UnixABI} {UL : UnixLaws U} ep o :
  oob_done (setGSO := setGSOSize Linux) (gso_ready := gso_ready_linux ep) o -> with_source ep (gb_bytes o).
Proof.
  intros [(_ & Hb & _)|(o0 & g & (Hk & Hb & Hr) & _ & Hset)]; [by left|]. right.
  unfold setGSOSize in Hset. cbn [linux_or_android] in Hset.
  destruct (setGSOSize_linux_spec o0 g Hk Hr) as (hp & dp & o' & Hset' & Hwf & Hb' & _).
  rewrite Hset in Hset'. injection Hset' as <-. exists g, hp, dp. by rewrite Hb', Hb.
Qed.

(** C1: Linux: coalescing loses, reorders, merges and corrupts nothing.  For
    non-empty datagrams in buffers that do not share storage, the messages
    produced are cut by the kernel back into exactly the datagrams passed, all
    to the given address, at most 64 per message and within the maximal UDP
    payload; the control data of every message is the cached source of the
    endpoint, followed by at most a segment size; the visible bytes of the
    caller's buffers are unchanged. *)
Theorem coalesce_lossless_linux {U : UnixABI} {UL : UnixLaws U} addr ep m bufs msgs :
  src_control ep ->
  seps bufs -> Forall (slice_ok m) bufs -> Forall (fun s => 0 < s_len s) bufs ->
  Forall (msg_ready (oob_ok := oob_ok_linux ep)) msgs -> length bufs <= length msgs ->
  exists n msgs' m', coalesceMessages Linux (setGSOSize Linux) addr ep m bufs msgs = Ret (n, msgs', m') /\
    carries addr ep m bufs (n, msgs', m') /\
    Forall (fun msg => with_source ep (gb_bytes (m_OOB msg))) (take n msgs').
Proof.
  intros Hsrc Hsep Hok Hpos Hrdy Hlen. pose proof (control_linux ep Hsrc).
  destruct (coalesce_contract Linux (setGSOSize Linux) addr ep (oob_ok_linux ep) (gso_ready_linux ep) m bufs msgs)
    as (n & msgs' & m' & HE & Hc & _ & _ & _ & Ho); try done.
  exists n, msgs', m'. split; [done|]. split; [done|]. eapply list.Forall_impl; [exact Ho|]. intros msg. apply oob_done_source.
Qed.

(** C27: Android: the same, where sends carry no source control data and the
    pooled control buffers are empty. *)
Theorem coalesce_lossless_android {U : UnixABI} {UL : UnixLaws U} addr ep m bufs msgs :
  seps bufs -> Forall (slice_ok m) bufs -> Forall (fun s => 0 < s_len s) bufs ->
  Forall (msg_ready (oob_ok := oob_ok_android)) msgs -> length bufs <= length msgs ->
  exists r, coalesceMessages Android (setGSOSize Android) addr ep m bufs msgs = Ret r /\
    carries addr ep m bufs r.
Proof.
  intros Hsep Hok Hpos Hrdy Hlen. pose proof (control_android ep).
  destruct (coalesce_contract Android (setGSOSize Android) addr ep oob_ok_android oob_ok_android m bufs msgs)
    as (n & msgs' & m' & HE & Hc & _); try done. by eexists.
Qed.

(** *** Concrete inputs *)

Definition ex_ep4 : StdNetEndpoint := mkEndpoint (mkAddrPort (Addr4 [x7f; x00; x00; x01]) 9000) None.
Definition ex_ua : UDPAddr := mkUDPAddr (GoBuf [x7f; x00; x00; x01] 4) 9000 "".
(** Three arrays: two bytes of data with room for more, then two and one. *)
Definition ex_mem : mem := list_to_map [(0, [x01; x02; x00; x00; x00; x00]); (1, [x03; x04]); (2, [x05])].
Definition ex_bufs : list slice := [Slice 0 0 2 6; Slice 1 0 2 2; Slice 2 0 1 1].
Definition ex_msg : Message := mkMessage [Slice 0 0 0 0] (gb_make 0 64) None 0 0 0.

Lemma ex_ep4_src {U : UnixABI} : src_control ex_ep4.
Proof. split; [done|]. exists []. by split_and!; try constructor. Qed.

(** The endpoint with a cached source: IP_PKTINFO with 127.0.0.2 on interface 5. *)
Definition ex_pktinfo : cmsg :=
  let U := linux64 in mkCmsg IPPROTO_IP IP_PKTINFO (Inet4Pktinfo_bytes 5 [x7f; x00; x00; x02] [x00; x00; x00; x00]) [] (replicate 4 x00).
Definition ex_ep4s : StdNetEndpoint :=
  mkEndpoint (ep_AddrPort ex_ep4) (Some (GoBuf (cmsg_bytes (U := linux64) ex_pktinfo) 32)).

Lemma ex_ep4s_src : src_control (U := linux64) ex_ep4s.
Proof.
  split; [by vm_compute|]. exists [ex_pktinfo]. split_and!; [by vm_compute| | |];
    (constructor; [|constructor]); vm_compute; (done || by split_and!).
Qed.

Lemma coalesce_lossless_linux_witness :
  src_bytes ex_ep4s <> [] /\
  exists n msgs' m', coalesceMessages Linux (setGSOSize (U := linux64) Linux) ex_ua ex_ep4s
      ex_mem ex_bufs [ex_msg; ex_msg; ex_msg] = Ret (n, msgs', m') /\
    carries (U := linux64) ex_ua ex_ep4s ex_mem ex_bufs (n, msgs', m') /\
    Forall (fun msg => with_source (U := linux64) ex_ep4s (gb_bytes (m_OOB msg))) (take n msgs').
Proof.
  split; [done|]. apply (coalesce_lossless_linux (U := linux64) ex_ua ex_ep4s ex_mem ex_bufs).
  - apply ex_ep4s_src.
  - by apply (bool_decide_unpack _); vm_compute.
  - by repeat constructor; vm_compute; lia.
  - by repeat constructor.
  - repeat constructor; try (vm_compute; lia); by eexists.
  - by vm_compute; lia.
Defined.

Lemma coalesce_lossless_android_witness :
  exists r, coalesceMessages Android (setGSOSize (U := linux64) Android) ex_ua ex_ep4
      ex_mem ex_bufs [ex_msg; ex_msg; ex_msg] = Ret r /\ carries (U := linux64) ex_ua ex_ep4 ex_mem ex_bufs r.
Proof.
  apply (coalesce_lossless_android (U := linux64) ex_ua ex_ep4 ex_mem ex_bufs).
  - by apply (bool_decide_unpack _); vm_compute.
  - by repeat constructor; vm_compute; lia.
  - by repeat constructor.
  - repeat constructor; try (vm_compute; lia); by eexists.
  - by vm_compute; lia.
Defined.

(** The three datagrams share one message, which carries segment size 2. *)
Example ex_coalesced :
  match coalesceMessages Linux (setGSOSize (U := linux64) Linux) ex_ua ex_ep4
      ex_mem ex_bufs [ex_msg; ex_msg; ex_msg] with
  | Ret (n, msgs, m) =>
      n = 1 /\ map (wire_datagrams (U := linux64) m) (take n msgs) = [[[x01; x02]; [x03; x04]; [x05]]]
  | _ => False
  end.
Proof. vm_compute. done. Qed.

(** An empty datagram is lost.  Behind a non-empty one it is "coalesced"
    by appending nothing, and the kernel cannot see it: the payload still has
    one segment. *)
Theorem coalesce_drops_empty :
  exists n msgs m,
    coalesceMessages Linux (setGSOSize (U := linux64) Linux) ex_ua ex_ep4 ex_mem
      [Slice 0 0 2 6; Slice 1 0 0 2] [ex_msg; ex_msg] = Ret (n, msgs, m) /\
    map (load ex_mem) [Slice 0 0 2 6; Slice 1 0 0 2] = [[x01; x02]; []] /\
    concat (map (wire_datagrams (U := linux64) m) (take n msgs)) = [[x01; x02]].
Proof.
  eexists _, _, _. split_and!; [vm_compute; reflexivity|done|vm_compute; reflexivity].
Qed.
