(* ===== verification/Split.v ===== *)
(** * Splitting GRO datagrams ([splitCoalescedMessages] of bind_std.go)

    A batched read fills the tail of the message list with datagrams that the
    kernel may have coalesced; splitting expands them, in order, into the slots
    from the head on.  The reference is segmentation ([chunks]) of each
    received payload. *)

From S2P Require Import Prelude Errors GoMem Netip Cmsg Gso Message Coalesce.

(** [groReadBatchSize]: how many slots at the tail a GRO read uses. *)
Definition groReadBatchSize (batchSize : nat) : nat :=
  let n := (batchSize + udpSegmentMaxDatagrams - 1) / udpSegmentMaxDatagrams in
  if (n <? 1)%nat then 1
  else if (batchSize <? n)%nat then batchSize
  else n.

Section Split.
(** [getGSOFunc] *)
Context (getGSO : list byte -> go (error + Z)).

Record split_st := mkSp { sp_mem : mem; sp_msgs : list Message; sp_n : nat }.

(** The loop over [j]: [todo] pieces are left.  [msg] is a pointer to
    [msgs[i]], so its fields are read again in every iteration.  The result is
    [inl] when the function returns the overflow error. *)
Fixpoint split_pieces (todo i gsoSize start end_ : nat) (st : split_st)
    : go (split_st + split_st) :=
  match todo with
  | O => Ret (inr st)
  | S todo' =>
      let n := sp_n st in
      if (i <? n)%nat then Ret (inl st) else
      msg ← must (sp_msgs st !! i);
      src ← buf0 msg;
      piece ← reslice src start end_;
      slot ← must (sp_msgs st !! n);
      dst ← buf0 slot;
      let '(mem', copied) := go_copy (sp_mem st) dst piece in
      let msgs := <[n := set_Addr (set_N slot copied) (m_Addr msg)]> (sp_msgs st) in
      msg ← must (msgs !! i);
      let start' := end_ in
      let end' := (end_ + gsoSize)%nat in
      let end' := if (m_N msg <? end')%nat then m_N msg else end' in
      split_pieces todo' i gsoSize start' end' (mkSp mem' msgs (S n))
  end.

(** [if i != n-1 { msg.N = 0 }] *)
Definition zero_source (i : nat) (msg : Message) (st : split_st) : split_st :=
  mkSp (sp_mem st)
       (if (S i =? sp_n st)%nat then sp_msgs st else <[i := set_N msg 0]> (sp_msgs st)) (sp_n st).

(** The loop over [i]; [todo] is [len(msgs) - i]. *)
Fixpoint split_loop (todo i : nat) (st : split_st) : go (split_st * option error) :=
  match todo with
  | O => Ret (st, None)
  | S todo' =>
      msg ← must (sp_msgs st !! i);
      if (m_N msg =? 0)%nat then Ret (st, None) else
      oob ← gb_reslice (m_OOB msg) (m_NN msg);
      r ← getGSO (gb_bytes oob);
      match r with
      | inl e => Ret (st, Some e)
      | inr gso =>
          let gsoSize := Z.to_nat gso in
          let numToSplit := if (0 <? gso)%Z then (m_N msg + gsoSize - 1) / gsoSize else 1 in
          let end_ := if (0 <? gso)%Z then gsoSize else m_N msg in
          r ← split_pieces numToSplit i gsoSize 0 end_ st;
          match r with
          | inl st' => Ret (st', Some ErrSplitOverflow)
          | inr st' =>
              msg ← must (sp_msgs st' !! i);
              split_loop todo' (S i) (zero_source i msg st')
          end
      end
  end.

Definition splitCoalescedMessages (m : mem) (msgs : list Message) (firstMsgAt : nat)
    : go (nat * option error * list Message * mem) :=
  '(st, err) ← split_loop (length msgs - firstMsgAt) firstMsgAt (mkSp m msgs 0);
  Ret (sp_n st, err, sp_msgs st, sp_mem st).

(** ** The reference *)

(** The datagrams of one received message, [None] when its control data cannot
    be parsed. *)
Definition received (m : mem) (msg : Message) : option (list (list byte) * option UDPAddr) :=
  match m_Buffers msg, getGSO (take (m_NN msg) (gb_arr (m_OOB msg))) with
  | b :: _, Ret (inr gso) => Some (chunks (Z.to_nat gso) (take (m_N msg) (load m b)), m_Addr msg)
  | _, _ => None
  end.

(** Slot [idx] holds datagram [d] from [a]. *)
Definition holds (st : split_st) (idx : nat) (d : list byte) (a : option UDPAddr) : Prop :=
  exists msg b, sp_msgs st !! idx = Some msg /\ m_Buffers msg = [b] /\
    m_N msg = length d /\ take (m_N msg) (load (sp_mem st) b) = d /\ m_Addr msg = a.
End Split.

(** *** The scenarios of Test_splitCoalescedMessages, with a two-byte segment
    size as control data *)
Definition mock_getGSO (control : list byte) : go (error + Z) :=
  Ret (inr (if (length control <? 2)%nat then 0%Z else le_val (take 2 control))).
Definition ex_rx (a n gso : nat) : Message :=
  mkMessage [Slice a 0 16 16] (GoBuf (le_bytes 2 (Z.of_nat gso)) 2) None n
    (if (gso =? 0)%nat then 0 else 2) 0.
Definition ex_rx_mem : mem :=
  list_to_map (map (fun a => (a, le_bytes 16 (Z.of_nat (a * 1000 + 7)))) (seq 0 4)).
Definition ex_split (msgs : list Message) : option (nat * list nat * option error) :=
  match splitCoalescedMessages mock_getGSO ex_rx_mem msgs 2 with
  | Ret (n, e, msgs', _) => Some (n, map m_N msgs', e)
  | _ => None
  end.

Example ex_split1 : ex_split [ex_rx 0 0 0; ex_rx 1 0 0; ex_rx 2 3 1; ex_rx 3 0 0]
  = Some (3, [1; 1; 1; 0], None).
Proof. by vm_compute. Qed.
Example ex_split2 : ex_split [ex_rx 0 0 0; ex_rx 1 0 0; ex_rx 2 1 0; ex_rx 3 0 0]
  = Some (1, [1; 0; 0; 0], None).
Proof. by vm_compute. Qed.
Example ex_split3 : ex_split [ex_rx 0 0 0; ex_rx 1 0 0; ex_rx 2 1 0; ex_rx 3 3 1]
  = Some (4, [1; 1; 1; 1], None).
Proof. by vm_compute. Qed.
Example ex_split4 : ex_split [ex_rx 0 0 0; ex_rx 1 0 0; ex_rx 2 1 0; ex_rx 3 4 1]
  = Some (4, [1; 1; 1; 1], Some ErrSplitOverflow).
Proof. by vm_compute. Qed.

(** ** Correctness *)

Section SplitCorrect.
Context (getGSO : list byte -> go (error + Z)).
(** The buffers of the slots; they do not share storage. *)
Context (bs : list slice) (Hsep : seps bs).
Local Open Scope nat_scope.

Definition split_wf (st : split_st) : Prop :=
  Forall2 (fun msg b => m_Buffers msg = [b]) (sp_msgs st) bs /\
  Forall (slice_ok (sp_mem st)) bs.

(** Slot [idx] is the same in two states. *)
Definition same_slot (st st' : split_st) (idx : nat) : Prop :=
  sp_msgs st' !! idx = sp_msgs st !! idx /\
  forall b, bs !! idx = Some b -> load (sp_mem st') b = load (sp_mem st) b.

Lemma same_slot_trans st1 st2 st3 idx :
  same_slot st1 st2 idx -> same_slot st2 st3 idx -> same_slot st1 st3 idx.
Proof. intros [H1 L1] [H2 L2]. split; [congruence|]. intros b Hb. rewrite L2; auto. Qed.

Lemma holds_same st st' idx d a :
  split_wf st -> same_slot st st' idx -> holds st idx d a -> holds st' idx d a.
Proof.
  intros [Hf _] [Hm Hl] (msg & b & Hi & Hb & Hn & Ht & Ha).
  exists msg, b. rewrite Hm. destruct (Forall2_lookup_l _ _ _ _ _ Hf Hi) as (b' & Hb' & E).
  assert (b' = b) as -> by congruence. by rewrite Hl.
Qed.

Lemma seps_lookup l i j s t :
  seps l -> l !! i = Some s -> l !! j = Some t -> i <> j -> sep s t.
Proof.
  revert i j. induction l as [|x l IH]; intros i j; [done|]. intros [Hx Hl] Hi Hj Hne.
  destruct i as [|i], j as [|j]; simpl in *; [lia| | |].
  - injection Hi as ->. by apply (Forall_lookup_1 _ _ _ _ Hx Hj).
  - injection Hj as ->. apply sep_sym. by apply (Forall_lookup_1 _ _ _ _ Hx Hi).
  - eapply (IH i j); eauto.
Qed.

(** Copying one piece of message [i] into slot [n]. *)
Lemma write_piece st n i msg slot bi bn start end_ d :
  split_wf st -> sp_msgs st !! i = Some msg -> sp_msgs st !! n = Some slot ->
  bs !! i = Some bi -> bs !! n = Some bn ->
  start <= end_ -> end_ <= s_len bi ->
  d = take (end_ - start) (drop start (load (sp_mem st) bi)) -> length d <= s_len bn ->
  exists piece m',
    reslice bi start end_ = Ret piece /\
    go_copy (sp_mem st) bn piece = (m', length d) /\
    let st' := mkSp m' (<[n := set_Addr (set_N slot (length d)) (m_Addr msg)]> (sp_msgs st)) (S n) in
    split_wf st' /\ holds st' n d (m_Addr msg) /\ (forall idx, idx <> n -> same_slot st st' idx).
Proof.
  intros [Hf Hok] Hmi Hmn Hbi Hbn Hse He Hd Hdl.
  pose proof (Forall_lookup_1 _ _ _ _ Hok Hbi) as [Hi1 Hi2].
  pose proof (Forall_lookup_1 _ _ _ _ Hok Hbn) as Hnok.
  set (piece := Slice (s_arr bi) (s_off bi + start) (end_ - start) (s_cap bi - start)).
  assert (reslice bi start end_ = Ret piece) as Hre by (apply reslice_Ret; split; [lia|done]).
  pose proof (load_reslice_within (sp_mem st) bi start end_ piece Hre He) as Hlp. rewrite <- Hd in Hlp.
  assert (length d = end_ - start) as Hlen.
  { rewrite Hd. rewrite length_take, length_drop, length_load by done. lia. }
  exists piece, (store (sp_mem st) bn 0 d). split; [done|]. split.
  { unfold go_copy. cbn [s_len piece]. rewrite Nat.min_r, Hlp by lia.
    rewrite take_ge by lia. by rewrite Hlen. }
  assert (0 + length d <= s_cap bn) as Hcap by (destruct Hnok; lia).
  split_and!.
  - split; cbn [sp_msgs sp_mem].
    + rewrite <- (list_insert_id bs n bn Hbn). apply Forall2_insert; [done|].
      destruct (Forall2_lookup_l _ _ _ _ _ Hf Hmn) as (b' & Hb' & E).
      cbn [m_Buffers set_Addr set_N]. congruence.
    + eapply list.Forall_impl; [exact Hok|]. intros. by apply slice_ok_store.
  - exists (set_Addr (set_N slot (length d)) (m_Addr msg)), bn. cbn [sp_msgs sp_mem].
    destruct (Forall2_lookup_l _ _ _ _ _ Hf Hmn) as (b' & Hb' & E).
    split_and!; try done.
    + apply list_lookup_insert_eq. by eapply lookup_lt_Some.
    + cbn [m_Buffers set_Addr set_N]. congruence.
    + cbn [m_N set_Addr set_N]. destruct Hnok as [Hn1 Hn2].
      unfold load. rewrite take_take, Nat.min_l by lia.
      rewrite array_store, decide_True by done. rewrite Nat.add_0_r.
      apply take_drop_splice. lia.
  - intros idx Hne. split; cbn [sp_msgs sp_mem].
    + by rewrite list_lookup_insert_ne.
    + intros b Hb. apply load_store_sep; try done.
      * by apply (Forall_lookup_1 _ _ _ _ Hok Hb).
      * by eapply seps_lookup.
Qed.

(** The pieces [ps] of payload [P], cut at [start], [end_], then every [g]. *)
Fixpoint cuts (g start end_ : nat) (P : list byte) (ps : list (list byte)) : Prop :=
  match ps with
  | [] => True
  | p :: ps' =>
      start <= end_ <= length P /\ p = take (end_ - start) (drop start P) /\
      cuts g end_ (Nat.min (end_ + g) (length P)) P ps'
  end.

(** The inner loop writes the pieces of message [i] to the next slots. *)
Lemma split_pieces_spec i g N ps : forall st start end_ msg bi,
  split_wf st -> sp_msgs st !! i = Some msg -> bs !! i = Some bi ->
  m_N msg = N -> N <= s_len bi ->
  cuts g start end_ (take N (load (sp_mem st) bi)) ps ->
  sp_n st + length ps <= S i ->
  Forall (fun d => Forall (fun b => length d <= s_len b) bs) ps ->
  exists st', split_pieces (length ps) i g start end_ st = Ret (inr st') /\
    split_wf st' /\ sp_n st' = sp_n st + length ps /\
    (forall k p, ps !! k = Some p -> holds st' (sp_n st + k) p (m_Addr msg)) /\
    (forall idx, idx < sp_n st \/ sp_n st + length ps <= idx -> same_slot st st' idx).
Proof.
  induction ps as [|p ps IH]; intros st start end_ msg bi Hwf Hmi Hbi HN Hlb Hcuts Hroom Hfit.
  { exists st. simpl. split_and!; try done; try lia.
    all: intros; try discriminate; split; try done; lia. }
  destruct Hcuts as ((Hs & He) & Hp & Hcuts). simpl in Hroom.
  inversion Hfit as [|? ? Hfp Hfps]; subst p.
  pose proof Hwf as [Hf Hok]. pose proof (Forall_lookup_1 _ _ _ _ Hok Hbi) as Hbiok.
  assert (length (take N (load (sp_mem st) bi)) = N) as HlN.
  { rewrite length_take, length_load by done. lia. }
  rewrite HlN in *.
  assert (exists slot, sp_msgs st !! sp_n st = Some slot) as [slot Hslot].
  { apply lookup_lt_is_Some_2. apply lookup_lt_Some in Hmi. lia. }
  destruct (Forall2_lookup_l _ _ _ _ _ Hf Hslot) as (bn & Hbn & Hsb).
  destruct (Forall2_lookup_l _ _ _ _ _ Hf Hmi) as (bi' & Hbi' & Hmb).
  assert (bi' = bi) as -> by congruence.
  set (p := take (end_ - start) (drop start (take N (load (sp_mem st) bi)))) in *.
  destruct (write_piece st (sp_n st) i msg slot bi bn start end_ p)
    as (piece & m' & Hre & Hcp & Hwf' & Hh & Hsame); try done; try lia.
  { unfold p. rewrite skipn_firstn_comm, take_take. f_equal. lia. }
  { by apply (Forall_lookup_1 _ _ _ _ Hfp Hbn). }
  set (st1 := mkSp m' _ _) in *.
  simpl. rewrite (proj2 (Nat.ltb_ge _ _)) by lia. rewrite Hmi. simpl. unfold buf0.
  rewrite Hmb. simpl. rewrite Hre. simpl. rewrite Hslot. simpl. rewrite Hsb. simpl.
  unfold go_copy in Hcp. injection Hcp as Hcm Hcl. rewrite Hcm, Hcl. change (<[sp_n st := _]> (sp_msgs st)) with (sp_msgs st1).
  change (mkSp m' (sp_msgs st1) _) with st1.
  destruct (decide (ps = [])) as [->|Hne].
  - assert (exists msg', sp_msgs st1 !! i = Some msg') as [msg' Hm'].
    { apply lookup_lt_is_Some_2. apply lookup_lt_Some in Hmi. unfold st1. simpl. by rewrite length_insert. }
    rewrite Hm'. simpl. exists st1. split_and!; try done.
    + simpl. lia.
    + intros [|k] q; [|done]. intros [= <-]. by rewrite Nat.add_0_r.
    + intros idx Hidx. apply Hsame. simpl in *. lia.
  - assert (sp_n st <> i) as Hni by (destruct ps; simpl in *; [done|lia]).
    destruct (Hsame i (not_eq_sym Hni)) as [Hmi' Hli].
    rewrite Hmi', Hmi. simpl.
    destruct (IH st1 end_ (if N <? end_ + g then N else end_ + g) msg bi) as
      (st' & Hst & Hwf2 & Hn2 & Hh2 & Hsame2); try done.
    + congruence.
    + rewrite Hli by done. replace (if N <? end_ + g then N else end_ + g) with (Nat.min (end_ + g) N);
        [done|]. destruct (Nat.ltb_spec N (end_ + g)); lia.
    + simpl. lia.
    + rewrite HN. exists st'. split_and!; try done.
      * rewrite Hn2. simpl. lia.
      * intros [|k] q Hk; simpl in Hk.
        -- injection Hk as <-. rewrite Nat.add_0_r.
           apply (holds_same st1 st'); [done| |done]. apply Hsame2. left. simpl. lia.
        -- rewrite <- Nat.add_succ_comm. by apply Hh2.
      * intros idx Hidx. apply (same_slot_trans st st1 st'); [apply Hsame|apply Hsame2]; simpl in *; lia.
Qed.
(** Segmentation is cutting: the pieces the loop visits are the chunks. *)
Lemma cuts_chunks_aux fuel g P start :
  0 < g -> start < length P -> length P - start <= fuel ->
  cuts g start (Nat.min (start + g) (length P)) P (chunks_aux fuel g (drop start P)).
Proof.
  intros Hg. revert start. induction fuel as [|fuel IH]; intros start Hs Hf; [lia|].
  cbn [chunks_aux]. rewrite (proj2 (Nat.eqb_neq _ _)) by lia. rewrite length_drop. simpl orb.
  destruct (Nat.leb_spec (length P - start) g) as [Hle|Hgt].
  - cbn [cuts]. split_and!; try lia; try done. rewrite take_ge; [done|]. rewrite length_drop. lia.
  - cbn [cuts]. rewrite Nat.min_l by lia. split_and!; try lia.
    + f_equal. lia.
    + rewrite drop_drop. apply IH; lia.
Qed.

Definition numToSplit (N : nat) (gso : Z) : nat :=
  if (0 <? gso)%Z then (N + Z.to_nat gso - 1) / Z.to_nat gso else 1.

Lemma chunks_count N gso P :
  0 < N -> length P = N -> length (chunks (Z.to_nat gso) P) = numToSplit N gso.
Proof.
  intros HN HP. unfold numToSplit, chunks. destruct (Z.ltb_spec 0 gso) as [Hg|Hg].
  - rewrite chunks_aux_count by lia. rewrite HP. apply Nat.max_r.
    apply Nat.div_le_lower_bound; lia.
  - rewrite Z2Nat.nonpos by lia. destruct (length P); done.
Qed.

Lemma cuts_chunks gso P :
  0 < length P -> Z.to_nat gso <= length P ->
  cuts (Z.to_nat gso) 0 (if (0 <? gso)%Z then Z.to_nat gso else length P) P (chunks (Z.to_nat gso) P).
Proof.
  intros HP Hle. unfold chunks. destruct (Z.ltb_spec 0 gso) as [Hg|Hg].
  - pose proof (cuts_chunks_aux (length P) (Z.to_nat gso) P 0 ltac:(lia) ltac:(lia) ltac:(lia)) as Hc.
    rewrite drop_0 in Hc. simpl in Hc. by rewrite Nat.min_l in Hc by lia.
  - rewrite Z2Nat.nonpos by lia. destruct (length P) eqn:E; [lia|]. simpl.
    rewrite E. split_and!; try lia; try done. rewrite drop_0, take_ge; [done|lia].
Qed.

(** ** The datagrams a read delivered

    [recv_list m ms] are the datagrams of the received messages [ms] up to the
    first empty one, each with its source address. *)
Fixpoint recv_list (m : mem) (ms : list Message) : option (list (list byte * option UDPAddr)) :=
  match ms with
  | [] => Some []
  | msg :: ms' =>
      if m_N msg =? 0 then Some []
      else match received getGSO m msg, recv_list m ms' with
           | Some (ds, a), Some rest => Some (map (fun d => (d, a)) ds ++ rest)
           | _, _ => None
           end
  end.

(** A received message is consistent: its payload lies in its buffer, its
    control data in its control buffer, and the segment size does not exceed
    the payload. *)
Definition rx_ok (msg : Message) : Prop :=
  m_NN msg <= gb_cap (m_OOB msg) /\
  Forall (fun b => m_N msg <= s_len b) (m_Buffers msg) /\
  forall gso, getGSO (take (m_NN msg) (gb_arr (m_OOB msg))) = Ret (inr gso) -> Z.to_nat gso <= m_N msg.

(** No slot is needed before its own message has been read: the datagrams of
    the messages up to slot [i] fit the slots up to [i]. *)
Fixpoint fits_slots (m : mem) (i n : nat) (ms : list Message) : Prop :=
  match ms with
  | [] => True
  | msg :: ms' =>
      if m_N msg =? 0 then True
      else match received getGSO m msg with
           | Some (ds, _) => n + length ds <= S i /\ fits_slots m (S i) (n + length ds) ms'
           | None => True
           end
  end.

Lemma recv_list_same m m' ms bl :
  Forall2 (fun msg b => m_Buffers msg = [b]) ms bl ->
  map (load m') bl = map (load m) bl -> recv_list m' ms = recv_list m ms /\
  forall i n, fits_slots m' i n ms = fits_slots m i n ms.
Proof.
  intros Hf. induction Hf as [|msg b ms bl Hb _ IH]; [done|]. simpl. intros [= Hl Hr].
  destruct (IH Hr) as [-> IH2]. unfold received. rewrite Hb, Hl. split; [done|].
  intros i n. destruct (m_N msg =? 0); [done|].
  destruct (getGSO _) as [[?|?]| |]; try done. by rewrite IH2.
Qed.

(** One message. *)
Lemma split_message st i msg ms ds a bl bi :
  split_wf st -> drop i (sp_msgs st) = msg :: ms -> drop i bs = bi :: bl ->
  m_N msg <> 0 -> rx_ok msg -> received getGSO (sp_mem st) msg = Some (ds, a) ->
  sp_n st + length ds <= S i -> Forall (fun d => Forall (fun b => length d <= s_len b) bs) ds ->
  exists st' gso,
    getGSO (take (m_NN msg) (gb_arr (m_OOB msg))) = Ret (inr gso) /\
    split_pieces (numToSplit (m_N msg) gso) i (Z.to_nat gso) 0
      (if (0 <? gso)%Z then Z.to_nat gso else m_N msg) st = Ret (inr st') /\
    split_wf st' /\ sp_n st' = sp_n st + length ds /\
    (forall k p, ds !! k = Some p -> holds st' (sp_n st + k) p a) /\
    (forall idx, idx < sp_n st \/ sp_n st + length ds <= idx -> same_slot st st' idx).
Proof.
  intros Hwf Hm Hb HN (Hnn & Hlen & Hgso) Hrec Hroom Hfit.
  assert (sp_msgs st !! i = Some msg) as Hmi.
  { rewrite <- (Nat.add_0_r i), <- lookup_drop, Hm. done. }
  assert (bs !! i = Some bi) as Hbi by (rewrite <- (Nat.add_0_r i), <- lookup_drop, Hb; done).
  pose proof Hwf as [Hf Hok]. destruct (Forall2_lookup_l _ _ _ _ _ Hf Hmi) as (b' & Hb' & Hmb).
  assert (b' = bi) as -> by congruence. pose proof (Forall_lookup_1 _ _ _ _ Hok Hbi) as Hbiok.
  unfold received in Hrec. rewrite Hmb in Hrec, Hlen.
  destruct (getGSO _) as [[e|gso]| |] eqn:Hg; try discriminate. injection Hrec as <- <-.
  specialize (Hgso gso eq_refl). inversion Hlen as [|? ? HlN _]; subst.
  set (P := take (m_N msg) (load (sp_mem st) bi)) in *.
  assert (length P = m_N msg) as HP.
  { unfold P. rewrite length_take, length_load by done. lia. }
  destruct (split_pieces_spec i (Z.to_nat gso) (m_N msg) (chunks (Z.to_nat gso) P) st 0
    (if (0 <? gso)%Z then Z.to_nat gso else m_N msg) msg bi) as (st' & Hst & Hrest); try done.
  { fold P. rewrite <- HP. apply cuts_chunks; lia. }
  exists st', gso. split; [done|]. rewrite <- (chunks_count _ _ P) by lia. done.
Qed.

Lemma zero_source_spec st i msg :
  split_wf st -> sp_msgs st !! i = Some msg -> sp_n st <= S i ->
  split_wf (zero_source i msg st) /\
  forall idx, idx < sp_n st \/ i < idx -> same_slot st (zero_source i msg st) idx.
Proof.
  intros [Hf Hok] Hm Hn. unfold zero_source.
  destruct (Nat.eqb_spec (S i) (sp_n st)) as [E|E]; (split; [split|]); try done.
  - cbn [sp_msgs]. destruct (Forall2_lookup_l _ _ _ _ _ Hf Hm) as (b & Hb & Hbuf).
    rewrite <- (list_insert_id bs i b Hb). by apply Forall2_insert.
  - intros idx Hidx. split; [|done]. cbn [sp_msgs]. rewrite list_lookup_insert_ne by lia. done.
Qed.

(** Slots from [i] on that are the same give the same rest of the input. *)
Lemma same_rest st st' i ms :
  split_wf st -> split_wf st' -> (forall idx, i <= idx -> same_slot st st' idx) ->
  drop i (sp_msgs st) = ms ->
  drop i (sp_msgs st') = ms /\ recv_list (sp_mem st') ms = recv_list (sp_mem st) ms /\
  forall j n, fits_slots (sp_mem st') j n ms = fits_slots (sp_mem st) j n ms.
Proof.
  intros [Hf _] [Hf' _] Hs Hms.
  assert (drop i (sp_msgs st') = ms) as Hd.
  { rewrite <- Hms. apply list_eq. intros k. rewrite !lookup_drop. apply Hs. lia. }
  split; [done|]. apply (recv_list_same _ _ _ (drop i bs)).
  - rewrite <- Hms. by apply Forall2_drop.
  - apply list_eq. intros k. rewrite !list_lookup_fmap, !lookup_drop.
    destruct (bs !! (i + k)) as [b|] eqn:E; [|done]. simpl. f_equal. apply (Hs (i + k)); [lia|done].
Qed.

(** The outer loop. *)
Lemma split_loop_spec ms : forall bl i st D,
  split_wf st -> drop i (sp_msgs st) = ms -> drop i bs = bl -> sp_n st <= i ->
  Forall rx_ok ms -> recv_list (sp_mem st) ms = Some D -> fits_slots (sp_mem st) i (sp_n st) ms ->
  Forall (fun '(d, _) => Forall (fun b => length d <= s_len b) bs) D ->
  exists st', split_loop getGSO (length ms) i st = Ret (st', None) /\ split_wf st' /\
    sp_n st' = sp_n st + length D /\
    (forall k d a, D !! k = Some (d, a) -> holds st' (sp_n st + k) d a) /\
    (forall idx, idx < sp_n st -> same_slot st st' idx).
Proof.
  induction ms as [|msg ms IH]; intros bl i st D Hwf Hms Hbl Hn Hrx Hrec Hfits Hfit.
  { injection Hrec as <-. exists st. simpl. split_and!; try done; lia. }
  assert (sp_msgs st !! i = Some msg) as Hmi.
  { rewrite <- (Nat.add_0_r i), <- lookup_drop, Hms. done. }
  simpl in *. rewrite Hmi. simpl. destruct (m_N msg =? 0) eqn:HN0.
  { injection Hrec as <-. exists st. simpl. split_and!; try done; lia. }
  bool_simp. inversion Hrx as [|? ? Hrx1 Hrx2]; subst.
  destruct (received getGSO (sp_mem st) msg) as [[ds a]|] eqn:Hr; [|discriminate].
  destruct (recv_list (sp_mem st) ms) as [D'|] eqn:HD'; [|discriminate]. injection Hrec as <-.
  destruct Hfits as [Hroom Hfits]. apply Forall_app in Hfit as [Hfit1 Hfit2].
  pose proof Hwf as [Hf Hok].
  assert (exists bi bl', drop i bs = bi :: bl') as (bi & bl' & Hbl).
  { destruct (drop i bs) eqn:E; [|eauto]. apply (f_equal length) in E. rewrite length_drop in E.
    apply Forall2_length in Hf. apply lookup_lt_Some in Hmi. simpl in E. lia. }
  destruct (split_message st i msg ms ds a bl' bi) as (st1 & gso & Hg & Hsp & Hwf1 & Hn1 & Hh1 & Hs1);
    try done.
  { apply Forall_map in Hfit1. exact Hfit1. }
  destruct Hrx1 as (Hnn & _ & _). unfold gb_reslice. rewrite (proj2 (Nat.leb_le _ _) Hnn). simpl.
  unfold gb_bytes. cbn [gb_arr gb_len]. rewrite Hg. cbn [mbind go_mbind].
  fold (numToSplit (m_N msg) gso). rewrite Hsp. cbn [mbind go_mbind].
  assert (exists msg1, sp_msgs st1 !! i = Some msg1) as [msg1 Hm1].
  { destruct Hwf1 as [Hf1 _]. apply lookup_lt_is_Some_2. apply Forall2_length in Hf1, Hf.
    apply lookup_lt_Some in Hmi. lia. }
  rewrite Hm1. cbn [must mbind go_mbind].
  destruct (zero_source_spec st1 i msg1 Hwf1 Hm1 ltac:(lia)) as [Hwf2 Hs2].
  set (st2 := zero_source i msg1 st1) in *.
  assert (sp_n st2 = sp_n st1) as Hn2 by done.
  assert (forall idx, idx < sp_n st \/ i < idx -> same_slot st st2 idx) as Hs.
  { intros idx Hidx. apply (same_slot_trans st st1 st2); [apply Hs1|apply Hs2]; lia. }
  assert (drop (S i) (sp_msgs st) = ms) as Hms'.
  { rewrite <- Nat.add_1_r, <- drop_drop, Hms. done. }
  destruct (same_rest st st2 (S i) ms Hwf Hwf2) as (Hms2 & Hrec2 & Hfits2); [|done|].
  { intros. apply Hs. lia. }
  destruct (IH (drop (S i) bs) (S i) st2 D') as (st' & Hst & Hwf' & Hn' & Hh' & Hs'); try done.
  - lia.
  - congruence.
  - rewrite Hn2, Hn1, Hfits2. done.
  - exists st'. split_and!; try done.
    + rewrite Hn', Hn2, Hn1, length_app, length_map. lia.
    + intros k d a' Hk. apply lookup_app_Some in Hk as [Hk|[Hk1 Hk2]].
      * rewrite list_lookup_fmap in Hk. destruct (ds !! k) as [d'|] eqn:Ek; [|done].
        injection Hk as -> ->. pose proof (lookup_lt_Some _ _ _ Ek).
        apply (holds_same st2 st'); [done|apply Hs'; lia|].
        apply (holds_same st1 st2); [done|apply Hs2; lia|]. by apply Hh1.
      * rewrite length_map in *. replace (sp_n st + k) with (sp_n st2 + (k - length ds)) by lia.
        by apply Hh'.
    + intros idx Hidx. apply (same_slot_trans st st2 st'); [apply Hs|apply Hs']; lia.
Qed.
End SplitCorrect.

(** ** The statements *)

(** Splitting in terms of the whole function; the slots are the messages with
    one buffer each. *)
Lemma split_spec getGSO m msgs bufs firstMsgAt D :
  Forall2 (fun msg b => m_Buffers msg = [b]) msgs bufs ->
  seps bufs -> Forall (slice_ok m) bufs ->
  Forall (rx_ok getGSO) (drop firstMsgAt msgs) ->
  recv_list getGSO m (drop firstMsgAt msgs) = Some D ->
  fits_slots getGSO m firstMsgAt 0 (drop firstMsgAt msgs) ->
  Forall (fun '(d, _) => Forall (fun b => length d <= s_len b) bufs) D ->
  exists st, splitCoalescedMessages getGSO m msgs firstMsgAt =
      Ret (length D, None, sp_msgs st, sp_mem st) /\
    split_wf bufs st /\ forall k d a, D !! k = Some (d, a) -> holds st k d a.
Proof.
  intros Hf Hsep Hok Hrx Hrec Hfits Hfit.
  destruct (split_loop_spec getGSO bufs Hsep (drop firstMsgAt msgs) (drop firstMsgAt bufs) firstMsgAt
    (mkSp m msgs 0) D) as (st & Hst & Hwf & Hn & Hh & _); try done; [simpl; lia|].
  rewrite length_drop in Hst. unfold splitCoalescedMessages. rewrite Hst. simpl.
  rewrite Hn. exists st. done.
Qed.

(** C5: Splitting received messages is segmentation: if no slot is needed
    before its own message was read and the datagrams fit the caller's buffers,
    [splitCoalescedMessages] returns their number and no error, and the slots
    from the head on hold the datagrams of the received messages, in order,
    with their source addresses, although source and destination slots
    overlap. *)
Theorem split_correct getGSO m msgs bufs firstMsgAt D :
  Forall2 (fun msg b => m_Buffers msg = [b]) msgs bufs ->
  seps bufs -> Forall (slice_ok m) bufs ->
  Forall (rx_ok getGSO) (drop firstMsgAt msgs) ->
  recv_list getGSO m (drop firstMsgAt msgs) = Some D ->
  fits_slots getGSO m firstMsgAt 0 (drop firstMsgAt msgs) ->
  Forall (fun '(d, _) => Forall (fun b => length d <= s_len b) bufs) D ->
  exists msgs' m',
    splitCoalescedMessages getGSO m msgs firstMsgAt = Ret (length D, None, msgs', m') /\
    forall k d a, D !! k = Some (d, a) ->
      exists msg b, msgs' !! k = Some msg /\ bufs !! k = Some b /\ m_Buffers msg = [b] /\
        m_N msg = length d /\ take (m_N msg) (load m' b) = d /\ m_Addr msg = a.
Proof.
  intros Hf Hsep Hok Hrx Hrec Hfits Hfit.
  destruct (split_spec getGSO m msgs bufs firstMsgAt D Hf Hsep Hok Hrx Hrec Hfits Hfit)
    as (st & Hst & [Hf' _] & Hh).
  exists (sp_msgs st), (sp_mem st). split; [done|]. intros k d a Hk.
  destruct (Hh k d a Hk) as (msg & b & Hm & Hb & Hn & Hl & Ha). exists msg, b. split_and!; try done.
  destruct (Forall2_lookup_l _ _ _ _ _ Hf' Hm) as (b' & Hb' & E). congruence.
Qed.

Definition ex_rx_msgs : list Message := [ex_rx 0 0 0; ex_rx 1 0 0; ex_rx 2 1 0; ex_rx 3 5 2].
Definition ex_rx_bufs : list slice := map (fun a => Slice a 0 16 16) (seq 0 4).

Lemma ex_rx_ok : Forall (rx_ok mock_getGSO) (drop 2 ex_rx_msgs).
Proof.
  apply Forall_cons_2; [|apply Forall_cons_2; [|apply Forall_nil_2]].
  all: split; [vm_compute; lia|split; [by apply Forall_cons_2; [vm_compute; lia|]|]].
  all: intros gso; vm_compute; intros [= <-]; vm_compute; lia.
Qed.

Lemma split_correct_witness :
  exists msgs' m',
    splitCoalescedMessages mock_getGSO ex_rx_mem ex_rx_msgs 2 = Ret (4, None, msgs', m') /\
    exists msg b, msgs' !! 1 = Some msg /\ ex_rx_bufs !! 1 = Some b /\ m_Buffers msg = [b] /\
      m_N msg = 2 /\ take (m_N msg) (load m' b) = [xbf; x0b] /\ m_Addr msg = None.
Proof.
  destruct (split_correct mock_getGSO ex_rx_mem ex_rx_msgs ex_rx_bufs 2
    [([xd7], None); ([xbf; x0b], None); ([x00; x00], None); ([x00], None)])
    as (msgs' & m' & H & Hd).
  - by repeat constructor.
  - by apply (bool_decide_unpack _); vm_compute.
  - repeat constructor; vm_compute; lia.
  - apply ex_rx_ok.
  - by vm_compute.
  - vm_compute; lia.
  - repeat constructor; vm_compute; lia.
  - exists msgs', m'. split; [exact H|]. apply (Hd 1 [xbf; x0b] None). reflexivity.
Defined.

(** A GRO read window of [k] slots behind [63k] others has room for [k]
    messages of at most 64 datagrams. *)
Lemma fits_window getGSO m ms : forall i n,
  Forall (fun msg => forall ds a, received getGSO m msg = Some (ds, a) ->
            length ds <= udpSegmentMaxDatagrams) ms ->
  n + 63 * length ms <= i -> fits_slots getGSO m i n ms.
Proof.
  unfold udpSegmentMaxDatagrams. induction ms as [|msg ms IH]; intros i n Hms Hn; [done|].
  inversion Hms as [|? ? H1 H2]; subst. simpl in *.
  destruct (m_N msg =? 0)%nat; [done|].
  destruct (received getGSO m msg) as [[ds a]|] eqn:E; [|done]. specialize (H1 ds a eq_refl).
  split; [lia|]. apply IH; [done|lia].
Qed.

Lemma groReadBatchSize_mult k :
  0 < k -> groReadBatchSize (udpSegmentMaxDatagrams * k) = k.
Proof.
  intros Hk. unfold groReadBatchSize, udpSegmentMaxDatagrams.
  replace ((64 * k + 64 - 1) / 64) with k by dlia.
  rewrite (proj2 (Nat.ltb_ge k 1)) by lia. by rewrite (proj2 (Nat.ltb_ge _ _)) by lia.
Qed.

(** C20: With a batch size that is a multiple of 64, such as the default of 128,
    the window that a GRO read uses can never overflow: whatever the kernel
    delivers there (at most 64 datagrams per message), the split finds room. *)
Theorem gro_window_has_room getGSO m msgs k :
  0 < k -> length msgs = udpSegmentMaxDatagrams * k ->
  Forall (fun msg => forall ds a, received getGSO m msg = Some (ds, a) ->
            length ds <= udpSegmentMaxDatagrams) msgs ->
  let readAt := length msgs - groReadBatchSize (length msgs) in
  length (drop readAt msgs) = k /\
  fits_slots getGSO m readAt 0 (drop readAt msgs).
Proof.
  intros Hk Hl Hd readAt. unfold readAt. rewrite Hl, groReadBatchSize_mult by done.
  assert (length (drop (udpSegmentMaxDatagrams * k - k) msgs) = k) as Hlen.
  { rewrite length_drop, Hl. unfold udpSegmentMaxDatagrams. lia. }
  split; [done|]. apply fits_window.
  - by apply Forall_drop.
  - rewrite Hlen. unfold udpSegmentMaxDatagrams. lia.
Qed.

Lemma gro_window_has_room_witness :
  let msgs := replicate 128 (ex_rx 0 0 0) in
  let readAt := length msgs - groReadBatchSize (length msgs) in
  readAt = 126 /\ length (drop readAt msgs) = 2 /\
  fits_slots mock_getGSO ex_rx_mem readAt 0 (drop readAt msgs).
Proof.
  intros msgs readAt. split; [by vm_compute|].
  apply (gro_window_has_room mock_getGSO ex_rx_mem msgs 2).
  - lia.
  - by vm_compute.
  - apply Forall_replicate. intros ds a. vm_compute. intros [= <- _]. simpl. lia.
Defined.
