(* ===== verification/Env.v ===== *)
(** * The environment of a bind: gonnect network, sockets and kernel

    The class [Env] lists the calls the package makes into code outside the
    repository: the [gonnect.Network] and [gonnect.UDPConn] interfaces, the
    raw-socket access of gonnect/sockopt, the batched calls of x/net and the
    socket options of the operating system.  [W] is the state of that outside
    world, threaded through every call.  [EnvLaws] states what those interfaces
    document; theorems that rely on a law say so. *)

From stdpp Require Export pretty.
From S2P Require Import Prelude Errors GoMem Netip Message.

(** Handles of connections ([gonnect.UDPConn] values) and of raw connections
    ([syscall.RawConn]). *)
Abbreviation conn := nat (only parsing).
Abbreviation rawconn := nat (only parsing).

(** Socket options (level and name together) the package reads or writes. *)
Inductive sockopt :=
| SO_RCVBUF | SO_SNDBUF | SO_RCVBUFFORCE | SO_SNDBUFFORCE
| O_IP_PKTINFO | O_IPV6_RECVPKTINFO | O_UDP_GRO | O_UDP_SEGMENT | O_IPV6_V6ONLY
| O_FWMARK (ioctl : Z) | O_IP_UNICAST_IF | O_IPV6_UNICAST_IF.
#[export] Instance sockopt_eq_dec : EqDecision sockopt.
Proof. solve_decision. Defined.

(** A message as a system call sees it: the bytes of its buffers, its control
    data and its destination. *)
Record wire := mkWire { w_bufs : list (list byte); w_oob : list byte; w_addr : option AddrPort }.
#[export] Instance wire_eq_dec : EqDecision wire.
Proof. solve_decision. Defined.

Definition wire_of (m : mem) (msg : Message) : wire :=
  mkWire (map (load m) (m_Buffers msg)) (gb_bytes (m_OOB msg))
    (UDPAddr_AddrPort <$> m_Addr msg).

(** [ListenConfig.Control] *)
Definition control_hook (W : Type) : Type :=
  string -> string -> option rawconn -> W -> option error * W.

Class Env (W : Type) := {
  (** Network.ListenUDPConfig(ctx, lc, network, address) *)
  env_listen : control_hook W -> string -> string -> W -> (error + conn) * W;
  (** Network.IsNative and the optional IsUp *)
  env_is_native : bool;
  env_is_up : option (W -> error + bool);
  (** UDPConn.Close, LocalAddr as text, and the port net.ResolveUDPAddr finds in it *)
  env_close : conn -> W -> option error * W;
  env_local_addr : conn -> W -> string;
  env_local_port : conn -> W -> error + Z;
  (** gonnect.GetWrapped, and whether a value is a *net.UDPConn *)
  env_wrapped : conn -> option conn;
  env_is_udpconn : conn -> bool;
  (** gonnect.SyscallConn; the fd that RawConn.Control passes to its callback *)
  env_syscall_conn : conn -> W -> error + option rawconn;
  env_raw_fd : rawconn -> W -> error + Z;
  (** the fd that sockopt.Control passes to its callback; sockopt.IgnoreUnsupported *)
  env_sockopt_fd : conn -> W -> error + Z;
  env_ignore_unsupported : option error -> option error;
  env_setsockopt : Z -> sockopt -> Z -> W -> option error * W;
  env_getsockopt : Z -> sockopt -> W -> error + Z;
  (** unix.Uname: the bytes of Release *)
  env_uname : error + list byte;
  (** PacketConn.WriteBatch, UDPConn.WriteMsgUDPAddrPort *)
  env_write_batch : conn -> list wire -> W -> (nat * option error) * W;
  env_write_msg : conn -> list byte -> list byte -> AddrPort -> W -> option error * W;
  (** PacketConn.ReadBatch; UDPConn.ReadMsgUDP(b, oob) with its results
      (n, oobn, flags, addr) and the new contents of the control buffer *)
  env_read_batch : conn -> mem -> list Message -> W ->
    (nat * option error) * list Message * mem * W;
  env_read_msg : conn -> mem -> slice -> gobuf -> W ->
    (error + (nat * nat * Z * UDPAddr)) * gobuf * mem * W;
}.

(** Go code that calls the environment. *)
Definition io (W A : Type) : Type := W -> go (A * W).
#[export] Instance io_mret W : MRet (io W) := fun A a w => Ret (a, w).
#[export] Instance io_mbind W : MBind (io W) := fun A B f m w =>
  match m w with Ret (a, w') => f a w' | Panic => Panic | NoFuel => NoFuel end.
Definition lift {W A} (g : go A) : io W A := fun w => (a ← g; Ret (a, w)).
(** An environment call. *)
Definition call {W A} (f : W -> A * W) : io W A := fun w => Ret (f w).
(** A query that does not change the environment. *)
Definition ask {W A} (f : W -> A) : io W A := fun w => Ret (f w, w).

Lemma io_bind_Ret {W A B} (m : io W A) (f : A -> io W B) w r :
  mbind (M := io W) f m w = Ret r <-> exists a w', m w = Ret (a, w') /\ f a w' = Ret r.
Proof.
  unfold mbind, io_mbind. destruct (m w) as [[a w']| |]; split; try discriminate.
  - eauto.
  - by intros (? & ? & [= -> ->] & ?).
  - by intros (? & ? & ? & _).
  - by intros (? & ? & ? & _).
Qed.

(** RawConn.Control(f) and sockopt.Control(conn, f): run [f] on the fd, or
    report why there is none. *)
Definition rawControl `{Env W} (c : rawconn) (f : Z -> W -> W) (w : W) : option error * W :=
  match env_raw_fd c w with inl e => (Some e, w) | inr fd => (None, f fd w) end.

(** ** Laws *)

(** What arrives on a socket: payload, control data and sender. *)
Record packet := mkPacket { pk_data : list byte; pk_oob : list byte; pk_from : UDPAddr }.

(** recvmsg(2) into a buffer and a control buffer: what does not fit is cut off. *)
Definition recv_buf (m : mem) (b : slice) (pk : packet) : mem * nat :=
  let d := take (s_len b) (pk_data pk) in (store m b 0 d, length d).
Definition recv_oob (o : gobuf) (pk : packet) : gobuf * nat :=
  let d := take (gb_len o) (pk_oob pk) in (GoBuf (splice 0 d (gb_arr o)) (gb_len o), length d).

(** One message of recvmmsg(2); messages of this package have one buffer. *)
Definition recv_msg (m : mem) (msg : Message) (b : slice) (pk : packet) : mem * Message :=
  let '(m', n) := recv_buf m b pk in
  let '(o', nn) := recv_oob (m_OOB msg) pk in
  (m', mkMessage (m_Buffers msg) o' (Some (pk_from pk)) n nn 0).

(** A batch: packet [i] goes to message [i], the other messages are untouched. *)
Fixpoint recv_batch (m : mem) (msgs : list Message) (bs : list slice) (pks : list packet)
    : mem * list Message :=
  match msgs, bs, pks with
  | msg :: msgs', b :: bs', pk :: pks' =>
      let '(m1, msg1) := recv_msg m msg b pk in
      let '(m2, r) := recv_batch m1 msgs' bs' pks' in (m2, msg1 :: r)
  | _, _, _ => (m, msgs)
  end.

(** [frame]: what opening, configuring and closing other sockets leaves alone. *)
Class EnvLaws (W : Type) `{Env W} := {
  (** the connections that are open, what was sent on each, and what has
      arrived on it and was not read *)
  open_conns : W -> gset conn;
  sent : W -> conn -> list wire;
  inbox : W -> conn -> list packet;
  (** ListenUDPConfig returns a new open connection or opens nothing; the
      control hook runs inside *)
  law_listen ctl net addr w r w' :
    (forall n a rc x, open_conns (ctl n a rc x).2 = open_conns x) ->
    env_listen ctl net addr w = (r, w') ->
    match r with
    | inr c => (c ∉ open_conns w) /\ open_conns w' = ({[c]} ∪ open_conns w)
    | inl _ => open_conns w' = open_conns w
    end;
  (** a listener on an explicit port has that port; other listeners keep theirs *)
  law_listen_port ctl net host p w c w' :
    env_listen ctl net (JoinHostPort host (pretty p)) w = (inr c, w') ->
    (0 < p < 65536)%Z -> env_local_port c w' = inr p;
  law_listen_range ctl net addr w c w' :
    env_listen ctl net addr w = (inr c, w') ->
    forall p, env_local_port c w' = inr p -> (0 < p < 65536)%Z;
  law_listen_frame ctl net addr w r w' c :
    (forall n a rc x, env_local_port c (ctl n a rc x).2 = env_local_port c x) ->
    env_listen ctl net addr w = (r, w') -> c ∈ open_conns w ->
    env_local_port c w' = env_local_port c w;
  (** Close releases the connection, and only it *)
  law_close c w : open_conns (env_close c w).2 = open_conns w ∖ {[c]};
  law_close_frame c c' w : c <> c' -> env_local_port c' (env_close c w).2 = env_local_port c' w;
  (** a socket option neither opens nor closes a socket *)
  law_setsockopt fd o v w : open_conns (env_setsockopt fd o v w).2 = open_conns w;
  law_setsockopt_fd fd o v w rc : env_raw_fd rc (env_setsockopt fd o v w).2 = env_raw_fd rc w;
  law_setsockopt_port fd o v w c :
    env_local_port c (env_setsockopt fd o v w).2 = env_local_port c w;
  (** wrappers are finite *)
  wrap_depth : conn -> nat;
  law_wrapped c c' : env_wrapped c = Some c' -> wrap_depth c' < wrap_depth c;
  (** WriteBatch sends a prefix of the messages and says how many; without an
      error it sends at least one *)
  law_write_batch c ws w n e w' :
    env_write_batch c ws w = ((n, e), w') ->
    n <= length ws /\ sent w' c = sent w c ++ take n ws /\
    (e = None -> ws <> [] -> 0 < n);
  (** WriteMsgUDPAddrPort sends the message unless it reports an error *)
  law_write_msg c b o a w e w' :
    env_write_msg c b o a w = (e, w') ->
    sent w' c = sent w c ++
      match e with Some _ => [] | None => [mkWire [b] o (Some a)] end;
  (** ReadBatch takes packets from the front of the queue of the socket *)
  law_read_batch c m msgs bs w n e msgs' m' w' :
    Forall2 (fun msg b => m_Buffers msg = [b]) msgs bs ->
    env_read_batch c m msgs w = ((n, e), msgs', m', w') ->
    match e with
    | Some _ => msgs' = msgs /\ m' = m
    | None => exists pks, n = length pks /\ n <= length msgs /\
        inbox w c = pks ++ inbox w' c /\ recv_batch m msgs bs pks = (m', msgs')
    end;
  (** ReadMsgUDP takes one packet *)
  law_read_msg c m b o w r o' m' w' :
    env_read_msg c m b o w = (r, o', m', w') ->
    match r with
    | inl _ => o' = o /\ m' = m
    | inr (n, nn, _, from) => exists pk, inbox w c = pk :: inbox w' c /\
        recv_buf m b pk = (m', n) /\ recv_oob o pk = (o', nn) /\ from = pk_from pk
    end;
}.

(** What the calls leave alone: reading and writing neither open nor close a
    socket, a write adds to what was sent on its own socket only, and no other
    call sends anything. *)
Class EnvFrame (W : Type) `{EnvLaws W} := {
  frame_write_batch c ws w r w' :
    env_write_batch c ws w = (r, w') ->
    open_conns w' = open_conns w /\ forall c', c' <> c -> sent w' c' = sent w c';
  frame_write_msg c b o a w e w' :
    env_write_msg c b o a w = (e, w') ->
    open_conns w' = open_conns w /\ forall c', c' <> c -> sent w' c' = sent w c';
  frame_read_batch c m msgs w r msgs' m' w' :
    env_read_batch c m msgs w = (r, msgs', m', w') ->
    open_conns w' = open_conns w /\ sent w' = sent w;
  frame_read_msg c m b o w r o' m' w' :
    env_read_msg c m b o w = (r, o', m', w') ->
    open_conns w' = open_conns w /\ sent w' = sent w;
  frame_listen ctl net addr w r w' :
    (forall n a rc x, sent (ctl n a rc x).2 = sent x) ->
    env_listen ctl net addr w = (r, w') -> sent w' = sent w;
  frame_close c w : sent (env_close c w).2 = sent w;
  frame_setsockopt fd o v w : sent (env_setsockopt fd o v w).2 = sent w;
}.
