(* ===== verification/SimNet.v ===== *)
(** * A simulated network

    A concrete environment: a machine with a native network, UDP offload, a set
    of busy ports and queues of arrived packets.  It satisfies [EnvLaws], so the
    laws are consistent, and the theorems about binds are evaluated on it. *)

From Stdlib Require Import Ascii.
From S2P Require Import Prelude Errors GoMem Netip Cmsg Gso Message Env.

(** ** Reading a port out of an address *)

Section Ports.
Local Open Scope N_scope.

Fixpoint digits_N (v : N) (s : string) : option N :=
  match s with
  | EmptyString => Some v
  | String c s' =>
      let d := N_of_ascii c in
      if (48 <=? d) && (d <=? 57) then digits_N (10 * v + (d - 48)) s' else None
  end.

Lemma pretty_N_char_digit x : x < 10 -> N_of_ascii (pretty_N_char x) = 48 + x.
Proof.
  intros Hx. do 10 (destruct (decide (x = 0)) as [->|]; [done|];
    destruct x as [|x]; [done|]; destruct x as [x|x|]; try done; try lia;
    destruct x as [x|x|]; try done; try lia; destruct x as [x|x|]; try done; try lia;
    destruct x as [x|x|]; try done; try lia).
Qed.

(** Reading back printed digits. *)
Lemma digits_pretty_go x : forall s, digits_N 0 (pretty_N_go x s) = digits_N x s.
Proof.
  induction (N.lt_wf_0 x) as [x _ IH]. intros s.
  destruct (decide (0 < x)) as [Hx|Hx].
  - rewrite pretty_N_go_step by done. rewrite IH by (apply N.div_lt; lia).
    cbn [digits_N]. pose proof (N.mod_lt x 10 ltac:(lia)).
    rewrite pretty_N_char_digit by done.
    rewrite (proj2 (N.leb_le _ _)), (proj2 (N.leb_le _ _)) by lia. cbn [andb].
    f_equal. pose proof (N.div_mod x 10 ltac:(lia)). lia.
  - replace x with 0 by lia. by rewrite pretty_N_go_0.
Qed.

Lemma has_colon_pretty_go x : forall s, has_colon (pretty_N_go x s) = has_colon s.
Proof.
  induction (N.lt_wf_0 x) as [x _ IH]. intros s.
  destruct (decide (0 < x)) as [Hx|Hx].
  - rewrite pretty_N_go_step by done. rewrite IH by (apply N.div_lt; lia).
    cbn [has_colon]. pose proof (N.mod_lt x 10 ltac:(lia)).
    rewrite bool_decide_eq_false_2; [done|]. intros E.
    apply (f_equal N_of_ascii) in E. rewrite pretty_N_char_digit in E by done.
    change (N_of_ascii ":") with 58 in E. lia.
  - replace x with 0 by lia. by rewrite pretty_N_go_0.
Qed.

Lemma pretty_Z_N p : (0 < p)%Z -> pretty p = pretty_N_go (Z.to_N p) "".
Proof. destruct p; [lia| |lia]. intros _. done. Qed.
End Ports.

Fixpoint after_last_colon (s : string) : option string :=
  match s with
  | EmptyString => None
  | String c s' =>
      match after_last_colon s' with
      | Some r => Some r
      | None => if bool_decide (c = ":"%char) then Some s' else None
      end
  end.

Definition address_port (addr : string) : Z :=
  match after_last_colon addr ≫= digits_N 0 with Some n => Z.of_N n | None => 0 end.

Lemma after_last_colon_none t : has_colon t = false -> after_last_colon t = None.
Proof.
  induction t as [|c t IH]; [done|]. cbn. intros [Hc Ht]%orb_false_iff.
  by rewrite IH, Hc.
Qed.

Lemma after_last_colon_app a t :
  has_colon t = false -> after_last_colon (a +:+ String ":" t) = Some t.
Proof.
  intros Ht. induction a as [|c a IH].
  - change ("" +:+ String ":" t) with (String ":" t). cbn [after_last_colon].
    rewrite after_last_colon_none by exact Ht. by rewrite bool_decide_eq_true_2.
  - change (String c a +:+ String ":" t) with (String c (a +:+ String ":" t)).
    cbn [after_last_colon]. by rewrite IH.
Qed.

Lemma string_app_assoc (a b c : string) : a +:+ (b +:+ c) = (a +:+ b) +:+ c.
Proof.
  induction a as [|x a IH]; [done|].
  change (String x (a +:+ (b +:+ c)) = String x ((a +:+ b) +:+ c)). by f_equal.
Qed.

Lemma address_port_join host p :
  (0 < p)%Z -> address_port (JoinHostPort host (pretty p)) = p.
Proof.
  intros Hp. unfold address_port, JoinHostPort. rewrite (pretty_Z_N p Hp).
  set (t := pretty_N_go (Z.to_N p) "").
  assert (has_colon t = false) as Ht by (unfold t; by rewrite has_colon_pretty_go).
  assert (forall a, after_last_colon (a +:+ ":" +:+ t) = Some t) as Hl
    by (intros; by apply after_last_colon_app).
  destruct (has_colon host).
  - change ("]:" +:+ t) with ("]" +:+ (":" +:+ t)). rewrite (string_app_assoc host), string_app_assoc.
    rewrite Hl. cbn [mbind option_bind]. unfold t. rewrite digits_pretty_go. cbn. lia.
  - rewrite Hl. cbn [mbind option_bind]. unfold t. rewrite digits_pretty_go. cbn. lia.
Qed.

(** ** The machine *)

Record sim := mkSim {
  sim_open : gmap conn (string * Z);      (* open sockets: family and port *)
  sim_busy : list (string * Z);           (* ports other programs use *)
  sim_families : list string;             (* supported address families *)
  sim_next_port : Z;                      (* the next automatic port *)
  sim_gro : bool;                         (* UDP_GRO is on *)
  sim_nic_gso : bool;                     (* the NIC can segment *)
  sim_opts : list (Z * sockopt * Z);      (* options that were set *)
  sim_sent : list (conn * wire);
  sim_inbox : gmap conn (list packet);
  sim_write_limit : nat;                  (* messages per WriteBatch *)
}.

Definition with_open w o := mkSim o (sim_busy w) (sim_families w) (sim_next_port w) (sim_gro w)
  (sim_nic_gso w) (sim_opts w) (sim_sent w) (sim_inbox w) (sim_write_limit w).
Definition with_opt w fd o v := mkSim (sim_open w) (sim_busy w) (sim_families w) (sim_next_port w)
  (sim_gro w) (sim_nic_gso w) ((fd, o, v) :: sim_opts w) (sim_sent w) (sim_inbox w) (sim_write_limit w).
Definition with_sent w l := mkSim (sim_open w) (sim_busy w) (sim_families w) (sim_next_port w)
  (sim_gro w) (sim_nic_gso w) (sim_opts w) (sim_sent w ++ l) (sim_inbox w) (sim_write_limit w).
Definition with_inbox w i := mkSim (sim_open w) (sim_busy w) (sim_families w) (sim_next_port w)
  (sim_gro w) (sim_nic_gso w) (sim_opts w) (sim_sent w) i (sim_write_limit w).
Definition next_port w := mkSim (sim_open w) (sim_busy w) (sim_families w)
  (if (sim_next_port w <? 65535)%Z then sim_next_port w + 1 else 1024)%Z
  (sim_gro w) (sim_nic_gso w) (sim_opts w) (sim_sent w) (sim_inbox w) (sim_write_limit w).

(** Port ranges that the machine hands out. *)
Definition clamp_port (p : Z) : Z := if bool_decide (0 < p < 65536)%Z then p else 1024%Z.

Definition sim_listen (ctl : control_hook sim) (net addr : string) (w : sim)
    : (error + conn) * sim :=
  if bool_decide (net ∈ sim_families w) then
    let asked := address_port addr in
    let port := clamp_port (if (asked =? 0)%Z then sim_next_port w else asked) in
    let w := if (asked =? 0)%Z then next_port w else w in
    let c := fresh (dom (sim_open w)) in
    if bool_decide ((net, port) ∈ sim_busy w ++ (map_to_list (sim_open w)).*2) then
      (inl (ESyscall "bind" (EErrno EADDRINUSE)), w)
    else
      let '(e, w) := ctl net addr (Some c) w in
      match e with
      | Some e => (inl e, w)
      | None => (inr c, with_open w (<[c := (net, port)]> (sim_open w)))
      end
  else (inl (ESyscall "socket" (EErrno EAFNOSUPPORT)), w).

(** A message with a segment size needs a NIC that can segment. *)
Definition nic_accepts (w : sim) (x : wire) : bool := sim_nic_gso w || bool_decide (w_oob x = []).
Fixpoint accepted (w : sim) (ws : list wire) : nat :=
  match ws with
  | [] => 0
  | x :: ws' => if nic_accepts w x then S (accepted w ws') else 0
  end.

Definition sim_write_batch (c : conn) (ws : list wire) (w : sim) : (nat * option error) * sim :=
  let n := Nat.min (accepted w ws) (Nat.max 1 (sim_write_limit w)) in
  if (n =? 0)%nat && negb (bool_decide (ws = [])) then
    ((0, Some (EWrap "write udp" (ESyscall "sendmmsg" (EErrno EIO)))), w)
  else ((n, None), with_sent w (map (pair c) (take n ws))).

Definition sim_queue (w : sim) (c : conn) : list packet := default [] (sim_inbox w !! c).

Definition sim_read_batch (c : conn) (m : mem) (msgs : list Message) (w : sim)
    : (nat * option error) * list Message * mem * sim :=
  let bs := omap (fun msg => m_Buffers msg !! 0) msgs in
  let n := Nat.min (length msgs) (length (sim_queue w c)) in
  if (n =? 0)%nat then ((0, Some ErrClosed), msgs, m, w)
  else
    let '(m', msgs') := recv_batch m msgs bs (take n (sim_queue w c)) in
    ((n, None), msgs', m', with_inbox w (<[c := drop n (sim_queue w c)]> (sim_inbox w))).

Definition sim_read_msg (c : conn) (m : mem) (b : slice) (o : gobuf) (w : sim)
    : (error + (nat * nat * Z * UDPAddr)) * gobuf * mem * sim :=
  match sim_queue w c with
  | [] => (inl ErrClosed, o, m, w)
  | pk :: rest =>
      let '(m', n) := recv_buf m b pk in
      let '(o', nn) := recv_oob o pk in
      (inr (n, nn, 0%Z, pk_from pk), o', m', with_inbox w (<[c := rest]> (sim_inbox w)))
  end.

#[export] Instance sim_env : Env sim := {|
  env_listen := sim_listen;
  env_is_native := true;
  env_is_up := Some (fun w => inr (negb (bool_decide (sim_families w = []))));
  env_close c w := (None, with_open w (delete c (sim_open w)));
  env_local_addr c w := JoinHostPort "127.0.0.1" (pretty (default 0%Z (snd <$> sim_open w !! c)));
  env_local_port c w := match sim_open w !! c with Some (_, p) => inr p | None => inl ErrClosed end;
  env_wrapped _ := None;
  env_is_udpconn _ := true;
  env_syscall_conn c _ := inr (Some c);
  env_raw_fd c _ := inr (Z.of_nat c);
  env_sockopt_fd c _ := inr (Z.of_nat c);
  env_ignore_unsupported e := e;
  env_setsockopt fd o v w := (None, with_opt w fd o v);
  env_getsockopt fd o w := match o with O_UDP_GRO => inr (if sim_gro w then 1 else 0) | _ => inr 0 end%Z;
  env_uname := inr (string_bytes "6.1.0-18-amd64");
  env_write_batch := sim_write_batch;
  env_write_msg c b o a w := (None, with_sent w [(c, mkWire [b] o (Some a))]);
  env_read_batch := sim_read_batch;
  env_read_msg := sim_read_msg;
|}.

Definition sim_sent_on (w : sim) (c : conn) : list wire :=
  (filter (fun x => x.1 = c) (sim_sent w)).*2.

Lemma clamp_port_range p : (0 < clamp_port p < 65536)%Z.
Proof. unfold clamp_port. case_bool_decide; lia. Qed.

(** The outcomes of a listen: refused before or by the hook, or a new socket. *)
Lemma sim_listen_inv ctl net addr w r w' :
  sim_listen ctl net addr w = (r, w') ->
  exists w1, sim_open w1 = sim_open w /\
  let c := fresh (dom (sim_open w)) in let w2 := (ctl net addr (Some c) w1).2 in
  (exists e, r = inl e /\ (w' = w1 \/ w' = w2)) \/
  (r = inr c /\ exists port, (0 < port < 65536)%Z /\
     (address_port addr <> 0%Z -> port = clamp_port (address_port addr)) /\
     w' = with_open w2 (<[c := (net, port)]> (sim_open w2))).
Proof.
  unfold sim_listen. case_bool_decide; [|by intros [= <- <-]; exists w; split; [done|]; left; eauto].
  set (w1 := if (address_port addr =? 0)%Z then next_port w else w).
  assert (sim_open w1 = sim_open w) as Ho by (unfold w1; by destruct (_ =? _)%Z).
  cbv zeta. rewrite Ho. intros Hl. exists w1. split; [done|]. revert Hl.
  case_bool_decide; [intros [= <- <-]; left; eauto|].
  destruct (ctl _ _ _ w1) as [[e|] w2] eqn:E; intros [= <- <-]; cbn [snd]; [left; eauto|].
  right. split; [done|]. eexists. split; [apply clamp_port_range|]. split; [|done].
  intros Hp. by rewrite (proj2 (Z.eqb_neq _ _) Hp).
Qed.

Lemma accepted_le w ws : accepted w ws <= length ws.
Proof. induction ws; simpl; [done|]. destruct (nic_accepts _ _); lia. Qed.

Lemma omap_bufs msgs bs :
  Forall2 (fun msg b => m_Buffers msg = [b]) msgs bs ->
  omap (fun msg => m_Buffers msg !! 0) msgs = bs.
Proof. induction 1 as [|msg b msgs bs Hb _ IH]; [done|]. cbn. rewrite Hb. cbn. by rewrite IH. Qed.

Lemma sim_queue_insert w c l : sim_queue (with_inbox w (<[c := l]> (sim_inbox w))) c = l.
Proof. unfold sim_queue, with_inbox. cbn [sim_inbox]. by rewrite lookup_insert_eq. Qed.

Lemma sent_pairs (c : conn) (l : list wire) :
  (filter (fun x => x.1 = c) (map (pair c) l)).*2 = l.
Proof.
  induction l as [|x l IH]; [done|]. cbn [map]. rewrite filter_cons_True by done.
  rewrite fmap_cons. by rewrite IH.
Qed.

#[export] Instance sim_laws : EnvLaws sim.
Proof.
  refine {| open_conns w := dom (sim_open w); sent := sim_sent_on; inbox := sim_queue;
            wrap_depth _ := 0 |}.
  - intros ctl net addr w r w' Hctl Hl. apply sim_listen_inv in Hl as (w1 & Ho & [(e & -> & [-> | ->])|(-> & p & _ & _ & ->)]).
    + by rewrite Ho.
    + by rewrite Hctl, Ho.
    + split; [apply is_fresh|]. cbn [sim_open with_open]. rewrite dom_insert_L, Hctl, Ho. done.
  - intros ctl net host p w c w' Hl Hp.
    apply sim_listen_inv in Hl as (w1 & Ho & [(e & [=] & _)|([= ->] & q & _ & Hq & ->)]).
    cbn. rewrite lookup_insert_eq. rewrite address_port_join in Hq by lia.
    rewrite Hq by lia. f_equal. unfold clamp_port. by rewrite bool_decide_eq_true_2.
  - intros ctl net addr w c w' Hl p.
    apply sim_listen_inv in Hl as (w1 & Ho & [(e & [=] & _)|([= ->] & q & ? & Hq & ->)]).
    cbn. rewrite lookup_insert_eq. by intros [= <-].
  - intros ctl net addr w r w' c Hctl Hl Hc.
    apply sim_listen_inv in Hl as (w1 & Ho & [(e & -> & [-> | ->])|(-> & p & _ & _ & ->)]).
    + cbn. by rewrite Ho.
    + rewrite Hctl. cbn. by rewrite Ho.
    + cbn. rewrite lookup_insert_ne.
      * pose proof (Hctl net addr (Some (fresh (dom (sim_open w)))) w1) as E. cbn in E.
        rewrite E. by rewrite Ho.
      * intros <-. by apply (is_fresh (dom (sim_open w))).
  - intros c w. cbn. by rewrite dom_delete_L.
  - intros c c' w Hne. cbn. by rewrite lookup_delete_ne.
  - done.
  - done.
  - done.
  - done.
  - intros c ws w n e w'. cbn. unfold sim_write_batch.
    pose proof (accepted_le w ws). set (k := Nat.min _ _).
    assert (k <= length ws) by lia.
    destruct (Nat.eqb_spec k 0) as [Hk|Hk]; cbn [andb].
    + case_bool_decide as Hws; cbn [negb]; intros [= <- <- <-]; unfold sim_sent_on, with_sent; cbn [sim_sent].
      * rewrite Hws. rewrite take_nil. cbn. rewrite !app_nil_r. by split_and!; try lia.
      * rewrite take_0, app_nil_r. split_and!; try lia; done.
    + intros [= <- <- <-]. unfold sim_sent_on, with_sent. cbn [sim_sent].
      split_and!; [done| |lia]. rewrite filter_app, fmap_app. f_equal.
      apply sent_pairs.
  - intros c b o a w e w' [= <- <-]. unfold sim_sent_on. cbn [sim_sent with_sent].
    rewrite filter_app, fmap_app. f_equal. apply (sent_pairs c [_]).
  - intros c m msgs bs w n e msgs' m' w' Hb. cbn. unfold sim_read_batch. rewrite (omap_bufs _ _ Hb).
    destruct (Nat.eqb_spec (Nat.min (length msgs) (length (sim_queue w c))) 0) as [Hk|Hk].
    + by intros [= <- <- <- <- <-].
    + destruct (recv_batch _ _ _ _) as [m1 msgs1] eqn:E. intros [= <- <- <- <- <-].
      eexists. split; [|split; [|split; [|exact E]]].
      * rewrite length_take. lia.
      * lia.
      * by rewrite sim_queue_insert, take_drop.
  - intros c m b o w r o' m' w'. cbn. unfold sim_read_msg.
    destruct (sim_queue w c) as [|pk rest] eqn:Eq; [by intros [= <- <- <- <-]|].
    destruct (recv_buf m b pk) as [m1 n] eqn:E1. destruct (recv_oob o pk) as [o1 nn] eqn:E2.
    intros [= <- <- <- <-]. exists pk. split_and!; try done.
    by rewrite sim_queue_insert.
Defined.

Lemma sim_sent_other (c c' : conn) (w : sim) (l : list wire) :
  c' <> c -> sim_sent_on (with_sent w (map (pair c) l)) c' = sim_sent_on w c'.
Proof.
  intros Hne. unfold sim_sent_on, with_sent. cbn [sim_sent]. rewrite filter_app, fmap_app.
  assert (filter (fun x : nat * wire => x.1 = c') (map (pair c) l) = []) as ->.
  { induction l as [|x l IH]; [done|]. cbn [map]. by rewrite filter_cons_False. }
  apply app_nil_r.
Qed.

#[export] Instance sim_frame : EnvFrame sim.
Proof.
  split.
  - intros c ws w r w'. cbn. unfold sim_write_batch. destruct (_ && _); intros [= <- <-]; [done|].
    split; [done|]. intros c' Hne. by apply sim_sent_other.
  - intros c b o a w e w' [= <- <-]. split; [done|]. intros c' Hne. by apply (sim_sent_other c c' w [_]).
  - intros c m msgs w r msgs' m' w'. cbn. unfold sim_read_batch.
    destruct (_ =? _)%nat; [by intros [= <- <- <- <-]|].
    destruct (recv_batch _ _ _ _). by intros [= <- <- <- <-].
  - intros c m b o w r o' m' w'. cbn. unfold sim_read_msg. destruct (sim_queue w c); [by intros [= <- <- <- <-]|].
    destruct (recv_buf _ _ _), (recv_oob _ _). by intros [= <- <- <- <-].
  - intros ctl net addr w r w' Hctl. cbn. unfold sim_listen. case_bool_decide; [|by intros [= <- <-]].
    set (w1 := if (address_port addr =? 0)%Z then next_port w else w).
    assert (sim_sent_on w1 = sim_sent_on w) as Hw1 by (unfold w1; by destruct (_ =? _)%Z).
    case_bool_decide; [by intros [= <- <-]|]. rewrite <- Hw1.
    specialize (Hctl net addr (Some (fresh (dom (sim_open w1)))) w1). cbn in Hctl. cbv zeta.
    destruct (ctl _ _ _ w1) as [[e|] w2]; intros [= <- <-]; exact Hctl.
  - done.
  - done.
Qed.
