(* ===== verification/ControlFns.v ===== *)
(** * Socket configuration (controlfns*.go, features_*.go, mark_*.go)

    The hooks that run on a socket before bind and after open, the probe for
    UDP offload, the kernel version test that gates UDP_GRO, and SetMark. *)

From S2P Require Import Prelude Errors GoMem Netip Env SimNet.

Definition socketBufferSize : Z := Z.shiftl 7 20.

(** ** The kernel version ([kernelVersion] of controlfns_linux.go) *)

Section KernelVersion.
Local Open Scope Z_scope.

(** Go's 64-bit [int]. *)
Definition i64 (z : Z) : Z := (z + 2 ^ 63) mod 2 ^ 64 - 2 ^ 63.

Definition is_digit (c : byte) : bool := (48 <=? byte_val c) && (byte_val c <=? 57).

(** The loop over the release bytes: [v0] is [values[0]] once [vi] is 1. *)
Fixpoint kernelVersion_loop (cs : list byte) (value : Z) (vi : bool) (v0 : Z) : Z * Z :=
  match cs with
  | [] => (v0, 0)
  | c :: cs' =>
      if is_digit c then kernelVersion_loop cs' (i64 (value * 10 + (byte_val c - 48))) vi v0
      else if vi then (v0, value)
      else kernelVersion_loop cs' 0 true value
  end.

Definition kernelVersion `{Env W} : Z * Z :=
  match env_uname with
  | inl _ => (0, 0)
  | inr release => kernelVersion_loop release 0 false 0
  end.

(** The gate of the third hook: UDP_GRO from 5.12 on. *)
Definition gro_kernel (v : Z * Z) : bool :=
  let '(major, minor) := v in negb ((major <? 5) || ((major =? 5) && (minor <? 12))).

(** The number that a digit string denotes. *)
Definition digits_val (ds : list byte) : Z := fold_left (fun v c => v * 10 + (byte_val c - 48)) ds 0.

Lemma i64_small z : 0 <= z < 2 ^ 63 -> i64 z = z.
Proof. intros. unfold i64. rewrite Z.mod_small; lia. Qed.

Lemma digits_fold_bound ds : forall v,
  Forall (fun c => is_digit c = true) ds -> 0 <= v ->
  0 <= fold_left (fun v c => v * 10 + (byte_val c - 48)) ds v
    < (v + 1) * 10 ^ Z.of_nat (length ds).
Proof.
  induction ds as [|c ds IH]; intros v Hd Hv; cbn [fold_left length].
  - rewrite Z.pow_0_r. lia.
  - inversion Hd as [|? ? Hc Hd']; subst. unfold is_digit in Hc. bool_simp.
    specialize (IH (v * 10 + (byte_val c - 48)) Hd' ltac:(lia)).
    rewrite Nat2Z.inj_succ, Z.pow_succ_r by lia.
    assert (0 < 10 ^ Z.of_nat (length ds)) by (apply Z.pow_pos_nonneg; lia). nia.
Qed.

Lemma kernelVersion_digits ds rest vi v0 : forall v,
  Forall (fun c => is_digit c = true) ds -> 0 <= v ->
  (v + 1) * 10 ^ Z.of_nat (length ds) <= 2 ^ 63 ->
  kernelVersion_loop (ds ++ rest) v vi v0 =
  kernelVersion_loop rest (fold_left (fun v c => v * 10 + (byte_val c - 48)) ds v) vi v0.
Proof.
  induction ds as [|c ds IH]; intros v Hd Hv Hb; [done|].
  inversion Hd as [|? ? Hc Hd']; subst. cbn [app kernelVersion_loop fold_left].
  rewrite Hc. unfold is_digit in Hc. bool_simp.
  cbn [length] in Hb. rewrite Nat2Z.inj_succ, Z.pow_succ_r in Hb by lia.
  pose proof (Z.pow_pos_nonneg 10 (Z.of_nat (length ds)) ltac:(lia) ltac:(lia)).
  rewrite i64_small by nia. apply IH; [done|lia|nia].
Qed.

Lemma digits_18 (ds : list byte) : (length ds <= 18)%nat -> (0 + 1) * 10 ^ Z.of_nat (length ds) <= 2 ^ 63.
Proof.
  intros. pose proof (Z.pow_le_mono_r 10 (Z.of_nat (length ds)) 18 ltac:(lia) ltac:(lia)).
  change (2 ^ 63) with 9223372036854775808. change (10 ^ 18) with 1000000000000000000 in *. lia.
Qed.

(** Parsing a release string [major.minor<non-digit>...]. *)
Lemma kernelVersion_loop_spec d1 c1 d2 c2 rest :
  Forall (fun c => is_digit c = true) d1 -> Forall (fun c => is_digit c = true) d2 ->
  is_digit c1 = false -> is_digit c2 = false ->
  (length d1 <= 18)%nat -> (length d2 <= 18)%nat ->
  kernelVersion_loop (d1 ++ c1 :: d2 ++ c2 :: rest) 0 false 0 = (digits_val d1, digits_val d2).
Proof.
  intros H1 H2 Hc1 Hc2 L1 L2.
  rewrite kernelVersion_digits by (try apply digits_18; done || lia). cbn [kernelVersion_loop].
  rewrite Hc1. rewrite kernelVersion_digits by (try apply digits_18; done || lia).
  cbn [kernelVersion_loop]. by rewrite Hc2.
Qed.

(** C32: The kernel version is parsed: from a release string that starts with
    [major.minor] (each at most 18 digits, any separators), [kernelVersion]
    returns the two numbers, whatever follows. *)
Theorem kernelVersion_parses `{Env W} d1 c1 d2 c2 rest :
  Forall (fun c => is_digit c = true) d1 -> Forall (fun c => is_digit c = true) d2 ->
  is_digit c1 = false -> is_digit c2 = false ->
  (length d1 <= 18)%nat -> (length d2 <= 18)%nat ->
  env_uname = inr (d1 ++ c1 :: d2 ++ c2 :: rest) ->
  kernelVersion = (digits_val d1, digits_val d2).
Proof. intros ? ? ? ? ? ? Hu. unfold kernelVersion. rewrite Hu. by apply kernelVersion_loop_spec. Qed.

(** The gate opens exactly for the versions that are at least 5.12 in the
    order of kernel versions. *)
Theorem gro_kernel_spec major minor :
  gro_kernel (major, minor) = true <-> (5 < major \/ (major = 5 /\ 12 <= minor)).
Proof.
  unfold gro_kernel. rewrite negb_true_iff, orb_false_iff, andb_false_iff, Z.ltb_ge, Z.eqb_neq, Z.ltb_ge.
  lia.
Qed.
End KernelVersion.

(** ** Hooks on sockets *)

Section ControlFns.
Context `{Env W} (os : GOOS).

(** [type controlFn] *)
Definition controlFn : Type := string -> string -> rawconn -> W -> option error * W.

(** [_ = unix.SetsockoptInt(...)]: the error is dropped. *)
Definition try_setsockopt (fd : Z) (o : sockopt) (v : Z) (w : W) : W := (env_setsockopt fd o v w).2.

(** [c.Control(func(fd) { err = f(fd) })]: the error of [Control] and the value
    of [err] after it, which is nil when the callback did not run. *)
Definition rawControlErr (c : rawconn) (f : Z -> W -> option error * W) (w : W)
    : option error * option error * W :=
  match env_raw_fd c w with
  | inl e => (Some e, None, w)
  | inr fd => let '(err, w') := f fd w in (None, err, w')
  end.

(** controlfns_linux.go *)
Definition buffers_linux : controlFn := fun network address c w =>
  rawControl c (fun fd w =>
    let w := try_setsockopt fd SO_RCVBUF socketBufferSize w in
    let w := try_setsockopt fd SO_SNDBUF socketBufferSize w in
    let w := try_setsockopt fd SO_RCVBUFFORCE socketBufferSize w in
    try_setsockopt fd SO_SNDBUFFORCE socketBufferSize w) w.

Definition pktinfo_linux : controlFn := fun network address c w =>
  if bool_decide (network = "udp4"%string) then
    if bool_decide (os = Android) then (None, w)
    else let '(controlErr, err, w) :=
           rawControlErr c (fun fd w => env_setsockopt fd O_IP_PKTINFO 1 w) w in
         match controlErr with Some e => (Some e, w) | None => (err, w) end
  else if bool_decide (network = "udp6"%string) then
    let '(controlErr, err, w) :=
      rawControlErr c (fun fd w => if bool_decide (os = Android) then (None, w)
                                   else env_setsockopt fd O_IPV6_RECVPKTINFO 1 w) w in
    match controlErr with Some e => (Some e, w) | None => (err, w) end
  else (Some (EWrap ("unhandled network: " +:+ network) (EErrno EINVAL)), w).

Definition gro_linux : controlFn := fun network address c w =>
  if gro_kernel kernelVersion
  then rawControl c (fun fd w => try_setsockopt fd O_UDP_GRO 1 w) w
  else (None, w).

Definition v6only_linux : controlFn := fun network address c w =>
  if bool_decide (network = "udp6"%string) then
    let '(controlErr, err, w) :=
      rawControlErr c (fun fd w => env_setsockopt fd O_IPV6_V6ONLY 1 w) w in
    match controlErr with Some e => (Some e, w) | None => (err, w) end
  else (None, w).

(** controlfns_windows.go *)
Definition buffers_windows : controlFn := fun network address c w =>
  rawControl c (fun fd w =>
    let w := try_setsockopt fd SO_RCVBUF socketBufferSize w in
    try_setsockopt fd SO_SNDBUF socketBufferSize w) w.

(** controlfns_unix.go *)
Definition buffers_unix : controlFn := fun network address c w =>
  rawControl c (fun fd w =>
    let w := try_setsockopt fd SO_RCVBUF socketBufferSize w in
    try_setsockopt fd SO_SNDBUF socketBufferSize w) w.

Definition v6only_unix : controlFn := fun network address c w =>
  if bool_decide (network = "udp6"%string) then
    let '(_, err, w) := rawControlErr c (fun fd w => env_setsockopt fd O_IPV6_V6ONLY 1 w) w in
    (err, w)
  else (None, w).

(** What the [init] functions of the platform files register. *)
Definition socketOpenControlFns : list controlFn :=
  match os with
  | Linux | Android => [buffers_linux; pktinfo_linux; gro_linux]
  | Windows => [buffers_windows]
  | FreeBSD | OpenBSD | Darwin => [buffers_unix]
  | Wasm => []
  end.
Definition listenControlFns : list controlFn :=
  match os with
  | Linux | Android => [v6only_linux]
  | FreeBSD | OpenBSD | Darwin => [v6only_unix]
  | Windows | Wasm => []
  end.

(** The loop over a list of hooks: the first error ends it. *)
Fixpoint run_controlFns (fns : list controlFn) (network address : string) (c : rawconn) (w : W)
    : option error * W :=
  match fns with
  | [] => (None, w)
  | fn :: fns' =>
      match fn network address c w with
      | (Some err, w') => (Some err, w')
      | (None, w') => run_controlFns fns' network address c w'
      end
  end.

(** [listenConfig().Control] *)
Definition listenConfig : control_hook W := fun network address c w =>
  match c with
  | None => (None, w)
  | Some c => run_controlFns listenControlFns network address c w
  end.

Definition configureSocket (c : conn) (network address : string) (w : W) : option error * W :=
  match env_syscall_conn c w with
  | inl err => (Some err, w)
  | inr None => (None, w)
  | inr (Some rc) => run_controlFns socketOpenControlFns network address rc w
  end.

(** features_linux.go *)
Definition supportsUDPOffload_linux (c : conn) (w : W) : bool * bool :=
  match env_sockopt_fd c w with
  | inl _ => (false, false)
  | inr fd =>
      let txOffload := match env_getsockopt fd O_UDP_SEGMENT w with inr _ => true | inl _ => false end in
      let rxOffload := match env_getsockopt fd O_UDP_GRO w with inr opt => (opt =? 1)%Z | inl _ => false end in
      (txOffload, rxOffload)
  end.
(** features_default.go: the named results stay false. *)
Definition supportsUDPOffload_default (c : conn) : bool * bool := (false, false).
(** The function that the build tags select. *)
Definition supportsUDPOffload (c : conn) (w : W) : bool * bool :=
  if linux_or_android os then supportsUDPOffload_linux c w else supportsUDPOffload_default c.

(** mark_unix.go: [fwmarkIoctl], zero where the platform has no mark. *)
Definition fwmarkIoctl : Z :=
  match os with
  | Linux | Android => 36
  | FreeBSD => 4117
  | OpenBSD => 4129
  | _ => 0
  end.

(** One of the two blocks of [SetMark]. *)
Definition set_mark_on (c : option conn) (mark : Z) (w : W) : option error * W :=
  match c with
  | None => (None, w)
  | Some c =>
      let '(err, w) :=
        match env_sockopt_fd c w with
        | inl e => (Some e, w)
        | inr fd => env_setsockopt fd (O_FWMARK fwmarkIoctl) mark w
        end in
      (env_ignore_unsupported err, w)
  end.

(** [StdNetBind.SetMark] of mark_unix.go: a block per socket; the method does
    not take [s.mu]. *)
Definition SetMark_unix (ipv4 ipv6 : option conn) (mark : Z) (w : W) : option error * W :=
  if (fwmarkIoctl =? 0)%Z then (None, w)
  else match set_mark_on ipv4 mark w with
       | (Some err, w) => (Some err, w)
       | (None, w) => set_mark_on ipv6 mark w
       end.
(** mark_default.go *)
Definition SetMark_default (w : W) : option error * W := (None, w).
(** The method that the build tags select. *)
Definition SetMark (ipv4 ipv6 : option conn) (mark : Z) (w : W) : option error * W :=
  match os with
  | Linux | Android | FreeBSD | OpenBSD => SetMark_unix ipv4 ipv6 mark w
  | Windows | Darwin | Wasm => SetMark_default w
  end.
End ControlFns.

(** ** What the hooks leave alone *)

(** A property of the world that socket options do not touch. *)
Section Frame.
Context `{Env W} {A : Type} (f : W -> A).
Hypothesis Hf : forall fd o v w, f (env_setsockopt fd o v w).2 = f w.

Lemma controlFn_frame os fn network address rc w :
  fn ∈ socketOpenControlFns os ++ listenControlFns os ->
  f (fn network address rc w).2 = f w.
Proof.
  intros Hfn.
  assert (fn ∈ [buffers_linux; pktinfo_linux os; gro_linux; v6only_linux; buffers_windows; buffers_unix; v6only_unix]) as Hin.
  { destruct os; cbn in Hfn; set_solver. }
  clear Hfn. unfold buffers_linux, pktinfo_linux, gro_linux, v6only_linux, buffers_windows, buffers_unix, v6only_unix,
    rawControl, rawControlErr, try_setsockopt in Hin.
  repeat (apply elem_of_cons in Hin as [->|Hin]; [
    repeat case_bool_decide; destruct (env_raw_fd rc w); try destruct (gro_kernel _);
    cbn [snd]; rewrite ?Hf; try done;
    match goal with |- context [env_setsockopt ?fd ?o ?v w] =>
      pose proof (Hf fd o v w); destruct (env_setsockopt fd o v w); done end |]).
  by apply not_elem_of_nil in Hin.
Qed.

Lemma run_controlFns_frame os fns network address rc : forall w,
  (forall fn, fn ∈ fns -> fn ∈ socketOpenControlFns os ++ listenControlFns os) ->
  f (run_controlFns fns network address rc w).2 = f w.
Proof.
  induction fns as [|fn fns IH]; intros w Hfns; [done|]. cbn.
  pose proof (controlFn_frame os fn network address rc w (Hfns fn ltac:(left))) as E.
  destruct (fn network address rc w) as [[err|] w'] eqn:Efn; cbn in *; [done|].
  rewrite IH; [done|]. intros. apply Hfns. by right.
Qed.

Lemma listenConfig_frame os network address rc w : f (listenConfig os network address rc w).2 = f w.
Proof.
  destruct rc; [|done]. apply (run_controlFns_frame os). intros. apply elem_of_app. by right.
Qed.

Lemma configureSocket_frame os c network address w :
  f (configureSocket os c network address w).2 = f w.
Proof.
  unfold configureSocket. destruct (env_syscall_conn c w) as [|[rc|]]; try done.
  apply (run_controlFns_frame os). intros. apply elem_of_app. by left.
Qed.
End Frame.

(** ** What configuring a socket does on Linux *)

Section Linux.
Context `{Env W} {L : EnvLaws W}.

(** The option that makes the kernel report the local address of a family. *)
Definition pktinfo_opt (network : string) : sockopt :=
  if bool_decide (network = "udp4"%string) then O_IP_PKTINFO else O_IPV6_RECVPKTINFO.

(** The world after the four buffer size requests. *)
Definition buffers_set (fd : Z) (w : W) : W :=
  fold_left (fun w o => try_setsockopt fd o socketBufferSize w)
    [SO_RCVBUF; SO_SNDBUF; SO_RCVBUFFORCE; SO_SNDBUFFORCE] w.

Lemma raw_fd_buffers rc fd w : env_raw_fd rc (buffers_set fd w) = env_raw_fd rc w.
Proof. unfold buffers_set, try_setsockopt. cbn. by rewrite !law_setsockopt_fd. Qed.

(** C31: Configuring a Linux UDP socket with raw access: the buffer sizes are
    requested and their failure is tolerated, sticky sockets are then mandatory
    (an error of the PKTINFO option is the error of [configureSocket], and no
    option is set after it), and UDP_GRO is requested, its failure tolerated,
    exactly on kernels from 5.12 on. *)
Theorem configureSocket_linux c rc fd network address w :
  network = "udp4"%string \/ network = "udp6"%string ->
  env_syscall_conn c w = inr (Some rc) -> env_raw_fd rc w = inr fd ->
  let '(major, minor) := kernelVersion in
  let '(err, w1) := env_setsockopt fd (pktinfo_opt network) 1 (buffers_set fd w) in
  match err with
  | Some e => configureSocket Linux c network address w = (Some e, w1)
  | None =>
      ((5 < major \/ (major = 5 /\ 12 <= minor))%Z ->
        configureSocket Linux c network address w = (None, try_setsockopt fd O_UDP_GRO 1 w1)) /\
      ((major < 5 \/ (major = 5 /\ minor < 12))%Z -> configureSocket Linux c network address w = (None, w1))
  end.
Proof.
  intros Hn Hrc Hfd. assert (configureSocket Linux c network address w =
    match env_setsockopt fd (pktinfo_opt network) 1 (buffers_set fd w) with
    | (Some e, w') => (Some e, w')
    | (None, w') => (None, if gro_kernel kernelVersion then try_setsockopt fd O_UDP_GRO 1 w' else w')
    end) as ->; [|destruct kernelVersion as [major minor], (env_setsockopt fd (pktinfo_opt network) 1 (buffers_set fd w))
      as [[e|] w1]; [done|]; split; intros Hv; [by rewrite (proj2 (gro_kernel_spec _ _) Hv)|];
      destruct (gro_kernel (major, minor)) eqn:Ek; [apply gro_kernel_spec in Ek; lia|done]].
  unfold configureSocket. rewrite Hrc. cbn [socketOpenControlFns run_controlFns].
  unfold buffers_linux, rawControl. rewrite Hfd. cbv zeta.
  change (try_setsockopt fd SO_SNDBUFFORCE _ _) with (buffers_set fd w).
  pose proof (raw_fd_buffers rc fd w) as Hfd2. rewrite Hfd in Hfd2.
  assert (pktinfo_linux Linux network address rc (buffers_set fd w)
          = env_setsockopt fd (pktinfo_opt network) 1 (buffers_set fd w)) as ->.
  { unfold pktinfo_linux, pktinfo_opt, rawControlErr. rewrite Hfd2.
    generalize (buffers_set fd w). intros w1. destruct Hn as [-> | ->];
      repeat case_bool_decide; try done; by destruct (env_setsockopt _ _ _ _). }
  pose proof (law_setsockopt_fd fd (pktinfo_opt network) 1 (buffers_set fd w) rc) as Hfd3.
  destruct (env_setsockopt _ (pktinfo_opt network) _ _) as [[e|] w']; [done|]. cbn [snd] in Hfd3.
  unfold gro_linux, rawControl. destruct (gro_kernel _); [|done]. by rewrite Hfd3, Hfd2.
Qed.

(** The listen hook makes IPv6 sockets v6-only before bind (so that the
    IPv4 socket of the pair can have the same port), fails when it cannot, and
    touches nothing for IPv4 or without raw access. *)
Theorem listenConfig_v6only address rc w :
  listenConfig Linux "udp4" address rc w = (None, w) /\
  listenConfig Linux "udp6" address None w = (None, w) /\
  forall c, rc = Some c ->
    listenConfig Linux "udp6" address rc w =
    match env_raw_fd c w with
    | inl e => (Some e, w)
    | inr fd => env_setsockopt fd O_IPV6_V6ONLY 1 w
    end.
Proof.
  split_and!; [by destruct rc|done|]. intros c ->. cbn [listenConfig listenControlFns run_controlFns].
  unfold v6only_linux, rawControlErr. rewrite bool_decide_eq_true_2 by done.
  destruct (env_raw_fd c w) as [|fd]; [done|].
  destruct (env_setsockopt _ _ _ _) as [[e|] w']; done.
Qed.
End Linux.

Definition sim0 : sim := mkSim ∅ [] ["udp4"; "udp6"]%string 40000 false true [] [] ∅ 64.

Lemma configureSocket_linux_witness :
  configureSocket Linux 3 "udp4" "0.0.0.0:0" sim0 =
  (None, fold_left (fun w o => with_opt w 3 o.1 o.2)
    [(SO_RCVBUF, socketBufferSize); (SO_SNDBUF, socketBufferSize); (SO_RCVBUFFORCE, socketBufferSize);
     (SO_SNDBUFFORCE, socketBufferSize); (O_IP_PKTINFO, 1); (O_UDP_GRO, 1)]%Z sim0).
Proof.
  pose proof (configureSocket_linux (H := sim_env) 3 3 3 "udp4" "0.0.0.0:0" sim0 (or_introl eq_refl) eq_refl eq_refl) as Hc.
  destruct kernelVersion as [major minor] eqn:Ek. vm_compute in Ek. injection Ek as <- <-.
  destruct (env_setsockopt _ _ _ _) as [[e|] w1] eqn:Es; vm_compute in Es; [discriminate Es|].
  injection Es as <-. rewrite (proj1 Hc); [|lia]. vm_compute. reflexivity.
Defined.

Lemma listenConfig_v6only_witness :
  listenConfig Linux "udp6" "[::]:0" (Some 5) sim0 = (None, with_opt sim0 5 O_IPV6_V6ONLY 1).
Proof.
  exact (proj2 (proj2 (listenConfig_v6only (H := sim_env) "[::]:0" (Some 5) sim0)) 5 eq_refl).
Defined.

(** The release 5.15.0-generic. *)
Definition uname_env : Env unit := {|
  env_listen _ _ _ w := (inl ErrClosed, w); env_is_native := true; env_is_up := None;
  env_close _ w := (None, w); env_local_addr _ _ := ""; env_local_port _ _ := inl ErrClosed;
  env_wrapped _ := None; env_is_udpconn _ := false; env_syscall_conn _ _ := inr None;
  env_raw_fd _ _ := inl ErrClosed; env_sockopt_fd _ _ := inl ErrClosed;
  env_ignore_unsupported e := e; env_setsockopt _ _ _ w := (None, w);
  env_getsockopt _ _ _ := inr 0%Z; env_uname := inr (string_bytes "5.15.0-generic");
  env_write_batch _ _ w := ((0, None), w); env_write_msg _ _ _ _ w := (None, w);
  env_read_batch _ m ms w := ((0, Some ErrClosed), ms, m, w);
  env_read_msg _ m _ o w := (inl ErrClosed, o, m, w);
|}.

Lemma kernelVersion_parses_witness : kernelVersion (H := uname_env) = (5, 15)%Z.
Proof.
  apply (kernelVersion_parses (H := uname_env) (string_bytes "5") x2e (string_bytes "15") x2e
    (string_bytes "0-generic")).
  1-2: by repeat constructor.
  1-2: by vm_compute.
  1-2: vm_compute; lia.
  reflexivity.
Defined.

(** ** SetMark *)

Section Mark.
Context `{Env W}.

(** [SetMark] reaches both sockets: when both are open and can be accessed
    and nothing fails, the mark is set on the IPv4 socket and then on the IPv6
    socket with the option of the platform; an error on the first socket that
    is not "unsupported" is returned before the second is touched; platforms
    without a mark, and a closed bind, do nothing. *)
Theorem SetMark_spec os mark w :
  let opt := O_FWMARK (fwmarkIoctl os) in
  (fwmarkIoctl os = 0%Z -> forall a b, SetMark os a b mark w = (None, w)) /\
  SetMark os None None mark w = (None, w) /\
  (fwmarkIoctl os <> 0%Z -> forall a b fda fdb wa ra wb rb,
     env_sockopt_fd a w = inr fda -> env_setsockopt fda opt mark w = (ra, wa) ->
     env_sockopt_fd b wa = inr fdb -> env_setsockopt fdb opt mark wa = (rb, wb) ->
     SetMark os (Some a) (Some b) mark w =
     match env_ignore_unsupported ra with
     | Some err => (Some err, wa)
     | None => (env_ignore_unsupported rb, wb)
     end).
Proof.
  assert (forall a b, SetMark os a b mark w = SetMark_unix os a b mark w) as Hsel by (by destruct os).
  intros opt. setoid_rewrite Hsel. unfold SetMark_unix. split_and!.
  - by intros ->.
  - by destruct (_ =? 0)%Z.
  - intros Hz a b fda fdb wa ra wb rb Ha Hsa Hb Hsb.
    rewrite (proj2 (Z.eqb_neq _ _) Hz). unfold set_mark_on. fold opt. rewrite Ha, Hsa.
    destruct (env_ignore_unsupported ra); [done|]. by rewrite Hb, Hsb.
Qed.
End Mark.

Lemma SetMark_spec_witness :
  SetMark Linux (Some 1) (Some 2) 51 sim0 =
  (None, with_opt (with_opt sim0 1 (O_FWMARK 36) 51) 2 (O_FWMARK 36) 51).
Proof.
  apply (proj2 (proj2 (SetMark_spec (H := sim_env) Linux 51 sim0)) ltac:(discriminate) 1 2 1%Z 2%Z
    (with_opt sim0 1 (O_FWMARK 36) 51) None
    (with_opt (with_opt sim0 1 (O_FWMARK 36) 51) 2 (O_FWMARK 36) 51) None); reflexivity.
Defined.
