(* ===== verification/Conn.v ===== *)
(** * Helpers of conn.go, gonnect_helpers.go, closer_tracking.go, default.go

    The checks every receive function starts with, the names of receive
    functions, unwrapping of connections, and the choice of a bind for a
    network. *)

From Stdlib Require Import Ascii.
From S2P Require Import Prelude Errors GoMem Netip Env SimNet.

Definition IdealBatchSize : nat := 128.

(** [validateReceiveBuffers], on the lengths of the three slices. *)
Definition validateReceiveBuffers (packets sizes eps batchSize : nat) : option error :=
  if (packets <? batchSize)%nat || (sizes <? batchSize)%nat || (eps <? batchSize)%nat
  then Some ErrReadBufferTooShort else None.

Lemma validateReceiveBuffers_None p s e b :
  validateReceiveBuffers p s e b = None <-> b <= p /\ b <= s /\ b <= e.
Proof.
  unfold validateReceiveBuffers. destruct (_ || _) eqn:E.
  - split; [done|]. intros (? & ? & ?). rewrite !orb_true_iff in E.
    destruct E as [[E|E]|E]; bool_simp; lia.
  - bool_simp. split; [lia|done].
Qed.

(** [networkDown(network)] for a bind whose network may be nil: a network
    without [IsUp], or whose [IsUp] fails, counts as up. *)
Definition networkDown `{Env W} (network : bool) (w : W) : bool :=
  match network, env_is_up with
  | true, Some IsUp => match IsUp w with inr up => negb up | inl _ => false end
  | _, _ => false
  end.

(** ** Unwrapping *)

(** [unwrapValue] follows [gonnect.GetWrapped]; [fuel] bounds the depth. *)
Fixpoint unwrapValue `{Env W} (fuel : nat) (v : conn) : go conn :=
  match fuel with
  | O => NoFuel
  | S fuel' =>
      match env_wrapped v with
      | None => Ret v
      | Some next => unwrapValue fuel' next
      end
  end.

Definition unwrapUDPConn `{Env W} (fuel : nat) (c : option conn) : go (option conn) :=
  match c with
  | None => Ret None
  | Some c => u ← unwrapValue fuel c; Ret (if env_is_udpconn u then Some u else None)
  end.

Section Unwrap.
Context `{Env W} {L : EnvLaws W}.

(** Reachability through wrappers. *)
Inductive wraps : conn -> conn -> Prop :=
| wraps_refl c : wraps c c
| wraps_step c c' u : env_wrapped c = Some c' -> wraps c' u -> wraps c u.

(** Unwrapping ends at the innermost value, and the depth of the wrappers is
    enough fuel. *)
Lemma unwrapValue_total fuel c :
  wrap_depth c < fuel -> exists u, unwrapValue fuel c = Ret u /\ wraps c u /\ env_wrapped u = None.
Proof.
  revert c. induction fuel as [|fuel IH]; intros c Hf; [lia|]. cbn.
  destruct (env_wrapped c) as [c'|] eqn:E.
  - pose proof (law_wrapped c c' E). destruct (IH c' ltac:(lia)) as (u & Hu & Hw & Hn).
    exists u. split_and!; try done. by eapply wraps_step.
  - exists c. split_and!; try done. apply wraps_refl.
Qed.

(** The innermost value is unique. *)
Lemma wraps_unique c u u' : wraps c u -> env_wrapped u = None -> wraps c u' -> env_wrapped u' = None -> u = u'.
Proof.
  induction 1 as [c|c c' u Hc _ IH]; intros Hu Hw Hu'.
  - inversion Hw; subst; [done|congruence].
  - inversion Hw; subst; [congruence|]. apply IH; try done. congruence.
Qed.

Lemma unwrapUDPConn_total fuel c :
  wrap_depth c < fuel -> exists o, unwrapUDPConn fuel (Some c) = Ret o.
Proof.
  intros Hf. destruct (unwrapValue_total fuel c Hf) as (u & Hu & _). cbn. rewrite Hu. cbn. eauto.
Qed.
End Unwrap.

(** ** Names of receive functions *)

Section PrettyName.
Abbreviation gostring := (list ascii).

Definition lit (s : string) : gostring := String.list_ascii_of_string s.

Definition HasSuffix (s suf : gostring) : bool :=
  (length suf <=? length s)%nat && bool_decide (drop (length s - length suf) s = suf).
Definition TrimSuffix (s suf : gostring) : gostring :=
  if HasSuffix s suf then take (length s - length suf) s else s.

(** [strings.LastIndexByte(s, c)] and the text after it. *)
Fixpoint after_last (c : ascii) (s : gostring) : option gostring :=
  match s with
  | [] => None
  | x :: s' =>
      match after_last c s' with
      | Some r => Some r
      | None => if bool_decide (x = c) then Some s' else None
      end
  end.
Definition cut_after_last (c : ascii) (s : gostring) : gostring := default s (after_last c s).

Definition ascii_digit (c : ascii) : bool :=
  (48 <=? N_of_ascii c)%N && (N_of_ascii c <=? 57)%N.

(** The scan for the last character that is not a digit; the result is
    [idx + 1]. *)
Fixpoint skip_digits (name : gostring) (k : nat) : nat :=
  match k with
  | O => O
  | S k' =>
      match name !! k' with
      | Some c => if ascii_digit c then skip_digits name k' else k
      | None => k
      end
  end.

Definition dotFunc : gostring := lit ".func".

(** The loop that strips [.func<digits>] suffixes. *)
Fixpoint strip_closures (fuel : nat) (name : gostring) : go gostring :=
  match fuel with
  | O => NoFuel
  | S fuel' =>
      let k := skip_digits name (length name) in
      if (k =? length name)%nat then Ret name
      else if negb (HasSuffix (take k name) dotFunc) then Ret name
      else strip_closures fuel' (take (k - length dotFunc) name)
  end.

(** [PrettyName] of a function whose run-time name is [name] and whose [%p]
    rendering is [ptr]. *)
Definition PrettyName (fuel : nat) (name ptr : gostring) : go gostring :=
  let name := TrimSuffix name (lit "-fm") in
  let name := cut_after_last "/" name in
  name ← strip_closures fuel name;
  let name := cut_after_last "." name in
  Ret (if bool_decide (name = []) then ptr
       else if HasSuffix name (lit "IPv4") then lit "v4"
       else if HasSuffix name (lit "IPv6") then lit "v6"
       else name).

(** *** Suffixes *)

Lemma HasSuffix_iff s suf : HasSuffix s suf = true <-> exists p, s = p ++ suf.
Proof.
  unfold HasSuffix. rewrite andb_true_iff, Nat.leb_le, bool_decide_eq_true. split.
  - intros [Hl Hd]. exists (take (length s - length suf) s). rewrite <- Hd at 2. by rewrite take_drop.
  - intros [p ->]. rewrite length_app. split; [lia|]. apply drop_app_length'. lia.
Qed.

Lemma HasSuffix_last s c suf : HasSuffix s (suf ++ [c]) = true -> last s = Some c.
Proof. intros [p ->]%HasSuffix_iff. by rewrite app_assoc, last_snoc. Qed.

Lemma TrimSuffix_app s suf : TrimSuffix (s ++ suf) suf = s.
Proof.
  unfold TrimSuffix. rewrite (proj2 (HasSuffix_iff _ _)) by eauto.
  rewrite length_app, Nat.add_sub. apply take_app_length.
Qed.

Lemma after_last_notin c s : c ∉ s -> after_last c s = None.
Proof.
  induction s as [|x s IH]; [done|]. intros [Hx Hs]%not_elem_of_cons. cbn.
  rewrite IH by done. by rewrite bool_decide_eq_false_2.
Qed.

Lemma after_last_app c s t : c ∉ t -> after_last c (s ++ c :: t) = Some t.
Proof.
  intros Ht. induction s as [|x s IH]; cbn.
  - rewrite after_last_notin by done. by rewrite bool_decide_eq_true_2.
  - by rewrite IH.
Qed.

Lemma skip_digits_app name ds k :
  Forall (fun c => ascii_digit c = true) ds -> k = length name ->
  skip_digits (name ++ ds) (length (name ++ ds)) = skip_digits name k.
Proof.
  intros Hds ->. induction ds as [|d ds IH] using rev_ind.
  - by rewrite app_nil_r.
  - apply Forall_app in Hds as [Hds Hd]. inversion Hd as [|? ? Hd1 _]; subst.
    rewrite app_assoc, length_app. cbn [length]. rewrite Nat.add_1_r. cbn [skip_digits].
    rewrite lookup_app_r, Nat.sub_diag by done. cbn. rewrite Hd1.
    rewrite <- IH by done. clear.
    assert (forall k, k <= length (name ++ ds) ->
      skip_digits ((name ++ ds) ++ [d]) k = skip_digits (name ++ ds) k) as Hk; [|by apply Hk].
    induction k as [|k IHk]; intros Hk; [done|]. cbn [skip_digits].
    rewrite lookup_app_l by lia. destruct (_ !! k); [|done]. rewrite IHk by lia. done.
Qed.

Lemma skip_digits_stop name c : ascii_digit c = false ->
  skip_digits (name ++ [c]) (length (name ++ [c])) = length (name ++ [c]).
Proof.
  intros Hc. rewrite length_app. cbn [length]. rewrite Nat.add_1_r. cbn [skip_digits].
  rewrite lookup_app_r, Nat.sub_diag by done. cbn. by rewrite Hc.
Qed.

Lemma skip_digits_le name k : skip_digits name k <= k.
Proof.
  induction k as [|k IH]; [done|]. cbn. destruct (name !! k) as [c|]; [|done].
  destruct (ascii_digit c); lia.
Qed.

(** The loop ends: every round shortens the name. *)
Lemma strip_closures_total fuel name :
  length name < fuel -> exists r, strip_closures fuel name = Ret r.
Proof.
  revert name. induction fuel as [|fuel IH]; intros name Hf; [lia|]. cbn [strip_closures].
  pose proof (skip_digits_le name (length name)).
  destruct (Nat.eqb_spec (skip_digits name (length name)) (length name)); [eauto|].
  destruct (HasSuffix _ _); [|eauto]. cbn [negb]. apply IH. rewrite length_take. lia.
Qed.

(** One closure suffix. *)
Lemma strip_closures_step fuel name ds :
  Forall (fun c => ascii_digit c = true) ds -> ds <> [] ->
  strip_closures (S fuel) (name ++ dotFunc ++ ds) = strip_closures fuel name.
Proof.
  intros Hds Hne. cbn [strip_closures]. rewrite app_assoc.
  rewrite (skip_digits_app (name ++ dotFunc) ds _ Hds eq_refl).
  assert (skip_digits (name ++ dotFunc) (length (name ++ dotFunc)) = length (name ++ dotFunc)) as ->.
  { change dotFunc with (lit ".fun" ++ ["c"%char]). rewrite app_assoc. by apply skip_digits_stop. }
  destruct (Nat.eqb_spec (length (name ++ dotFunc)) (length ((name ++ dotFunc) ++ ds))) as [E|_].
  { rewrite (length_app _ ds) in E. destruct ds; [done|cbn in E; lia]. }
  rewrite take_app_length. rewrite (proj2 (HasSuffix_iff _ _)) by eauto. cbn [negb].
  f_equal. rewrite length_app, Nat.add_sub. rewrite <- app_assoc. apply take_app_length.
Qed.

(** The run-time name of a receive function: a path, the method name, any
    number of closure suffixes, and possibly the suffix of a method value. *)
Definition closures (ds : list gostring) : gostring := concat (map (app dotFunc) ds).
Definition func_name (path base : gostring) (ds : list gostring) (fm : bool) : gostring :=
  path ++ base ++ closures ds ++ (if fm then lit "-fm" else []).
Definition ends_path (path : gostring) : Prop :=
  path = [] \/ (exists p, path = p ++ ["."%char]) \/ (exists p, path = p ++ ["/"%char]).

Lemma strip_closures_all ds : forall fuel name,
  Forall (fun d => d <> [] /\ Forall (fun c => ascii_digit c = true) d) ds ->
  length ds < fuel ->
  strip_closures fuel (name ++ closures ds) = strip_closures (fuel - length ds) name.
Proof.
  induction ds as [|d ds IH] using rev_ind; intros fuel name Hds Hf.
  - cbn. by rewrite app_nil_r, Nat.sub_0_r.
  - apply Forall_app in Hds as [Hds Hd]. inversion Hd as [|? ? [Hd1 Hd2] _]; subst.
    rewrite length_app in *. cbn [length] in *. destruct fuel as [|fuel]; [lia|].
    unfold closures. rewrite map_app, concat_app. cbn [map concat].
    rewrite app_nil_r, app_assoc, strip_closures_step by done.
    fold (closures ds). rewrite (IH fuel name) by (done || lia). f_equal. lia.
Qed.

Lemma not_elem_of_closures (x : ascii) ds :
  x ∉ dotFunc -> ascii_digit x = false ->
  Forall (fun d => d <> [] /\ Forall (fun c => ascii_digit c = true) d) ds -> x ∉ closures ds.
Proof.
  intros Hx Hdx. induction 1 as [|d ds [_ Hd] _ IH]; [apply not_elem_of_nil|].
  cbn [closures map concat]. unfold closures in IH. rewrite !elem_of_app. intros [[?|Hin]|?]; [done| |done].
  rewrite list.Forall_forall in Hd. apply Hd in Hin. congruence.
Qed.

Lemma cut_after_last_app c s t : c ∉ t -> cut_after_last c (s ++ t) = cut_after_last c s ++ t.
Proof.
  intros Ht. unfold cut_after_last.
  assert (after_last c (s ++ t) = (fun r => r ++ t) <$> after_last c s) as ->.
  { induction s as [|x s IH]; cbn; [by apply after_last_notin|]. rewrite IH.
    destruct (after_last c s); cbn; [done|]. by destruct (bool_decide (x = c)). }
  by destruct (after_last c s).
Qed.

Lemma after_last_length c s r : after_last c s = Some r -> length r <= length s.
Proof.
  revert r. induction s as [|x s IH]; [done|]. cbn. intros r.
  destruct (after_last c s) as [r'|].
  - intros [= ->]. specialize (IH r eq_refl). lia.
  - case_bool_decide; [|done]. intros [= ->]. lia.
Qed.

Lemma cut_after_last_length c s : length (cut_after_last c s) <= length s.
Proof.
  unfold cut_after_last. destruct (after_last c s) as [r|] eqn:E; cbn; [|done].
  by eapply after_last_length.
Qed.

Lemma TrimSuffix_length s suf : length (TrimSuffix s suf) <= length s.
Proof. unfold TrimSuffix. destruct (HasSuffix _ _); [rewrite length_take; lia|done]. Qed.

Lemma cut_after_last_snoc c s : cut_after_last c (s ++ [c]) = [].
Proof. unfold cut_after_last. by rewrite after_last_app by apply not_elem_of_nil. Qed.

(** Cutting a path at the last slash leaves a package qualifier or nothing. *)
Lemma cut_path path : ends_path path ->
  cut_after_last "." (cut_after_last "/" path) = [].
Proof.
  intros [->|[[p ->]|[p ->]]]; [done| |].
  - rewrite cut_after_last_app by (intros ?%list_elem_of_singleton; done). apply cut_after_last_snoc.
  - by rewrite cut_after_last_snoc.
Qed.

(** A name as the compiler makes it from an identifier: no separator, and not
    itself the name of a closure. *)
Definition digits (d : gostring) : Prop := d <> [] /\ Forall (fun c => ascii_digit c = true) d.
Record plain_name (base : gostring) : Prop := {
  pn_nonempty : base <> [];
  pn_dot : "."%char ∉ base;
  pn_slash : "/"%char ∉ base;
  pn_dash : "-"%char ∉ base;
  pn_func d : digits d -> base <> lit "func" ++ d;
}.

Lemma last_closures name ds :
  Forall digits ds -> ds <> [] -> exists c, last (name ++ closures ds) = Some c /\ ascii_digit c = true.
Proof.
  intros Hds Hne. destruct (exists_last Hne) as (ds' & d & ->).
  apply Forall_app in Hds as [_ Hd]. inversion Hd as [|? ? [Hd1 Hd2] _]; subst.
  unfold closures. rewrite map_app, concat_app. cbn [map concat]. rewrite app_nil_r, !app_assoc.
  destruct (exists_last Hd1) as (d' & x & ->). rewrite app_assoc, last_snoc. exists x. split; [done|].
  apply Forall_app in Hd2 as [_ Hx]. by inversion Hx.
Qed.

(** A suffix of a qualified name whose first character is not in the base ends
    before the base; the qualifier ends in a separator. *)
Lemma suffix_in_base (q base p suf : gostring) c :
  c ∉ base -> q ++ base = p ++ c :: suf -> base <> [] \/ q <> [] ->
  exists k, c :: suf = k ++ base /\ k <> [] /\ last q = last k.
Proof.
  intros Hc HE Hne. apply app_eq_inv in HE as [(k & -> & Hk)|(k & _ & ->)].
  - exists k. split; [done|]. assert (k <> []) as Hk0.
    { intros ->. cbn in Hk. subst base. by apply Hc, list_elem_of_here. }
    split; [done|]. rewrite last_app. by destruct (last k) eqn:El; [|apply last_None in El].
  - exfalso. apply Hc, elem_of_app. right. apply list_elem_of_here.
Qed.

Lemma trim_fm path base ds fm :
  ends_path path -> plain_name base -> Forall digits ds ->
  TrimSuffix (func_name path base ds fm) (lit "-fm") = (path ++ base) ++ closures ds.
Proof.
  intros Hp [Hne _ _ Hdash _] Hds. unfold func_name. rewrite !app_assoc. destruct fm; [apply TrimSuffix_app|].
  rewrite app_nil_r. unfold TrimSuffix. destruct (HasSuffix _ _) eqn:E; [exfalso|done].
  destruct (decide (ds = [])) as [->|Hd].
  - unfold closures in E. cbn in E. rewrite app_nil_r in E. apply HasSuffix_iff in E as [p HE].
    destruct (suffix_in_base path base p (lit "fm") "-" Hdash HE) as (k & Hk & Hk0 & Hl); [by left|].
    destruct Hp as [->|[[p' ->]|[p' ->]]]; rewrite ?last_snoc in Hl.
    + cbn in Hl. symmetry in Hl. by apply last_None in Hl.
    + destruct k as [|k1 [|k2 [|k3 [|]]]]; cbn in *; simplify_eq.
    + destruct k as [|k1 [|k2 [|k3 [|]]]]; cbn in *; simplify_eq.
  - change (lit "-fm") with (lit "-f" ++ ["m"%char]) in E. apply HasSuffix_last in E.
    destruct (last_closures (path ++ base) ds Hds Hd) as (c & Hc & Hc2). rewrite E in Hc. by injection Hc as <-.
Qed.

(** The digits at the end of a name. *)
Lemma split_digits (s : gostring) : exists b d, s = b ++ d /\ Forall (fun c => ascii_digit c = true) d /\
  (b = [] \/ exists b' c, b = b' ++ [c] /\ ascii_digit c = false).
Proof.
  induction s as [|x s (b & d & -> & Hd & Hb)] using rev_ind; [by exists [], []; split_and!; [..|left]|].
  destruct (ascii_digit x) eqn:Ex.
  - exists b, (d ++ [x]). rewrite app_assoc. split_and!; try done. apply Forall_app. by split; [|constructor].
  - exists ((b ++ d) ++ [x]), []. rewrite app_nil_r. split_and!; try done. right. by eexists _, _.
Qed.

(** A plain name has no closure suffix. *)
Lemma strip_closures_plain fuel q base :
  0 < fuel -> (q = [] \/ exists p, q = p ++ ["."%char]) -> plain_name base ->
  strip_closures fuel (q ++ base) = Ret (q ++ base).
Proof.
  intros Hf Hq [Hne Hdot _ _ Hfunc]. destruct fuel as [|fuel]; [lia|]. cbn [strip_closures].
  destruct (split_digits base) as (b & d & -> & Hd & Hb). rewrite app_assoc.
  rewrite (skip_digits_app _ d _ Hd eq_refl). destruct (Nat.eqb_spec (skip_digits (q ++ b) (length (q ++ b))) (length ((q ++ b) ++ d))) as [|Hk]; [done|].
  assert (skip_digits (q ++ b) (length (q ++ b)) = length (q ++ b)) as Hs.
  { destruct Hb as [->|(b' & c & -> & Hc)]; [|rewrite app_assoc; by apply skip_digits_stop].
    rewrite app_nil_r. destruct Hq as [->|[p ->]]; [done|]. by apply skip_digits_stop. }
  rewrite Hs, take_app_length. destruct (HasSuffix (q ++ b) dotFunc) eqn:E; [exfalso|done].
  apply HasSuffix_iff in E as [p HE]. rewrite elem_of_app in Hdot.
  assert (d <> []) as Hd0 by (intros ->; rewrite Hs, app_nil_r in Hk; done).
  assert (b <> [] \/ q <> []) as Hbq.
  { destruct b; [|by left]. right. intros ->. by destruct p. }
  destruct (suffix_in_base q b p (lit "func") "." ltac:(tauto) HE Hbq) as (k & Hkk & Hk0 & Hl).
  assert (k = ["."%char]) as ->.
  { destruct Hq as [->|[p' ->]]; [cbn in Hl; symmetry in Hl; by apply last_None in Hl|]. rewrite last_snoc in Hl.
    destruct k as [|k1 [|k2 [|k3 [|k4 [|k5 [|]]]]]]; cbn in *; simplify_eq; done. }
  cbn in Hkk. injection Hkk as <-. by apply (Hfunc d).
Qed.

Lemma cut_slash path : ends_path path -> cut_after_last "/" path = [] \/ exists p, cut_after_last "/" path = p ++ ["."%char].
Proof.
  intros [->|[[p ->]|[p ->]]]; [by left| |left; apply cut_after_last_snoc].
  right. exists (cut_after_last "/" p). apply cut_after_last_app. by intros ?%list_elem_of_singleton.
Qed.

(** The name in the logs: the family of a receive function, or the name. *)
Definition short_name (base : gostring) : gostring :=
  if HasSuffix base (lit "IPv4") then lit "v4" else if HasSuffix base (lit "IPv6") then lit "v6" else base.

Lemma PrettyName_plain fuel path base ds fm ptr :
  ends_path path -> plain_name base -> Forall digits ds -> length ds < fuel ->
  PrettyName fuel (func_name path base ds fm) ptr = Ret (short_name base).
Proof.
  intros Hp Hb Hds Hf. unfold PrettyName. assert ("/"%char ∉ base ++ closures ds) as Hsl.
  { rewrite elem_of_app. intros [Hin|Hin]; [by apply (pn_slash _ Hb)|].
    revert Hin. apply not_elem_of_closures; [|done..]. apply (bool_decide_unpack _). by vm_compute. }
  rewrite trim_fm, <- app_assoc, cut_after_last_app by done.
  rewrite app_assoc, strip_closures_all by done.
  rewrite strip_closures_plain by (done || lia || by apply cut_slash). cbn [mbind go_mbind].
  rewrite cut_after_last_app, cut_path, app_nil_l by (done || apply Hb).
  by rewrite bool_decide_eq_false_2 by apply Hb.
Qed.

(** C36: The names of receive functions in logs.  A run-time name is a path or
    package, the name of a function, any number of closure suffixes and possibly
    the suffix of a method value; [PrettyName] strips everything but the name of
    the function, and returns "v4" when it ends in [IPv4], "v6" when it ends in
    [IPv6], and otherwise the name itself.  It terminates on every name. *)
Theorem PrettyName_family path base ds fm ptr :
  ends_path path -> plain_name base -> Forall digits ds ->
  (forall fuel, length ds < fuel ->
    PrettyName fuel (func_name path base ds fm) ptr = Ret (short_name base)) /\
  (forall b, base = b ++ lit "IPv4" -> short_name base = lit "v4") /\
  (forall b, base = b ++ lit "IPv6" -> short_name base = lit "v6") /\
  ((forall b, base <> b ++ lit "IPv4" /\ base <> b ++ lit "IPv6") -> short_name base = base) /\
  forall name, exists r, PrettyName (S (length name)) name ptr = Ret r.
Proof.
  intros Hp Hb Hds. split_and!.
  - intros fuel Hf. by apply PrettyName_plain.
  - intros b ->. unfold short_name. by rewrite (proj2 (HasSuffix_iff _ _)) by eauto.
  - intros b ->. unfold short_name. destruct (HasSuffix _ (lit "IPv4")) eqn:E.
    + change (lit "IPv4") with (lit "IPv" ++ ["4"%char]) in E. apply HasSuffix_last in E.
      change (lit "IPv6") with (lit "IPv" ++ ["6"%char]) in E. by rewrite app_assoc, last_snoc in E.
    + by rewrite (proj2 (HasSuffix_iff _ _)) by eauto.
  - intros Hno. unfold short_name. destruct (HasSuffix _ (lit "IPv4")) eqn:E4.
    { apply HasSuffix_iff in E4 as [b ->]. by destruct (Hno b). }
    destruct (HasSuffix _ (lit "IPv6")) eqn:E6; [|done]. apply HasSuffix_iff in E6 as [b ->]. by destruct (Hno b).
  - intros name. unfold PrettyName. edestruct strip_closures_total as [r Hr]; [|rewrite Hr; cbn; eauto].
    apply Nat.lt_succ_r. etransitivity; [apply cut_after_last_length|apply TrimSuffix_length].
Qed.

Definition ex_path : gostring := lit "github.com/asciimoth/batchudp.(StdNetBind).".

Lemma PrettyName_family_witness :
  PrettyName 9 (func_name ex_path (lit "makeReceiveIPv4") [lit "1"] true) (lit "0x0") = Ret (lit "v4") /\
  PrettyName 9 (func_name ex_path (lit "udp2") [] true) (lit "0x0") = Ret (lit "udp2").
Proof.
  assert (ends_path ex_path) as Hp by (right; left; by exists (lit "github.com/asciimoth/batchudp.(StdNetBind)")).
  assert (forall base, base <> [] -> head base <> Some "f"%char ->
    bool_decide (("."%char ∉ base) /\ ("/"%char ∉ base) /\ ("-"%char ∉ base)) = true -> plain_name base) as Hb.
  { intros base Hne Hf (? & ? & ?)%bool_decide_eq_true. split; try done. intros d _ ->. by apply Hf. }
  split.
  - destruct (PrettyName_family ex_path (lit "makeReceiveIPv4") [lit "1"] true (lit "0x0")) as (H & _).
    + exact Hp.
    + apply Hb; [done..|by vm_compute].
    + by repeat constructor.
    + apply (H 9). cbn. lia.
  - destruct (PrettyName_family ex_path (lit "udp2") [] true (lit "0x0")) as (H & _).
    + exact Hp.
    + apply Hb; [done..|by vm_compute].
    + constructor.
    + apply (H 9). cbn. lia.
Defined.
End PrettyName.
