(* ===== verification/StdNet.v ===== *)
(** * StdNetBind: construction, Open and Close (bind_std.go, default.go)

    The state of a [StdNetBind] is the record below; pools are the lists of
    values that were put back, and [Get] may take any of them or make a new
    one.  [Open] and [Close] run under [s.mu], so each is a function from the
    state of the bind and the environment to the new states; methods that work
    without the lock are interleaved in StdConc. *)

From S2P Require Import Prelude Errors GoMem Netip Cmsg Gso Sticky Message Env SimNet ControlFns Conn.

Inductive FamilyOrder := FamilyOrderIPv4First | FamilyOrderIPv6First.
#[export] Instance FamilyOrder_eq_dec : EqDecision FamilyOrder.
Proof. solve_decision. Defined.

(** [OnFamilyOpenError] is user code: the model records whether it is set, and
    [Open] reports the call it makes. *)
Record StdNetBindOptions := mkOptions {
  o_FamilyOrder : FamilyOrder;
  o_AllowSingleFamily : bool;
  o_OnFamilyOpenError : bool;
  o_BatchSize : Z;
}.
Definition default_options : StdNetBindOptions := mkOptions FamilyOrderIPv4First false false 0.

Record StdNetBind := mkBind {
  sb_network : bool;              (* the network is not nil *)
  sb_options : StdNetBindOptions;
  sb_ipv4 : option conn;
  sb_ipv6 : option conn;
  sb_ipv4PC : option conn;
  sb_ipv6PC : option conn;
  sb_ipv4TxOffload : bool;
  sb_ipv4RxOffload : bool;
  sb_ipv6TxOffload : bool;
  sb_ipv6RxOffload : bool;
  sb_udpAddrPool : list UDPAddr;
  sb_msgsPool : list (list Message);
  sb_blackhole4 : bool;
  sb_blackhole6 : bool;
  sb_batchSize : nat;
}.

(** [sync.Pool.Get]: any pooled value, or a new one. *)
Definition pool_get {A} (choice : nat) (pool : list A) (new : A) : A * list A :=
  match pool !! choice with
  | Some x => (x, delete choice pool)
  | None => (new, pool)
  end.

Section StdNet.
Context {U : UnixABI} `{Env W} (os : GOOS).

Definition stdNetBindBatchSize (network : bool) (opts : StdNetBindOptions) : nat :=
  if (0 <? o_BatchSize opts)%Z then Z.to_nat (o_BatchSize opts)
  else if network && env_is_native && linux_or_android os then IdealBatchSize
  else 1.

(** The values the pools make. *)
Definition new_udpAddr : UDPAddr := mkUDPAddr (gb_make 16 16) 0 "".
Definition new_message : Message :=
  mkMessage [Slice 0 0 0 0] (gb_make 0 (stickyControlSize os + gsoControlSize os)) None 0 0 0.
Definition new_messages (batchSize : nat) : list Message := replicate batchSize new_message.

Definition NewStdNetBindWithOptions (network : bool) (opts : StdNetBindOptions) : StdNetBind :=
  mkBind network opts None None None None false false false false [] [] false false
    (stdNetBindBatchSize network opts).
Definition NewStdNetBind (network : bool) : StdNetBind :=
  NewStdNetBindWithOptions network default_options.

Definition familyOrder (s : StdNetBind) : string * string :=
  if decide (o_FamilyOrder (sb_options s) = FamilyOrderIPv6First)
  then ("udp6", "udp4")%string else ("udp4", "udp6")%string.

Definition listenAddress (network : string) (port : Z) : string :=
  if decide (network = "udp4"%string) then JoinHostPort "0.0.0.0" (pretty port)
  else if decide (network = "udp6"%string) then JoinHostPort "::" (pretty port)
  else (":" +:+ pretty port)%string.

(** [listenNet]: a configured listener and its port. *)
Definition listenNet (s : StdNetBind) (network : string) (port : Z) (w : W)
    : (error + conn * Z) * W :=
  if sb_network s then
    let address := listenAddress network port in
    match env_listen (listenConfig os) network address w with
    | (inl err, w) => (inl err, w)
    | (inr conn, w) =>
        match configureSocket os conn network address w with
        | (Some err, w) => (inl err, (env_close conn w).2)
        | (None, w) =>
            match env_local_port conn w with
            | inl err => (inl err, (env_close conn w).2)
            | inr port => (inr (conn, port), w)
            end
        end
    end
  else (inl ErrNoNetwork, w).

(** The listeners of a successful [Open]: first and second family, the port,
    and the error of the second family that the options allow. *)
Record listeners := mkListeners {
  li_first : option conn; li_second : option conn; li_port : Z;
  li_familyErr : option (string * error);
}.

(** The part of [Open] from [again] to the choice of the listeners, for the
    second family; [again] is the jump back. *)
Definition open_second (s : StdNetBind) (uport : Z) (again : W -> (error + listeners) * W)
    (retries : bool) (second : string) (firstConn : option conn) (port actualPort : Z) (w : W)
    : (error + listeners) * W :=
  match listenNet s second port w with
  | (inr (c2, secondPort), w) =>
      (inr (mkListeners firstConn (Some c2)
              (match firstConn with None => secondPort | Some _ => actualPort end) None), w)
  | (inl secondErr, w) =>
      match firstConn with
      | Some c1 =>
          if (uport =? 0)%Z && negb (o_AllowSingleFamily (sb_options s))
             && errors_Is secondErr (EErrno EADDRINUSE) && retries
          then again (env_close c1 w).2
          else if o_AllowSingleFamily (sb_options s)
          then (inr (mkListeners (Some c1) None actualPort (Some (second, secondErr))), w)
          else if negb (errors_Is secondErr (EErrno EAFNOSUPPORT))
          then (inl secondErr, (env_close c1 w).2)
          else (inr (mkListeners (Some c1) None actualPort None), w)
      | None =>
          if negb (errors_Is secondErr (EErrno EAFNOSUPPORT)) then (inl secondErr, w)
          else (inl (EErrno EAFNOSUPPORT), w)
      end
  end.

(** [tries_left] is [100 - tries]. *)
Fixpoint open_listeners (s : StdNetBind) (uport : Z) (tries_left : nat) (w : W)
    : (error + listeners) * W :=
  let port := uport in
  let '(firstNetwork, secondNetwork) := familyOrder s in
  let '(again, retries) := match tries_left with
                           | O => (fun w => (inl ErrNoProgress, w), false)
                           | S t => (open_listeners s uport t, true)
                           end in
  match listenNet s firstNetwork port w with
  | (inl firstErr, w) =>
      if negb (errors_Is firstErr (EErrno EAFNOSUPPORT)) then (inl firstErr, w)
      else open_second s uport again retries secondNetwork None port port w
  | (inr (c1, actualPort), w) =>
      open_second s uport again retries secondNetwork (Some c1) actualPort actualPort w
  end.

(** A receive function: the closure that [makeReceiveIPv4] or [makeReceiveIPv6]
    returns. *)
Record ReceiveFunc := mkReceive {
  rf_v6 : bool; rf_pc : option conn; rf_conn : conn; rf_rxOffload : bool;
}.

(** Attaching the listener of a family to the bind. *)
Definition attach4 (fuel : nat) (c : conn) (w : W) (s : StdNetBind) : go (StdNetBind * ReceiveFunc) :=
  let '(tx, rx) := supportsUDPOffload os c w in
  native ← unwrapUDPConn fuel (Some c);
  let pc := if linux_or_android os then native else None in
  let s := mkBind (sb_network s) (sb_options s) (Some c) (sb_ipv6 s)
    (match pc with Some p => Some p | None => sb_ipv4PC s end) (sb_ipv6PC s)
    tx rx (sb_ipv6TxOffload s) (sb_ipv6RxOffload s) (sb_udpAddrPool s) (sb_msgsPool s)
    (sb_blackhole4 s) (sb_blackhole6 s) (sb_batchSize s) in
  Ret (s, mkReceive false pc c rx).
Definition attach6 (fuel : nat) (c : conn) (w : W) (s : StdNetBind) : go (StdNetBind * ReceiveFunc) :=
  let '(tx, rx) := supportsUDPOffload os c w in
  native ← unwrapUDPConn fuel (Some c);
  let pc := if linux_or_android os then native else None in
  let s := mkBind (sb_network s) (sb_options s) (sb_ipv4 s) (Some c)
    (sb_ipv4PC s) (match pc with Some p => Some p | None => sb_ipv6PC s end)
    (sb_ipv4TxOffload s) (sb_ipv4RxOffload s) tx rx (sb_udpAddrPool s) (sb_msgsPool s)
    (sb_blackhole4 s) (sb_blackhole6 s) (sb_batchSize s) in
  Ret (s, mkReceive true pc c rx).

Definition attach (fuel : nat) (v4conn v6conn : option conn) (w : W) (s : StdNetBind)
    : go (StdNetBind * list ReceiveFunc) :=
  '(s, fns4) ← match v4conn with
               | Some c => '(s, f) ← attach4 fuel c w s; Ret (s, [f])
               | None => Ret (s, [])
               end;
  '(s, fns6) ← match v6conn with
               | Some c => '(s, f) ← attach6 fuel c w s; Ret (s, [f])
               | None => Ret (s, [])
               end;
  Ret (s, fns4 ++ fns6).

(** [Open]: the result, the call of [OnFamilyOpenError] it makes, and the new
    states. *)
Definition Open (fuel : nat) (s : StdNetBind) (uport : Z) (w : W)
    : go ((error + list ReceiveFunc * Z) * option (string * error) * StdNetBind * W) :=
  match sb_ipv4 s, sb_ipv6 s with
  | None, None =>
      match open_listeners s uport 100 w with
      | (inl err, w) => Ret (inl err, None, s, w)
      | (inr li, w) =>
          let '(firstNetwork, _) := familyOrder s in
          let '(v4conn, v6conn) :=
            if decide (firstNetwork = "udp4"%string) then (li_first li, li_second li)
            else (li_second li, li_first li) in
          let event := if o_OnFamilyOpenError (sb_options s) then li_familyErr li else None in
          '(s, fns) ← attach fuel v4conn v6conn w s;
          Ret (match fns with
               | [] => inl (EErrno EAFNOSUPPORT)
               | _ => inr (fns, u16 (li_port li))
               end, event, s, w)
      end
  | _, _ => Ret (inl ErrBindAlreadyOpen, None, s, w)
  end.

(** [Close] *)
Definition close_conn (c : option conn) (w : W) : option error * W :=
  match c with Some c => env_close c w | None => (None, w) end.

Definition Close (s : StdNetBind) (w : W) : option error * StdNetBind * W :=
  let '(err1, w) := close_conn (sb_ipv4 s) w in
  let '(err2, w) := close_conn (sb_ipv6 s) w in
  let s := mkBind (sb_network s) (sb_options s) None None
    (match sb_ipv4 s with Some _ => None | None => sb_ipv4PC s end)
    (match sb_ipv6 s with Some _ => None | None => sb_ipv6PC s end)
    false false false false (sb_udpAddrPool s) (sb_msgsPool s) false false (sb_batchSize s) in
  (match err1 with Some e => Some e | None => err2 end, s, w).

Definition sb_BatchSize (s : StdNetBind) : nat := sb_batchSize s.

(** boundif_android.go, given sockopt.GetFd on a connection that may be nil. *)
Definition PeekLookAtSocketFd4 (GetFd : option conn -> W -> error + Z) (s : StdNetBind) (w : W) : Z * option error :=
  match GetFd (sb_ipv4 s) w with inl err => ((-1)%Z, Some err) | inr fd => (fd, None) end.
Definition PeekLookAtSocketFd6 (GetFd : option conn -> W -> error + Z) (s : StdNetBind) (w : W) : Z * option error :=
  match GetFd (sb_ipv6 s) w with inl err => ((-1)%Z, Some err) | inr fd => (fd, None) end.

(** [getMessages] and [putMessages] *)
Definition getMessages (choice : nat) (s : StdNetBind) : list Message * StdNetBind :=
  let '(msgs, pool) := pool_get choice (sb_msgsPool s) (new_messages (sb_batchSize s)) in
  (msgs, mkBind (sb_network s) (sb_options s) (sb_ipv4 s) (sb_ipv6 s) (sb_ipv4PC s) (sb_ipv6PC s)
     (sb_ipv4TxOffload s) (sb_ipv4RxOffload s) (sb_ipv6TxOffload s) (sb_ipv6RxOffload s)
     (sb_udpAddrPool s) pool (sb_blackhole4 s) (sb_blackhole6 s) (sb_batchSize s)).

Definition clean_message (msg : Message) : Message :=
  mkMessage (m_Buffers msg) (GoBuf (gb_arr (m_OOB msg)) 0) None 0 0 0.

Definition putMessages (msgs : list Message) (s : StdNetBind) : StdNetBind :=
  mkBind (sb_network s) (sb_options s) (sb_ipv4 s) (sb_ipv6 s) (sb_ipv4PC s) (sb_ipv6PC s)
    (sb_ipv4TxOffload s) (sb_ipv4RxOffload s) (sb_ipv6TxOffload s) (sb_ipv6RxOffload s)
    (sb_udpAddrPool s) (map clean_message msgs :: sb_msgsPool s)
    (sb_blackhole4 s) (sb_blackhole6 s) (sb_batchSize s).
End StdNet.

(** ** Opening *)

Section OpenSpec.
Context {U : UnixABI} `{Env W} {L : EnvLaws W} {os : GOOS}.

Lemma configureSocket_open c network address w :
  open_conns (configureSocket os c network address w).2 = open_conns w.
Proof. apply configureSocket_frame. apply law_setsockopt. Qed.
Lemma configureSocket_port c c' network address w :
  env_local_port c' (configureSocket os c network address w).2 = env_local_port c' w.
Proof. apply (configureSocket_frame (env_local_port c')). intros. apply law_setsockopt_port. Qed.

Definition is_family (network : string) : Prop := network = "udp4"%string \/ network = "udp6"%string.

Lemma listenAddress_join network port :
  is_family network -> exists host, listenAddress network port = JoinHostPort host (pretty port).
Proof. intros [-> | ->]; eexists; reflexivity. Qed.

(** The contract of [listenNet]: one new configured listener or nothing, other
    listeners are not touched, and an explicit port is respected. *)
Lemma listenNet_spec s network port w r w' :
  is_family network -> listenNet os s network port w = (r, w') ->
  match r with
  | inl _ => open_conns w' = open_conns w
  | inr (c, p) => (c ∉ open_conns w) /\ open_conns w' = ({[c]} ∪ open_conns w) /\
      env_local_port c w' = inr p /\ (0 < p < 65536)%Z /\ ((0 < port < 65536)%Z -> p = port)
  end /\
  forall c', c' ∈ open_conns w -> env_local_port c' w' = env_local_port c' w.
Proof.
  intros Hfam. unfold listenNet. destruct (sb_network s); [|by intros [= <- <-]].
  destruct (listenAddress_join network port Hfam) as [host Ha].
  destruct (env_listen _ _ _ w) as [[err|c] w1] eqn:El.
  all: pose proof (law_listen _ _ _ _ _ _ (fun n a rc x =>
    listenConfig_frame open_conns law_setsockopt os n a rc x) El) as Ho.
  all: assert (forall c', c' ∈ open_conns w -> env_local_port c' w1 = env_local_port c' w) as Hfr
    by (intros c' Hc'; eapply law_listen_frame; [|exact El|done]; intros;
        apply (listenConfig_frame (env_local_port c')); intros; apply law_setsockopt_port).
  { by intros [= <- <-]. }
  destruct Ho as [Hnew Hopen].
  pose proof (configureSocket_open c network (listenAddress network port) w1) as Ho2.
  pose proof (fun c' => configureSocket_port c c' network (listenAddress network port) w1) as Hp2.
  destruct (configureSocket _ _ _ _ w1) as [[err|] w2]; cbn [snd] in *.
  - intros [= <- <-]. split.
    + rewrite law_close, Ho2, Hopen. set_solver.
    + intros c' Hc'. rewrite law_close_frame by set_solver. rewrite Hp2. auto.
  - destruct (env_local_port c w2) as [err|p] eqn:Ep; intros [= <- <-].
    + split.
      * rewrite law_close, Ho2, Hopen. set_solver.
      * intros c' Hc'. rewrite law_close_frame by set_solver. rewrite Hp2. auto.
    + split; [|intros c' Hc'; rewrite Hp2; auto].
      assert (0 < p < 65536)%Z by (eapply law_listen_range; [exact El|]; by rewrite <- Hp2).
      split_and!; try done; try lia.
      * by rewrite Ho2, Hopen.
      * intros Hport. rewrite Ha in El. apply law_listen_port in El; [|done].
        rewrite Hp2, El in Ep. by injection Ep.
Qed.

Lemma familyOrder_families s : is_family (familyOrder s).1 /\ is_family (familyOrder s).2.
Proof. unfold familyOrder, is_family. case_decide; cbn; auto. Qed.

(** The connections of a pair of listeners. *)
Definition conns (a b : option conn) : gset conn :=
  from_option singleton ∅ a ∪ from_option singleton ∅ b.

Lemma conns_first a (X : gset conn) :
  a ∉ X -> {[a]} ∪ X = conns (Some a) None ∪ X /\ conns (Some a) None ## X /\
    forall c, c ∈ conns (Some a) None -> c = a.
Proof. unfold conns. cbn. set_solver. Qed.
Lemma conns_second b (X : gset conn) :
  b ∉ X -> {[b]} ∪ X = conns None (Some b) ∪ X /\ conns None (Some b) ## X /\
    forall c, c ∈ conns None (Some b) -> c = b.
Proof. unfold conns. cbn. set_solver. Qed.
Lemma conns_both a b (X : gset conn) :
  a ∉ X -> b ∉ {[a]} ∪ X -> a <> b /\ {[b]} ∪ ({[a]} ∪ X) = conns (Some a) (Some b) ∪ X /\
    conns (Some a) (Some b) ## X /\ forall c, c ∈ conns (Some a) (Some b) -> c = a \/ c = b.
Proof. unfold conns. cbn. intros. split; [set_solver|]. split; [set_solver|]. set_solver. Qed.

(** What [open_listeners] leaves behind: on failure nothing new is open; on
    success exactly the new listeners are, at least one, all on the port that
    is reported, which is the one asked for unless that was 0. *)
Definition opened (uport : Z) (w : W) (r : error + listeners) (w' : W) : Prop :=
  match r with
  | inl _ => open_conns w' = open_conns w
  | inr li =>
      open_conns w' = conns (li_first li) (li_second li) ∪ open_conns w /\
      conns (li_first li) (li_second li) ## open_conns w /\
      (li_first li <> None \/ li_second li <> None) /\
      (forall c, li_first li = Some c -> li_second li <> Some c) /\
      (forall c, c ∈ conns (li_first li) (li_second li) -> env_local_port c w' = inr (li_port li)) /\
      (0 < li_port li < 65536)%Z /\
      ((0 < uport < 65536)%Z -> li_port li = uport)
  end.

Lemma opened_trans uport w w1 r w' :
  open_conns w1 = open_conns w -> opened uport w1 r w' -> opened uport w r w'.
Proof. intros E. unfold opened. destruct r; by rewrite E. Qed.

Lemma open_second_spec s uport again retries second firstConn port actualPort w r w' :
  is_family second -> (0 <= uport < 65536)%Z ->
  (retries = true -> forall w r w', again w = (r, w') -> opened uport w r w') ->
  forall w0,
  match firstConn with
  | None => w = w0 /\ port = uport /\ actualPort = uport
  | Some c1 => (c1 ∉ open_conns w0) /\ open_conns w = ({[c1]} ∪ open_conns w0) /\
      env_local_port c1 w = inr actualPort /\ port = actualPort /\ (0 < port < 65536)%Z /\
      ((0 < uport < 65536)%Z -> port = uport)
  end ->
  open_second os s uport again retries second firstConn port actualPort w = (r, w') ->
  opened uport w0 r w'.
Proof.
  intros Hfam Hu Hagain w0 Hfirst. unfold open_second.
  destruct (listenNet os s second port w) as [[e2|[c2 p2]] w2] eqn:El.
  all: apply (listenNet_spec _ _ _ _ _ _ Hfam) in El as [Hl Hfr].
  - destruct firstConn as [c1|].
    + destruct Hfirst as (Hnew & Hopen & Hport & -> & Hrange & Hsame).
      assert (open_conns (env_close c1 w2).2 = open_conns w0) as Hcl
        by (rewrite law_close, Hl, Hopen; clear -Hnew; set_solver).
      assert (forall x, opened uport w0 (inr (mkListeners (Some c1) None actualPort x)) w2) as Hone.
      { intros x. unfold opened. cbn [li_first li_second li_port].
        destruct (conns_first c1 (open_conns w0) Hnew) as (E1 & E2 & E3).
        rewrite Hl, Hopen. split; [done|]. split; [done|]. split; [by left|]. split; [done|].
        split; [|done]. intros c ->%E3. rewrite Hfr; [done|]. rewrite Hopen. apply elem_of_union_l, elem_of_singleton. done. }
      destruct (_ && retries) eqn:Er; [|clear Er; destruct (o_AllowSingleFamily _);
        [|destruct (errors_Is _ _); cbn [negb]]].
      * intros E. bool_simp. eapply opened_trans; [exact Hcl|]. by eapply Hagain.
      * by intros [= <- <-].
      * by intros [= <- <-].
      * by intros [= <- <-].
    + destruct Hfirst as (-> & _ & _). destruct (negb _); by intros [= <- <-].
  - intros [= <- <-]. destruct Hl as (Hnew2 & Hopen2 & Hp2 & Hr2 & Hsame2).
    unfold opened. cbn [li_first li_second li_port].
    destruct firstConn as [c1|].
    + destruct Hfirst as (Hnew & Hopen & Hport & -> & Hrange & Hsame).
      rewrite (Hsame2 Hrange) in *. rewrite Hopen in Hnew2, Hopen2.
      destruct (conns_both c1 c2 (open_conns w0) Hnew Hnew2) as (E0 & E1 & E2 & E3).
      split; [by rewrite Hopen2|]. split; [done|]. split; [by left|]. split; [congruence|].
      split; [|done]. intros c [->| ->]%E3; [|done]. rewrite Hfr; [done|].
      rewrite Hopen. apply elem_of_union_l, elem_of_singleton. done.
    + destruct Hfirst as (-> & -> & _).
      destruct (conns_second c2 (open_conns w0) Hnew2) as (E1 & E2 & E3).
      split; [by rewrite Hopen2|]. split; [done|]. split; [by right|]. split; [done|].
      split; [|done]. by intros c ->%E3.
Qed.

Lemma open_listeners_spec s uport tries : forall w r w',
  (0 <= uport < 65536)%Z -> open_listeners os s uport tries w = (r, w') -> opened uport w r w'.
Proof.
  induction tries as [|tries IH]; intros w r w' Hu; cbn [open_listeners];
    pose proof (familyOrder_families s) as [Hf1 Hf2];
    destruct (familyOrder s) as [first second]; cbn [fst snd] in *;
    destruct (listenNet os s first uport w) as [[e1|[c1 p1]] w1] eqn:El;
    apply (listenNet_spec _ _ _ _ _ _ Hf1) in El as [Hl Hfr].
  all: try (destruct (negb _); [by intros [= <- <-]|]).
  all: intros E; try (eapply opened_trans; [exact Hl|]).
  all: eapply open_second_spec in E; [exact E|done|done|try done; eauto|].
  all: try done.
  all: destruct Hl as (? & ? & ? & ? & ?); by split_and!; try lia.
Qed.

(** Attaching listeners to a closed bind. *)
Definition same_config (s s' : StdNetBind) : Prop :=
  sb_network s' = sb_network s /\ sb_options s' = sb_options s /\
  sb_udpAddrPool s' = sb_udpAddrPool s /\ sb_msgsPool s' = sb_msgsPool s /\
  sb_blackhole4 s' = sb_blackhole4 s /\ sb_blackhole6 s' = sb_blackhole6 s /\
  sb_batchSize s' = sb_batchSize s.

(** The receive function of a family, for a listener [c]. *)
Definition receives (v6 : bool) (s : StdNetBind) (c : conn) (f : ReceiveFunc) : Prop :=
  rf_v6 f = v6 /\ rf_conn f = c /\
  rf_rxOffload f = (if v6 then sb_ipv6RxOffload s else sb_ipv4RxOffload s) /\
  (linux_or_android os = false -> rf_pc f = None).

Lemma attach_spec fuel a b w s :
  (forall c, wrap_depth c < fuel) -> sb_ipv4 s = None -> sb_ipv6 s = None ->
  exists s' fns, attach os fuel a b w s = Ret (s', fns) /\
    sb_ipv4 s' = a /\ sb_ipv6 s' = b /\ same_config s s' /\
    map rf_conn fns = option_list a ++ option_list b /\
    (a = None -> sb_ipv4PC s' = sb_ipv4PC s /\ sb_ipv4TxOffload s' = sb_ipv4TxOffload s /\
                 sb_ipv4RxOffload s' = sb_ipv4RxOffload s) /\
    (b = None -> sb_ipv6PC s' = sb_ipv6PC s /\ sb_ipv6TxOffload s' = sb_ipv6TxOffload s /\
                 sb_ipv6RxOffload s' = sb_ipv6RxOffload s) /\
    Forall (fun f => receives (rf_v6 f) s' (rf_conn f) f /\
              (if rf_v6 f then b else a) = Some (rf_conn f)) fns.
Proof.
  intros Hf H4 H6. unfold attach, attach4, attach6.
  destruct a as [a|], b as [b|].
  all: try destruct (unwrapUDPConn_total fuel a (Hf a)) as [ua Hua].
  all: try destruct (unwrapUDPConn_total fuel b (Hf b)) as [ub Hub].
  all: try destruct (supportsUDPOffload os a w) as [tx4 rx4].
  all: try destruct (supportsUDPOffload os b w) as [tx6 rx6].
  all: rewrite ?Hua, ?Hub; cbn -[unwrapUDPConn]; rewrite ?Hub; cbn -[unwrapUDPConn].
  all: eexists _, _; (split; [reflexivity|]); cbn.
  all: split_and!; try done.
  all: repeat apply Forall_cons_2; try apply Forall_nil_2.
  all: split; [|done]; split_and!; try done; cbn; by intros ->.
Qed.

Definition bind_conns (s : StdNetBind) : gset conn := conns (sb_ipv4 s) (sb_ipv6 s).

Lemma conns_comm a b : conns a b = conns b a.
Proof. unfold conns. apply union_comm_L. Qed.

(** The contract of [Open] on a closed bind. *)
Lemma Open_spec fuel s uport w :
  (forall c, wrap_depth c < fuel) -> (0 <= uport < 65536)%Z ->
  sb_ipv4 s = None -> sb_ipv6 s = None ->
  exists r ev s' w', Open os fuel s uport w = Ret (r, ev, s', w') /\
    match r with
    | inl _ => s' = s /\ open_conns w' = open_conns w /\ ev = None
    | inr (fns, port) =>
        open_conns w' = bind_conns s' ∪ open_conns w /\
        bind_conns s' ## open_conns w /\ (sb_ipv4 s' <> None \/ sb_ipv6 s' <> None) /\
        (forall c, c ∈ bind_conns s' -> env_local_port c w' = inr port) /\
        (0 < port < 65536)%Z /\ (uport <> 0%Z -> port = uport) /\
        map rf_conn fns = option_list (sb_ipv4 s') ++ option_list (sb_ipv6 s') /\
        same_config s s'
    end.
Proof.
  intros Hf Hu H4 H6. unfold Open. rewrite H4, H6.
  destruct (open_listeners os s uport 100 w) as [[err|li] w'] eqn:E;
    apply (open_listeners_spec _ _ _ _ _ _ Hu) in E; cbn [opened] in E.
  { eexists _, _, _, _. split; [reflexivity|]. done. }
  destruct E as (Ho & Hd & Hne & _ & Hp & Hr & Hsame).
  destruct (familyOrder s) as [first ?].
  assert (exists a b, (if decide (first = "udp4"%string) then (li_first li, li_second li)
            else (li_second li, li_first li)) = (a, b) /\
            conns a b = conns (li_first li) (li_second li) /\ (a <> None \/ b <> None))
    as (a & b & -> & Hab & Hne').
  { case_decide; eexists _, _; (split; [reflexivity|]); [done|]. split; [apply conns_comm|tauto]. }
  destruct (attach_spec fuel a b w' s Hf H4 H6) as (s' & fns & Ha & H4' & H6' & Hc & Hfns & _).
  rewrite Ha. cbn [mbind go_mbind]. rewrite (u16_small (li_port li)) by lia.
  eexists _, _, _, _. split; [reflexivity|].
  destruct fns as [|f fns]; [exfalso; destruct a, b; naive_solver|].
  unfold bind_conns. rewrite H4', H6', Hab. split_and!; try done; try lia.
Qed.

Lemma Close_open s w err s' w' :
  Close s w = (err, s', w') -> open_conns w' = open_conns w ∖ bind_conns s.
Proof.
  unfold Close, close_conn, bind_conns, conns.
  destruct (sb_ipv4 s) as [a|], (sb_ipv6 s) as [b|]; cbn [from_option].
  - pose proof (law_close a w) as E1. destruct (env_close a w) as [e1 w1]. cbn in E1.
    pose proof (law_close b w1) as E2. destruct (env_close b w1) as [e2 w2]. cbn in E2.
    intros [= <- <- <-]. rewrite E2, E1. clear. set_solver.
  - pose proof (law_close a w) as E1. destruct (env_close a w) as [e1 w1]. cbn in E1.
    intros [= <- <- <-]. rewrite E1. clear. set_solver.
  - pose proof (law_close b w) as E2. destruct (env_close b w) as [e2 w2]. cbn in E2.
    intros [= <- <- <-]. rewrite E2. clear. set_solver.
  - intros [= <- <- <-]. clear. set_solver.
Qed.

(** C6: [Open] neither leaks nor steals sockets: on a closed bind it always
    returns; on an error the bind and the set of open sockets are as before,
    however many listeners were tried; on success exactly the listeners of the
    bind were added, at least one, each with its receive function. *)
Theorem Open_no_leak fuel s uport w :
  (forall c, wrap_depth c < fuel) -> (0 <= uport < 65536)%Z ->
  sb_ipv4 s = None -> sb_ipv6 s = None ->
  exists r ev s' w', Open os fuel s uport w = Ret (r, ev, s', w') /\
    match r with
    | inl _ => s' = s /\ open_conns w' = open_conns w
    | inr (fns, _) =>
        open_conns w' = bind_conns s' ∪ open_conns w /\ bind_conns s' ## open_conns w /\
        fns <> [] /\ map rf_conn fns = option_list (sb_ipv4 s') ++ option_list (sb_ipv6 s')
    end.
Proof.
  intros Hf Hu H4 H6. destruct (Open_spec fuel s uport w Hf Hu H4 H6) as (r & ev & s' & w' & HO & Hr).
  exists r, ev, s', w'. split; [done|]. destruct r as [e|[fns port]].
  - by destruct Hr as (-> & ? & _).
  - destruct Hr as (Ho & Hd & Hne & _ & _ & _ & Hfns & _). split_and!; try done.
    intros ->. destruct (sb_ipv4 s'), (sb_ipv6 s'); naive_solver.
Qed.

(** C22: Both families listen on the port that [Open] reports, which is the one
    asked for unless that was 0. *)
Theorem Open_same_port fuel s uport w fns port ev s' w' :
  (forall c, wrap_depth c < fuel) -> (0 <= uport < 65536)%Z ->
  Open os fuel s uport w = Ret (inr (fns, port), ev, s', w') ->
  (forall c, sb_ipv4 s' = Some c \/ sb_ipv6 s' = Some c -> env_local_port c w' = inr port) /\
  (0 < port < 65536)%Z /\ (uport <> 0%Z -> port = uport).
Proof.
  intros Hf Hu HO.
  destruct (sb_ipv4 s) eqn:H4; [unfold Open in HO; by rewrite H4 in HO|].
  destruct (sb_ipv6 s) eqn:H6; [unfold Open in HO; by rewrite H4, H6 in HO|].
  destruct (Open_spec fuel s uport w Hf Hu H4 H6) as (r & ev1 & s1 & w1 & HO1 & Hr).
  rewrite HO in HO1. injection HO1 as <- <- <- <-. destruct Hr as (_ & _ & _ & Hp & Hr & Hs & _ & _).
  split; [|done]. intros c Hc. apply Hp. unfold bind_conns, conns.
  destruct Hc as [-> | ->]; cbn; [apply elem_of_union_l|apply elem_of_union_r]; by apply elem_of_singleton.
Qed.

(** [Open] on an open bind fails with [ErrBindAlreadyOpen] and changes
    nothing. *)
Theorem Open_already_open fuel s uport w :
  sb_ipv4 s <> None \/ sb_ipv6 s <> None ->
  Open os fuel s uport w = Ret (inl ErrBindAlreadyOpen, None, s, w).
Proof. intros Hne. unfold Open. by destruct (sb_ipv4 s), (sb_ipv6 s); try (destruct Hne; done). Qed.

(** C28: [Close] releases every socket of the bind and only those, returns it to
    the closed state with no batch connections, offload or blackhole flags
    left, and closing again is a no-op that reports no error. *)
Theorem Close_releases s w err s' w' :
  (sb_ipv4 s = None -> sb_ipv4PC s = None) -> (sb_ipv6 s = None -> sb_ipv6PC s = None) ->
  Close s w = (err, s', w') ->
  open_conns w' = open_conns w ∖ bind_conns s /\
  s' = mkBind (sb_network s) (sb_options s) None None None None false false false false
         (sb_udpAddrPool s) (sb_msgsPool s) false false (sb_batchSize s) /\
  Close s' w' = (None, s', w').
Proof.
  intros HP4 HP6 HC. split; [by eapply Close_open|].
  assert (s' = mkBind (sb_network s) (sb_options s) None None None None false false false false
         (sb_udpAddrPool s) (sb_msgsPool s) false false (sb_batchSize s)) as ->.
  { unfold Close in HC. destruct (close_conn (sb_ipv4 s) w) as [e1 w1].
    destruct (close_conn (sb_ipv6 s) w1) as [e2 w2]. injection HC as _ <- _.
    destruct (sb_ipv4 s), (sb_ipv6 s); rewrite ?HP4, ?HP6; done. }
  done.
Qed.

(** Opening and closing is neutral: after [Open] succeeded, [Close] leaves
    the set of open sockets as it was before [Open]. *)
Theorem Open_Close fuel s uport w fns port ev s1 w1 err s2 w2 :
  (forall c, wrap_depth c < fuel) -> (0 <= uport < 65536)%Z ->
  Open os fuel s uport w = Ret (inr (fns, port), ev, s1, w1) ->
  Close s1 w1 = (err, s2, w2) ->
  open_conns w2 = open_conns w /\ sb_ipv4 s2 = None /\ sb_ipv6 s2 = None.
Proof.
  intros Hf Hu HO HC.
  destruct (sb_ipv4 s) eqn:H4; [unfold Open in HO; by rewrite H4 in HO|].
  destruct (sb_ipv6 s) eqn:H6; [unfold Open in HO; by rewrite H4, H6 in HO|].
  destruct (Open_spec fuel s uport w Hf Hu H4 H6) as (r & ev1 & s' & w' & HO1 & Hr).
  rewrite HO in HO1. injection HO1 as <- <- <- <-. destruct Hr as (Ho & Hd & _).
  rewrite (Close_open _ _ _ _ _ HC), Ho. split.
  - clear -Hd. set_solver.
  - unfold Close in HC. destruct (close_conn (sb_ipv4 s1) w1) as [e1 w1'].
    destruct (close_conn (sb_ipv6 s1) w1') as [e2 w2']. injection HC as _ <- _. done.
Qed.
End OpenSpec.

(** *** A machine on which the first automatic port is free for IPv4 only *)
Definition sim1 : sim := mkSim ∅ [("udp6", 40000%Z)]%string ["udp4"; "udp6"]%string 40000 true true [] [] ∅ 64.
Definition ex_bind : StdNetBind := NewStdNetBind (W := sim) Linux true.
Definition ex_open := Open (W := sim) Linux 1 ex_bind 0 sim1.

Example ex_open_retries :
  match ex_open with
  | Ret (inr (fns, port), None, s, w) =>
      port = 40001%Z /\ map rf_conn fns = [0; 1] /\ map rf_rxOffload fns = [true; true] /\
      sb_ipv4PC s = Some 0 /\ sb_ipv6TxOffload s = true /\
      map_to_list (sim_open w) = [(1, ("udp6"%string, 40001%Z)); (0, ("udp4"%string, 40001%Z))]
  | _ => False
  end.
Proof. vm_compute. tauto. Qed.

Definition ex_opened : StdNetBind :=
  match ex_open with Ret (_, _, s, _) => s | _ => ex_bind end.
Definition ex_world : sim := match ex_open with Ret (_, _, _, w) => w | _ => sim1 end.
Definition ex_fns : list ReceiveFunc :=
  match ex_open with Ret (inr (fns, _), _, _, _) => fns | _ => [] end.

Lemma ex_open_eq :
  Open (W := sim) Linux 1 ex_bind 0 sim1 = Ret (inr (ex_fns, 40001%Z), None, ex_opened, ex_world).
Proof.
  unfold ex_fns, ex_opened, ex_world, ex_open.
  destruct (Open Linux 1 ex_bind 0 sim1) as [[[[[e|[f p]] ev] s] w]| |] eqn:E; vm_compute in E; congruence.
Qed.

Lemma Open_no_leak_witness :
  exists r ev s' w', ex_open = Ret (r, ev, s', w') /\
    match r with
    | inl _ => s' = ex_bind /\ open_conns w' = open_conns sim1
    | inr (fns, _) =>
        open_conns w' = bind_conns s' ∪ open_conns sim1 /\ bind_conns s' ## open_conns sim1 /\
        fns <> [] /\ map rf_conn fns = option_list (sb_ipv4 s') ++ option_list (sb_ipv6 s')
    end.
Proof.
  apply (Open_no_leak (W := sim) (os := Linux) 1 ex_bind 0 sim1).
  - intros c. cbn. lia.
  - lia.
  - reflexivity.
  - reflexivity.
Defined.

Lemma Open_same_port_witness :
  env_local_port 0 ex_world = inr 40001%Z /\ env_local_port 1 ex_world = inr 40001%Z.
Proof.
  destruct (Open_same_port (W := sim) (os := Linux) 1 ex_bind 0 sim1 ex_fns 40001 None ex_opened ex_world)
    as [Hp _].
  - intros c. cbn. lia.
  - lia.
  - exact ex_open_eq.
  - split; apply Hp; [left|right]; vm_compute; reflexivity.
Defined.

Lemma Open_already_open_witness :
  Open (W := sim) Linux 1 ex_opened 0 ex_world = Ret (inl ErrBindAlreadyOpen, None, ex_opened, ex_world).
Proof. apply (Open_already_open (W := sim)). left. vm_compute. discriminate. Defined.

Lemma Close_releases_witness :
  open_conns (Close ex_opened ex_world).2 = open_conns ex_world ∖ bind_conns ex_opened.
Proof.
  destruct (Close ex_opened ex_world) as [[err s'] w'] eqn:E.
  apply (Close_releases (W := sim) ex_opened ex_world err s' w').
  - vm_compute. discriminate.
  - vm_compute. discriminate.
  - exact E.
Defined.

Lemma Open_Close_witness : open_conns (Close ex_opened ex_world).2 = open_conns sim1.
Proof.
  destruct (Close ex_opened ex_world) as [[err s'] w'] eqn:E.
  apply (Open_Close (W := sim) (os := Linux) 1 ex_bind 0 sim1 ex_fns 40001 None ex_opened ex_world err s' w').
  - intros c. cbn. lia.
  - lia.
  - exact ex_open_eq.
  - exact E.
Defined.
