(* ===== verification/StdSend.v ===== *)
(** * Sending ([StdNetBind.Send] and [send] of bind_std.go)

    [Send] takes message headers and a destination from the pools, coalesces
    the datagrams or fills one header per datagram, hands them to the kernel in
    one or more batched calls, and falls back from UDP GSO when the kernel
    rejects it. *)

From S2P Require Import Prelude Errors GoMem Netip Cmsg Gso Sticky Message Coalesce Env SimNet ControlFns Conn StdNet.

(** [conn.Endpoint] values: this bind's own type, or another one, which
    answers [DstIP]. *)
Inductive Endpoint :=
| EpStd (e : StdNetEndpoint)
| EpOther (dst : Addr).
Definition Endpoint_DstIP (ep : Endpoint) : Addr :=
  match ep with EpStd e => DstIP e | EpOther a => a end.
(** [endpoint.( *StdNetEndpoint )] *)
Definition as_std (ep : Endpoint) : go StdNetEndpoint :=
  match ep with EpStd e => Ret e | EpOther _ => Panic end.

Section StdSend.
Context {U : UnixABI} `{Env W} (os : GOOS).

(** The loop of [send] over [WriteBatch]; [msgs] is [msgs[start:]]. *)
Fixpoint send_batch (fuel : nat) (pc : conn) (msgs : list wire) (w : W) : go (option error * W) :=
  match fuel with
  | O => NoFuel
  | S fuel' =>
      let '((n, err), w) := env_write_batch pc msgs w in
      if match err with Some _ => true | None => (n =? length msgs)%nat end then Ret (err, w)
      else _ ← check (n <=? length msgs)%nat; send_batch fuel' pc (drop n msgs) w
  end.

(** The loop of [send] over single messages; the type assertion on [msg.Addr]
    panics without an address. *)
Fixpoint send_each (c : conn) (m : mem) (msgs : list Message) (w : W) : go (option error * W) :=
  match msgs with
  | [] => Ret (None, w)
  | msg :: msgs' =>
      b ← buf0 msg;
      a ← must (m_Addr msg);
      match env_write_msg c (load m b) (gb_bytes (m_OOB msg)) (UDPAddr_AddrPort a) w with
      | (Some err, w) => Ret (Some err, w)
      | (None, w) => send_each c m msgs' w
      end
  end.

Definition send (c : conn) (pc : option conn) (m : mem) (msgs : list Message) (w : W)
    : go (option error * W) :=
  match pc with
  | Some p => if linux_or_android os then send_batch (S (length msgs)) p (map (wire_of m) msgs) w
              else send_each c m msgs w
  | None => send_each c m msgs w
  end.

(** The loop that fills one message per buffer. *)
Fixpoint fill_msgs (ua : UDPAddr) (ep : Endpoint) (bufs : list slice) (msgs : list Message)
    : go (list Message) :=
  match bufs, msgs with
  | [], _ => Ret msgs
  | _ :: _, [] => Panic
  | buf :: bufs', msg :: msgs' =>
      msg ← set_buf0 (set_Addr msg (Some ua)) buf;
      e ← as_std ep;
      let msg := set_OOB msg (setSrcControl os (m_OOB msg) e) in
      rest ← fill_msgs ua ep bufs' msgs';
      Ret (msg :: rest)
  end.

(** Writing the destination into a pooled address. *)
Definition set_dst (ua : UDPAddr) (dst : Addr) : go UDPAddr :=
  if Is6 dst then
    ip ← gb_copy_at (ua_IP ua) 0 (As16 dst);
    ip ← gb_reslice ip 16;
    Ret (mkUDPAddr ip (ua_Port ua) (ua_Zone ua))
  else
    as4 ← As4 dst;
    ip ← gb_copy_at (ua_IP ua) 0 as4;
    ip ← gb_reslice ip 4;
    Ret (mkUDPAddr ip (ua_Port ua) (ua_Zone ua)).

(** The fields that [Send] copies under the lock. *)
Record family := mkFamily {
  fa_blackhole : bool; fa_conn : option conn; fa_offload : bool; fa_br : option conn;
}.
Definition family_of (s : StdNetBind) (is6 : bool) : family :=
  if is6 then mkFamily (sb_blackhole6 s) (sb_ipv6 s) (sb_ipv6TxOffload s) (sb_ipv6PC s)
  else mkFamily (sb_blackhole4 s) (sb_ipv4 s) (sb_ipv4TxOffload s) (sb_ipv4PC s).

(** [s.ipv4TxOffload = false] or [s.ipv6TxOffload = false] *)
Definition disable_tx (is6 : bool) (s : StdNetBind) : StdNetBind :=
  mkBind (sb_network s) (sb_options s) (sb_ipv4 s) (sb_ipv6 s) (sb_ipv4PC s) (sb_ipv6PC s)
    (is6 && sb_ipv4TxOffload s) (sb_ipv4RxOffload s)
    (negb is6 && sb_ipv6TxOffload s) (sb_ipv6RxOffload s)
    (sb_udpAddrPool s) (sb_msgsPool s) (sb_blackhole4 s) (sb_blackhole6 s) (sb_batchSize s).

Definition set_udpAddrPool (p : list UDPAddr) (s : StdNetBind) : StdNetBind :=
  mkBind (sb_network s) (sb_options s) (sb_ipv4 s) (sb_ipv6 s) (sb_ipv4PC s) (sb_ipv6PC s)
    (sb_ipv4TxOffload s) (sb_ipv4RxOffload s) (sb_ipv6TxOffload s) (sb_ipv6RxOffload s)
    p (sb_msgsPool s) (sb_blackhole4 s) (sb_blackhole6 s) (sb_batchSize s).

(** The branch without offload. *)
Definition send_plain (c : conn) (br : option conn) (ua : UDPAddr) (ep : Endpoint) (m : mem)
    (bufs : list slice) (msgs : list Message) (w : W) : go (option error * list Message * W) :=
  msgs ← fill_msgs ua ep bufs msgs;
  '(err, w) ← send c br m (take (length bufs) msgs) w;
  Ret (err, msgs, w).

(** From the label [retry] to the return: the error, the headers and the new
    states. *)
Definition send_retry (is6 : bool) (f : family) (c : conn) (ua : UDPAddr) (ep : Endpoint)
    (m : mem) (bufs : list slice) (msgs : list Message) (s : StdNetBind) (w : W)
    : go (option error * list Message * StdNetBind * mem * W) :=
  if fa_offload f then
    e ← as_std ep;
    '(n, msgs, m) ← coalesceMessages os (setGSOSize os) ua e m bufs msgs;
    '(err, w) ← send c (fa_br f) m (take n msgs) w;
    if match err with Some eno => errShouldDisableUDPGSO os eno | None => false end then
      let s := disable_tx is6 s in
      '(err, msgs, w) ← send_plain c (fa_br f) ua ep m bufs msgs w;
      Ret (Some (ErrUDPGSODisabled (env_local_addr c w) err), msgs, s, m, w)
    else Ret (err, msgs, s, m, w)
  else
    '(err, msgs, w) ← send_plain c (fa_br f) ua ep m bufs msgs w;
    Ret (err, msgs, s, m, w).

(** [Send]: [cm] and [cu] are the choices of the pools. *)
Definition Send (cm cu : nat) (s : StdNetBind) (m : mem) (bufs : list slice) (ep : Endpoint) (w : W)
    : go (option error * StdNetBind * mem * W) :=
  let is6 := Is6 (Endpoint_DstIP ep) in
  let f := family_of s is6 in
  if fa_blackhole f then Ret (None, s, m, w) else
  match fa_conn f with
  | None => Ret (Some (EErrno EAFNOSUPPORT), s, m, w)
  | Some c =>
      let '(msgs, s) := getMessages os cm s in
      let '(ua, pool) := pool_get cu (sb_udpAddrPool s) new_udpAddr in
      let s := set_udpAddrPool pool s in
      ua ← set_dst ua (Endpoint_DstIP ep);
      e ← as_std ep;
      let ua := mkUDPAddr (ua_IP ua) (ap_port (ep_AddrPort e)) (ua_Zone ua) in
      '(err, msgs, s, m, w) ← send_retry is6 f c ua ep m bufs msgs s w;
      Ret (err, putMessages msgs (set_udpAddrPool (ua :: sb_udpAddrPool s) s), m, w)
  end.
End StdSend.

(** ** What goes out *)

(** The datagrams the kernel emits for a message, with their destination. *)
Definition wire_dgrams {U : UnixABI} (x : wire) : list (list byte) :=
  match segment_size (w_oob x) with
  | Some g => chunks (Z.to_nat g) (concat (w_bufs x))
  | None => [concat (w_bufs x)]
  end.
Definition emitted {U : UnixABI} (ws : list wire) : list (list byte * option AddrPort) :=
  concat (map (fun x => map (fun d => (d, w_addr x)) (wire_dgrams x)) ws).

(** Datagrams to one address. *)
Definition at_dst (dst : AddrPort) (data : list (list byte)) : list (list byte * option AddrPort) :=
  map (fun d => (d, Some dst)) data.

Lemma emitted_app {U : UnixABI} ws ws' : emitted (ws ++ ws') = emitted ws ++ emitted ws'.
Proof. unfold emitted. by rewrite map_app, concat_app. Qed.

Lemma emitted_take {U : UnixABI} k ws : exists rest, emitted ws = emitted (take k ws) ++ rest.
Proof. exists (emitted (drop k ws)). by rewrite <- emitted_app, take_drop. Qed.

(** Messages to one address emit their datagrams to it. *)
Lemma emitted_to {U : UnixABI} m a msgs :
  Forall (fun msg => m_Addr msg = Some a) msgs ->
  emitted (map (wire_of m) msgs) =
  map (fun d => (d, Some (UDPAddr_AddrPort a))) (concat (map (wire_datagrams m) msgs)).
Proof.
  unfold emitted. induction 1 as [|msg msgs Ha _ IH]; [done|]. cbn [map concat].
  rewrite map_app, IH. f_equal. by unfold wire_of; rewrite Ha.
Qed.

Section SendLoops.
Context {U : UnixABI} `{Env W} {L : EnvLaws W} {os : GOOS}.

(** The answers of the kernel to the messages [ws], offered until all are taken
    or an error is reported: in batches, and one by one. *)
Inductive batch_answers (p : conn) : W -> list wire -> option error -> W -> Prop :=
| answer_last w ws n e w' :
    env_write_batch p ws w = ((n, e), w') -> (e = None -> n = length ws) -> batch_answers p w ws e w'
| answer_more w ws n w1 e w' :
    env_write_batch p ws w = ((n, None), w1) -> n < length ws -> batch_answers p w1 (drop n ws) e w' ->
    batch_answers p w ws e w'.
Inductive single_answers (c : conn) : W -> list wire -> option error -> W -> Prop :=
| single_all w : single_answers c w [] None w
| single_error w b o a ws e w' :
    env_write_msg c b o a w = (Some e, w') -> single_answers c w (mkWire [b] o (Some a) :: ws) (Some e) w'
| single_more w b o a ws w1 e w' :
    env_write_msg c b o a w = (None, w1) -> single_answers c w1 ws e w' ->
    single_answers c w (mkWire [b] o (Some a) :: ws) e w'.
Definition answers (c : conn) (pc : option conn) : W -> list wire -> option error -> W -> Prop :=
  match pc with
  | Some p => if linux_or_android os then batch_answers p else single_answers c
  | None => single_answers c
  end.

(** The batched loop ends, because every call makes progress, and sends a
    prefix, the whole list when it reports no error. *)
Lemma send_batch_spec p fuel : forall ws w,
  length ws < fuel ->
  exists e w' k, send_batch fuel p ws w = Ret (e, w') /\ k <= length ws /\
    sent w' p = sent w p ++ take k ws /\ (e = None -> k = length ws) /\ batch_answers p w ws e w'.
Proof.
  induction fuel as [|fuel IH]; intros ws w Hf; [lia|]. cbn [send_batch].
  destruct (env_write_batch p ws w) as [[n err] w1] eqn:E. pose proof E as EW.
  apply law_write_batch in E as (Hn & Hs & Hpos).
  destruct err as [e|]; [exists (Some e), w1, n; split_and!; try done; by eapply answer_last|].
  destruct (Nat.eqb_spec n (length ws)) as [->|Hne].
  { exists None, w1, (length ws). split_and!; try done. by eapply answer_last. }
  rewrite (proj2 (Nat.leb_le _ _) Hn). cbn [check mbind go_mbind].
  assert (0 < n) by (apply Hpos; [done|]; intros ->; cbn in *; lia).
  destruct (IH (drop n ws) w1) as (e & w' & k & HE & Hk & Hs' & He & Hans); [len|].
  exists e, w', (n + k). rewrite length_drop in *. split_and!; [done|lia| | |].
  - rewrite Hs', Hs, <- app_assoc. by rewrite take_take_drop.
  - intros ->. specialize (He eq_refl). lia.
  - eapply answer_more; [exact EW|lia|done].
Qed.

Definition addressed (msg : Message) : Prop :=
  exists b a, m_Buffers msg = [b] /\ m_Addr msg = Some a.

Lemma send_each_spec c m msgs : forall w,
  Forall addressed msgs ->
  exists e w' k, send_each c m msgs w = Ret (e, w') /\ k <= length msgs /\
    sent w' c = sent w c ++ take k (map (wire_of m) msgs) /\ (e = None -> k = length msgs) /\
    single_answers c w (map (wire_of m) msgs) e w'.
Proof.
  induction msgs as [|msg msgs IH]; intros w Ha.
  { exists None, w, 0. cbn. rewrite app_nil_r. split_and!; try done. constructor. }
  inversion Ha as [|? ? (b & a & Hb & Haddr) Ha']; subst. cbn [send_each]. unfold buf0.
  rewrite Hb, Haddr. cbn [lookup list_lookup must mbind go_mbind].
  destruct (env_write_msg c _ _ _ w) as [err w1] eqn:E. pose proof E as EW. apply law_write_msg in E.
  assert (wire_of m msg = mkWire [load m b] (gb_bytes (m_OOB msg)) (Some (UDPAddr_AddrPort a))) as Hw
    by (unfold wire_of; by rewrite Hb, Haddr).
  cbn [map take length]. rewrite Hw. destruct err as [e|].
  - exists (Some e), w1, 0. split_and!; try done; [cbn; lia|]. by constructor.
  - destruct (IH w1 Ha') as (e & w' & k & HE & Hk & Hs & He & Hans). exists e, w', (S k).
    cbn [take]. split_and!; [done|lia| | |].
    + rewrite Hs, E, <- app_assoc. done.
    + intros ->. by rewrite He.
    + by eapply single_more.
Qed.

(** The socket that [send] writes to. *)
Definition out_conn (c : conn) (pc : option conn) : conn :=
  match pc with Some p => if linux_or_android os then p else c | None => c end.

Lemma send_spec c pc m msgs w :
  Forall addressed msgs ->
  exists e w' k, send os c pc m msgs w = Ret (e, w') /\ k <= length msgs /\
    sent w' (out_conn c pc) = sent w (out_conn c pc) ++ take k (map (wire_of m) msgs) /\
    (e = None -> k = length msgs) /\ answers c pc w (map (wire_of m) msgs) e w'.
Proof.
  intros Ha. unfold send, out_conn, answers. destruct pc as [p|]; [|by apply send_each_spec].
  destruct (linux_or_android os); [|by apply send_each_spec].
  destruct (send_batch_spec p (S (length msgs)) (map (wire_of m) msgs) w) as (e & w' & k & Hs);
    [rewrite length_map; lia|]. rewrite length_map in Hs. eauto.
Qed.
End SendLoops.

(** ** Pools *)

Section Pools.
Context {U : UnixABI} {os : GOOS}.

(** A message header that can be reused: one buffer and room for the control
    data of the platform. *)
Definition header_ok (msg : Message) : Prop :=
  (exists b, m_Buffers msg = [b]) /\ stickyControlSize os + gsoControlSize os <= gb_cap (m_OOB msg).
(** A header in the pool is blank. *)
Definition blank (msg : Message) : Prop :=
  header_ok msg /\ gb_len (m_OOB msg) = 0 /\ m_Addr msg = None /\ m_N msg = 0 /\ m_NN msg = 0.
Definition udpaddr_ok (ua : UDPAddr) : Prop :=
  gb_cap (ua_IP ua) = 16 /\ (gb_len (ua_IP ua) = 4 \/ gb_len (ua_IP ua) = 16) /\ ua_Zone ua = ""%string.
Definition pools_ok (s : StdNetBind) : Prop :=
  Forall (fun msgs => length msgs = sb_batchSize s /\ Forall blank msgs) (sb_msgsPool s) /\
  Forall udpaddr_ok (sb_udpAddrPool s).

Lemma pool_get_Forall {A} (P : A -> Prop) choice pool new :
  Forall P pool -> P new ->
  P (pool_get choice pool new).1 /\ Forall P (pool_get choice pool new).2.
Proof.
  intros Hp Hn. unfold pool_get. destruct (pool !! choice) as [x|] eqn:E; cbn.
  - split; [by eapply Forall_lookup_1|]. by apply Forall_delete.
  - done.
Qed.

Lemma new_messages_blank n :
  length (new_messages os n) = n /\ Forall blank (new_messages os n).
Proof.
  unfold new_messages. split; [apply length_replicate|]. apply Forall_replicate.
  split_and!; try done. split; [by eexists|]. unfold gb_cap. cbn. by rewrite length_replicate.
Qed.

Lemma getMessages_ok choice s msgs s' :
  pools_ok s -> getMessages os choice s = (msgs, s') ->
  length msgs = sb_batchSize s /\ Forall blank msgs /\ pools_ok s' /\
  sb_batchSize s' = sb_batchSize s /\ sb_udpAddrPool s' = sb_udpAddrPool s.
Proof.
  intros [Hm Hu] Hg. unfold getMessages in Hg.
  destruct (pool_get_Forall _ choice _ (new_messages os (sb_batchSize s)) Hm
    (new_messages_blank (sb_batchSize s))) as [[H1 H2] H3].
  destruct (pool_get _ _ _) as [ms pool]. injection Hg as <- <-. cbn in *. done.
Qed.

Lemma clean_blank msg : header_ok msg -> blank (clean_message msg).
Proof. intros [[b Hb] Hc]. split_and!; try done. split; [by exists b|done]. Qed.

Lemma putMessages_ok msgs s :
  pools_ok s -> length msgs = sb_batchSize s -> Forall header_ok msgs -> pools_ok (putMessages msgs s).
Proof.
  intros [Hm Hu] Hl Hh. split; [|done]. cbn. constructor; [|done].
  rewrite length_map. split; [done|]. apply Forall_map. eapply list.Forall_impl; [exact Hh|].
  apply clean_blank.
Qed.

(** Control data operations keep the capacity. *)
Lemma setSrcControl_cap o ep : gb_cap (setSrcControl os o ep) = gb_cap o.
Proof.
  unfold setSrcControl. destruct (StdNetSupportsStickySockets os); [|done].
  unfold setSrcControl_linux. destruct (Nat.ltb_spec (gb_cap o) (src_len ep)) as [|Hl]; [done|].
  rewrite gb_append_cap; [done|]. assert (length (src_bytes ep) <= src_len ep).
  { unfold src_len, src_bytes, gb_bytes. destruct (ep_src ep); [rewrite length_take; lia|done]. }
  unfold gb_cap in *. cbn. lia.
Qed.

Lemma gb_copy_at_cap b i bs b' :
  gb_ok b -> gb_copy_at b i bs = Ret b' -> gb_cap b' = gb_cap b /\ gb_len b' = gb_len b.
Proof.
  intros Hok HE. unfold gb_copy_at, check in HE.
  destruct (Nat.leb_spec i (gb_len b)); [|done]. injection HE as <-.
  unfold gb_ok, gb_cap in *. cbn. split; [|done].
  apply length_splice. rewrite length_take. lia.
Qed.

Lemma setGSOSize_cap o g o' : setGSOSize os o g = Ret o' -> gb_cap o' = gb_cap o.
Proof.
  unfold setGSOSize. destruct (linux_or_android os); [|by intros [= <-]].
  unfold setGSOSize_linux. destruct (_ <? _)%nat; [by intros [= <-]|]. intros HE.
  apply go_bind_Ret in HE as (c1 & R1 & HE). apply gb_reslice_Ret in R1 as [_ ->].
  apply go_bind_Ret in HE as (? & _ & HE).
  apply go_bind_Ret in HE as (c2 & C2 & HE). apply gb_copy_at_cap in C2 as [E1 E2]; [|unfold gb_ok; cbn; done].
  apply go_bind_Ret in HE as (c3 & C3 & HE). apply gb_copy_at_cap in C3 as [E3 E4].
  2: { unfold gb_ok. rewrite E1, E2. cbn. done. }
  apply gb_reslice_Ret in HE as [_ ->]. unfold gb_cap in *. cbn in *. congruence.
Qed.
End Pools.

(** ** Reuse of headers *)

Section Reuse.
Context {U : UnixABI} {os : GOOS} {addr : UDPAddr} {ep : StdNetEndpoint}.

Definition headers_ok (n : nat) (msgs : list Message) : Prop :=
  length msgs = n /\ Forall (header_ok (os := os)) msgs.

Lemma header_ok_set_buf0 msg b msg' :
  header_ok (os := os) msg -> set_buf0 msg b = Ret msg' -> header_ok (os := os) msg'.
Proof.
  intros [[b0 Hb] Hc]. unfold set_buf0. rewrite Hb. intros [= <-]. split; [by exists b|done].
Qed.

Lemma headers_put n msgs base msg :
  headers_ok n msgs -> header_ok (os := os) msg -> headers_ok n (put_msg msgs base msg).
Proof.
  intros [Hl Hf] Hm. unfold put_msg. split; [by rewrite length_insert|]. by apply Forall_insert.
Qed.

Lemma headers_at n msgs base msg :
  headers_ok n msgs -> msg_at msgs base = Ret msg -> header_ok (os := os) msg.
Proof.
  intros [_ Hf] HE. unfold msg_at in HE. apply go_bind_Ret in HE as (? & _ & HE).
  apply must_Ret in HE. by eapply Forall_lookup_1.
Qed.

Lemma mark_gso_headers n msgs base g msgs' :
  headers_ok n msgs -> mark_gso (setGSOSize os) msgs base g = Ret msgs' -> headers_ok n msgs'.
Proof.
  intros Hh HE. unfold mark_gso in HE.
  apply go_bind_Ret in HE as (msg & Hm & HE). apply go_bind_Ret in HE as (o & Ho & [= <-]).
  apply headers_put; [done|]. apply setGSOSize_cap in Ho.
  destruct (headers_at _ _ _ _ Hh Hm) as [Hb Hc]. split; [done|]. cbn. by rewrite Ho.
Qed.

Lemma start_batch_headers n buf st st' :
  headers_ok n (co_msgs st) -> start_batch os (setGSOSize os) addr ep buf st = Ret st' ->
  headers_ok n (co_msgs st').
Proof.
  intros Hh HE. unfold start_batch in HE. apply go_bind_Ret in HE as (msgs & Hm & HE).
  assert (headers_ok n msgs) as Hh'.
  { destruct (_ <? _)%nat; [by eapply mark_gso_headers|]. by injection Hm as <-. }
  apply go_bind_Ret in HE as (msg & Ha & HE). apply go_bind_Ret in HE as (msg' & Hb & [= <-]).
  cbn. apply headers_put; [done|].
  assert (header_ok (os := os) msg') as Hm'.
  { eapply header_ok_set_buf0; [|exact Hb]. destruct (headers_at _ _ _ _ Hh' Ha) as [? ?].
    split; [done|]. cbn. by rewrite setSrcControl_cap. }
  destruct Hm'. split; done.
Qed.

Lemma coalesce_step_headers n N i buf st st' :
  headers_ok n (co_msgs st) -> coalesce_step os (setGSOSize os) addr ep N i buf st = Ret st' ->
  headers_ok n (co_msgs st').
Proof.
  intros Hh HE. unfold coalesce_step in HE. destruct (0 <? i)%nat; [|by eapply start_batch_headers].
  apply go_bind_Ret in HE as (msg & Ha & HE). apply go_bind_Ret in HE as (b & Hb & HE).
  destruct (_ && _) in HE; [|by eapply start_batch_headers].
  destruct (append _ _ _) as [m' b'].
  apply go_bind_Ret in HE as (msg' & Hs & HE). apply go_bind_Ret in HE as (msgs & Hm & [= <-]). cbn.
  assert (headers_ok n (put_msg (co_msgs st) (co_base st) msg')) as Hp.
  { apply headers_put; [done|]. eapply header_ok_set_buf0; [|exact Hs]. by eapply headers_at. }
  destruct (_ =? _)%nat in Hm; [by eapply mark_gso_headers|]. by injection Hm as <-.
Qed.

Lemma coalesceMessages_headers n m bufs msgs k msgs' m' :
  headers_ok n msgs -> coalesceMessages os (setGSOSize os) addr ep m bufs msgs = Ret (k, msgs', m') ->
  headers_ok n msgs'.
Proof.
  intros Hh HE. unfold coalesceMessages in HE. apply go_bind_Ret in HE as (st & Hl & [= <- <- <-]).
  assert (forall N bufs i st0 st1, headers_ok n (co_msgs st0) ->
    coalesce_loop os (setGSOSize os) addr ep N i bufs st0 = Ret st1 -> headers_ok n (co_msgs st1)) as Hloop.
  { clear. intros N. induction bufs as [|b bufs IH]; intros i st0 st1 Hh HE; cbn in HE.
    - by injection HE as <-.
    - apply go_bind_Ret in HE as (st & Hs & HE). eapply IH; [|exact HE]. by eapply coalesce_step_headers. }
  by eapply Hloop; [|exact Hl].
Qed.

(** Filling headers without offload: message [i] carries buffer [i]. *)
Lemma fill_msgs_spec bufs : forall msgs n,
  headers_ok n msgs -> length bufs <= n ->
  exists msgs', fill_msgs os addr (EpStd ep) bufs msgs = Ret msgs' /\ headers_ok n msgs' /\
    Forall2 (fun b msg => m_Buffers msg = [b] /\ m_Addr msg = Some addr /\
        exists o, stickyControlSize os + gsoControlSize os <= gb_cap o /\
          m_OOB msg = setSrcControl os o ep) bufs (take (length bufs) msgs').
Proof.
  induction bufs as [|b bufs IH]; intros msgs n [Hl Hh] Hle.
  { exists msgs. split_and!; try done. }
  destruct msgs as [|msg msgs]; [cbn in *; lia|].
  inversion Hh as [|? ? [[b0 Hb] Hc] Hh']; subst. cbn [length] in *.
  destruct (IH msgs (length msgs)) as (msgs' & HE & [Hl' Hf'] & Hw); [done|lia|].
  cbn [fill_msgs]. unfold set_buf0. cbn [m_Buffers set_Addr]. rewrite Hb.
  cbn [mbind go_mbind as_std]. rewrite HE. cbn [mbind go_mbind].
  eexists. split; [reflexivity|]. split.
  - split; [cbn; lia|]. constructor; [|done]. split; [by eexists|]. cbn. by rewrite setSrcControl_cap.
  - cbn [take]. constructor; [|done]. split_and!; try done. by exists (m_OOB msg).
Qed.
End Reuse.

(** ** The destination *)

Lemma gb_copy_prefix b bs n :
  length bs = n -> n <= gb_len b -> gb_ok b ->
  gb_copy_at b 0 bs = Ret (GoBuf (bs ++ drop n (gb_arr b)) (gb_len b)).
Proof.
  intros Hl Hn Hok. unfold gb_copy_at. rewrite (proj2 (Nat.leb_le 0 _)) by lia. cbn.
  do 2 f_equal. rewrite Nat.sub_0_r, take_ge by lia. unfold splice. cbn. by rewrite Hl.
Qed.

(** A pooled address takes any destination of the family its slice has room
    for; zones are not transferred. *)
Lemma set_dst_spec ua dst :
  udpaddr_ok ua -> Addr_ok dst -> dst <> AddrZero ->
  (Is6 dst = true -> gb_len (ua_IP ua) = 16) ->
  exists ua', set_dst ua dst = Ret ua' /\
    forall port, (0 <= port < 65536)%Z ->
      let u := mkUDPAddr (ua_IP ua') port (ua_Zone ua') in
      udpaddr_ok u /\ UDPAddr_AddrPort u = mkAddrPort (WithZone dst "") port.
Proof.
  intros (Hc & Hl & Hz) Hok Hne H6. unfold set_dst.
  unfold gb_cap in *. destruct dst as [|ip|ip z]; [done| |]; cbn [Is6 As4 As16 mbind go_mbind].
  - cbn in Hok. rewrite (gb_copy_prefix _ ip 4) by (unfold gb_ok, gb_cap; lia). cbn [mbind go_mbind].
    assert (length (ip ++ drop 4 (gb_arr (ua_IP ua))) = 16) as Hlen by len.
    unfold gb_reslice, gb_cap. cbn [gb_arr]. rewrite Hlen. cbn [Nat.leb check mbind go_mbind].
    eexists. split; [reflexivity|]. intros port Hp. cbn [ua_IP ua_Zone]. split.
    + unfold udpaddr_ok, gb_cap. cbn [ua_IP ua_Zone gb_arr gb_len]. auto.
    + unfold UDPAddr_AddrPort, gb_bytes. cbn [ua_IP ua_Port ua_Zone gb_arr gb_len].
      rewrite take_app_length' by done. rewrite u16_small by lia. unfold AddrFromSlice. by rewrite Hok.
  - cbn in Hok, H6. rewrite (gb_copy_prefix _ ip 16) by (unfold gb_ok, gb_cap; rewrite ?H6; lia || done).
    cbn [mbind go_mbind].
    assert (length (ip ++ drop 16 (gb_arr (ua_IP ua))) = 16) as Hlen by len.
    unfold gb_reslice, gb_cap. cbn [gb_arr]. rewrite Hlen. cbn [Nat.leb check mbind go_mbind].
    eexists. split; [reflexivity|]. intros port Hp. cbn [ua_IP ua_Zone]. split.
    + unfold udpaddr_ok, gb_cap. cbn [ua_IP ua_Zone gb_arr gb_len]. auto.
    + unfold UDPAddr_AddrPort, gb_bytes. cbn [ua_IP ua_Port ua_Zone gb_arr gb_len].
      rewrite take_app_length' by done. rewrite u16_small by lia. unfold AddrFromSlice. rewrite Hok.
      cbn. by rewrite Hz.
Qed.

(** ** Sending on Linux *)

Section SendLinux.
Context {U : UnixABI} {UL : UnixLaws U} `{Env W} {L : EnvLaws W}.

(** The datagrams the caller wants on the wire, at the address and port of the
    endpoint; the code does not pass on an IPv6 zone. *)
Definition send_dst (e : StdNetEndpoint) : AddrPort :=
  mkAddrPort (WithZone (DstIP e) "") (ap_port (ep_AddrPort e)).
Definition wanted (m : mem) (bufs : list slice) (e : StdNetEndpoint) : list (list byte * option AddrPort) :=
  map (fun b => (load m b, Some (send_dst e))) bufs.

(** What [Send] needs: buffers as [coalesceMessages] needs them and no more
    than the batch size, an endpoint with a valid destination and a cached
    source that fits, and a pooled address of sufficient length. *)
Record send_pre (cu : nat) (s : StdNetBind) (m : mem) (bufs : list slice) (e : StdNetEndpoint) : Prop := {
  pre_pools : pools_ok (os := Linux) s;
  pre_seps : seps bufs;
  pre_slices : Forall (slice_ok m) bufs;
  pre_nonempty : Forall (fun b => 0 < s_len b) bufs;
  pre_batch : length bufs <= sb_batchSize s;
  pre_src : src_control e;
  pre_room : src_len e <= stickyControlSize_linux;
  pre_addr : Addr_ok (DstIP e) /\ DstIP e <> AddrZero;
  pre_port : (0 <= ap_port (ep_AddrPort e) < 65536)%Z;
  pre_ua : Is6 (DstIP e) = true ->
    gb_len (ua_IP (pool_get cu (sb_udpAddrPool s) new_udpAddr).1) = 16;
}.

(** Messages with only the cached source as control data are one datagram each. *)
Lemma plain_datagrams m e ua bufs msgs :
  src_control e -> src_len e <= stickyControlSize_linux ->
  Forall2 (fun b msg => m_Buffers msg = [b] /\ m_Addr msg = Some ua /\
      exists o, stickyControlSize Linux + gsoControlSize Linux <= gb_cap o /\
        m_OOB msg = setSrcControl Linux o e) bufs msgs ->
  concat (map (wire_datagrams m) msgs) = map (load m) bufs /\
  Forall (fun msg => m_Addr msg = Some ua) msgs /\ Forall (fun msg => gb_bytes (m_OOB msg) = src_bytes e) msgs.
Proof.
  intros Hsrc Hroom. pose proof (control_linux e Hsrc) as CC.
  induction 1 as [|b msg bufs msgs (Hb & Ha & o & Ho & Hoob) _ (IH1 & IH2 & IH3)]; [done|].
  assert (gso_ready_linux e (m_OOB msg)) as Hrdy.
  { rewrite Hoob. apply (cc_src (ControlContract := CC)).
    unfold oob_ok_linux. cbn in Ho. unfold gsoControlSize in Ho. cbn in Ho. unfold stickyControlSize in Ho.
    cbn in Ho. lia. }
  split; [|split; (constructor; [|done]); [done|apply Hrdy]]. cbn [map concat]. rewrite IH1.
  pose proof (cc_none (ControlContract := CC) _ Hrdy) as Hs. unfold wire_datagrams. rewrite Hs. cbn. by rewrite (payload_single _ _ _ Hb).
Qed.

(** An attempt to send [want] that the kernel answered with [err]: the messages
    offered are cut into [want], carry the cached source of the endpoint (and,
    with offload, a segment size), and a prefix of them went out, all of them
    when there is no error. *)
Definition attempt (offload : bool) (e : StdNetEndpoint) (c : conn) (br : option conn) (w : W)
    (want : list (list byte * option AddrPort)) (err : option error) (w' : W) : Prop :=
  exists ws k, emitted ws = want /\
    Forall (fun x => if offload then with_source e (w_oob x) else w_oob x = src_bytes e) ws /\
    answers (os := Linux) c br w ws err w' /\
    sent w' (out_conn (os := Linux) c br) = sent w (out_conn (os := Linux) c br) ++ take k ws /\
    (err = None -> take k ws = ws).

Lemma send_plain_spec c br ua e m bufs msgs n w :
  src_control e -> src_len e <= stickyControlSize_linux ->
  headers_ok (os := Linux) n msgs -> length bufs <= n -> UDPAddr_AddrPort ua = send_dst e ->
  exists err msgs' w',
    send_plain Linux c br ua (EpStd e) m bufs msgs w = Ret (err, msgs', w') /\
    headers_ok (os := Linux) n msgs' /\ attempt false e c br w (wanted m bufs e) err w'.
Proof.
  intros Hsrc Hroom Hh Hle Hua. unfold send_plain.
  destruct (fill_msgs_spec (os := Linux) (addr := ua) (ep := e) bufs msgs n Hh Hle) as (msgs' & HE & Hh' & Hf).
  rewrite HE. cbn [mbind go_mbind].
  destruct (plain_datagrams m e ua _ _ Hsrc Hroom Hf) as (Hd & Ha & Ho).
  destruct (send_spec (os := Linux) c br m (take (length bufs) msgs') w) as (err & w' & k & Hs & Hk & Hsent & He & Hans).
  { clear -Hf. induction Hf as [|b msg bs ms (Hb & Ha & _) _ IH]; constructor; [|done]. by exists b, ua. }
  rewrite Hs. cbn [mbind go_mbind]. exists err, msgs', w'. split; [done|]. split; [done|].
  exists (map (wire_of m) (take (length bufs) msgs')), k. split_and!; try done.
  - rewrite (emitted_to m ua) by done. rewrite Hd, Hua. unfold wanted. by rewrite map_map.
  - apply Forall_map. exact Ho.
  - intros Hn. specialize (He Hn). rewrite take_ge; [done|]. rewrite length_map. lia.
Qed.

Lemma coalesce_headers_ready e msgs n :
  src_len e <= stickyControlSize_linux -> headers_ok (os := Linux) n msgs ->
  Forall (msg_ready (oob_ok := oob_ok_linux e)) msgs.
Proof.
  intros Hr [_ Hf]. eapply list.Forall_impl; [exact Hf|]. intros msg [Hb Hc]. split; [|done].
  unfold oob_ok_linux. cbn in Hc. unfold gsoControlSize, stickyControlSize in Hc. cbn in Hc. lia.
Qed.

(** The outcome of a send that emitted [em]: without a retry a prefix of what
    was wanted, all of it when there is no error; with a retry, a prefix and
    then all of it again, when the retry had no error. *)
Definition send_outcome (want em : list (list byte * option AddrPort)) (retried : bool)
    (err : option error) : Prop :=
  if retried then
    exists l r k k', err = Some (ErrUDPGSODisabled l r) /\ em = take k want ++ take k' want /\
      (r = None -> take k' want = want)
  else exists k, em = take k want /\ (err = None -> em = want).

Lemma prefix_take {A} (l1 l2 rest : list A) : l1 = l2 ++ rest -> l2 = take (length l2) l1.
Proof. intros ->. by rewrite take_app_length. Qed.

(** The coalesced attempt. *)
Lemma send_coalesced_spec cu s c br ua e m bufs msgs n w :
  send_pre cu s m bufs e -> headers_ok (os := Linux) n msgs -> length bufs <= n ->
  UDPAddr_AddrPort ua = send_dst e ->
  exists k msgs' m' err w',
    coalesceMessages Linux (setGSOSize Linux) ua e m bufs msgs = Ret (k, msgs', m') /\
    send Linux c br m' (take k msgs') w = Ret (err, w') /\
    headers_ok (os := Linux) n msgs' /\ map (load m') bufs = map (load m) bufs /\
    attempt true e c br w (wanted m bufs e) err w'.
Proof.
  intros P Hh Hle Hua. pose proof (pre_src _ _ _ _ _ P) as Hsrc. pose proof (control_linux e Hsrc).
  destruct (coalesce_contract Linux (setGSOSize Linux) ua e (oob_ok_linux e) (gso_ready_linux e) m bufs msgs)
    as (k & msgs' & m' & HE & (_ & Hd & Ha & _ & Hl) & _ & _ & _ & Ho).
  { apply P. } { apply P. } { apply P. }
  { eapply coalesce_headers_ready; [apply P|done]. } { destruct Hh; lia. }
  pose proof (coalesceMessages_headers _ _ _ _ _ _ _ Hh HE) as Hh'.
  destruct (send_spec (os := Linux) c br m' (take k msgs') w) as (err & w' & j & Hs & Hj & Hsent & He & Hans).
  { destruct Hh' as [_ Hf]. apply (Forall_take _ k) in Hf. clear -Hf Ha.
    induction Hf as [|msg ms [[b Hb] _] _ IH]; constructor; inversion Ha; subst; [|by apply IH]. by exists b, ua. }
  exists k, msgs', m', err, w'. split_and!; try done.
  exists (map (wire_of m') (take k msgs')), j. split_and!; try done.
  - rewrite (emitted_to m' ua) by done. rewrite Hd, Hua. unfold wanted. by rewrite map_map.
  - apply Forall_map. eapply list.Forall_impl; [exact Ho|]. intros msg. apply oob_done_source.
  - intros Hn. specialize (He Hn). rewrite take_ge; [done|]. rewrite length_map. lia.
Qed.

Lemma emitted_prefix ws j want : emitted ws = want -> emitted (take j ws) = take (length (emitted (take j ws))) want.
Proof. intros <-. destruct (emitted_take j ws) as [rest Hr]. by eapply prefix_take. Qed.

(** Putting headers and address back. *)
Lemma finish_pools ua msgs s :
  pools_ok (os := Linux) s -> udpaddr_ok ua -> headers_ok (os := Linux) (sb_batchSize s) msgs ->
  pools_ok (os := Linux) (putMessages msgs (set_udpAddrPool (ua :: sb_udpAddrPool s) s)).
Proof.
  intros [Hm Hu] Hua [Hl Hh]. apply putMessages_ok; [|done..]. split; [done|]. by constructor.
Qed.

Lemma blank_headers msgs n :
  length msgs = n -> Forall (blank (os := Linux)) msgs -> headers_ok (os := Linux) n msgs.
Proof. intros ? Hb. split; [done|]. eapply list.Forall_impl; [exact Hb|]. by intros ? [? _]. Qed.

(** The kernel rejected UDP GSO. *)
Definition rejected (offload : bool) (err : option error) : Prop :=
  offload = true /\ exists e, err = Some e /\ gso_rejection e.

(** What a send does with the answer [err1] to its first attempt, which left the
    world [w1]: unless UDP GSO was rejected it returns the answer; otherwise it
    attempts once more without offload and wraps the answer to that. *)
Definition send_result (offload : bool) (e : StdNetEndpoint) (c : conn) (br : option conn)
    (want : list (list byte * option AddrPort)) (err1 : option error) (w1 : W)
    (err : option error) (w' : W) (offload' : bool) : Prop :=
  (~ rejected offload err1 /\ err = err1 /\ w' = w1 /\ offload' = offload) \/
  (rejected offload err1 /\ offload' = false /\ exists r,
     err = Some (ErrUDPGSODisabled (env_local_addr c w') r) /\ attempt false e c br w1 want r w').

Lemma rejected_dec offload err :
  offload && match err with Some e => errShouldDisableUDPGSO Linux e | None => false end = true <->
  rejected offload err.
Proof.
  unfold rejected. rewrite andb_true_iff. split.
  - intros [-> He]. destruct err as [e|]; [|done]. split; [done|]. exists e. split; [done|].
    by apply errShouldDisableUDPGSO_linux_spec.
  - intros (-> & e & -> & He). split; [done|]. by apply errShouldDisableUDPGSO_linux_spec.
Qed.

(** The part from [retry] on. *)
Lemma send_retry_spec cu s0 c f ua e m bufs msgs s w :
  send_pre cu s0 m bufs e -> headers_ok (os := Linux) (sb_batchSize s) msgs ->
  length bufs <= sb_batchSize s -> UDPAddr_AddrPort ua = send_dst e ->
  exists err msgs' (off : bool) m' w' err1 w1,
    send_retry Linux (Is6 (DstIP e)) f c ua (EpStd e) m bufs msgs s w
      = Ret (err, msgs', (if off then disable_tx (Is6 (DstIP e)) s else s), m', w') /\
    headers_ok (os := Linux) (sb_batchSize s) msgs' /\ map (load m') bufs = map (load m) bufs /\
    attempt (fa_offload f) e c (fa_br f) w (wanted m bufs e) err1 w1 /\
    send_result (fa_offload f) e c (fa_br f) (wanted m bufs e) err1 w1 err w' (fa_offload f && negb off).
Proof.
  intros P Hh Hle Hua. unfold send_retry. destruct (fa_offload f) eqn:Hoff; cbn [as_std mbind go_mbind].
  - destruct (send_coalesced_spec cu s0 c (fa_br f) ua e m bufs msgs _ w P Hh Hle Hua)
      as (k & msgs' & m' & err1 & w1 & HE & Hs & Hh' & Hl & Hatt).
    rewrite HE. cbn [mbind go_mbind]. rewrite Hs. cbn [mbind go_mbind].
    pose proof (rejected_dec true err1) as Hrej. cbn [andb] in Hrej.
    destruct (match err1 with Some eno => errShouldDisableUDPGSO Linux eno | None => false end).
    + destruct (send_plain_spec c (fa_br f) ua e m' bufs msgs' (sb_batchSize s) w1)
        as (err2 & msgs2 & w2 & HE2 & Hh2 & Hatt2); try done; [apply P..|].
      assert (wanted m' bufs e = wanted m bufs e) as Hw.
      { unfold wanted. rewrite <- (map_map (load m') (fun d => (d, Some (send_dst e)))), Hl. by rewrite map_map. }
      rewrite Hw in Hatt2. rewrite HE2. cbn [mbind go_mbind].
      eexists _, _, true, _, _, err1, w1. split; [reflexivity|]. split_and!; try done.
      right. split; [by apply Hrej|]. split; [done|]. by eexists.
    + eexists _, _, false, _, _, err1, w1. split; [reflexivity|]. split_and!; try done.
      left. split_and!; try done. by intros ?%Hrej.
  - destruct (send_plain_spec c (fa_br f) ua e m bufs msgs (sb_batchSize s) w)
      as (err2 & msgs2 & w2 & HE2 & Hh2 & Hatt2); try done; [apply P..|].
    rewrite HE2. cbn [mbind go_mbind].
    eexists _, _, false, _, _, err2, w2. split; [reflexivity|]. split_and!; try done.
    left. split_and!; try done. by intros [? _].
Qed.

(** The contract of [Send] on Linux. *)
Lemma Send_linux_spec cm cu s m bufs e w c :
  let f := family_of s (Is6 (DstIP e)) in
  send_pre cu s m bufs e -> fa_blackhole f = false -> fa_conn f = Some c ->
  exists err s' m' w' err1 w1,
    Send Linux cm cu s m bufs (EpStd e) w = Ret (err, s', m', w') /\
    attempt (fa_offload f) e c (fa_br f) w (wanted m bufs e) err1 w1 /\
    send_result (fa_offload f) e c (fa_br f) (wanted m bufs e) err1 w1 err w'
      (fa_offload (family_of s' (Is6 (DstIP e)))) /\
    map (load m') bufs = map (load m) bufs /\ pools_ok (os := Linux) s'.
Proof.
  intros f P Hbh Hc. unfold Send. cbn [Endpoint_DstIP]. fold f. rewrite Hbh, Hc.
  destruct (getMessages Linux cm s) as [msgs s1] eqn:Hg.
  pose proof (getMessages_ok cm s msgs s1 (pre_pools _ _ _ _ _ P) Hg) as (Hlm & Hblank & Hp1 & Hbs & Hup).
  assert (family_of s1 (Is6 (DstIP e)) = f) as Hf1.
  { unfold getMessages in Hg. destruct (pool_get _ _ _). injection Hg as _ <-. done. }
  pose proof (pre_ua _ _ _ _ _ P) as Hua. rewrite <- Hup in Hua.
  destruct (pool_get_Forall udpaddr_ok cu (sb_udpAddrPool s1) new_udpAddr) as [Hu1 Hu2];
    [apply Hp1|by repeat split; auto|].
  destruct (pool_get cu (sb_udpAddrPool s1) new_udpAddr) as [ua0 pool]. cbn [fst snd] in *.
  destruct (pre_addr _ _ _ _ _ P) as [Hao Hnz].
  destruct (set_dst_spec ua0 (DstIP e) Hu1 Hao Hnz Hua) as (ua1 & Hset & Hdst).
  destruct (Hdst (ap_port (ep_AddrPort e)) (pre_port _ _ _ _ _ P)) as [Huok Huad].
  rewrite Hset. cbn [mbind go_mbind as_std].
  set (ua := mkUDPAddr _ _ _) in *. set (s2 := set_udpAddrPool pool s1).
  destruct (send_retry_spec cu s c f ua e m bufs msgs s2 w P) as
    (err & msgs' & off & m' & w' & err1 & w1 & HE & Hh' & Hl & Hatt & Hres).
  { apply blank_headers; [cbn; congruence|done]. } { cbn. rewrite Hbs. apply P. } { exact Huad. }
  rewrite HE. cbn [mbind go_mbind].
  eexists err, _, m', w', err1, w1. split; [reflexivity|]. split; [done|]. split; [|split; [done|]].
  - match goal with |- send_result _ _ _ _ _ _ _ _ _ ?x => replace x with (fa_offload f && negb off); [done|] end.
    rewrite <- Hf1. destruct off, (Is6 (DstIP e)); cbn; rewrite ?andb_false_r, ?andb_true_r; done.
  - apply finish_pools; [|done|by destruct off]. destruct off; (split; [apply Hp1|done]).
Qed.

(** C2: Sending on Linux.  On an open family that is not blackholed, [Send] of
    at most a batch of non-empty datagrams in separate buffers returns (the
    batched loop always ends).  It offers the kernel messages that are cut into
    exactly the datagrams passed, in order, to the address and port of the
    endpoint, with its cached source; a prefix goes out, all of them when the
    kernel reports no error.  [Send] returns the answer of the kernel, except
    when offload is on and the answer is a rejection of UDP GSO: then, and only
    then, it switches offload off, offers all datagrams once more without it,
    and returns [ErrUDPGSODisabled] around the answer to that.  The caller's
    bytes are unchanged and the pools hold blank headers again.  The zone of an
    IPv6 address is not passed on ([send_dst]), and an IPv6 send needs a pooled
    address that was not used for IPv4 before ([pre_ua]). *)
Theorem Send_linux cm cu s m bufs e w c :
  let f := family_of s (Is6 (DstIP e)) in
  send_pre cu s m bufs e -> fa_blackhole f = false -> fa_conn f = Some c ->
  exists err s' m' w' err1 w1,
    Send Linux cm cu s m bufs (EpStd e) w = Ret (err, s', m', w') /\
    attempt (fa_offload f) e c (fa_br f) w (wanted m bufs e) err1 w1 /\
    send_result (fa_offload f) e c (fa_br f) (wanted m bufs e) err1 w1 err w'
      (fa_offload (family_of s' (Is6 (DstIP e)))) /\
    map (load m') bufs = map (load m) bufs /\ pools_ok (os := Linux) s'.
Proof. exact (Send_linux_spec cm cu s m bufs e w c). Qed.
End SendLinux.

(** *** Families that are not open *)

(** A blackholed family swallows packets without error, and a family that
    is not open answers EAFNOSUPPORT; nothing is sent and no state changes. *)
Theorem Send_not_open {U : UnixABI} `{Env W} os cm cu s m bufs ep w :
  let f := family_of s (Is6 (Endpoint_DstIP ep)) in
  (fa_blackhole f = true -> Send os cm cu s m bufs ep w = Ret (None, s, m, w)) /\
  (fa_blackhole f = false -> fa_conn f = None ->
     Send os cm cu s m bufs ep w = Ret (Some (EErrno EAFNOSUPPORT), s, m, w)).
Proof. intros f. unfold Send. fold f. split; [by intros ->|]. by intros -> ->. Qed.

Lemma Send_not_open_witness :
  Send (U := linux64) (W := sim) Linux 0 0 ex_bind ex_mem ex_bufs (EpStd ex_ep4) sim1 =
  Ret (Some (EErrno EAFNOSUPPORT), ex_bind, ex_mem, sim1).
Proof.
  apply (proj2 (Send_not_open (U := linux64) (W := sim) Linux 0 0 ex_bind ex_mem ex_bufs (EpStd ex_ep4) sim1));
    reflexivity.
Defined.

(** *** A send on the simulated machine *)

Lemma ex_send_pre : send_pre (U := linux64) 0 ex_opened ex_mem ex_bufs ex_ep4.
Proof.
  split.
  - by vm_compute.
  - by apply (bool_decide_unpack _); vm_compute.
  - by repeat constructor; vm_compute; lia.
  - by repeat constructor.
  - vm_compute. lia.
  - apply ex_ep4_src.
  - vm_compute. lia.
  - by vm_compute.
  - by vm_compute.
  - by vm_compute.
Qed.

(** The three datagrams leave as one message of two-byte segments. *)
Example ex_send :
  match Send (U := linux64) (W := sim) Linux 0 0 ex_opened ex_mem ex_bufs (EpStd ex_ep4) ex_world with
  | Ret (err, s', m', w') =>
      err = None /\ length (sent w' 0) = 1 /\
      emitted (U := linux64) (sent w' 0) =
        map (fun d => (d, Some (mkAddrPort (Addr4 [x7f; x00; x00; x01]) 9000)))
          [[x01; x02]; [x03; x04]; [x05]]
  | _ => False
  end.
Proof. vm_compute. tauto. Qed.

(** The same machine with a network card that cannot segment. *)
Definition no_gso (w : sim) : sim :=
  mkSim (sim_open w) (sim_busy w) (sim_families w) (sim_next_port w) (sim_gro w) false
    (sim_opts w) (sim_sent w) (sim_inbox w) (sim_write_limit w).

(** On this machine the first attempt is rejected and the second one delivers. *)
Lemma Send_linux_witness :
  exists err s' m' w' err1 w1,
    Send (U := linux64) (W := sim) Linux 0 0 ex_opened ex_mem ex_bufs (EpStd ex_ep4) (no_gso ex_world)
      = Ret (err, s', m', w') /\
    attempt (U := linux64) true ex_ep4 0 (Some 0) (no_gso ex_world) (wanted ex_mem ex_bufs ex_ep4) err1 w1 /\
    send_result (U := linux64) true ex_ep4 0 (Some 0) (wanted ex_mem ex_bufs ex_ep4) err1 w1 err w'
      (fa_offload (family_of s' false)).
Proof.
  destruct (Send_linux (U := linux64) (W := sim) 0 0 ex_opened ex_mem ex_bufs ex_ep4 (no_gso ex_world) 0 ex_send_pre)
    as (err & s' & m' & w' & err1 & w1 & HE & Ha & Hr & _).
  - vm_compute. reflexivity.
  - vm_compute. reflexivity.
  - exists err, s', m', w', err1, w1. split; [exact HE|]. split; [exact Ha|exact Hr].
Defined.

Example ex_send_fallback :
  match Send (U := linux64) (W := sim) Linux 0 0 ex_opened ex_mem ex_bufs (EpStd ex_ep4) (no_gso ex_world) with
  | Ret (err, s', m', w') =>
      err = Some (ErrUDPGSODisabled "127.0.0.1:40001" None) /\ sb_ipv4TxOffload s' = false /\
      length (sent w' 0) = 3 /\
      map fst (emitted (U := linux64) (sent w' 0)) = [[x01; x02]; [x03; x04]; [x05]]
  | _ => False
  end.
Proof. vm_compute. tauto. Qed.

(** ** Defects *)

Definition ex_ip6 : list byte := map byte_of [32; 1; 13; 184; 0; 0; 0; 0; 0; 0; 0; 0; 0; 0; 0; 1]%Z.
Definition ex_ep6 : StdNetEndpoint := mkEndpoint (mkAddrPort (Addr6 ex_ip6 "") 9000) None.

(** C38: A pooled address that was used for IPv4 corrupts the next IPv6
    destination: only the first four bytes of the new address are copied, the
    other twelve are what the array held. *)
Theorem set_dst_after_v4 ua ip z :
  gb_cap (ua_IP ua) = 16 -> gb_len (ua_IP ua) = 4 -> length ip = 16 ->
  exists ua', set_dst ua (Addr6 ip z) = Ret ua' /\
    gb_bytes (ua_IP ua') = take 4 ip ++ drop 4 (gb_arr (ua_IP ua)).
Proof.
  unfold gb_cap. intros Hc Hl Hip. unfold set_dst, gb_copy_at. rewrite Hl. cbn [Is6 Nat.leb check mbind go_mbind].
  unfold gb_reslice, gb_cap. cbn [gb_arr]. rewrite length_splice by (rewrite length_take; cbn [As16]; lia). rewrite Hc.
  cbn [Nat.leb check mbind go_mbind]. eexists. split; [reflexivity|].
  unfold gb_bytes, splice, As16. cbn [ua_IP gb_arr gb_len]. rewrite take_0, app_nil_l.
  rewrite length_take, Hip. cbn [Nat.sub Nat.min Nat.add].
  apply take_ge. rewrite length_app, length_take, length_drop. lia.
Qed.

Lemma set_dst_after_v4_witness :
  exists ua', set_dst (mkUDPAddr (GoBuf ([x7f; x00; x00; x01] ++ replicate 12 x00) 4) 0 "") (Addr6 ex_ip6 "") = Ret ua' /\
    gb_bytes (ua_IP ua') = map byte_of [32; 1; 13; 184; 0; 0; 0; 0; 0; 0; 0; 0; 0; 0; 0; 0]%Z.
Proof.
  apply (set_dst_after_v4 (mkUDPAddr (GoBuf ([x7f; x00; x00; x01] ++ replicate 12 x00) 4) 0 "") ex_ip6 "");
    reflexivity.
Defined.

(** Two sends through one bind: the second goes to 2001:db8:: instead of
    2001:db8::1. *)
Example ex_v6_after_v4 :
  match Send (U := linux64) (W := sim) Linux 0 0 ex_opened ex_mem ex_bufs (EpStd ex_ep4) ex_world with
  | Ret (None, s1, m1, w1) =>
      match Send (U := linux64) (W := sim) Linux 0 0 s1 m1 ex_bufs (EpStd ex_ep6) w1 with
      | Ret (None, _, _, w2) =>
          map w_addr (sent w2 1) = [Some (mkAddrPort (Addr6 (take 15 ex_ip6 ++ [x00]) "") 9000)]
      | _ => False
      end
  | _ => False
  end.
Proof. vm_compute. reflexivity. Qed.

Definition ex_android : StdNetBind := NewStdNetBind (W := sim) Android true.
Definition ex_android_open := Open (W := sim) Android 1 ex_android 0 (no_gso sim1).

(** On Android the retry without offload still carries the segment size:
    the control data is not reset there, so that the kernel rejects it again
    and nothing is sent, where Linux delivers. *)
Theorem android_retry_keeps_gso :
  match ex_android_open with
  | Ret (inr _, _, s, w) =>
      match Send (U := linux64) (W := sim) Android 0 0 s ex_mem ex_bufs (EpStd ex_ep4) w with
      | Ret (Some (ErrUDPGSODisabled _ (Some err)), s', _, w') =>
          errShouldDisableUDPGSO Android err = true /\ sent w' 0 = [] /\ sb_ipv4TxOffload s' = false
      | _ => False
      end
  | _ => False
  end.
Proof. vm_compute. tauto. Qed.
