(* ===== verification/StdRecv.v ===== *)
(** * Receiving ([receiveIP] and the receive functions of bind_std.go)

    A receive function reads a batch into the caller's buffers, splits GRO
    datagrams when receive offload is on, and reports sizes and endpoints. *)

From S2P Require Import Prelude Errors GoMem Netip Cmsg Gso Sticky Message Coalesce Split Env SimNet ControlFns Conn StdNet StdSend.

Section StdRecv.
Context {U : UnixABI} `{Env W} (os : GOOS).

(** The output slices of a receive function. *)
Record outputs := mkOutputs { out_sizes : list nat; out_eps : list (option StdNetEndpoint) }.

(** The loop that points the headers at the caller's buffers. *)
Fixpoint prepare (msgs : list Message) (bufs : list slice) : go (list Message) :=
  match msgs with
  | [] => Ret []
  | msg :: msgs' =>
      match bufs with
      | [] => Panic
      | b :: bufs' =>
          msg ← set_buf0 msg b;
          oob ← gb_reslice (m_OOB msg) (gb_cap (m_OOB msg));
          rest ← prepare msgs' bufs';
          Ret (set_OOB msg oob :: rest)
      end
  end.

(** The part of [receiveIP] that reads: number of messages, headers, states. *)
Definition read_messages (br : option conn) (c : conn) (rxOffload : bool) (msgs : list Message)
    (m : mem) (w : W) : go ((nat * option error) * list Message * mem * W) :=
  match (if linux_or_android os then br else None) with
  | Some p =>
      if rxOffload && (1 <? length msgs)%nat then
        let readAt := (length msgs - groReadBatchSize (length msgs))%nat in
        let '((_, err), tail, m, w) := env_read_batch p m (drop readAt msgs) w in
        let msgs := take readAt msgs ++ tail in
        match err with
        | Some e => Ret ((0, Some e), msgs, m, w)
        | None =>
            '(n, err, msgs, m) ← splitCoalescedMessages (getGSOSize os) m msgs readAt;
            match err with
            | Some e => Ret ((0, Some e), msgs, m, w)
            | None => Ret ((n, None), msgs, m, w)
            end
        end
      else
        let '((n, err), msgs, m, w) := env_read_batch p m msgs w in
        match err with
        | Some e => Ret ((0, Some e), msgs, m, w)
        | None => Ret ((n, None), msgs, m, w)
        end
  | None =>
      msg ← must (msgs !! 0);
      b ← buf0 msg;
      let '(r, oob, m, w) := env_read_msg c m b (m_OOB msg) w in
      match r with
      | inl e => Ret ((0, Some e), <[0 := set_OOB msg oob]> msgs, m, w)
      | inr (n, nn, _, from) =>
          Ret ((1, None), <[0 := mkMessage (m_Buffers msg) oob (Some from) n nn (m_Flags msg)]> msgs, m, w)
      end
  end.

(** The endpoint of a received message. *)
Definition endpoint_of (msg : Message) : go StdNetEndpoint :=
  a ← must (m_Addr msg);
  let ap := UDPAddr_AddrPort a in
  oob ← gb_reslice (m_OOB msg) (m_NN msg);
  getSrcFromControl os (gb_bytes oob) (mkEndpoint (mkAddrPort (Unmap (ap_addr ap)) (ap_port ap)) None).

(** The loop that fills [sizes] and [eps]; [todo] messages are left. *)
Fixpoint report (todo i : nat) (msgs : list Message) (o : outputs) : go outputs :=
  match todo with
  | O => Ret o
  | S todo' =>
      msg ← must (msgs !! i);
      _ ← must (out_sizes o !! i);
      let o := mkOutputs (<[i := m_N msg]> (out_sizes o)) (out_eps o) in
      if (m_N msg =? 0)%nat then report todo' (S i) msgs o
      else
        ep ← endpoint_of msg;
        _ ← must (out_eps o !! i);
        report todo' (S i) msgs (mkOutputs (out_sizes o) (<[i := Some ep]> (out_eps o)))
  end.

(** The result of a receive function. *)
Record received_batch := mkReceived {
  rb_n : nat; rb_err : option error; rb_out : outputs;
  rb_bind : StdNetBind; rb_mem : mem; rb_world : W;
}.

Definition receiveIP (cm : nat) (s : StdNetBind) (br : option conn) (c : conn) (rxOffload : bool)
    (m : mem) (bufs : list slice) (o : outputs) (w : W) : go received_batch :=
  match validateReceiveBuffers (length bufs) (length (out_sizes o)) (length (out_eps o)) (sb_batchSize s) with
  | Some err => Ret (mkReceived 0 (Some err) o s m w)
  | None =>
      let '(msgs, s) := getMessages os cm s in
      msgs ← prepare msgs bufs;
      '((numMsgs, err), msgs, m, w) ← read_messages br c rxOffload msgs m w;
      match err with
      | Some e => Ret (mkReceived 0 (Some e) o (putMessages msgs s) m w)
      | None =>
          o ← report numMsgs 0 msgs o;
          Ret (mkReceived numMsgs None o (putMessages msgs s) m w)
      end
  end.

(** The closure that [makeReceiveIPv4] or [makeReceiveIPv6] returns. *)
Definition call_receive (rf : ReceiveFunc) (cm : nat) (s : StdNetBind) (m : mem) (bufs : list slice)
    (o : outputs) (w : W) : go received_batch :=
  if networkDown (sb_network s) w then Ret (mkReceived 0 (Some ErrClosed) o s m w)
  else if bool_decide ((if rf_v6 rf then sb_ipv6 s else sb_ipv4 s) = None)
  then Ret (mkReceived 0 (Some ErrClosed) o s m w)
  else receiveIP cm s (rf_pc rf) (rf_conn rf) (rf_rxOffload rf) m bufs o w.
End StdRecv.

(** ** After Close *)

(** C34: Every receive function of a bind reports [net.ErrClosed] once the bind
    is closed (or its network is down), without touching buffers, outputs,
    pools or sockets. *)
Theorem receive_after_close {U : UnixABI} `{Env W} os rf cm s w err s' w' m bufs o :
  Close s w = (err, s', w') ->
  call_receive os rf cm s' m bufs o w' = Ret (mkReceived 0 (Some ErrClosed) o s' m w').
Proof.
  intros HC. unfold Close in HC. destruct (close_conn (sb_ipv4 s) w) as [e1 w1].
  destruct (close_conn (sb_ipv6 s) w1) as [e2 w2]. injection HC as _ <- <-.
  unfold call_receive. destruct (networkDown _ _); [done|]. by destruct (rf_v6 rf).
Qed.

Definition ex_closed := Close ex_opened ex_world.
Lemma receive_after_close_witness :
  call_receive (U := linux64) (W := sim) Linux (mkReceive false (Some 0) 0 true) 0 ex_closed.1.2
    ex_mem ex_bufs (mkOutputs [0] [None]) ex_closed.2
  = Ret (mkReceived 0 (Some ErrClosed) (mkOutputs [0] [None]) ex_closed.1.2 ex_mem ex_closed.2).
Proof.
  apply (receive_after_close (U := linux64) (W := sim) Linux (mkReceive false (Some 0) 0 true) 0
    ex_opened ex_world ex_closed.1.1 ex_closed.1.2 ex_closed.2).
  unfold ex_closed. by destruct (Close ex_opened ex_world) as [[? ?] ?].
Defined.

(** ** Batches of packets *)

Section Batch.
Context {U : UnixABI}.

(** Message [msg] holds packet [pk] in buffer [b]. *)
Definition got (m : mem) (msg : Message) (b : slice) (pk : packet) : Prop :=
  m_Buffers msg = [b] /\ m_N msg = Nat.min (s_len b) (length (pk_data pk)) /\
  take (m_N msg) (load m b) = take (s_len b) (pk_data pk) /\
  m_Addr msg = Some (pk_from pk) /\
  m_NN msg = Nat.min (gb_cap (m_OOB msg)) (length (pk_oob pk)) /\
  take (m_NN msg) (gb_arr (m_OOB msg)) = take (gb_cap (m_OOB msg)) (pk_oob pk).

(** A header prepared for reading. *)
Definition prepared (msg : Message) (b : slice) : Prop :=
  m_Buffers msg = [b] /\ gb_len (m_OOB msg) = gb_cap (m_OOB msg).

Lemma recv_oob_cap o pk :
  gb_len o = gb_cap o ->
  let r := recv_oob o pk in
  gb_cap r.1 = gb_cap o /\ gb_len r.1 = gb_cap o /\
  r.2 = Nat.min (gb_cap o) (length (pk_oob pk)) /\
  take r.2 (gb_arr r.1) = take (gb_cap o) (pk_oob pk).
Proof.
  intros Hl. unfold recv_oob, gb_cap in *. cbn. rewrite Hl, length_take. split_and!; try done.
  - apply length_splice. rewrite length_take. lia.
  - unfold splice. rewrite take_0, app_nil_l. apply take_app_length'. by rewrite length_take.
Qed.

Lemma recv_buf_spec m b pk :
  slice_ok m b ->
  let r := recv_buf m b pk in
  r.2 = Nat.min (s_len b) (length (pk_data pk)) /\
  take r.2 (load r.1 b) = take (s_len b) (pk_data pk) /\
  (forall t, slice_ok m t -> slice_ok r.1 t) /\
  (forall t, slice_ok m t -> sep b t -> load r.1 t = load m t).
Proof.
  intros Hok. unfold recv_buf. cbn. rewrite length_take. pose proof Hok as [Hc Ha].
  assert (0 + length (take (s_len b) (pk_data pk)) <= s_cap b) as Hfit by (rewrite length_take; lia).
  split_and!; [done| | |].
  - unfold load. rewrite take_take, Nat.min_l by lia. rewrite array_store, decide_True by done.
    rewrite Nat.add_0_r. rewrite <- (length_take (pk_data pk) (s_len b)). apply take_drop_splice. lia.
  - intros. by apply slice_ok_store.
  - intros. by apply load_store_sep.
Qed.

(** Reading packets into separate buffers: message [i] holds packet [i], the
    other messages and everything outside the buffers are untouched. *)
Lemma recv_batch_spec pks : forall m msgs bs m' msgs',
  Forall2 prepared msgs bs -> seps bs -> Forall (slice_ok m) bs -> length pks <= length msgs ->
  recv_batch m msgs bs pks = (m', msgs') ->
  Forall2 prepared msgs' bs /\ Forall2 (fun msg msg' => gb_cap (m_OOB msg') = gb_cap (m_OOB msg)) msgs msgs' /\
  (forall t, slice_ok m t -> slice_ok m' t) /\
  (forall t, slice_ok m t -> Forall (fun b => sep b t) bs -> load m' t = load m t) /\
  (forall i pk, pks !! i = Some pk -> exists msg b, msgs' !! i = Some msg /\ bs !! i = Some b /\ got m' msg b pk) /\
  (forall i, length pks <= i -> msgs' !! i = msgs !! i).
Proof.
  induction pks as [|pk pks IH]; intros m msgs bs m' msgs' Hp Hs Hok Hl HE.
  { assert (m' = m /\ msgs' = msgs) as [-> ->] by (destruct msgs, bs; cbn in HE; by injection HE as <- <-).
    split_and!; try done. clear. induction msgs; by constructor. }
  destruct Hp as [|msg b msgs bs [Hb Ho] Hp]; [cbn in Hl; lia|].
  inversion Hok as [|? ? Hbok Hok']; subst. destruct Hs as [Hsb Hss]. cbn [recv_batch] in HE.
  unfold recv_msg in HE.
  destruct (recv_buf_spec m b pk Hbok) as (Hn & Hd & Hk & Hf). destruct (recv_buf m b pk) as [m1 n].
  destruct (recv_oob_cap (m_OOB msg) pk Ho) as (Hc1 & Hl1 & Hnn & Ht). destruct (recv_oob (m_OOB msg) pk) as [o1 nn].
  cbn [fst snd] in *. destruct (recv_batch m1 msgs bs pks) as [m2 r] eqn:ER. injection HE as <- <-.
  destruct (IH m1 msgs bs m2 r Hp Hss) as (H1 & H2 & H3 & H4 & H5 & H6); [|cbn in Hl; lia|done|].
  { eapply list.Forall_impl; [exact Hok'|]. auto. }
  split_and!.
  - constructor; [|done]. split; [done|]. cbn. congruence.
  - by constructor.
  - auto.
  - intros t Ht1 Hts. inversion Hts; subst. rewrite H4 by auto. by apply Hf.
  - intros [|i] pk'; cbn.
    + intros [= <-]. eexists _, b. split_and!; [done..|]. unfold got. cbn.
      rewrite Hc1. split_and!; try done. rewrite H4; [done|auto|].
      eapply list.Forall_impl; [exact Hsb|]. intros ? ?. by apply sep_sym.
    + apply H5.
  - intros [|i] Hi; cbn in *; [lia|]. apply H6. lia.
Qed.
End Batch.

(** ** Preparing and reporting *)

Section Report.
Context {U : UnixABI} {UL : UnixLaws U} {os : GOOS}.

Lemma prepare_spec msgs : forall bufs,
  Forall (blank (os := os)) msgs -> length msgs <= length bufs ->
  exists msgs', prepare msgs bufs = Ret msgs' /\ length msgs' = length msgs /\
    Forall2 prepared msgs' (take (length msgs) bufs) /\
    Forall (header_ok (os := os)) msgs' /\ Forall (fun msg => m_N msg = 0 /\ m_NN msg = 0) msgs'.
Proof.
  induction msgs as [|msg msgs IH]; intros bufs Hb Hl.
  { exists []. cbn. split_and!; try done; constructor. }
  destruct bufs as [|b bufs]; [cbn in Hl; lia|].
  inversion Hb as [|? ? ([[b0 Hb0] Hc] & _ & _ & HN & HNN) Hb']; subst. cbn in Hl.
  destruct (IH bufs Hb') as (msgs' & HE & Hlen & Hp & Hh & Hz); [lia|].
  cbn [prepare]. unfold set_buf0. rewrite Hb0. cbn [mbind go_mbind m_OOB set_Buffers].
  unfold gb_reslice. rewrite Nat.leb_refl. cbn [check mbind go_mbind]. rewrite HE. cbn [mbind go_mbind].
  eexists. split; [reflexivity|]. cbn [length take]. split_and!.
  - by rewrite Hlen.
  - by constructor.
  - constructor; [|done]. split; [by exists b|done].
  - by constructor.
Qed.

(** A received message of size 0 is skipped; any other has a sender and its
    control data in its control buffer. *)
Definition reportable (msg : Message) : Prop :=
  m_N msg = 0 \/ (m_Addr msg <> None /\ m_NN msg <= gb_cap (m_OOB msg)).

(** The address an endpoint gets. *)
Definition sender_of (a : UDPAddr) : AddrPort :=
  mkAddrPort (Unmap (ap_addr (UDPAddr_AddrPort a))) (ap_port (UDPAddr_AddrPort a)).

Lemma endpoint_of_spec msg a :
  m_Addr msg = Some a -> m_NN msg <= gb_cap (m_OOB msg) ->
  exists ep, endpoint_of os msg = Ret ep /\ ep_AddrPort ep = sender_of a /\
    getSrcFromControl os (take (m_NN msg) (gb_arr (m_OOB msg))) (mkEndpoint (sender_of a) None) = Ret ep.
Proof.
  intros Ha Hn. unfold endpoint_of. rewrite Ha. cbn [must mbind go_mbind].
  unfold gb_reslice. rewrite (proj2 (Nat.leb_le _ _) Hn). cbn [check mbind go_mbind].
  unfold gb_bytes. cbn [gb_arr gb_len]. fold (sender_of a).
  assert (exists ep, getSrcFromControl os (take (m_NN msg) (gb_arr (m_OOB msg)))
    (mkEndpoint (sender_of a) None) = Ret ep /\ ep_AddrPort ep = sender_of a) as (ep & HE & Hp).
  { unfold getSrcFromControl. destruct (StdNetSupportsStickySockets os).
    - apply (getSrcFromControl_linux_total _ (mkEndpoint (sender_of a) None)).
    - by eexists. }
  by exists ep.
Qed.

(** Slot [i] of the outputs describes message [msg]. *)
Definition reported (o o' : outputs) (i : nat) (msg : Message) : Prop :=
  out_sizes o' !! i = Some (m_N msg) /\
  (m_N msg = 0 -> out_eps o' !! i = out_eps o !! i) /\
  (m_N msg <> 0 -> exists a ep, m_Addr msg = Some a /\ out_eps o' !! i = Some (Some ep) /\
     ep_AddrPort ep = sender_of a /\
     getSrcFromControl os (take (m_NN msg) (gb_arr (m_OOB msg))) (mkEndpoint (sender_of a) None) = Ret ep).

Lemma report_spec todo : forall i msgs o,
  i + todo <= length msgs -> i + todo <= length (out_sizes o) -> i + todo <= length (out_eps o) ->
  (forall j msg, i <= j < i + todo -> msgs !! j = Some msg -> reportable msg) ->
  exists o', report os todo i msgs o = Ret o' /\
    (forall j msg, i <= j < i + todo -> msgs !! j = Some msg -> reported o o' j msg) /\
    (forall j, j < i \/ i + todo <= j ->
      out_sizes o' !! j = out_sizes o !! j /\ out_eps o' !! j = out_eps o !! j) /\
    length (out_sizes o') = length (out_sizes o) /\ length (out_eps o') = length (out_eps o).
Proof.
  induction todo as [|todo IH]; intros i msgs o Hm Hs He Hr.
  { exists o. cbn. split_and!; try done. intros. lia. }
  destruct (lookup_lt_is_Some_2 msgs i ltac:(lia)) as [msg Hmsg].
  destruct (lookup_lt_is_Some_2 (out_sizes o) i ltac:(lia)) as [sz Hsz].
  destruct (lookup_lt_is_Some_2 (out_eps o) i ltac:(lia)) as [oe Hoe].
  cbn [report]. rewrite Hmsg, Hsz. cbn [must mbind go_mbind].
  set (o1 := mkOutputs (<[i := m_N msg]> (out_sizes o)) (out_eps o)).
  assert (exists o2, (if (m_N msg =? 0)%nat then report os todo (S i) msgs o1
     else ep ← endpoint_of os msg; _ ← must (out_eps o1 !! i);
          report os todo (S i) msgs (mkOutputs (out_sizes o1) (<[i := Some ep]> (out_eps o1))))
     = report os todo (S i) msgs o2 /\ reported o o2 i msg /\
     (forall j, j <> i -> out_sizes o2 !! j = out_sizes o !! j /\ out_eps o2 !! j = out_eps o !! j) /\
     length (out_sizes o2) = length (out_sizes o) /\ length (out_eps o2) = length (out_eps o))
    as (o2 & -> & Hrep & Hfr & Hl1 & Hl2).
  { destruct (Nat.eqb_spec (m_N msg) 0) as [Hz|Hz].
    - exists o1. unfold o1. cbn [out_sizes out_eps]. rewrite length_insert. split_and!; try done.
      + split_and!; try done. cbn. rewrite list_lookup_insert_eq by lia. congruence.
      + intros j Hj. rewrite list_lookup_insert_ne by lia. done.
    - destruct (Hr i msg ltac:(lia) Hmsg) as [?|[Ha Hnn]]; [done|].
      destruct (m_Addr msg) as [a|] eqn:Ea; [|done].
      destruct (endpoint_of_spec msg a Ea Hnn) as (ep & -> & Hap & Hsrc). cbn [mbind go_mbind o1 out_eps].
      rewrite Hoe. cbn [must mbind go_mbind]. eexists. split; [reflexivity|]. cbn [out_sizes out_eps].
      rewrite !length_insert. split_and!; try done.
      + split_and!; cbn.
        * rewrite list_lookup_insert_eq by lia. done.
        * done.
        * intros _. exists a, ep. rewrite list_lookup_insert_eq by lia. done.
      + intros j Hj. split; apply list_lookup_insert_ne; lia.
      + apply length_insert. }
  destruct (IH (S i) msgs o2) as (o' & HE & Hj & Hout & HL1 & HL2); try lia.
  { intros j msg' Hj. apply Hr. lia. }
  exists o'. split_and!; try done; try lia.
  - intros j msg' Hj' Hm'. destruct (decide (j = i)) as [->|Hne].
    + rewrite Hmsg in Hm'. injection Hm' as <-. destruct (Hout i ltac:(lia)) as [E1 E2].
      unfold reported in *. by rewrite E1, E2.
    + specialize (Hj j msg' ltac:(lia) Hm'). destruct (Hfr j Hne) as [_ E2].
      unfold reported in *. by rewrite <- E2.
  - intros j Hj'. destruct (Hout j ltac:(lia)) as [-> ->]. apply Hfr. lia.
Qed.
End Report.

(** ** Plain batches and single reads *)

Section Plain.
Context {U : UnixABI} {UL : UnixLaws U} `{Env W} {L : EnvLaws W} {os : GOOS}.

Lemma header_ok_cap msg msg' :
  header_ok (os := os) msg -> m_Buffers msg' = m_Buffers msg \/ (exists b, m_Buffers msg' = [b]) ->
  gb_cap (m_OOB msg') = gb_cap (m_OOB msg) -> header_ok (os := os) msg'.
Proof.
  intros [[b Hb] Hc] Hb' Hc'. split; [|by rewrite Hc'].
  destruct Hb' as [->|?]; [by exists b|done].
Qed.

Lemma headers_Forall2 msgs msgs' bs :
  Forall (header_ok (os := os)) msgs -> Forall2 prepared msgs' bs ->
  Forall2 (fun msg msg' => gb_cap (m_OOB msg') = gb_cap (m_OOB msg)) msgs msgs' ->
  Forall (header_ok (os := os)) msgs'.
Proof.
  intros Hh Hp Hc. revert bs Hp Hh. induction Hc as [|msg msg' msgs msgs' Hc _ IH]; intros bs Hp Hh; [done|].
  inversion Hp as [|? b ? ? [Hb _] Hp']; subst. inversion Hh as [|? ? Hh1 Hh2]; subst.
  constructor; [|by eapply IH]. eapply header_ok_cap; [exact Hh1|right; by exists b|done].
Qed.

(** The socket that is read. *)
Definition in_conn (c : conn) (br : option conn) : conn :=
  match (if linux_or_android os then br else None) with Some p => p | None => c end.

(** Messages that hold the packets [pks] and nothing else new. *)
Definition holds_packets (m' : mem) (msgs msgs' : list Message) (bs : list slice) (pks : list packet) : Prop :=
  length pks <= length msgs /\ Forall2 prepared msgs' bs /\
  Forall (header_ok (os := os)) msgs' /\
  (forall i pk, pks !! i = Some pk -> exists msg b, msgs' !! i = Some msg /\ bs !! i = Some b /\ got m' msg b pk) /\
  (forall i, length pks <= i -> msgs' !! i = msgs !! i).

Lemma read_single_spec c m w msg msgs b bs r o' m' w' :
  prepared msg b -> Forall2 prepared msgs bs -> Forall (header_ok (os := os)) (msg :: msgs) ->
  slice_ok m b ->
  env_read_msg c m b (m_OOB msg) w = (r, o', m', w') ->
  match r with
  | inl _ => o' = m_OOB msg /\ m' = m
  | inr (n, nn, fl, from) => exists pk, inbox w c = pk :: inbox w' c /\
      holds_packets m' (msg :: msgs)
        (mkMessage (m_Buffers msg) o' (Some from) n nn (m_Flags msg) :: msgs) (b :: bs) [pk]
  end.
Proof.
  intros [Hb Ho] Hp Hh Hok HE. apply law_read_msg in HE. destruct r as [e|[[[n nn] fl] from]]; [done|].
  destruct HE as (pk & Hin & Hrb & Hro & ->). exists pk. split; [done|].
  destruct (recv_buf_spec m b pk Hok) as (Hn & Hd & _ & _). rewrite Hrb in Hn, Hd.
  destruct (recv_oob_cap (m_OOB msg) pk Ho) as (Hc & Hl & Hnn & Ht). rewrite Hro in Hc, Hl, Hnn, Ht.
  cbn [fst snd] in *. inversion Hh as [|? ? Hh1 Hh2]; subst. split_and!.
  - cbn. lia.
  - constructor; [|done]. split; [done|]. cbn. congruence.
  - constructor; [|done]. eapply header_ok_cap; [exact Hh1|by left|]. cbn. done.
  - intros [|i] pk'; [|done]. intros [= <-]. eexists _, b. split_and!; [done..|].
    unfold got. cbn. rewrite Hc. by split_and!.
  - intros [|i] Hi; [cbn in Hi; lia|done].
Qed.

(** Reading without receive offload. *)
Lemma read_messages_plain br c rx msgs bs m w :
  Forall2 prepared msgs bs -> Forall (header_ok (os := os)) msgs -> seps bs -> Forall (slice_ok m) bs ->
  0 < length msgs -> rx && (1 <? length msgs)%nat = false ->
  exists n err msgs' m' w', read_messages os br c rx msgs m w = Ret ((n, err), msgs', m', w') /\
    length msgs' = length msgs /\ Forall (header_ok (os := os)) msgs' /\
    match err with
    | Some _ => n = 0
    | None => exists pks, n = length pks /\ inbox w (in_conn c br) = pks ++ inbox w' (in_conn c br) /\
        holds_packets m' msgs msgs' bs pks
    end.
Proof.
  intros Hp Hh Hs Hok Hl Hrx. unfold read_messages, in_conn.
  destruct (if linux_or_android os then br else None) as [p|].
  - rewrite Hrx. destruct (env_read_batch p m msgs w) as [[[[n err] msgs'] m'] w'] eqn:ER.
    assert (Forall2 (fun msg b => m_Buffers msg = [b]) msgs bs) as Hb
      by (eapply Forall2_impl; [exact Hp|]; by intros ? ? [? _]).
    apply (law_read_batch _ _ _ _ _ _ _ _ _ _ Hb) in ER. destruct err as [e|].
    + destruct ER as [-> ->]. by eexists 0, (Some e), msgs, m, w'.
    + destruct ER as (pks & -> & Hle & Hin & HE).
      destruct (recv_batch_spec pks m msgs bs m' msgs' Hp Hs Hok Hle HE) as (H1 & H2 & _ & _ & H5 & H6).
      pose proof (headers_Forall2 _ _ _ Hh H1 H2) as Hh'.
      eexists _, None, msgs', m', w'. split; [reflexivity|].
      split; [symmetry; by eapply Forall2_length|]. split; [done|]. exists pks. by split_and!.
  - destruct msgs as [|msg msgs]; [cbn in Hl; lia|]. inversion Hp as [|? b ? bs' Hp1 Hp2]; subst.
    inversion Hok; subst. cbn [lookup list_lookup must mbind go_mbind]. unfold buf0.
    rewrite (proj1 Hp1). cbn [lookup list_lookup must mbind go_mbind].
    destruct (env_read_msg c m b (m_OOB msg) w) as [[[r o'] m'] w'] eqn:ER.
    pose proof (read_single_spec c m w msg msgs b bs' r o' m' w' Hp1 Hp2 Hh ltac:(done) ER) as HR.
    destruct r as [e|[[[n nn] fl] from]].
    + destruct HR as [-> ->]. eexists 0, (Some e), _, m, w'. split; [reflexivity|].
      inversion Hh; subst. split_and!; try done. cbn. by constructor.
    + destruct HR as (pk & Hin & HP). rewrite (proj1 Hp1) in HP. eexists 1, None, _, m', w'. split; [reflexivity|]. cbn [insert list_insert].
      split; [done|]. split; [apply HP|]. exists [pk]. by split_and!.
Qed.

(** Slot [i] of the caller's slices holds the datagram [d] from [from]. *)
Definition delivered (m' : mem) (bufs : list slice) (o' : outputs) (i : nat) (d : list byte) (from : UDPAddr) : Prop :=
  exists b, bufs !! i = Some b /\ out_sizes o' !! i = Some (length d) /\
    take (length d) (load m' b) = d /\
    (d <> [] -> exists ep, out_eps o' !! i = Some (Some ep) /\ ep_AddrPort ep = sender_of from).
(** ... and its endpoint has the source that the control data [oob] tells. *)
Definition sourced (o' : outputs) (i : nat) (from : UDPAddr) (oob : list byte) : Prop :=
  exists ep, out_eps o' !! i = Some (Some ep) /\
    getSrcFromControl os oob (mkEndpoint (sender_of from) None) = Ret ep.

Lemma got_reportable m msg b pk : got m msg b pk -> reportable msg.
Proof.
  intros (_ & _ & _ & Ha & Hnn & _). right. rewrite Ha. split; [done|]. lia.
Qed.

Lemma got_delivered m bufs k o o' i msg b pk :
  take k bufs !! i = Some b -> got m msg b pk ->
  header_ok (os := os) msg -> reported (os := os) o o' i msg ->
  delivered m bufs o' i (take (s_len b) (pk_data pk)) (pk_from pk) /\
  (take (s_len b) (pk_data pk) <> [] -> length (pk_oob pk) <= stickyControlSize os + gsoControlSize os ->
   sourced o' i (pk_from pk) (pk_oob pk)).
Proof.
  intros Hb (Hbuf & Hn & Hd & Ha & Hnn & Hoob) [_ Hcap] (Hsz & _ & Hep).
  assert (length (take (s_len b) (pk_data pk)) = m_N msg) as Hlen by (rewrite length_take; lia).
  apply lookup_take_Some in Hb as [Hb _].
  assert (take (s_len b) (pk_data pk) <> [] -> m_N msg <> 0) as Hne.
  { intros Hx E. apply Hx, nil_length_inv. congruence. }
  split.
  - exists b. rewrite Hlen. split_and!; try done. intros Hx%Hne.
    destruct (Hep Hx) as (a & ep & Ha' & He & Hap & _). rewrite Ha in Ha'. injection Ha' as <-. by exists ep.
  - intros Hx%Hne Hsmall. destruct (Hep Hx) as (a & ep & Ha' & He & _ & Hsrc).
    rewrite Ha in Ha'. injection Ha' as <-. exists ep. split; [done|].
    rewrite Hoob, take_ge in Hsrc by lia. done.
Qed.

(** C18: Receiving without offload, natively or through a wrapped connection:
    the call returns for any buffers that meet the batch size; on success it
    took [n] packets from the queue of the socket, and slot [i] holds packet
    [i] (cut at the length of the buffer), its size, its sender with
    IPv4-mapped addresses unmapped, and the sticky source of its control data;
    on an error the outputs are untouched.  The headers return to the pool
    blank in every case. *)
Theorem receiveIP_plain cm s br c rx m bufs o w :
  pools_ok (os := os) s -> 0 < sb_batchSize s -> rx && (1 <? sb_batchSize s)%nat = false ->
  validateReceiveBuffers (length bufs) (length (out_sizes o)) (length (out_eps o)) (sb_batchSize s) = None ->
  seps bufs -> Forall (slice_ok m) bufs ->
  exists r, receiveIP os cm s br c rx m bufs o w = Ret r /\ pools_ok (os := os) (rb_bind r) /\
    match rb_err r with
    | Some _ => rb_n r = 0 /\ rb_out r = o
    | None => exists pks, rb_n r = length pks /\ length pks <= sb_batchSize s /\
        inbox w (in_conn c br) = pks ++ inbox (rb_world r) (in_conn c br) /\
        forall i pk, pks !! i = Some pk -> exists b, bufs !! i = Some b /\
          let d := take (s_len b) (pk_data pk) in
          delivered (rb_mem r) bufs (rb_out r) i d (pk_from pk) /\
          (d <> [] -> length (pk_oob pk) <= stickyControlSize os + gsoControlSize os ->
           sourced (rb_out r) i (pk_from pk) (pk_oob pk))
    end.
Proof.
  intros Hpool Hpos Hrx Hv Hsep Hok. unfold receiveIP. rewrite Hv.
  apply validateReceiveBuffers_None in Hv as (Hv1 & Hv2 & Hv3).
  destruct (getMessages os cm s) as [msgs0 s1] eqn:Hg.
  destruct (getMessages_ok cm s msgs0 s1 Hpool Hg) as (Hlm & Hblank & Hp1 & Hbs & _).
  destruct (prepare_spec msgs0 bufs Hblank) as (msgs & HE & Hlm' & Hprep & Hh & _); [lia|].
  rewrite HE. cbn [mbind go_mbind]. rewrite Hlm in Hprep.
  set (bs := take (sb_batchSize s) bufs) in *.
  assert (seps bs) as Hsb by (unfold bs; rewrite <- (take_drop (sb_batchSize s) bufs), seps_app in Hsep; tauto).
  assert (Forall (slice_ok m) bs) as Hokb by by apply Forall_take.
  destruct (read_messages_plain br c rx msgs bs m w Hprep Hh Hsb Hokb) as
    (n & err & msgs' & m' & w' & HR & Hlen & Hh' & Hres); [lia|congruence|].
  rewrite HR. cbn [mbind go_mbind].
  assert (pools_ok (os := os) (putMessages msgs' s1)) as Hfin by (apply putMessages_ok; [done|congruence|done]).
  destruct err as [e|]; [by eexists; split; [reflexivity|]|].
  destruct Hres as (pks & -> & Hin & Hle & Hprep' & _ & Hgot & Hrest).
  destruct (report_spec (os := os) (length pks) 0 msgs' o) as (o' & -> & Hrep & _); [lia..| |].
  { intros j msg Hj Hm. destruct (lookup_lt_is_Some_2 pks j ltac:(lia)) as [pk Hpk].
    destruct (Hgot j pk Hpk) as (msg' & b & Hm' & _ & Hg'). rewrite Hm in Hm'. injection Hm' as <-.
    by eapply got_reportable. }
  cbn [mbind go_mbind]. eexists. split; [reflexivity|]. split; [done|]. cbn [rb_err rb_n rb_world rb_mem rb_out].
  exists pks. split_and!; [done|lia|done|]. intros i pk Hpk.
  destruct (Hgot i pk Hpk) as (msg & b & Hm & Hb & Hg').
  exists b. split; [by apply lookup_take_Some in Hb as [Hb _]|].
  eapply (got_delivered m' bufs (sb_batchSize s) o o' i msg b pk); try done.
  - by eapply Forall_lookup_1.
  - apply Hrep; [|done]. apply lookup_lt_Some in Hpk. lia.
Qed.
End Plain.

(** ** Receive offload *)

(** Splitting moves payloads and senders only: buffers and control data of the
    slots stay. *)
Section SplitKeeps.
Context (getGSO : list byte -> go (error + Z)).

Definition keeps (msg msg' : Message) : Prop :=
  m_Buffers msg' = m_Buffers msg /\ m_OOB msg' = m_OOB msg /\ m_NN msg' = m_NN msg.

Lemma keeps_refl msgs : Forall2 keeps msgs msgs.
Proof. induction msgs; by constructor. Qed.
Lemma keeps_trans a b c : Forall2 keeps a b -> Forall2 keeps b c -> Forall2 keeps a c.
Proof.
  intros Hab. revert c. induction Hab as [|x y a b (E1 & E2 & E3) _ IH]; intros c Hbc; inversion Hbc as [|? z ? c' (F1 & F2 & F3)]; subst; [done|].
  constructor; [|by apply IH]. split_and!; congruence.
Qed.
Lemma keeps_insert msgs i msg msg' :
  msgs !! i = Some msg -> keeps msg msg' -> Forall2 keeps msgs (<[i := msg']> msgs).
Proof.
  intros Hi Hk. rewrite <- (list_insert_id msgs i msg Hi) at 1.
  apply Forall2_insert; [apply keeps_refl|done].
Qed.

Lemma split_pieces_keeps i g todo : forall start end_ st r,
  split_pieces todo i g start end_ st = Ret r ->
  Forall2 keeps (sp_msgs st) (sp_msgs (match r with inl st' | inr st' => st' end)).
Proof.
  induction todo as [|todo IH]; intros start end_ st r HE; cbn [split_pieces] in HE.
  { injection HE as <-. apply keeps_refl. }
  destruct (i <? sp_n st)%nat; [injection HE as <-; apply keeps_refl|].
  apply go_bind_Ret in HE as (msg & Hm & HE). apply go_bind_Ret in HE as (src & _ & HE).
  apply go_bind_Ret in HE as (piece & _ & HE). apply go_bind_Ret in HE as (slot & Hs & HE).
  apply go_bind_Ret in HE as (dst & _ & HE). destruct (go_copy _ _ _) as [m' copied].
  apply go_bind_Ret in HE as (msg2 & _ & HE). apply IH in HE. cbn [sp_msgs] in HE.
  eapply keeps_trans; [|exact HE]. apply must_Ret in Hs. by eapply keeps_insert.
Qed.

Lemma split_loop_keeps todo : forall i st st' e,
  split_loop getGSO todo i st = Ret (st', e) -> Forall2 keeps (sp_msgs st) (sp_msgs st').
Proof.
  induction todo as [|todo IH]; intros i st st' e HE; cbn [split_loop] in HE.
  { injection HE as <- <-. apply keeps_refl. }
  apply go_bind_Ret in HE as (msg & Hm & HE). destruct (m_N msg =? 0)%nat; [injection HE as <- <-; apply keeps_refl|].
  apply go_bind_Ret in HE as (oob & _ & HE). apply go_bind_Ret in HE as ([e'|gso] & _ & HE).
  { injection HE as <- <-. apply keeps_refl. }
  apply go_bind_Ret in HE as (r & Hp & HE). apply split_pieces_keeps in Hp.
  destruct r as [st1|st1]; [by injection HE as <- <-|].
  apply go_bind_Ret in HE as (msg1 & Hm1 & HE). apply IH in HE. apply must_Ret in Hm1.
  eapply keeps_trans; [exact Hp|]. eapply keeps_trans; [|exact HE]. unfold zero_source. cbn [sp_msgs].
  destruct (S i =? sp_n st1)%nat; [apply keeps_refl|]. by eapply keeps_insert.
Qed.

Lemma splitCoalescedMessages_keeps m msgs firstMsgAt n e msgs' m' :
  splitCoalescedMessages getGSO m msgs firstMsgAt = Ret (n, e, msgs', m') -> Forall2 keeps msgs msgs'.
Proof.
  intros HE. unfold splitCoalescedMessages in HE. apply go_bind_Ret in HE as ([st e'] & Hl & HE).
  injection HE as <- <- <- <-. by apply split_loop_keeps in Hl.
Qed.
End SplitKeeps.

Section Gro.
Context {U : UnixABI} {UL : UnixLaws U} `{Env W} {L : EnvLaws W} {os : GOOS}.

(** The datagrams of a packet: what the kernel coalesced. *)
Definition segments (pk : packet) : list (list byte * UDPAddr) :=
  match getGSOSize os (pk_oob pk) with
  | Ret (inr g) => map (fun d => (d, pk_from pk)) (chunks (Z.to_nat g) (pk_data pk))
  | _ => []
  end.

(** A packet as UDP_GRO delivers it (udp(7)), and buffers that can take it: it
    fits every buffer, its control data fits the control buffer, the segment
    size is at most its length, and it has at most 64 segments.  A datagram that
    was not coalesced has no segment size; it may be empty. *)
Definition gro_packet (bufs : list slice) (pk : packet) : Prop :=
  Forall (fun b => length (pk_data pk) <= s_len b) bufs /\
  length (pk_oob pk) <= stickyControlSize os + gsoControlSize os /\
  exists g, getGSOSize os (pk_oob pk) = Ret (inr g) /\ Z.to_nat g <= length (pk_data pk) /\
    length (chunks (Z.to_nat g) (pk_data pk)) <= udpSegmentMaxDatagrams.

(** The split ends at the first empty packet: the packets before it, and their
    datagrams. *)
Definition is_empty (pk : packet) : bool := (length (pk_data pk) =? 0)%nat.
Fixpoint before_empty (pks : list packet) : list packet :=
  match pks with
  | [] => []
  | pk :: pks' => if is_empty pk then [] else pk :: before_empty pks'
  end.
Definition datagrams (pks : list packet) : list (list byte * UDPAddr) := concat (map segments (before_empty pks)).

Lemma got_gro m msg b pk bufs :
  slice_ok m b -> b ∈ bufs -> header_ok (os := os) msg -> gro_packet bufs pk -> got m msg b pk ->
  m_N msg = length (pk_data pk) /\ rx_ok (getGSOSize os) msg /\
  exists ds, received (getGSOSize os) m msg = Some (ds, Some (pk_from pk)) /\
    map (fun d => (d, pk_from pk)) ds = segments pk /\ length ds <= udpSegmentMaxDatagrams.
Proof.
  intros Hok Hin [_ Hcap] (Hfit & Hoob & g & Hg & Hgl & H64) (Hb & Hn & Hd & Ha & Hnn & Ho).
  rewrite list.Forall_forall in Hfit. specialize (Hfit b Hin).
  assert (m_N msg = length (pk_data pk)) as HN by lia.
  rewrite (take_ge (pk_oob pk)) in Ho by lia.
  split; [done|]. split.
  - split_and!; [lia|rewrite Hb; constructor; [lia|constructor]|]. intros g'. rewrite Ho, Hg. intros [= <-]. lia.
  - unfold received. rewrite Hb, Ho, Hg, HN, Ha.
    eexists. split; [reflexivity|]. unfold segments. rewrite Hg.
    rewrite HN, (take_ge (pk_data pk)) in Hd by lia.
    split; [|]; by rewrite Hd.
Qed.

Lemma recv_list_stop m ms :
  Forall (fun msg => m_N msg = 0 /\ m_NN msg = 0) ms -> recv_list (getGSOSize os) m ms = Some [].
Proof. destruct 1 as [|msg ms [H0 _]]; [done|]. cbn. by rewrite H0. Qed.

Lemma getGSOSize_nil : getGSOSize os [] = Ret (inr 0%Z).
Proof. unfold getGSOSize, getGSOSize_linux. destruct (linux_or_android os); [|done]. by rewrite scan_control_nil. Qed.

(** A blank message satisfies the conditions on received ones. *)
Lemma blank_rx m msg b :
  prepared msg b -> m_N msg = 0 -> m_NN msg = 0 ->
  rx_ok (getGSOSize os) msg /\
  forall ds a, received (getGSOSize os) m msg = Some (ds, a) -> length ds <= udpSegmentMaxDatagrams.
Proof.
  intros [Hb _] HN HNN. split.
  - unfold rx_ok. rewrite HN, HNN, take_0, getGSOSize_nil, Hb. split_and!; [lia|by constructor; [lia|]|].
    intros g [= <-]. cbn. lia.
  - intros ds a. unfold received. rewrite Hb, HN, HNN, !take_0, getGSOSize_nil. intros [= <- _].
    cbn. unfold udpSegmentMaxDatagrams. lia.
Qed.

(** The datagrams of a window that holds the packets [pks], and behind them
    messages that hold [rest]. *)
Lemma window_received m bufs rest pks : forall bs msgs,
  Forall (slice_ok m) bs -> Forall (fun b => b ∈ bufs) bs ->
  Forall (header_ok (os := os)) msgs -> Forall (gro_packet bufs) pks ->
  (forall i pk, pks !! i = Some pk -> exists msg b, msgs !! i = Some msg /\ bs !! i = Some b /\ got m msg b pk) ->
  recv_list (getGSOSize os) m (drop (length pks) msgs) = Some rest ->
  Forall (rx_ok (getGSOSize os)) (drop (length pks) msgs) ->
  Forall (fun msg => forall ds a, received (getGSOSize os) m msg = Some (ds, a) ->
    length ds <= udpSegmentMaxDatagrams) (drop (length pks) msgs) ->
  recv_list (getGSOSize os) m msgs =
    Some (map (fun '(d, a) => (d, Some a)) (datagrams pks) ++ if existsb is_empty pks then [] else rest) /\
  Forall (rx_ok (getGSOSize os)) msgs /\
  Forall (fun msg => forall ds a, received (getGSOSize os) m msg = Some (ds, a) ->
    length ds <= udpSegmentMaxDatagrams) msgs.
Proof.
  induction pks as [|pk pks IH]; intros bs msgs Hok Hin Hh Hpk Hgot Hrest Hrx H64; [done|].
  destruct (Hgot 0 pk eq_refl) as (msg & b & Hm & Hb & Hg).
  destruct msgs as [|msg0 msgs]; [done|]. destruct bs as [|b0 bs]; [done|].
  cbn in Hm, Hb. injection Hm as ->. injection Hb as ->.
  inversion Hh; subst. inversion Hpk as [|? ? Hpk1 Hpk2]; subst.
  inversion Hok; subst. inversion Hin; subst.
  destruct (got_gro m msg b pk bufs) as (HN & Hrx1 & ds & Hrec & Hseg & Hds); try done.
  destruct (IH bs msgs) as (HD & Hrx' & H64'); try done.
  { intros i pk' Hi. apply (Hgot (S i) pk' Hi). }
  split; [|split; constructor; try done; intros ds' a'; rewrite Hrec; by intros [= <- <-]].
  unfold datagrams. cbn [recv_list before_empty existsb].
  replace (m_N msg =? 0)%nat with (is_empty pk) by (unfold is_empty; by rewrite HN).
  destruct (is_empty pk); [done|].
  rewrite Hrec, HD. cbn [orb map concat]. by rewrite map_app, <- Hseg, map_map, <- app_assoc.
Qed.

Lemma chunks_aux_le fuel g p : Forall (fun d => length d <= length p) (chunks_aux fuel g p).
Proof.
  revert p. induction fuel as [|fuel IH]; intros p; cbn [chunks_aux]; [by constructor|].
  destruct (_ || _); [by constructor|]. constructor; [rewrite length_take; lia|].
  eapply list.Forall_impl; [apply IH|]. intros d Hd. cbn in Hd. rewrite length_drop in Hd. lia.
Qed.

Lemma segments_fit bufs pk : gro_packet bufs pk ->
  Forall (fun '(d, _) => Forall (fun b => length d <= s_len b) bufs) (segments pk).
Proof.
  intros (Hf & _). unfold segments. destruct (getGSOSize os (pk_oob pk)) as [[e|g]| |]; try constructor.
  apply Forall_map. eapply list.Forall_impl; [apply chunks_aux_le|]. intros d Hd.
  eapply list.Forall_impl; [exact Hf|]. intros b Hb. cbn in *. lia.
Qed.

Lemma before_empty_Forall P pks : Forall P pks -> Forall P (before_empty pks).
Proof. induction 1 as [|pk pks Hp _ IH]; [done|]. cbn. destruct (is_empty pk); by constructor. Qed.

Lemma datagrams_fit bufs pks : Forall (gro_packet bufs) pks ->
  Forall (fun '(d, _) => Forall (fun b => length d <= s_len b) bufs) (datagrams pks).
Proof.
  intros Hpk. apply Forall_concat, Forall_map. eapply list.Forall_impl; [by apply before_empty_Forall|].
  intros pk. apply segments_fit.
Qed.

(** Messages with one buffer each, and room for control data. *)
Definition rx_slots (m : mem) (msgs : list Message) (bs : list slice) : Prop :=
  Forall2 (fun msg b => m_Buffers msg = [b]) msgs bs /\ Forall (header_ok (os := os)) msgs /\
  seps bs /\ Forall (slice_ok m) bs.

(** Messages that a split can take: their datagrams [D] are at most 64 each and
    fit the buffers. *)
Definition rx_holds (m : mem) (bs : list slice) (ms : list Message) (D : list (list byte * option UDPAddr)) : Prop :=
  recv_list (getGSOSize os) m ms = Some D /\ Forall (rx_ok (getGSOSize os)) ms /\
  Forall (fun msg => forall ds a, received (getGSOSize os) m msg = Some (ds, a) ->
    length ds <= udpSegmentMaxDatagrams) ms /\
  Forall (fun '(d, _) => Forall (fun b => length d <= s_len b) bs) D.

(** Only the first [length pks] messages and buffers of a batch are used. *)
Lemma recv_batch_take pks : forall m msgs bs,
  length pks <= length msgs -> length msgs = length bs ->
  recv_batch m msgs bs pks =
    let '(m', r) := recv_batch m (take (length pks) msgs) (take (length pks) bs) pks in
    (m', r ++ drop (length pks) msgs).
Proof.
  induction pks as [|pk pks IH]; intros m [|msg msgs] [|b bs] Hl He; try done; try (cbn in *; lia).
  cbn [length take drop recv_batch] in *.
  destruct (recv_msg m msg b pk) as [m1 msg1]. rewrite (IH m1 msgs bs) by lia.
  by destruct (recv_batch m1 (take _ msgs) (take _ bs) pks).
Qed.

(** The window from [readAt] on after it received [pks] in front of [rest]. *)
Lemma read_window m msgs bs readAt pks rest m1 tail' :
  rx_slots m msgs bs -> readAt <= length msgs -> Forall2 prepared (drop readAt msgs) (drop readAt bs) ->
  Forall (gro_packet bs) pks -> length pks <= length (drop readAt msgs) ->
  rx_holds m bs (drop (length pks) (drop readAt msgs)) rest ->
  recv_batch m (drop readAt msgs) (drop readAt bs) pks = (m1, tail') ->
  length tail' = length (drop readAt msgs) /\ rx_slots m1 (take readAt msgs ++ tail') bs /\
  Forall2 (fun msg msg' => gb_cap (m_OOB msg') = gb_cap (m_OOB msg)) (drop readAt msgs) tail' /\
  (forall i pk, pks !! i = Some pk -> exists msg, tail' !! i = Some msg /\ m_NN msg <= gb_cap (m_OOB msg)) /\
  (forall i, length pks <= i -> tail' !! i = drop readAt msgs !! i) /\
  rx_holds m1 bs tail' (map (fun '(d, a) => (d, Some a)) (datagrams pks) ++ if existsb is_empty pks then [] else rest).
Proof.
  intros (Hf & Hh & Hs & Hok) Hr Hpt Hpk Hle (Hrest & Hrx & H64 & Hfit) HE.
  assert (length (take readAt msgs) = readAt) as Hlt by (rewrite length_take; lia).
  assert (seps (drop readAt bs)) as Hst by (rewrite <- (take_drop readAt bs), seps_app in Hs; tauto).
  destruct (recv_batch_spec pks m _ _ m1 tail' Hpt Hst (Forall_drop _ _ _ Hok) Hle HE)
    as (H1 & H2 & H3 & _ & H5 & H6).
  pose proof (headers_Forall2 _ _ _ (Forall_drop _ readAt _ Hh) H1 H2) as Hht.
  assert (Forall (slice_ok m1) bs) as Hok1 by (eapply list.Forall_impl; [exact Hok|auto]).
  assert (length tail' = length (drop readAt msgs)) as Hlen by (symmetry; by eapply Forall2_length).
  assert (drop (length pks) tail' = drop (length pks) (drop readAt msgs)) as Hdrop.
  { apply list_eq. intros i. rewrite !lookup_drop, H6, lookup_drop by lia. done. }
  assert (map (load m1) (drop (length pks) (drop readAt bs)) = map (load m) (drop (length pks) (drop readAt bs))) as Hload.
  { pose proof (recv_batch_take pks m _ _ Hle (Forall2_length _ _ _ Hpt)) as HT. rewrite HE in HT.
    set (k := length pks) in *. set (B := drop readAt bs) in *.
    destruct (recv_batch m (take k (drop readAt msgs)) (take k B) pks) as [m2 r] eqn:ER. injection HT as <- _.
    rewrite <- (take_drop k B), seps_app in Hst. destruct Hst as (Hs1 & _ & Hcross).
    pose proof (Forall_drop _ readAt _ Hok) as HokB. fold B in HokB. rewrite <- (take_drop k B), Forall_app in HokB.
    destruct (recv_batch_spec pks m _ _ m1 r (Forall2_take _ _ _ k Hpt) Hs1 (proj1 HokB)) as (_ & _ & _ & Hfr & _);
      [rewrite length_take; lia|done|].
    apply map_ext_in. intros t Ht%list_elem_of_In. apply Hfr.
    - destruct HokB as [_ HokB]. rewrite list.Forall_forall in HokB. by apply HokB.
    - eapply list.Forall_impl; [exact Hcross|]. intros b Hb. rewrite list.Forall_forall in Hb. by apply Hb. }
  assert (Forall2 (fun msg b => m_Buffers msg = [b]) (drop (length pks) (drop readAt msgs)) (drop (length pks) (drop readAt bs)))
    as Hfd by by apply Forall2_drop, Forall2_drop.
  destruct (recv_list_same (getGSOSize os) m m1 _ _ Hfd Hload) as [Hrl _].
  destruct (window_received m1 bs rest pks (drop readAt bs) tail') as (HD & Hrx' & H64'); try done.
  { by apply Forall_drop. } { apply Forall_drop. by apply list.Forall_forall. }
  { by rewrite Hdrop, Hrl. } { by rewrite Hdrop. }
  { rewrite Hdrop. apply Forall_lookup. intros i msg Hm ds a.
    pose proof (Forall_lookup_1 _ _ _ _ H64 Hm ds a) as H64m.
    destruct (Forall2_lookup_l _ _ _ _ _ Hfd Hm) as (b & Hb & Hmb). unfold received in *. rewrite Hmb in *.
    assert (load m1 b = load m b) as ->; [|done].
    assert (map (load m1) (drop (length pks) (drop readAt bs)) !! i = Some (load m b)) as E
      by (rewrite Hload, list_lookup_fmap, Hb; done).
    rewrite list_lookup_fmap, Hb in E. by injection E. }
  unfold rx_slots, rx_holds. split_and!; try done.
  - rewrite <- (take_drop readAt bs). apply Forall2_app; [by apply Forall2_take|].
    eapply Forall2_impl; [exact H1|]. by intros ? ? [? _].
  - apply Forall_app. split; [by apply Forall_take|done].
  - intros i pk Hi. destruct (H5 i pk Hi) as (msg & b & Hm & _ & (_ & _ & _ & _ & Hnn & _)). exists msg. split; [done|]. lia.
  - apply Forall_app. split; [apply Forall_map; eapply list.Forall_impl; [by apply datagrams_fit|]; by intros [? ?]|].
    by destruct (existsb is_empty pks).
Qed.

(** Splitting a window of [k] messages behind at least [63k] others. *)
Lemma split_window m1 msgs2 bs k D :
  rx_slots m1 msgs2 bs -> rx_holds m1 bs (drop (length msgs2 - k) msgs2) D -> udpSegmentMaxDatagrams * k <= length msgs2 ->
  exists msgs' m', splitCoalescedMessages (getGSOSize os) m1 msgs2 (length msgs2 - k) = Ret (length D, None, msgs', m') /\
    Forall2 keeps msgs2 msgs' /\ Forall (header_ok (os := os)) msgs' /\
    forall i d a, D !! i = Some (d, a) -> exists msg b, msgs' !! i = Some msg /\ bs !! i = Some b /\
      m_N msg = length d /\ take (length d) (load m' b) = d /\ m_Addr msg = a.
Proof.
  intros (Hf & Hh & Hs & Hok) (Hrec & Hrx & H64 & Hfit) Hl. unfold udpSegmentMaxDatagrams in Hl.
  destruct (split_spec (getGSOSize os) m1 msgs2 bs (length msgs2 - k) D)
    as (st & HS & [Hwf _] & Hhold); try done.
  { apply fits_window; [done|]. rewrite length_drop. lia. }
  pose proof (splitCoalescedMessages_keeps _ _ _ _ _ _ _ _ HS) as Hkeep.
  exists (sp_msgs st), (sp_mem st). split; [done|]. split; [done|]. split.
  - clear -Hkeep Hh. induction Hkeep as [|a b l l' (E1 & E2 & _) _ IH]; [done|]. inversion Hh as [|? ? [? ?] ?]; subst.
    constructor; [|by apply IH]. by split; rewrite ?E1, ?E2.
  - intros i d a Hi. destruct (Hhold i d a Hi) as (msg & b & Hm & Hb & Hn & Ht & Ha).
    exists msg, b. rewrite Hn in Ht. split_and!; try done.
    destruct (Forall2_lookup_l _ _ _ _ _ Hwf Hm) as (b' & Hb' & E). congruence.
Qed.

(** Blank messages hold nothing. *)
Lemma blank_holds m bs ms bl :
  Forall2 prepared ms bl -> Forall (fun msg => m_N msg = 0 /\ m_NN msg = 0) ms -> rx_holds m bs ms [].
Proof.
  intros Hp Hz. split; [by apply recv_list_stop|]. split_and!; [| |done]; apply Forall_lookup; intros i msg Hi;
    destruct (Forall_lookup_1 _ _ _ _ Hz Hi) as [HN HNN]; destruct (Forall2_lookup_l _ _ _ _ _ Hp Hi) as (b & _ & Hb);
    by apply (blank_rx m msg b).
Qed.

(** Reading with receive offload. *)
Lemma read_messages_gro p c msgs bs m w k :
  linux_or_android os = true -> Forall2 prepared msgs bs -> Forall (header_ok (os := os)) msgs ->
  Forall (fun msg => m_N msg = 0 /\ m_NN msg = 0) msgs -> seps bs -> Forall (slice_ok m) bs ->
  0 < k -> length msgs = udpSegmentMaxDatagrams * k -> Forall (gro_packet bs) (inbox w p) ->
  exists n err msgs' m' w', read_messages os (Some p) c true msgs m w = Ret ((n, err), msgs', m', w') /\
    length msgs' = length msgs /\ Forall (header_ok (os := os)) msgs' /\
    match err with
    | Some _ => n = 0
    | None => exists pks, inbox w p = pks ++ inbox w' p /\ length pks <= k /\
        n = length (datagrams pks) /\ Forall (fun msg => m_NN msg <= gb_cap (m_OOB msg)) msgs' /\
        forall i d from, datagrams pks !! i = Some (d, from) -> exists msg b, msgs' !! i = Some msg /\ bs !! i = Some b /\
          m_N msg = length d /\ take (length d) (load m' b) = d /\ m_Addr msg = Some from
    end.
Proof.
  intros Hos Hp Hh Hz Hs Hok Hk Hlen Hpk. unfold read_messages. rewrite Hos.
  assert (rx_slots m msgs bs) as G.
  { unfold rx_slots. split_and!; try done. eapply Forall2_impl; [exact Hp|]. by intros ? ? [? _]. }
  rewrite Hlen, groReadBatchSize_mult by done.
  rewrite (proj2 (Nat.ltb_lt 1 _)) by (unfold udpSegmentMaxDatagrams; lia). cbn [andb]. cbv zeta. rewrite <- Hlen.
  set (readAt := length msgs - k).
  assert (length (drop readAt msgs) = k) as Hlk
    by (unfold readAt, udpSegmentMaxDatagrams in *; rewrite length_drop; lia).
  destruct (env_read_batch p m (drop readAt msgs) w) as [[[[n err] tail'] m1] w'] eqn:ER.
  assert (Forall2 prepared (drop readAt msgs) (drop readAt bs)) as Hpd by by apply Forall2_drop.
  apply (law_read_batch _ _ _ _ _ _ _ _ _ _ (Forall2_drop _ _ _ readAt (proj1 G))) in ER. destruct err as [e|].
  { destruct ER as [-> ->]. eexists 0, (Some e), _, _, w'. split; [reflexivity|].
    by rewrite take_drop. }
  destruct ER as (pks & -> & Hle & Hin & HE). rewrite Hin in Hpk. apply Forall_app in Hpk as [Hpk _].
  destruct (read_window m msgs bs readAt pks [] m1 tail' G ltac:(unfold readAt; lia) Hpd Hpk Hle) as
    (Hlt & G1 & _ & Hnnt & Hsame & HD); [|done|].
  { eapply blank_holds; [by apply Forall2_drop|by apply Forall_drop, Forall_drop]. }
  assert (length (take readAt msgs ++ tail') = length msgs) as Hl2.
  { rewrite length_app, Hlt, <- length_app, take_drop. done. }
  assert (drop readAt (take readAt msgs ++ tail') = tail') as Hdrop
    by (apply drop_app_length'; rewrite length_take; unfold readAt; lia).
  destruct (split_window m1 (take readAt msgs ++ tail') bs k (map (fun '(d, a) => (d, Some a)) (datagrams pks)))
    as (msgs' & m' & HS & Hkeep & Hh' & Hhold); [done| |rewrite Hl2; lia|].
  { rewrite Hl2. fold readAt. rewrite Hdrop. by destruct (existsb is_empty pks); rewrite app_nil_r in HD. }
  rewrite Hl2 in HS. fold readAt in HS. rewrite HS. cbn [mbind go_mbind]. rewrite length_map.
  eexists _, None, _, _, _. split; [reflexivity|].
  split; [rewrite <- Hl2; symmetry; by eapply Forall2_length|]. split; [done|]. exists pks.
  split_and!; try done; [lia| |].
  - assert (Forall (fun msg => m_NN msg <= gb_cap (m_OOB msg)) (take readAt msgs ++ tail')) as Hnn.
    { apply Forall_app. split; [eapply list.Forall_impl; [by apply Forall_take|]; intros msg [_ ->]; lia|].
      apply Forall_lookup. intros i msg Hm. destruct (decide (i < length pks)) as [Hi|Hi].
      - destruct (lookup_lt_is_Some_2 pks i Hi) as [pk Hpk']. destruct (Hnnt i pk Hpk') as (msg' & Hm' & Hnn').
        rewrite Hm in Hm'. by injection Hm' as <-.
      - rewrite Hsame, lookup_drop in Hm by lia. destruct (Forall_lookup_1 _ _ _ _ Hz Hm) as [_ ->]. lia. }
    clear -Hkeep Hnn. induction Hkeep as [|a b l l' (_ & E2 & E3) _ IH]; [done|]. inversion Hnn; subst.
    constructor; [by rewrite E2, E3|by apply IH].
  - intros i d from Hi. apply (Hhold i d (Some from)). by rewrite list_lookup_fmap, Hi.
Qed.

End Gro.

(** *** Concrete inputs *)

Definition ex_from : UDPAddr := mkUDPAddr (GoBuf (As16 (Addr4 [x0a; x00; x00; x02])) 16) 5555 "".
(** [n] arrays of 16 bytes and the buffers over them. *)
Definition rx_mem (n : nat) : mem := list_to_map (map (fun a => (a, replicate 16 x00)) (seq 0 n)).
Definition rx_bufs (n : nat) : list slice := map (fun a => Slice a 0 16 16) (seq 0 n).
Definition rx_out (n : nat) : outputs := mkOutputs (replicate n 0) (replicate n None).
Definition rx_world (pks : list packet) : sim := with_inbox ex_world (<[0 := pks]> ∅).
Definition rx_bind (n : nat) : StdNetBind :=
  NewStdNetBindWithOptions (W := sim) Linux true (mkOptions FamilyOrderIPv4First false false (Z.of_nat n)).
Definition gro_cmsg (g : Z) : list byte :=
  cmsg_bytes (U := linux64) (mkCmsg (SOL_UDP (UnixABI := linux64)) (UDP_GRO (UnixABI := linux64)) (le_bytes 4 g) [] (replicate 4 x00)).
Definition rx_gro (data : list byte) (g : Z) : packet := mkPacket data (gro_cmsg g) ex_from.

Lemma rx_bind_pools n : pools_ok (U := linux64) (os := Linux) (rx_bind n).
Proof. split; constructor. Qed.

Definition ex_plain := [mkPacket [x01; x02] [] ex_from; mkPacket [x03] [] ex_from].

Lemma receiveIP_plain_witness :
  exists r, receiveIP (U := linux64) Linux 0 (rx_bind 2) (Some 0) 0 false (rx_mem 2) (rx_bufs 2) (rx_out 2)
      (rx_world ex_plain) = Ret r /\ pools_ok (U := linux64) (os := Linux) (rb_bind r).
Proof.
  destruct (receiveIP_plain (U := linux64) (W := sim) (os := Linux) 0 (rx_bind 2) (Some 0) 0 false (rx_mem 2)
    (rx_bufs 2) (rx_out 2) (rx_world ex_plain)) as (r & HE & Hp & _).
  - apply rx_bind_pools.
  - vm_compute. lia.
  - reflexivity.
  - vm_compute. reflexivity.
  - by apply (bool_decide_unpack _); vm_compute.
  - by repeat constructor; vm_compute; lia.
  - exists r. split; [exact HE|exact Hp].
Defined.

Example ex_receive_plain :
  match receiveIP (U := linux64) Linux 0 (rx_bind 2) (Some 0) 0 false (rx_mem 2) (rx_bufs 2) (rx_out 2)
      (rx_world ex_plain) with
  | Ret r => rb_n r = 2 /\ out_sizes (rb_out r) = [2; 1] /\
      map (fmap ep_AddrPort) (out_eps (rb_out r)) =
        replicate 2 (Some (mkAddrPort (Addr4 [x0a; x00; x00; x02]) 5555)) /\
      take 2 (load (rb_mem r) (Slice 0 0 16 16)) = [x01; x02]
  | _ => False
  end.
Proof. vm_compute. tauto. Qed.

Definition ex_gro_pks : list packet := [rx_gro [x01; x02; x03; x04; x05] 2].


Example ex_receive_gro :
  match receiveIP (U := linux64) Linux 0 (rx_bind 64) (Some 0) 0 true (rx_mem 64) (rx_bufs 64) (rx_out 64)
      (rx_world ex_gro_pks) with
  | Ret r => rb_n r = 3 /\ take 4 (out_sizes (rb_out r)) = [2; 2; 1; 0] /\
      take 2 (load (rb_mem r) (Slice 1 0 16 16)) = [x03; x04]
  | _ => False
  end.
Proof. vm_compute. tauto. Qed.

(** ** Defects *)

Definition ex_pktinfo : list byte :=
  cmsg_bytes (U := linux64) (mkCmsg (IPPROTO_IP (UnixABI := linux64)) (IP_PKTINFO (UnixABI := linux64))
    (Inet4Pktinfo_bytes (UnixABI := linux64) 5 [x7f; x00; x00; x01] [x7f; x00; x00; x02]) [] (replicate 4 x00)).
Definition rx_receive (n : nat) (rx : bool) (pks : list packet) : go received_batch :=
  receiveIP (U := linux64) (W := sim) Linux 0 (rx_bind n) (Some 0) 0 rx (rx_mem n) (rx_bufs n) (rx_out n)
    (rx_world pks).
(** The source addresses of the first [k] endpoints. *)
Definition rx_sources (k : nat) (r : go (received_batch (W := sim))) : list (option (go Addr)) :=
  match r with
  | Ret r => map (fmap (SrcIP (U := linux64) Linux)) (take k (out_eps (rb_out r)))
  | _ => []
  end.

(** Receive offload loses the sticky source: splitting moves payload and
    sender of a datagram but not its control data, so that an endpoint gets no
    source with GRO where it gets one without. *)
Theorem gro_loses_source :
  let pk := mkPacket [x01; x02] ex_pktinfo ex_from in
  rx_sources 1 (rx_receive 64 false [pk]) = [Some (Ret (Addr4 [x7f; x00; x00; x01]))] /\
  rx_sources 1 (rx_receive 64 true [pk]) = [Some (Ret AddrZero)].
Proof. vm_compute. done. Qed.

(** An empty datagram hides the one behind it: the split stops at a message
    of size 0, so that the packet in the next slot is taken from the socket and
    never reported. *)
Theorem gro_empty_hides_next :
  match rx_receive 128 true [mkPacket [] [] ex_from; mkPacket [x01; x02] [] ex_from] with
  | Ret r => rb_n r = 0 /\ rb_err r = None /\ inbox (rb_world r) 0 = []
  | _ => False
  end.
Proof. vm_compute. done. Qed.

(** With a batch size that is not a multiple of 64 a packet that Linux may
    deliver overflows: eight slots cannot take a packet of nine segments, the
    receive fails and the packet is gone. *)
Theorem gro_small_batch_overflows :
  match rx_receive 8 true [rx_gro (map byte_of [1; 2; 3; 4; 5; 6; 7; 8; 9])%Z 1] with
  | Ret r => rb_n r = 0 /\ rb_err r = Some ErrSplitOverflow /\ inbox (rb_world r) 0 = []
  | _ => False
  end.
Proof. vm_compute. done. Qed.
