(* ===== verification/StdConc.v ===== *)
(** * Concurrent use of a [StdNetBind] (bind_std.go)

    [Send] holds [s.mu] only while it copies the fields of a family and while
    it switches offload off; pools, coalescing and system calls run without the
    lock.  Here a call of [Send] is a small state machine whose steps are the
    critical sections and the system calls, and a system is a bind with any
    number of such calls over one shared memory, interleaved with [Open],
    [Close], [SetMark], receive functions and the application's own writes.  The
    theorems hold of every interleaving on Linux. *)

From stdpp Require Import relations.
From S2P Require Import Prelude Errors GoMem Netip Cmsg Gso Sticky Message Coalesce Split Env SimNet ControlFns Conn StdNet StdSend StdRecv.

(** ** A call of [Send], step by step *)

(** The local variables of [Send] from the label [retry] on. *)
Record locals := mkLocals {
  lc_conn : conn; lc_br : option conn; lc_ua : UDPAddr; lc_msgs : list Message;
  lc_offload : bool; lc_retried : bool;
}.

(** Program points: before the first lock, before the pools are asked, at the
    label [retry], in the loop of [send] with [msgs[start:]] left, before the
    second lock, before the deferred calls, and after the return. *)
Inductive send_pc :=
| S_start
| S_pools (f : family) (c : conn)
| S_retry (l : locals)
| S_write (l : locals) (rest : list Message)
| S_disable (l : locals)
| S_put (l : locals) (err : option error)
| S_done (err : option error).

(** A call: its arguments and where it is.  Its buffers lie in the memory that
    all calls share. *)
Record send_call := mkCall { sc_bufs : list slice; sc_ep : Endpoint; sc_pc : send_pc }.

Section Steps.
Context {U : UnixABI} `{Env W} (os : GOOS).

(** One iteration of the loop of [send]: [inl err] when the loop is left,
    [inr rest] when messages remain, and what went out on which socket. *)
Definition send_once (l : locals) (m : mem) (rest : list Message) (w : W)
    : go ((option error + list Message) * list (conn * wire) * W) :=
  match (if linux_or_android os then lc_br l else None) with
  | Some p =>
      let ws := map (wire_of m) rest in
      let '((n, err), w) := env_write_batch p ws w in
      let ev := map (pair p) (take n ws) in
      if match err with Some _ => true | None => (n =? length ws)%nat end then Ret (inl err, ev, w)
      else _ ← check (n <=? length ws)%nat; Ret (inr (drop n rest), ev, w)
  | None =>
      match rest with
      | [] => Ret (inl None, [], w)
      | msg :: rest' =>
          b ← buf0 msg;
          a ← must (m_Addr msg);
          match env_write_msg (lc_conn l) (load m b) (gb_bytes (m_OOB msg)) (UDPAddr_AddrPort a) w with
          | (Some err, w) => Ret (inl (Some err), [], w)
          | (None, w) =>
              Ret (inr rest', [(lc_conn l, mkWire [load m b] (gb_bytes (m_OOB msg)) (Some (UDPAddr_AddrPort a)))], w)
          end
      end
  end.

(** Where [Send] goes once [send] has returned [err]. *)
Definition after_send (l : locals) (err : option error) : send_pc :=
  if lc_offload l && match err with Some e => errShouldDisableUDPGSO os e | None => false end
  then S_disable l else S_put l err.

Definition set_pc (t : send_call) (pc : send_pc) : send_call := mkCall (sc_bufs t) (sc_ep t) pc.

(** One step of a call: the call, what went out, the bind, the memory and the
    world after it.  A call that has returned does not move. *)
Definition send_step (cm cu : nat) (t : send_call) (s : StdNetBind) (m : mem) (w : W)
    : option (go (send_call * list (conn * wire) * StdNetBind * mem * W)) :=
  let is6 := Is6 (Endpoint_DstIP (sc_ep t)) in
  match sc_pc t with
  | S_start =>
      let f := family_of s is6 in
      Some (Ret (set_pc t (if fa_blackhole f then S_done None
                           else match fa_conn f with
                                | None => S_done (Some (EErrno EAFNOSUPPORT))
                                | Some c => S_pools f c
                                end), [], s, m, w))
  | S_pools f c =>
      let '(msgs, s) := getMessages os cm s in
      let '(ua, pool) := pool_get cu (sb_udpAddrPool s) new_udpAddr in
      let s := set_udpAddrPool pool s in
      Some (ua ← set_dst ua (Endpoint_DstIP (sc_ep t));
            e ← as_std (sc_ep t);
            let ua := mkUDPAddr (ua_IP ua) (ap_port (ep_AddrPort e)) (ua_Zone ua) in
            Ret (set_pc t (S_retry (mkLocals c (fa_br f) ua msgs (fa_offload f) false)), [], s, m, w))
  | S_retry l =>
      Some (if lc_offload l then
              e ← as_std (sc_ep t);
              '(n, msgs, m) ← coalesceMessages os (setGSOSize os) (lc_ua l) e m (sc_bufs t) (lc_msgs l);
              let l := mkLocals (lc_conn l) (lc_br l) (lc_ua l) msgs (lc_offload l) (lc_retried l) in
              Ret (set_pc t (S_write l (take n msgs)), [], s, m, w)
            else
              msgs ← fill_msgs os (lc_ua l) (sc_ep t) (sc_bufs t) (lc_msgs l);
              let l := mkLocals (lc_conn l) (lc_br l) (lc_ua l) msgs (lc_offload l) (lc_retried l) in
              Ret (set_pc t (S_write l (take (length (sc_bufs t)) msgs)), [], s, m, w))
  | S_write l rest =>
      Some ('(r, ev, w) ← send_once l m rest w;
            Ret (set_pc t (match r with inl err => after_send l err | inr rest => S_write l rest end), ev, s, m, w))
  | S_disable l =>
      Some (Ret (set_pc t (S_retry (mkLocals (lc_conn l) (lc_br l) (lc_ua l) (lc_msgs l) false true)), [],
                 disable_tx is6 s, m, w))
  | S_put l err =>
      let err := if lc_retried l then Some (ErrUDPGSODisabled (env_local_addr (lc_conn l) w) err) else err in
      Some (Ret (set_pc t (S_done err), [],
                 putMessages (lc_msgs l) (set_udpAddrPool (lc_ua l :: sb_udpAddrPool s) s), m, w))
  | S_done _ => None
  end.

(** *** A call that runs alone *)

(** A step of a call that nobody interferes with. *)
Definition alone (cm cu : nat) (x y : send_call * StdNetBind * mem * W) : Prop :=
  exists ev, send_step cm cu x.1.1.1 x.1.1.2 x.1.2 x.2 = Some (Ret (y.1.1.1, ev, y.1.1.2, y.1.2, y.2)).

Lemma send_loop_runs cm cu l t s m : forall rest w err w',
  sc_pc t = S_write l rest ->
  send os (lc_conn l) (lc_br l) m rest w = Ret (err, w') ->
  rtc (alone cm cu) (t, s, m, w) (set_pc t (after_send l err), s, m, w').
Proof.
  unfold send. intros rest w err w' Hpc Hs.
  assert (match (if linux_or_android os then lc_br l else None) with
          | Some p => send_batch (S (length rest)) p (map (wire_of m) rest) w
          | None => send_each (lc_conn l) m rest w
          end = Ret (err, w')) as Hs'
    by (destruct (lc_br l), (linux_or_android os); done).
  clear Hs. destruct (if linux_or_android os then lc_br l else None) as [p|] eqn:Ep.
  - revert Hs'. generalize (S (length rest)) as fuel. intros fuel. revert t rest w Hpc.
    induction fuel as [|fuel IH]; intros t rest w Hpc Hs'; [done|]. cbn [send_batch] in Hs'.
    destruct (env_write_batch p _ w) as [[n e] w1] eqn:E.
    destruct (match e with Some _ => true | None => _ end) eqn:Ee.
    + injection Hs' as -> ->. apply rtc_once. eexists. unfold send_step. cbn [fst snd]. rewrite Hpc.
      unfold send_once. rewrite Ep, E, Ee. done.
    + destruct (n <=? _)%nat eqn:En; [|done]. cbn in Hs'. rewrite skipn_map in Hs'.
      eapply rtc_l; [|refine (IH (set_pc t (S_write l (drop n rest))) _ _ eq_refl Hs')].
      eexists. unfold send_step. cbn [fst snd]. rewrite Hpc. unfold send_once. rewrite Ep, E, Ee, En. done.
  - revert t w Hpc Hs'. induction rest as [|msg rest IH]; intros t w Hpc Hs'.
    + injection Hs' as <- <-. apply rtc_once. eexists. unfold send_step. cbn [fst snd]. rewrite Hpc.
      unfold send_once. by rewrite Ep.
    + cbn [send_each] in Hs'. apply go_bind_Ret in Hs' as (b & Hb & Hs').
      apply go_bind_Ret in Hs' as (a & Ha & Hs').
      destruct (env_write_msg _ _ _ _ w) as [[e|] w1] eqn:E.
      * injection Hs' as <- <-. apply rtc_once. eexists. unfold send_step. cbn [fst snd]. rewrite Hpc.
        unfold send_once. rewrite Ep, Hb. cbn [mbind go_mbind]. rewrite Ha. cbn [mbind go_mbind]. by rewrite E.
      * eapply rtc_l; [|refine (IH (set_pc t (S_write l rest)) _ eq_refl Hs')].
        eexists. unfold send_step. cbn [fst snd]. rewrite Hpc.
        unfold send_once. rewrite Ep, Hb. cbn [mbind go_mbind]. rewrite Ha. cbn [mbind go_mbind]. by rewrite E.
Qed.

(** From the label [retry] without offload to the deferred calls. *)
Lemma send_plain_runs cm cu l t s m err msgs w w' :
  sc_pc t = S_retry l -> lc_offload l = false ->
  send_plain os (lc_conn l) (lc_br l) (lc_ua l) (sc_ep t) m (sc_bufs t) (lc_msgs l) w
    = Ret (err, msgs, w') ->
  rtc (alone cm cu) (t, s, m, w)
    (set_pc t (S_put (mkLocals (lc_conn l) (lc_br l) (lc_ua l) msgs false (lc_retried l)) err), s, m, w').
Proof.
  intros Hpc Hoff HE. unfold send_plain in HE. apply go_bind_Ret in HE as (ms & Hf & HE).
  apply go_bind_Ret in HE as ([e w1] & Hs & [= <- <- <-]).
  set (l' := mkLocals (lc_conn l) (lc_br l) (lc_ua l) ms false (lc_retried l)).
  eapply rtc_l with (set_pc t (S_write l' (take (length (sc_bufs t)) ms)), s, m, w).
  { eexists. unfold send_step. cbn [fst snd]. rewrite Hpc, Hoff, Hf. done. }
  refine (send_loop_runs cm cu l' (set_pc t _) s m _ w e w1 eq_refl Hs).
Qed.

Lemma send_retry_runs cm cu f c ua msgs t s m err msgs' s' m' w w' :
  sc_pc t = S_retry (mkLocals c (fa_br f) ua msgs (fa_offload f) false) ->
  send_retry os (Is6 (Endpoint_DstIP (sc_ep t))) f c ua (sc_ep t) m (sc_bufs t) msgs s w
    = Ret (err, msgs', s', m', w') ->
  exists l r, rtc (alone cm cu) (t, s, m, w) (set_pc t (S_put l r), s', m', w') /\
    lc_ua l = ua /\ lc_msgs l = msgs' /\
    err = (if lc_retried l then Some (ErrUDPGSODisabled (env_local_addr (lc_conn l) w') r) else r).
Proof.
  intros Hpc HE. unfold send_retry in HE. set (l := mkLocals _ _ _ _ _ _) in Hpc.
  destruct (fa_offload f) eqn:Hoff.
  - apply go_bind_Ret in HE as (e & He & HE). apply go_bind_Ret in HE as ([[n ms] m1] & Hco & HE).
    apply go_bind_Ret in HE as ([err1 w1] & Hs & HE).
    set (l1 := mkLocals c (fa_br f) ua ms true false).
    set (t1 := set_pc t (S_write l1 (take n ms))).
    assert (rtc (alone cm cu) (t, s, m, w) (set_pc t1 (after_send l1 err1), s, m1, w1)) as Hrun.
    { eapply rtc_l; [|refine (send_loop_runs cm cu l1 t1 s m1 _ w err1 w1 eq_refl Hs)].
      eexists. unfold send_step. cbn [fst snd]. rewrite Hpc. cbn [lc_offload l]. rewrite He.
      cbn [mbind go_mbind lc_ua lc_msgs l]. by rewrite Hco. }
    unfold after_send in Hrun. cbn [lc_offload l1 andb] in Hrun.
    destruct (match err1 with Some _ => _ | None => false end).
    + apply go_bind_Ret in HE as ([[err2 ms2] w2] & Hp & [= <- <- <- <- <-]).
      set (l2 := mkLocals c (fa_br f) ua ms false true).
      eexists (mkLocals c (fa_br f) ua ms2 false true), err2. split; [|done].
      etrans; [exact Hrun|]. eapply rtc_l with (set_pc t1 (S_retry l2), disable_tx _ s, m1, w1).
      { eexists. reflexivity. }
      exact (send_plain_runs cm cu l2 (set_pc t1 (S_retry l2)) _ m1 err2 ms2 w1 w2 eq_refl eq_refl Hp).
    + injection HE as <- <- <- <- <-. eexists l1, err1. by split.
  - apply go_bind_Ret in HE as ([[err2 ms2] w2] & Hp & [= <- <- <- <- <-]).
    eexists (mkLocals c (fa_br f) ua ms2 false false), err2. split; [|done].
    exact (send_plain_runs cm cu l t _ m err2 ms2 w w2 Hpc eq_refl Hp).
Qed.

Lemma Send_runs cm cu s m bufs ep w err s' m' w' :
  Send os cm cu s m bufs ep w = Ret (err, s', m', w') ->
  rtc (alone cm cu) (mkCall bufs ep S_start, s, m, w) (mkCall bufs ep (S_done err), s', m', w').
Proof.
  unfold Send. set (f := family_of s _). set (t := mkCall bufs ep S_start). intros HE.
  destruct (fa_blackhole f) eqn:Hb.
  { injection HE as <- <- <- <-. apply rtc_once. eexists. unfold send_step. cbn [fst snd sc_pc sc_ep t].
    fold f. by rewrite Hb. }
  destruct (fa_conn f) as [c|] eqn:Hc.
  2: { injection HE as <- <- <- <-. apply rtc_once. eexists. unfold send_step. cbn [fst snd sc_pc sc_ep t].
       fold f. by rewrite Hb, Hc. }
  eapply rtc_l with (set_pc t (S_pools f c), s, m, w).
  { eexists. unfold send_step. cbn [fst snd sc_pc sc_ep t]. fold f. by rewrite Hb, Hc. }
  destruct (getMessages os cm s) as [msgs s1] eqn:Hg.
  destruct (pool_get cu (sb_udpAddrPool s1) new_udpAddr) as [ua0 pool] eqn:Hu.
  apply go_bind_Ret in HE as (ua1 & Hset & HE). apply go_bind_Ret in HE as (e & He & HE).
  apply go_bind_Ret in HE as ([[[[err1 ms] s2] m2] w2] & Hr & [= <- <- <- <-]).
  set (ua := mkUDPAddr _ _ _) in *. set (l := mkLocals c (fa_br f) ua msgs (fa_offload f) false).
  eapply rtc_l with (set_pc t (S_retry l), set_udpAddrPool pool s1, m, w).
  { eexists. unfold send_step. cbn [fst snd sc_pc set_pc sc_ep t]. rewrite Hg, Hu, Hset. cbn [mbind go_mbind].
    rewrite He. done. }
  destruct (send_retry_runs cm cu f c ua msgs (set_pc t (S_retry l)) _ _ _ _ _ _ _ _ eq_refl Hr)
    as (l' & r & Hrun & <- & <- & ->).
  etrans; [exact Hrun|]. apply rtc_once. eexists. reflexivity.
Qed.

(** The steps are those of [Send]: a call that runs without interference
    performs exactly the system calls of [Send], and ends with its result, the
    same bind, the same memory and the same world. *)
Theorem Send_steps cm cu s m bufs ep w err s' m' w' :
  Send os cm cu s m bufs ep w = Ret (err, s', m', w') ->
  rtc (alone cm cu) (mkCall bufs ep S_start, s, m, w) (mkCall bufs ep (S_done err), s', m', w').
Proof. apply Send_runs. Qed.
End Steps.

(** ** What the other operations leave alone *)

(** A view of the world that listening, closing and socket options preserve. *)
Section OpenFrame.
Context {U : UnixABI} `{Env W} {A : Type} (f : W -> A).
Hypothesis Hset : forall fd o v w, f (env_setsockopt fd o v w).2 = f w.
Hypothesis Hclose : forall c w, f (env_close c w).2 = f w.
Hypothesis Hlisten : forall ctl net addr w, (forall n a rc x, f (ctl n a rc x).2 = f x) ->
  f (env_listen ctl net addr w).2 = f w.

Lemma listenNet_frame os s network port w : f (listenNet os s network port w).2 = f w.
Proof.
  unfold listenNet. destruct (sb_network s); [|done].
  pose proof (Hlisten (listenConfig os) network (listenAddress network port) w
    (listenConfig_frame f Hset os)) as Hl.
  destruct (env_listen _ _ _ w) as [[err|c] w1]; cbn in Hl; [done|].
  pose proof (configureSocket_frame f Hset os c network (listenAddress network port) w1) as Hc.
  destruct (configureSocket _ _ _ _ w1) as [[err|] w2]; cbn in Hc.
  - cbn. by rewrite Hclose, Hc.
  - destruct (env_local_port c w2); cbn; [by rewrite Hclose, Hc|by rewrite Hc].
Qed.

Lemma open_listeners_frame os s uport tries : forall w, f (open_listeners os s uport tries w).2 = f w.
Proof.
  assert (forall again retries second c port ap w, (forall w, f (again w).2 = f w) ->
    f (open_second os s uport again retries second c port ap w).2 = f w) as Hsec.
  { intros again retries second c port ap w Ha. unfold open_second.
    pose proof (listenNet_frame os s second port w) as Hl.
    destruct (listenNet _ _ _ _ w) as [[e|[c2 p2]] w2]; cbn in Hl; [|done].
    destruct c; repeat (case_match; cbn [snd]); by rewrite ?Ha, ?Hclose. }
  induction tries as [|tries IH]; intros w; cbn [open_listeners];
    destruct (familyOrder s) as [first second];
    pose proof (listenNet_frame os s first uport w) as Hl;
    destruct (listenNet _ _ _ _ w) as [[e|[c p]] w2]; cbn in Hl; try (case_match; [done|]);
    rewrite Hsec by done; done.
Qed.

Lemma Open_frame os fuel s uport w r ev s' w' : Open os fuel s uport w = Ret (r, ev, s', w') -> f w' = f w.
Proof.
  unfold Open. destruct (sb_ipv4 s); [by intros [= <- <- <- <-]|].
  destruct (sb_ipv6 s); [by intros [= <- <- <- <-]|].
  pose proof (open_listeners_frame os s uport 100 w) as Hl.
  destruct (open_listeners _ _ _ _ w) as [[e|li] w2]; cbn in Hl; [by intros [= <- <- <- <-]|].
  destruct (familyOrder s) as [first second]. destruct (if decide _ then _ else _) as [a b].
  intros HE. apply go_bind_Ret in HE as ([s2 fns] & _ & [= <- <- <- <-]). done.
Qed.

Lemma Close_frame s w err s' w' : Close s w = (err, s', w') -> f w' = f w.
Proof.
  unfold Close, close_conn. intros HE.
  destruct (sb_ipv4 s) as [a|]; [pose proof (Hclose a w) as E1; destruct (env_close a w) as [e1 w1]; cbn in E1|];
  (destruct (sb_ipv6 s) as [b|]; [|by injection HE as <- <- <-]).
  - pose proof (Hclose b w1) as E2. destruct (env_close b w1) as [e2 w2]. cbn in E2. injection HE as <- <- <-. congruence.
  - pose proof (Hclose b w) as E2. destruct (env_close b w) as [e2 w2]. cbn in E2. injection HE as <- <- <-. congruence.
Qed.

Lemma set_mark_on_frame os c mark w : f (set_mark_on os c mark w).2 = f w.
Proof.
  destruct c as [c|]; [|done]. unfold set_mark_on. destruct (env_sockopt_fd c w) as [e|fd]; [done|].
  pose proof (Hset fd (O_FWMARK (fwmarkIoctl os)) mark w) as E. by destruct (env_setsockopt _ _ _ w).
Qed.
End OpenFrame.

(** ** Well-formed binds *)

Section BindType.
Context {U : UnixABI} `{Env W} (os : GOOS) (fuel : nat).

(** The batched connection that belongs to a socket. *)
Definition batch_conn (c : conn) : option conn :=
  if linux_or_android os then match unwrapUDPConn fuel (Some c) with Ret p => p | _ => None end else None.

(** The fields of a family: without a socket no batched connection, no offload
    and no blackhole; with one, the batched connection is that of the socket. *)
Definition family_typed (c pc : option conn) (tx rx blackhole : bool) : Prop :=
  match c with
  | None => pc = None /\ tx = false /\ rx = false /\ blackhole = false
  | Some c => pc = batch_conn c
  end.
Definition bind_typed (s : StdNetBind) : Prop :=
  family_typed (sb_ipv4 s) (sb_ipv4PC s) (sb_ipv4TxOffload s) (sb_ipv4RxOffload s) (sb_blackhole4 s) /\
  family_typed (sb_ipv6 s) (sb_ipv6PC s) (sb_ipv6TxOffload s) (sb_ipv6RxOffload s) (sb_blackhole6 s).

Lemma new_typed network opts : bind_typed (NewStdNetBindWithOptions os network opts).
Proof. done. Qed.

Lemma Close_typed s w err s' w' : bind_typed s -> Close s w = (err, s', w') -> bind_typed s'.
Proof.
  intros [H4 H6]. unfold Close. destruct (close_conn (sb_ipv4 s) w) as [e1 w1].
  destruct (close_conn (sb_ipv6 s) w1) as [e2 w2]. intros [= _ <- _].
  split; cbn; destruct (sb_ipv4 s), (sb_ipv6 s); cbn in *; split_and!; naive_solver.
Qed.

Lemma Open_typed s uport w r ev s' w' :
  (forall c, exists p, unwrapUDPConn fuel (Some c) = Ret p) ->
  bind_typed s -> Open os fuel s uport w = Ret (r, ev, s', w') -> bind_typed s'.
Proof.
  intros Hw Ht. unfold Open.
  destruct (sb_ipv4 s) eqn:E4; [by intros [= _ _ <- _]|]. destruct (sb_ipv6 s) eqn:E6; [by intros [= _ _ <- _]|].
  destruct (open_listeners _ _ _ _ w) as [[e|li] w2]; [by intros [= _ _ <- _]|].
  destruct (familyOrder s) as [first second]. destruct (if decide _ then _ else _) as [a b].
  intros HE. apply go_bind_Ret in HE as ([s2 fns] & HA & [= _ _ <- _]).
  destruct Ht as [H4 H6]. rewrite E4 in H4. rewrite E6 in H6. cbn in H4, H6.
  destruct H4 as (P4 & T4 & R4 & B4), H6 as (P6 & T6 & R6 & B6). unfold attach, attach4, attach6 in HA.
  destruct a as [a|], b as [b|].
  all: try (destruct (Hw a) as [pa Ha]). all: try (destruct (Hw b) as [pb Hb]).
  all: try (destruct (supportsUDPOffload os a w2)). all: try (destruct (supportsUDPOffload os b w2)).
  all: rewrite ?Ha, ?Hb in HA; cbn -[unwrapUDPConn] in HA; rewrite ?Hb in HA; cbn -[unwrapUDPConn] in HA.
  all: injection HA as <- <-; split; cbn -[unwrapUDPConn]; rewrite ?E4, ?E6; cbn -[unwrapUDPConn]; try done.
  all: unfold batch_conn; rewrite ?Ha, ?Hb; destruct (linux_or_android os); try done.
  all: by repeat case_match.
Qed.
End BindType.

(** What sending and receiving change of a bind: the pools, and offload from on to
    off. *)
Definition send_rel (s s' : StdNetBind) : Prop :=
  sb_ipv4 s' = sb_ipv4 s /\ sb_ipv6 s' = sb_ipv6 s /\ sb_ipv4PC s' = sb_ipv4PC s /\ sb_ipv6PC s' = sb_ipv6PC s /\
  sb_ipv4RxOffload s' = sb_ipv4RxOffload s /\ sb_ipv6RxOffload s' = sb_ipv6RxOffload s /\
  (sb_ipv4TxOffload s = false -> sb_ipv4TxOffload s' = false) /\
  (sb_ipv6TxOffload s = false -> sb_ipv6TxOffload s' = false) /\
  sb_blackhole4 s' = sb_blackhole4 s /\ sb_blackhole6 s' = sb_blackhole6 s /\ sb_batchSize s' = sb_batchSize s.

Lemma send_rel_refl s : send_rel s s.
Proof. by unfold send_rel. Qed.

(** ** Receiving keeps the pools *)

Section ReceivePools.
Context {U : UnixABI} `{Env W} {L : EnvLaws W} {F : EnvFrame W} {os : GOOS}.

Lemma recv_batch_headers n pks : forall m msgs bs m' msgs',
  Forall2 prepared msgs bs -> headers_ok (os := os) n msgs ->
  recv_batch m msgs bs pks = (m', msgs') -> headers_ok (os := os) n msgs'.
Proof.
  revert n. induction pks as [|pk pks IH]; intros n m msgs bs m' msgs' Hp Hh HE.
  { by destruct msgs, bs; injection HE as <- <-. }
  destruct Hp as [|msg b msgs bs [Hb Ho] Hp]; cbn [recv_batch] in HE; [by injection HE as <- <-|].
  destruct (recv_msg m msg b pk) as [m1 msg1] eqn:E1. destruct (recv_batch m1 msgs bs pks) as [m2 r] eqn:E2.
  injection HE as <- <-. destruct Hh as [Hl Hh]. inversion Hh as [|? ? Hh1 Hh2]; subst.
  destruct (IH (length msgs) m1 msgs bs m2 r Hp) as [Hl' Hh']; [done|done|].
  split; [cbn in *; congruence|]. constructor; [|done].
  unfold recv_msg in E1. destruct (recv_buf m b pk) as [? ?].
  destruct (recv_oob_cap (m_OOB msg) pk Ho) as (Hc & _). destruct (recv_oob (m_OOB msg) pk) as [o nn].
  injection E1 as <- <-. eapply header_ok_cap; [exact Hh1|by left|exact Hc].
Qed.

Lemma prepare_prepared msgs : forall bufs msgs' n,
  headers_ok (os := os) n msgs -> prepare msgs bufs = Ret msgs' ->
  headers_ok (os := os) n msgs' /\ exists bs, Forall2 prepared msgs' bs /\ Forall (fun b => b ∈ bufs) bs.
Proof.
  induction msgs as [|msg msgs IH]; intros bufs msgs' n [Hl Hh] HE; cbn [prepare] in HE.
  { injection HE as <-. split; [done|]. exists []. split; constructor. }
  destruct bufs as [|b bufs]; [done|]. inversion Hh as [|? ? [[b0 Hb0] Hc] Hh']; subst.
  unfold set_buf0 in HE. rewrite Hb0 in HE. cbn [mbind go_mbind] in HE.
  apply go_bind_Ret in HE as (oob & Ho & HE). apply go_bind_Ret in HE as (rest & Hr & [= <-]).
  unfold gb_reslice in Ho. rewrite Nat.leb_refl in Ho. injection Ho as <-.
  destruct (IH bufs rest (length msgs)) as [[Hl' Hr'] (bs & Hbs & Hin)]; [done|done|].
  split; [split; [cbn; congruence|]; constructor; [|done]; by split; [by exists b|]|].
  exists (b :: bs). split; [by constructor|]. constructor; [apply elem_of_cons; by left|].
  eapply list.Forall_impl; [exact Hin|]. intros x Hx. apply elem_of_cons. by right.
Qed.

(** Reading returns the headers in shape and sends nothing. *)
Lemma read_messages_headers br c rx msgs bs m w r msgs' m' w' n :
  Forall2 prepared msgs bs -> headers_ok (os := os) n msgs ->
  read_messages os br c rx msgs m w = Ret (r, msgs', m', w') ->
  headers_ok (os := os) n msgs' /\ open_conns w' = open_conns w /\ sent w' = sent w.
Proof.
  assert (forall k msgs bs p m w r msgs' m' w',
    Forall2 prepared msgs bs -> headers_ok (os := os) k msgs ->
    env_read_batch p m msgs w = (r, msgs', m', w') ->
    headers_ok (os := os) k msgs' /\ open_conns w' = open_conns w /\ sent w' = sent w) as Hrb.
  { clear r msgs bs m w msgs' m' w' n. intros k msgs bs p m w [n e] msgs' m' w' Hp Hh ER.
    split; [|by eapply frame_read_batch].
    apply (law_read_batch _ _ _ bs) in ER; [|eapply Forall2_impl; [exact Hp|]; by intros ? ? [? _]].
    destruct e; [by destruct ER as [-> _]|]. destruct ER as (pks & _ & _ & _ & HE). by eapply recv_batch_headers. }
  intros Hp Hh. unfold read_messages. destruct (if linux_or_android os then br else None) as [p|].
  - destruct (rx && _).
    + set (k := (length msgs - _)%nat).
      destruct (env_read_batch p m (drop k msgs) w) as [[[[x err] tail] m1] w1] eqn:ER.
      destruct Hh as [Hl Hh].
      destruct (Hrb (length (drop k msgs)) (drop k msgs) (drop k bs) p m w _ _ _ _
        (Forall2_drop _ _ _ k Hp) (conj eq_refl (Forall_drop _ k _ Hh)) ER) as ([Hl1 Hh1] & Hw).
      assert (headers_ok (os := os) n (take k msgs ++ tail)) as Ht.
      { split; [rewrite length_app, Hl1, <- length_app, take_drop; done|].
        apply Forall_app. split; [by apply Forall_take|done]. }
      destruct err as [e|]; [by intros [= <- <- <- <-]|]. intros HE.
      apply go_bind_Ret in HE as ([[[j e] msgs2] m2] & Hs & HE).
      apply splitCoalescedMessages_keeps in Hs.
      assert (headers_ok (os := os) n msgs2) as Ht2.
      { destruct Ht as [Hlt Hht]. split; [by rewrite <- (Forall2_length _ _ _ Hs)|]. clear -Hs Hht.
        induction Hs as [|a b l l' (E1 & E2 & _) _ IH]; [done|]. inversion Hht as [|? ? H1 H2]; subst.
        constructor; [|by apply IH]. eapply header_ok_cap; [exact H1|by left|by rewrite E2]. }
      destruct e; by injection HE as <- <- <- <-.
    + destruct (env_read_batch p m msgs w) as [[[[x err] msgs1] m1] w1] eqn:ER.
      destruct (Hrb n msgs bs p m w _ _ _ _ Hp Hh ER) as (Ht & Hw).
      destruct err; by intros [= <- <- <- <-].
  - intros HE. apply go_bind_Ret in HE as (msg & Hm & HE). apply go_bind_Ret in HE as (b & Hb & HE).
    destruct (env_read_msg c m b (m_OOB msg) w) as [[[res o] m1] w1] eqn:ER.
    pose proof (frame_read_msg _ _ _ _ _ _ _ _ _ ER) as Hw. apply law_read_msg in ER.
    destruct msgs as [|msg0 msgs]; [done|]. injection Hm as ->. destruct Hh as [Hl Hh].
    inversion Hh as [|? ? Hh1 Hh2]; subst. inversion Hp as [|? b' ? ? [Hb' Ho] ?]; subst.
    assert (gb_cap o = gb_cap (m_OOB msg)) as Hc.
    { destruct res as [e|[[[? ?] ?] ?]]; [by destruct ER as [-> _]|]. destruct ER as (pk & _ & _ & Hro & _).
      destruct (recv_oob_cap (m_OOB msg) pk Ho) as (Hc & _). by rewrite Hro in Hc. }
    destruct res as [e|[[[? ?] ?] ?]]; injection HE as <- <- <- <-; (split; [|done]);
      (split; [done|]); constructor; try done; (eapply header_ok_cap; [exact Hh1|by left|done]).
Qed.

(** A receive function keeps the pools well formed whatever it is given, and
    changes nothing else of the bind. *)
Lemma receiveIP_pools cm s br c rx m bufs o w r :
  pools_ok (os := os) s -> receiveIP os cm s br c rx m bufs o w = Ret r ->
  pools_ok (os := os) (rb_bind r) /\ send_rel s (rb_bind r) /\
  open_conns (rb_world r) = open_conns w /\ sent (rb_world r) = sent w.
Proof.
  intros Hp. unfold receiveIP. destruct (validateReceiveBuffers _ _ _ _); [by intros [= <-]|].
  destruct (getMessages os cm s) as [msgs s1] eqn:Hg.
  destruct (getMessages_ok cm s msgs s1 Hp Hg) as (Hl & Hbl & Hp1 & Hbs & _).
  assert (send_rel s s1) as Ht.
  { unfold getMessages in Hg. destruct (pool_get _ _ _). by injection Hg as <- <-. }
  intros HE. apply go_bind_Ret in HE as (ms & Hpr & HE).
  assert (headers_ok (os := os) (sb_batchSize s) msgs) as Hh.
  { split; [done|]. eapply list.Forall_impl; [exact Hbl|]. by intros ? [? _]. }
  destruct (prepare_prepared _ _ _ _ Hh Hpr) as [Hh2 (bs & Hbs2 & _)].
  apply go_bind_Ret in HE as ([[[[n err] ms2] m2] w2] & Hr & HE).
  destruct (read_messages_headers _ _ _ _ _ _ _ _ _ _ _ _ Hbs2 Hh2 Hr) as ([Hl3 Hh3] & Hw & Hs).
  assert (pools_ok (os := os) (putMessages ms2 s1)) as Hfin by (apply putMessages_ok; [done|congruence|done]).
  destruct err; [by injection HE as <-|]. apply go_bind_Ret in HE as (o' & _ & [= <-]). done.
Qed.
End ReceivePools.

(** What receiving does to memory: it writes into the caller's buffers only. *)
Section ReceiveMemory.
Context {U : UnixABI} `{Env W} {L : EnvLaws W} {os : GOOS} (bufs : list slice).

Definition in_bufs (m : mem) (msg : Message) : Prop := exists b, m_Buffers msg = [b] /\ b ∈ bufs /\ slice_ok m b.

Lemma in_bufs_writes m m' msgs : writes_in bufs m m' -> Forall (in_bufs m) msgs -> Forall (in_bufs m') msgs.
Proof. intros [_ K] Hf. eapply list.Forall_impl; [exact Hf|]. intros msg (b & ? & ? & ?). exists b. auto. Qed.

Lemma recv_buf_writes m b pk m' n : b ∈ bufs -> slice_ok m b -> recv_buf m b pk = (m', n) -> writes_in bufs m m'.
Proof.
  intros Hb Hok [= <- _]. apply writes_in_store; try done. rewrite length_take. destruct Hok. lia.
Qed.

Lemma recv_batch_writes pks : forall m msgs bs m' msgs',
  Forall (fun b => b ∈ bufs /\ slice_ok m b) bs -> recv_batch m msgs bs pks = (m', msgs') -> writes_in bufs m m'.
Proof.
  induction pks as [|pk pks IH]; intros m msgs bs m' msgs' Hb HE.
  { destruct msgs, bs; injection HE as <- <-; apply writes_in_refl. }
  destruct msgs as [|msg msgs]; [injection HE as <- <-; apply writes_in_refl|].
  destruct bs as [|b bs]; [injection HE as <- <-; apply writes_in_refl|].
  inversion Hb as [|? ? [Hin Hok] Hb']; subst. cbn [recv_batch] in HE. unfold recv_msg in HE.
  destruct (recv_buf m b pk) as [m1 n] eqn:E1. destruct (recv_oob _ pk) as [o nn].
  destruct (recv_batch m1 msgs bs pks) as [m2 r] eqn:E2. injection HE as <- <-.
  pose proof (recv_buf_writes _ _ _ _ _ Hin Hok E1) as W1. eapply writes_in_trans; [exact W1|].
  eapply IH; [|exact E2]. eapply list.Forall_impl; [exact Hb'|]. intros x [? ?]. split; [done|]. by apply W1.
Qed.

Lemma split_pieces_writes i g todo : forall start end_ st r,
  Forall (in_bufs (sp_mem st)) (sp_msgs st) -> split_pieces todo i g start end_ st = Ret r ->
  let st' := match r with inl st' | inr st' => st' end in
  writes_in bufs (sp_mem st) (sp_mem st') /\ Forall (in_bufs (sp_mem st')) (sp_msgs st').
Proof.
  induction todo as [|todo IH]; intros start end_ st r Hf HE; cbn [split_pieces] in HE.
  { injection HE as <-. split; [apply writes_in_refl|done]. }
  destruct (i <? sp_n st)%nat; [injection HE as <-; split; [apply writes_in_refl|done]|].
  apply go_bind_Ret in HE as (msg & Hm & HE). apply go_bind_Ret in HE as (src & _ & HE).
  apply go_bind_Ret in HE as (piece & _ & HE). apply go_bind_Ret in HE as (slot & Hs & HE).
  apply go_bind_Ret in HE as (dst & Hd & HE). destruct (go_copy _ _ _) as [m' copied] eqn:Hcp.
  apply go_bind_Ret in HE as (msg2 & _ & HE). apply must_Ret in Hs.
  destruct (Forall_lookup_1 _ _ _ _ Hf Hs) as (b & Hb & Hin & Hok).
  unfold buf0 in Hd. rewrite Hb in Hd. injection Hd as <-.
  assert (writes_in bufs (sp_mem st) m') as Hw.
  { unfold go_copy in Hcp. injection Hcp as <- _. apply writes_in_store; try done.
    rewrite length_take. destruct Hok. lia. }
  apply IH in HE as [Hw2 Hf2]; cbn [sp_mem sp_msgs] in *; [split; [by eapply writes_in_trans|done]|].
  apply Forall_insert; [by eapply in_bufs_writes|]. exists b. split; [done|]. split; [done|]. by apply Hw.
Qed.

Lemma split_loop_writes getGSO todo : forall i st st' e,
  Forall (in_bufs (sp_mem st)) (sp_msgs st) -> split_loop getGSO todo i st = Ret (st', e) ->
  writes_in bufs (sp_mem st) (sp_mem st').
Proof.
  induction todo as [|todo IH]; intros i st st' e Hf HE; cbn [split_loop] in HE.
  { injection HE as <- <-. apply writes_in_refl. }
  apply go_bind_Ret in HE as (msg & Hm & HE). destruct (m_N msg =? 0)%nat; [injection HE as <- <-; apply writes_in_refl|].
  apply go_bind_Ret in HE as (oob & _ & HE). apply go_bind_Ret in HE as ([e'|gso] & _ & HE).
  { injection HE as <- <-. apply writes_in_refl. }
  apply go_bind_Ret in HE as (r & Hp & HE). apply split_pieces_writes in Hp as [Hw Hf2]; [|done].
  destruct r as [st1|st1]; [by injection HE as <- <-|].
  apply go_bind_Ret in HE as (msg1 & Hm1 & HE). apply must_Ret in Hm1. apply IH in HE; [by eapply writes_in_trans|].
  unfold zero_source. cbn [sp_msgs sp_mem]. destruct (S i =? sp_n st1)%nat; [done|].
  apply Forall_insert; [done|]. by destruct (Forall_lookup_1 _ _ _ _ Hf2 Hm1) as (b & ? & ? & ?); exists b.
Qed.

Lemma read_messages_writes br c rx msgs bs m w r msgs' m' w' :
  Forall2 (fun msg b => m_Buffers msg = [b]) msgs bs -> Forall (fun b => b ∈ bufs /\ slice_ok m b) bs ->
  read_messages os br c rx msgs m w = Ret (r, msgs', m', w') -> writes_in bufs m m'.
Proof.
  assert (forall p msgs bs n err msgs' m' w', Forall2 (fun msg b => m_Buffers msg = [b]) msgs bs ->
    Forall (fun b => b ∈ bufs /\ slice_ok m b) bs ->
    env_read_batch p m msgs w = ((n, err), msgs', m', w') ->
    writes_in bufs m m' /\ map m_Buffers msgs' = map m_Buffers msgs) as Hrb.
  { clear -L. intros p msgs bs n err msgs' m' w' Hf Hb HE. apply (law_read_batch _ _ _ bs) in HE; [|done].
    destruct err as [e|]; [destruct HE as [-> ->]; split; [apply writes_in_refl|done]|].
    destruct HE as (pks & _ & _ & _ & HE). split; [by eapply recv_batch_writes|]. clear -HE.
    revert m msgs bs m' msgs' HE. induction pks as [|pk pks IH]; intros m [|msg msgs] [|b bs] m' msgs' HE;
      try (by injection HE as <- <-). cbn [recv_batch] in HE. unfold recv_msg in HE.
    destruct (recv_buf m b pk) as [m1 n]. destruct (recv_oob _ pk) as [o nn].
    destruct (recv_batch m1 msgs bs pks) as [m2 r] eqn:E. injection HE as <- <-. cbn. by rewrite (IH _ _ _ _ _ E). }
  intros Hf Hb. unfold read_messages. destruct (if linux_or_android os then br else None) as [p|].
  - destruct (rx && _).
    + set (k := (length msgs - _)%nat).
      destruct (env_read_batch p m (drop k msgs) w) as [[[[x err] tail] m1] w1] eqn:ER.
      destruct (Hrb _ _ _ _ _ _ _ _ (Forall2_drop _ _ _ k Hf) (Forall_drop _ k _ Hb) ER) as [Hw Hbufs].
      destruct err as [e|]; [by intros [= _ _ <- _]|]. intros HE.
      apply go_bind_Ret in HE as ([[[j e] msgs2] m2] & Hs & HE).
      assert (m' = m2) as -> by (destruct e; by injection HE as _ _ <- _).
      unfold splitCoalescedMessages in Hs. apply go_bind_Ret in Hs as ([st e'] & Hl & [= _ _ _ <-]).
      apply split_loop_writes in Hl; [by eapply writes_in_trans|]. cbn [sp_mem sp_msgs].
      assert (Forall (fun bs => exists b, bs = [b] /\ b ∈ bufs /\ slice_ok m b) (map m_Buffers msgs)) as Hall.
      { apply Forall_map. clear -Hf Hb. induction Hf as [|msg b ms bs' Hm _ IH]; [done|].
        inversion Hb as [|? ? [? ?] ?]; subst. constructor; [by exists b|by apply IH]. }
      rewrite <- (take_drop k msgs), map_app, <- Hbufs, <- map_app in Hall.
      assert (Forall (in_bufs m) (take k msgs ++ tail)) as Hall2
        by (apply Forall_lookup; intros i msg Hi; eapply (Forall_lookup_1 _ _ i _ Hall); by rewrite list_lookup_fmap, Hi).
      by eapply in_bufs_writes.
    + destruct (env_read_batch p m msgs w) as [[[[x err] msgs1] m1] w1] eqn:ER.
      destruct (Hrb _ _ _ _ _ _ _ _ Hf Hb ER) as [Hw _]. destruct err; by intros [= _ _ <- _].
  - intros HE. apply go_bind_Ret in HE as (msg & Hm & HE). apply go_bind_Ret in HE as (b & Hd & HE).
    apply must_Ret in Hm. destruct (Forall2_lookup_l _ _ _ _ _ Hf Hm) as (b' & Hb' & Hmb).
    destruct (Forall_lookup_1 _ _ _ _ Hb Hb') as [Hin Hok]. unfold buf0 in Hd. rewrite Hmb in Hd. injection Hd as <-.
    destruct (env_read_msg c m b' (m_OOB msg) w) as [[[res o] m1] w1] eqn:ER. apply law_read_msg in ER.
    assert (writes_in bufs m m1) as Hw.
    { destruct res as [e|[[[? ?] ?] ?]]; [destruct ER as [_ ->]; apply writes_in_refl|].
      destruct ER as (pk & _ & Hr & _). by eapply recv_buf_writes. }
    destruct res as [e|[[[? ?] ?] ?]]; by injection HE as _ _ <- _.
Qed.

Lemma receiveIP_writes cm s br c rx m o w r :
  pools_ok (os := os) s -> Forall (slice_ok m) bufs -> receiveIP os cm s br c rx m bufs o w = Ret r ->
  writes_in bufs m (rb_mem r).
Proof.
  intros Hp Hok. unfold receiveIP. destruct (validateReceiveBuffers _ _ _ _).
  { intros [= <-]. apply writes_in_refl. }
  destruct (getMessages os cm s) as [msgs s1] eqn:Hg.
  destruct (getMessages_ok cm s msgs s1 Hp Hg) as (Hl & Hbl & _ & _ & _).
  intros HE. apply go_bind_Ret in HE as (ms & Hpr & HE).
  assert (headers_ok (os := os) (sb_batchSize s) msgs) as Hh.
  { split; [done|]. eapply list.Forall_impl; [exact Hbl|]. by intros ? [? _]. }
  destruct (prepare_prepared _ _ _ _ Hh Hpr) as [_ (bs & Hbs & Hin)].
  apply go_bind_Ret in HE as ([[[[n err] ms2] m2] w2] & Hr & HE).
  assert (writes_in bufs m m2) as Hw.
  { eapply read_messages_writes; [|by apply Forall_and; split; [exact Hin|]; eapply list.Forall_impl; [exact Hin|];
      intros b Hb; rewrite list.Forall_forall in Hok; apply Hok|exact Hr].
    eapply Forall2_impl; [exact Hbs|]. by intros ? ? [? _]. }
  destruct err; [by injection HE as <-|]. by apply go_bind_Ret in HE as (o' & _ & [= <-]).
Qed.
End ReceiveMemory.

(** A step of a call, and so all of [Send], keeps the sockets. *)
Section SendFrame.
Context {U : UnixABI} `{Env W} {L : EnvLaws W} {F : EnvFrame W} {os : GOOS}.

Lemma send_rel_trans s1 s2 s3 : send_rel s1 s2 -> send_rel s2 s3 -> send_rel s1 s3.
Proof. unfold send_rel. intuition congruence. Qed.

Lemma send_once_open l m rest w r ev w' :
  send_once os l m rest w = Ret (r, ev, w') -> open_conns w' = open_conns w.
Proof.
  unfold send_once. destruct (if linux_or_android os then lc_br l else None) as [p|].
  - destruct (env_write_batch p _ w) as [[n e] w1] eqn:E. apply frame_write_batch in E as [Ho _].
    destruct (match e with Some _ => _ | None => _ end); [by intros [= _ _ <-]|].
    intros HE. by apply go_bind_Ret in HE as (? & _ & [= _ _ <-]).
  - destruct rest as [|msg rest]; [by intros [= _ _ <-]|]. intros HE.
    apply go_bind_Ret in HE as (b & _ & HE). apply go_bind_Ret in HE as (a & _ & HE).
    destruct (env_write_msg _ _ _ _ w) as [e w1] eqn:E. apply frame_write_msg in E as [Ho _].
    destruct e; by injection HE as _ _ <-.
Qed.

Lemma send_step_rel cm cu t s m w t' ev s' m' w' :
  send_step os cm cu t s m w = Some (Ret (t', ev, s', m', w')) -> send_rel s s' /\ open_conns w' = open_conns w.
Proof.
  unfold send_step. destruct (sc_pc t) as [|f c|l|l rest|l|l err|err].
  - intros [= _ _ <- _ <-]. done.
  - destruct (getMessages os cm s) as [msgs s1] eqn:Hg. destruct (pool_get cu _ _) as [ua pool].
    intros HE. injection HE as HE. apply go_bind_Ret in HE as (ua' & _ & HE). apply go_bind_Ret in HE as (e & _ & [= _ _ <- _ <-]).
    unfold getMessages in Hg. destruct (pool_get _ _ _). by injection Hg as _ <-.
  - destruct (lc_offload l); intros HE; injection HE as HE.
    + apply go_bind_Ret in HE as (e & _ & HE). apply go_bind_Ret in HE as ([[n ms] m1] & _ & [= _ _ <- _ <-]). done.
    + apply go_bind_Ret in HE as (ms & _ & [= _ _ <- _ <-]). done.
  - intros HE. injection HE as HE. apply go_bind_Ret in HE as ([[r ev1] w1] & Hs & [= _ _ <- _ <-]).
    split; [done|]. by eapply send_once_open.
  - intros [= _ _ <- _ <-]. split; [|done]. unfold send_rel. destruct (Is6 _); cbn; repeat split; by intros ->.
  - intros [= _ _ <- _ <-]. done.
  - done.
Qed.

Lemma Send_rel cm cu s m bufs ep w err s' m' w' :
  Send os cm cu s m bufs ep w = Ret (err, s', m', w') -> send_rel s s' /\ open_conns w' = open_conns w.
Proof.
  intros HE. apply Send_runs in HE.
  assert (forall x y, rtc (alone os cm cu) x y -> send_rel x.1.1.2 y.1.1.2 /\ open_conns y.2 = open_conns x.2) as Hr.
  { clear s m bufs ep w err s' m' w' HE. induction 1 as [x|x y z [ev Hst] _ [IH1 IH2]]; [done|]. apply send_step_rel in Hst as [H1 H2].
    split; [by eapply send_rel_trans|congruence]. }
  exact (Hr _ _ HE).
Qed.
End SendFrame.

(** ** The system *)

(** A pooled address takes any destination; an IPv4 one is stored intact. *)
Lemma set_dst_total ua dst port :
  udpaddr_ok ua -> Addr_ok dst -> dst <> AddrZero -> (0 <= port < 65536)%Z ->
  exists ua', set_dst ua dst = Ret ua' /\
    let u := mkUDPAddr (ua_IP ua') port (ua_Zone ua') in
    udpaddr_ok u /\ (Is6 dst = false -> UDPAddr_AddrPort u = mkAddrPort (WithZone dst "") port).
Proof.
  intros Hu Hok Hne Hp.
  destruct (decide (Is6 dst = true /\ gb_len (ua_IP ua) <> 16)) as [[H6 H16]|Hd].
  2: { destruct (set_dst_spec ua dst Hu Hok Hne) as (ua' & HE & Hs); [destruct (decide (gb_len (ua_IP ua) = 16)); naive_solver|].
       exists ua'. split; [done|]. destruct (Hs port Hp) as [? ?]. by split. }
  destruct Hu as (Hc & Hl & Hz). unfold set_dst. rewrite H6. unfold gb_copy_at.
  rewrite (proj2 (Nat.leb_le 0 _)) by lia. cbn [check mbind go_mbind].
  assert (length (splice 0 (take (gb_len (ua_IP ua) - 0) (As16 dst)) (gb_arr (ua_IP ua))) = 16) as Hs.
  { unfold gb_cap in Hc. rewrite length_splice; [done|]. rewrite length_take. lia. }
  unfold gb_reslice, gb_cap. cbn [gb_arr]. rewrite Hs. cbn [Nat.leb check mbind go_mbind].
  eexists. split; [reflexivity|]. split; [|intros; congruence].
  unfold udpaddr_ok, gb_cap. cbn [ua_IP ua_Zone gb_arr gb_len]. auto.
Qed.

(** A bind with its calls of [Send] and the memory of the process: the request
    behind each call, and what each call handed to the kernel, in the order in
    which it did. *)
Record bind_sys (W : Type) := mkSys {
  sy_bind : StdNetBind; sy_mem : mem; sy_world : W; sy_calls : list send_call;
  sy_reqs : list (list (list byte) * StdNetEndpoint);
  sy_log : list (nat * (conn * wire));
}.
Arguments mkSys {W}. Arguments sy_bind {W}. Arguments sy_mem {W}. Arguments sy_world {W}. Arguments sy_calls {W}.
Arguments sy_reqs {W}. Arguments sy_log {W}.

(** A call that has not returned, and buffers that share no storage with those
    of such calls. *)
Definition running (t : send_call) : Prop := forall err, sc_pc t <> S_done err.
Definition apart (bufs bufs' : list slice) : Prop := Forall (fun b => Forall (sep b) bufs') bufs.
Definition free (ts : list send_call) (bufs : list slice) : Prop :=
  Forall (fun t => running t -> apart bufs (sc_bufs t)) ts.
(** Memory that agrees on the windows of [bufs]. *)
Definition same_windows (bufs : list slice) (m m' : mem) : Prop :=
  forall x own, own ∈ bufs -> window x own -> slice_ok m x -> slice_ok m' x /\ load m' x = load m x.

(** What a caller of [Send] passes: buffers that do not share storage, none
    empty, no more than the batch size, and an endpoint with a destination. *)
Record call_ok {U : UnixABI} (batchSize : nat) (m : mem) (bufs : list slice) (e : StdNetEndpoint) : Prop := {
  ca_seps : seps bufs;
  ca_slices : Forall (slice_ok m) bufs;
  ca_nonempty : Forall (fun b => 0 < s_len b) bufs;
  ca_batch : length bufs <= batchSize;
  ca_src : src_control e;
  ca_room : src_len e <= stickyControlSize_linux;
  ca_addr : Addr_ok (DstIP e) /\ DstIP e <> AddrZero;
  ca_port : (0 <= ap_port (ep_AddrPort e) < 65536)%Z;
}.

Section System.
Context {U : UnixABI} {UL : UnixLaws U} `{Env W} {L : EnvLaws W} {F : EnvFrame W} (fuel : nat).

(** The interleavings: a new call, a step of a call, [Open] and [Close] as a
    whole under the lock, a block of [SetMark], which reads the socket without
    the lock, so that it may be any socket that the bind has had, the read that
    follows the check of a receive function, and writes of the application.
    Whoever passes or writes a buffer stays away from the buffers of calls that
    have not returned. *)
Inductive bind_step : bind_sys W -> bind_sys W -> Prop :=
| step_call s m w ts qs log bufs e :
    call_ok (sb_batchSize s) m bufs e -> free ts bufs ->
    bind_step (mkSys s m w ts qs log)
      (mkSys s m w (ts ++ [mkCall bufs (EpStd e) S_start]) (qs ++ [(map (load m) bufs, e)]) log)
| step_send s m w ts qs log i t cm cu t' ev s' m' w' :
    ts !! i = Some t -> send_step Linux cm cu t s m w = Some (Ret (t', ev, s', m', w')) ->
    bind_step (mkSys s m w ts qs log) (mkSys s' m' w' (<[i := t']> ts) qs (log ++ map (pair i) ev))
| step_open s m w ts qs log uport r e s' w' :
    (0 <= uport < 65536)%Z -> Open Linux fuel s uport w = Ret (r, e, s', w') ->
    bind_step (mkSys s m w ts qs log) (mkSys s' m w' ts qs log)
| step_close s m w ts qs log err s' w' :
    Close s w = (err, s', w') -> bind_step (mkSys s m w ts qs log) (mkSys s' m w' ts qs log)
| step_mark s m w ts qs log c mark :
    bind_step (mkSys s m w ts qs log) (mkSys s m (set_mark_on Linux c mark w).2 ts qs log)
| step_receive s m w ts qs log cm br c rx bufs o r :
    Forall (slice_ok m) bufs -> free ts bufs -> receiveIP Linux cm s br c rx m bufs o w = Ret r ->
    bind_step (mkSys s m w ts qs log) (mkSys (rb_bind r) (rb_mem r) (rb_world r) ts qs log)
| step_write s m w ts qs log m' :
    Forall (fun t => running t -> same_windows (sc_bufs t) m m') ts ->
    bind_step (mkSys s m w ts qs log) (mkSys s m' w ts qs log).

(** *** The bind *)

(** The sockets the bind does not own stay open, and the bind owns exactly the
    others; its fields fit together and its pools hold blank headers. *)
Record bind_inv (N : nat) (X : gset conn) (s : StdNetBind) (w : W) : Prop := {
  bi_typed : bind_typed Linux fuel s;
  bi_pools : pools_ok (os := Linux) s;
  bi_batch : sb_batchSize s = N;
  bi_black : sb_blackhole4 s = false /\ sb_blackhole6 s = false;
  bi_open : open_conns w = bind_conns s ∪ X;
  bi_own : bind_conns s ## X;
}.

Lemma send_rel_typed s s' : send_rel s s' -> bind_typed Linux fuel s -> bind_typed Linux fuel s'.
Proof.
  intros (E1 & E2 & E3 & E4 & E5 & E6 & E7 & E8 & E9 & E10 & E11) [T4 T6].
  unfold bind_typed, family_typed in *. rewrite E1, E2, E3, E4, E5, E6, E9, E10.
  destruct (sb_ipv4 s), (sb_ipv6 s); naive_solver.
Qed.

Lemma send_rel_inv N X s s' w w' :
  bind_inv N X s w -> send_rel s s' -> pools_ok (os := Linux) s' -> open_conns w' = open_conns w ->
  bind_inv N X s' w'.
Proof.
  intros [T P B K O D] R P' O'. pose proof (send_rel_typed _ _ R T) as T'.
  destruct R as (E1 & E2 & _ & _ & _ & _ & _ & _ & E9 & E10 & E11). split; try done.
  - congruence.
  - by rewrite E9, E10.
  - unfold bind_conns in *. by rewrite E1, E2, O'.
  - unfold bind_conns in *. by rewrite E1, E2.
Qed.

Lemma Open_inv N X s w uport r e s' w' :
  (forall c, wrap_depth c < fuel) -> (0 <= uport < 65536)%Z ->
  bind_inv N X s w -> Open Linux fuel s uport w = Ret (r, e, s', w') -> bind_inv N X s' w'.
Proof.
  intros Hf Hu I HO. pose proof I as [T P B K O D].
  destruct (sb_ipv4 s) eqn:E4; [unfold Open in HO; rewrite E4 in HO; by injection HO as _ _ <- <-|].
  destruct (sb_ipv6 s) eqn:E6; [unfold Open in HO; rewrite E4, E6 in HO; by injection HO as _ _ <- <-|].
  assert (bind_typed Linux fuel s') as T'
    by (eapply Open_typed; [|exact T|exact HO]; intros c; apply unwrapUDPConn_total, Hf).
  destruct (Open_spec (os := Linux) fuel s uport w Hf Hu E4 E6) as (r1 & ev1 & s1 & w1 & HO1 & Hr).
  rewrite HO in HO1. injection HO1 as <- <- <- <-.
  assert (open_conns w = X) as O0.
  { rewrite O. unfold bind_conns, conns. rewrite E4, E6. cbn. set_solver. }
  destruct r as [err|[fns port]].
  - destruct Hr as (-> & Hw & _). split; try done. by rewrite Hw.
  - destruct Hr as (Ho & Hd & _ & _ & _ & _ & _ & Hc). destruct Hc as (_ & _ & C3 & C4 & C5 & C6 & C7).
    rewrite O0 in Ho, Hd. split; try done.
    + unfold pools_ok in *. by rewrite C3, C4, C7.
    + congruence.
    + by rewrite C5, C6.
Qed.

Lemma Close_inv N X s w err s' w' :
  bind_inv N X s w -> Close s w = (err, s', w') -> bind_inv N X s' w'.
Proof.
  intros [T P B K O D] HC. pose proof (Close_open _ _ _ _ _ HC) as Ho.
  pose proof (Close_typed Linux fuel _ _ _ _ _ T HC) as T'.
  unfold Close in HC. destruct (close_conn (sb_ipv4 s) w) as [e1 w1].
  destruct (close_conn (sb_ipv6 s) w1) as [e2 w2]. injection HC as _ <- <-. split; try done.
  - rewrite Ho, O. revert D. generalize (bind_conns s). unfold bind_conns, conns. cbn. clear. intros A D. set_solver.
Qed.

(** *** A call *)

(** The destination of a call: only IPv4 destinations are
    transferred to a pooled address for sure. *)
Definition dst_ok (e : StdNetEndpoint) (dst : AddrPort) : Prop := Is6 (DstIP e) = false -> dst = send_dst e.

(** The outcome of a call that sent [em]. *)
Definition call_outcome (data : list (list byte)) (e : StdNetEndpoint) (em : list (list byte * option AddrPort))
    (err : option error) : Prop :=
  (err = Some (EErrno EAFNOSUPPORT) /\ em = []) \/
  exists dst retried, dst_ok e dst /\ send_outcome (at_dst dst data) em retried err.

Record locals_ok (N : nat) (e : StdNetEndpoint) (l : locals) : Prop := {
  lo_headers : headers_ok (os := Linux) N (lc_msgs l);
  lo_ua : udpaddr_ok (lc_ua l);
  lo_dst : dst_ok e (UDPAddr_AddrPort (lc_ua l));
  lo_once : lc_offload l = true -> lc_retried l = false;
}.

(** What the first attempt sent, when there was one. *)
Definition first_try (l : locals) (data : list (list byte)) (em : list (list byte * option AddrPort)) : Prop :=
  if lc_retried l then exists k, em = take k (at_dst (UDPAddr_AddrPort (lc_ua l)) data) else em = [].

(** The buffers of a running call hold its request. *)
Definition buffers_ok (data : list (list byte)) (m : mem) (bufs : list slice) : Prop :=
  seps bufs /\ Forall (slice_ok m) bufs /\ Forall (fun b => 0 < s_len b) bufs /\ map (load m) bufs = data.

(** What a call has sent ([ev]) at each program point. *)
Definition pc_inv (N : nat) (data : list (list byte)) (e : StdNetEndpoint) (m : mem) (t : send_call) (ev : list wire) : Prop :=
  match sc_pc t with
  | S_start | S_pools _ _ => ev = []
  | S_retry l => locals_ok N e l /\ first_try l data (emitted ev)
  | S_write l rest =>
      locals_ok N e l /\ Forall addressed rest /\ Forall (in_window (sc_bufs t)) rest /\ length rest <= N /\
      exists a b, ev = a ++ b /\ first_try l data (emitted a) /\
        emitted (b ++ map (wire_of m) rest) = at_dst (UDPAddr_AddrPort (lc_ua l)) data
  | S_disable l => locals_ok N e l /\ exists k, emitted ev = take k (at_dst (UDPAddr_AddrPort (lc_ua l)) data)
  | S_put l err =>
      locals_ok N e l /\ exists a b k, ev = a ++ b /\ first_try l data (emitted a) /\
        emitted b = take k (at_dst (UDPAddr_AddrPort (lc_ua l)) data) /\
        (err = None -> emitted b = at_dst (UDPAddr_AddrPort (lc_ua l)) data)
  | S_done err => call_outcome data e (emitted ev) err
  end.

Record call_inv (N : nat) (data : list (list byte)) (e : StdNetEndpoint) (m : mem) (t : send_call) (ev : list wire) : Prop := {
  ci_ep : sc_ep t = EpStd e;
  ci_bufs : running t -> buffers_ok data m (sc_bufs t);
  ci_batch : length (sc_bufs t) <= N;
  ci_src : src_control e;
  ci_room : src_len e <= stickyControlSize_linux;
  ci_addr : Addr_ok (DstIP e) /\ DstIP e <> AddrZero;
  ci_port : (0 <= ap_port (ep_AddrPort e) < 65536)%Z;
  ci_pc : pc_inv N data e m t ev;
}.

(** A call keeps its invariant when its own windows keep their bytes. *)
Lemma call_inv_mem N data e m m' t ev :
  (running t -> same_windows (sc_bufs t) m m') -> call_inv N data e m t ev -> call_inv N data e m' t ev.
Proof.
  intros Hm [E B NB S R A P I]. split; try done.
  - intros Hr. destruct (B Hr) as (Hs & Hok & Hpos & Hd). pose proof (Hm Hr) as Hw.
    assert (forall b, b ∈ sc_bufs t -> slice_ok m' b /\ load m' b = load m b) as Hb.
    { intros b Hb. apply (Hw b b Hb); [done|]. rewrite list.Forall_forall in Hok. by apply Hok. }
    split_and!; try done.
    + apply list.Forall_forall. intros b Hin. by apply Hb.
    + rewrite <- Hd. apply map_ext_in. intros b Hin%list_elem_of_In. by apply Hb.
  - unfold pc_inv in *. destruct (sc_pc t) as [|f c|l|l rest|l|l err|err] eqn:Hpc; try done.
    assert (running t) as Hr by (intros err; by rewrite Hpc). destruct (B Hr) as (_ & Hok & _ & _).
    destruct I as (I1 & I2 & I3 & I4 & a & b & I5 & I6 & I7). split_and!; try done. exists a, b. split_and!; try done.
    rewrite <- I7. do 2 f_equal. apply map_ext_in. intros msg Hin%list_elem_of_In.
    rewrite list.Forall_forall in I3. destruct (I3 msg Hin) as (x & own & Hx & Ho & Hwin & Hlen).
    unfold wire_of. rewrite Hx. cbn. destruct (Hm Hr x own Ho Hwin) as [_ ->]; [|done].
    eapply window_ok; [exact Hwin| |done]. rewrite list.Forall_forall in Hok. by apply Hok.
Qed.

Lemma untouched_windows bufs bufs' m m' : untouched bufs m m' -> apart bufs bufs' -> same_windows bufs' m m'.
Proof.
  intros Hu Ha x own Hown Hw Hx. apply Hu; [done|]. eapply list.Forall_impl; [exact Ha|]. intros b Hb.
  rewrite list.Forall_forall in Hb. eapply window_sep; [exact Hw|]. apply sep_sym. by apply Hb.
Qed.

(** The number of steps a call still takes at most. *)
Definition steps_left (N : nat) (pc : send_pc) : nat :=
  match pc with
  | S_done _ => 0
  | S_put _ _ => 1
  | S_write l rest => (if lc_offload l then N + 5 else 0) + length rest + 2
  | S_disable _ => N + 4
  | S_retry l => (if lc_offload l then N + 5 else 0) + N + 3
  | S_pools _ _ => 2 * N + 9
  | S_start => 2 * N + 10
  end.

(** A step that is fine: it keeps the invariants of the call and of the bind,
    writes into the call's own buffers only, accounts for what it sent, and
    brings the call closer to its return. *)
Definition good_step (N : nat) (X : gset conn) (data : list (list byte)) (e : StdNetEndpoint)
    (t : send_call) (ev : list wire) (m : mem) (w : W)
    (t' : send_call) (new : list (conn * wire)) (s' : StdNetBind) (m' : mem) (w' : W) : Prop :=
  call_inv N data e m' t' (ev ++ new.*2) /\ bind_inv N X s' w' /\
  sc_bufs t' = sc_bufs t /\ untouched (sc_bufs t) m m' /\
  (forall c, sent w' c = sent w c ++ (filter (fun x => x.1 = c) new).*2) /\
  steps_left N (sc_pc t') < steps_left N (sc_pc t).

Lemma set_pc_inv N data e m t ev ev' pc :
  running t -> call_inv N data e m t ev -> pc_inv N data e m (set_pc t pc) ev' -> call_inv N data e m (set_pc t pc) ev'.
Proof. intros Hr [] Hpc. split; try done. auto. Qed.

(** A step that only moves the call. *)
Lemma quiet_step N X data e t ev s m w pc s' :
  running t -> call_inv N data e m t ev -> bind_inv N X s w -> send_rel s s' -> pools_ok (os := Linux) s' ->
  pc_inv N data e m (set_pc t pc) ev -> steps_left N pc < steps_left N (sc_pc t) ->
  good_step N X data e t ev m w (set_pc t pc) [] s' m w.
Proof.
  intros Hr C B R P Hpc Hm. split; [|split; [|split; [|split; [|split]]]]; try done.
  - rewrite fmap_nil, app_nil_r. by eapply set_pc_inv.
  - by eapply send_rel_inv.
  - intros c. cbn. by rewrite app_nil_r.
Qed.

Definition steps_well (N : nat) (X : gset conn) (data : list (list byte)) (e : StdNetEndpoint)
    (cm cu : nat) (t : send_call) (ev : list wire) (s : StdNetBind) (m : mem) (w : W) : Prop :=
  exists t' new s' m' w', send_step Linux cm cu t s m w = Some (Ret (t', new, s', m', w')) /\
    good_step N X data e t ev m w t' new s' m' w'.

Lemma start_well N X data e cm cu t ev s m w :
  call_inv N data e m t ev -> bind_inv N X s w -> sc_pc t = S_start -> steps_well N X data e cm cu t ev s m w.
Proof.
  intros C B Hpc. unfold steps_well, send_step. rewrite Hpc. eexists _, _, _, _, _. split; [reflexivity|].
  pose proof (ci_pc _ _ _ _ _ _ C) as I. unfold pc_inv in I. rewrite Hpc in I. subst ev. assert (running t) as Hrun by (intros err0; by rewrite Hpc).
  assert (fa_blackhole (family_of s (Is6 (Endpoint_DstIP (sc_ep t)))) = false) as ->
    by (destruct (bi_black _ _ _ _ B); by destruct (Is6 _)).
  apply (quiet_step N X data e t [] s m w); try done; try apply B.
  - destruct (fa_conn _); [done|]. by left.
  - rewrite Hpc. destruct (fa_conn _); cbn; lia.
Qed.

Lemma pools_well N X data e cm cu t ev s m w f c :
  call_inv N data e m t ev -> bind_inv N X s w -> sc_pc t = S_pools f c -> steps_well N X data e cm cu t ev s m w.
Proof.
  intros C B Hpc. unfold steps_well, send_step. rewrite Hpc.
  pose proof (ci_pc _ _ _ _ _ _ C) as I. unfold pc_inv in I. rewrite Hpc in I. subst ev. assert (running t) as Hrun by (intros err0; by rewrite Hpc).
  destruct (getMessages Linux cm s) as [msgs s1] eqn:Hg.
  destruct (getMessages_ok cm s msgs s1 (bi_pools _ _ _ _ B) Hg) as (Hlm & Hblank & Hp1 & Hbs & Hup).
  destruct (pool_get_Forall udpaddr_ok cu (sb_udpAddrPool s1) new_udpAddr) as [Hu1 Hu2];
    [apply Hp1|by repeat split; auto|].
  destruct (pool_get cu (sb_udpAddrPool s1) new_udpAddr) as [ua0 pool]. cbn [fst snd] in *.
  destruct (ci_addr _ _ _ _ _ _ C) as [Hao Hnz].
  destruct (set_dst_total ua0 (DstIP e) (ap_port (ep_AddrPort e)) Hu1 Hao Hnz (ci_port _ _ _ _ _ _ C))
    as (ua1 & Hset & Huok & Hdst).
  rewrite (ci_ep _ _ _ _ _ _ C). cbn [Endpoint_DstIP]. rewrite Hset. cbn [mbind go_mbind as_std].
  eexists _, _, _, _, _. split; [reflexivity|].
  apply (quiet_step N X data e t [] s m w); try done.
  - unfold getMessages in Hg. destruct (pool_get _ _ _). injection Hg as _ <-. by unfold send_rel.
  - split; [apply Hp1|done].
  - split; [|done]. split; cbn; try done.
    rewrite <- (bi_batch _ _ _ _ B). by apply blank_headers.
  - rewrite Hpc. cbn. destruct (fa_offload f); lia.
Qed.

(** Messages made for the destination of the call. *)
Lemma retry_well N X data e cm cu t ev s m w l :
  call_inv N data e m t ev -> bind_inv N X s w -> sc_pc t = S_retry l -> steps_well N X data e cm cu t ev s m w.
Proof.
  intros C B Hpc. unfold steps_well, send_step. rewrite Hpc.
  assert (running t) as Hrun by (intros err0; by rewrite Hpc).
  pose proof (ci_pc _ _ _ _ _ _ C) as I. unfold pc_inv in I. rewrite Hpc in I.
  destruct I as ([Hh Hua Hdst Honce] & Hfirst). rewrite (ci_ep _ _ _ _ _ _ C).
  destruct (ci_bufs _ _ _ _ _ _ C Hrun) as (Hsep & Hok & Hpos & Hdata).
  pose proof (ci_src _ _ _ _ _ _ C) as Hsrc. pose proof (ci_room _ _ _ _ _ _ C) as Hroom.
  pose proof (ci_batch _ _ _ _ _ _ C) as Hle. destruct (lc_offload l) eqn:Hoff.
  - pose proof (control_linux e Hsrc).
    destruct (coalesce_contract Linux (setGSOSize Linux) (lc_ua l) e (oob_ok_linux e) (gso_ready_linux e)
      m (sc_bufs t) (lc_msgs l) Hsep Hok Hpos) as (k & msgs' & m' & HE & (Hk & Hd & Ha & _ & Hl) & Hunt & Hok' & Hwin & _).
    { by eapply coalesce_headers_ready. } { destruct Hh; lia. }
    pose proof (coalesceMessages_headers _ _ _ _ _ _ _ Hh HE) as Hh'.
    cbn [as_std mbind go_mbind]. rewrite HE. cbn [mbind go_mbind].
    eexists _, _, _, _, _. split; [reflexivity|]. split; [|split; [|split; [|split; [|split]]]]; try done.
    + rewrite fmap_nil, app_nil_r. destruct C. split; cbn; try done.
      { intros _. split_and!; try done. congruence. }
      split; [by split|]. split; [|split; [|split]].
      * destruct Hh' as [_ Hf]. apply (Forall_take _ k) in Hf. clear -Hf Ha.
        induction Hf as [|msg ms [[b Hb] _] _ IH]; constructor; inversion Ha; subst; [|by apply IH].
        by exists b, (lc_ua l).
      * done.
      * rewrite length_take. destruct Hh'. lia.
      * exists ev, []. split; [by rewrite app_nil_r|]. split; [done|].
        change (emitted (map (wire_of m') (take k msgs')) = at_dst (UDPAddr_AddrPort (lc_ua l)) data).
        rewrite (emitted_to m' (lc_ua l)) by done. unfold at_dst. congruence.
    + intros c. cbn. by rewrite app_nil_r.
    + rewrite Hpc. cbn. rewrite Hoff, length_take. destruct Hh'. lia.
  - destruct (fill_msgs_spec (os := Linux) (addr := lc_ua l) (ep := e) (sc_bufs t) (lc_msgs l) N Hh Hle)
      as (msgs' & HE & Hh' & Hf).
    rewrite HE. cbn [mbind go_mbind]. destruct (plain_datagrams m e _ _ _ Hsrc Hroom Hf) as (Hd & Ha & _).
    eexists _, _, _, _, _. split; [reflexivity|].
    apply (quiet_step N X data e t ev s m w); try done; try apply B; [|rewrite Hpc; cbn; rewrite Hoff, length_take; destruct Hh'; lia].
    split; [by split|]. split; [|split; [|split]].
    + clear -Hf. induction Hf as [|b msg bs ms (Hb & Ha & _) _ IH]; constructor; [|done]. by exists b, (lc_ua l).
    + cbn [sc_bufs set_pc]. apply Forall_lookup. intros i msg Hi.
      destruct (Forall2_lookup_r _ _ _ _ _ Hf Hi) as (b & Hbi & Hmb & _). exists b, b.
      pose proof (list_elem_of_lookup_2 _ _ _ Hbi) as Hin. rewrite list.Forall_forall in Hok. by destruct (Hok b Hin).
    + rewrite length_take. lia.
    + exists ev, []. split; [by rewrite app_nil_r|]. split; [done|]. cbn [app].
      rewrite (emitted_to m (lc_ua l)) by done. by rewrite Hd, Hdata.
Qed.

Lemma disable_well N X data e cm cu t ev s m w l :
  call_inv N data e m t ev -> bind_inv N X s w -> sc_pc t = S_disable l -> steps_well N X data e cm cu t ev s m w.
Proof.
  intros C B Hpc. unfold steps_well, send_step. rewrite Hpc.
  assert (running t) as Hrun by (intros err0; by rewrite Hpc).
  pose proof (ci_pc _ _ _ _ _ _ C) as I. unfold pc_inv in I. rewrite Hpc in I. destruct I as ([] & k & Hk).
  eexists _, _, _, _, _. split; [reflexivity|]. apply (quiet_step N X data e t ev s m w); try done.
  - unfold send_rel. destruct (Is6 _); cbn; repeat split; by intros ->.
  - apply B.
  - split; [by split|]. by exists k.
  - rewrite Hpc. cbn. lia.
Qed.

Lemma put_well N X data e cm cu t ev s m w l err :
  call_inv N data e m t ev -> bind_inv N X s w -> sc_pc t = S_put l err -> steps_well N X data e cm cu t ev s m w.
Proof.
  intros C B Hpc. unfold steps_well, send_step. rewrite Hpc.
  assert (running t) as Hrun by (intros err0; by rewrite Hpc).
  pose proof (ci_pc _ _ _ _ _ _ C) as I. unfold pc_inv in I. rewrite Hpc in I.
  destruct I as ([Hh Hua Hdst Honce] & a & b & k & -> & Ha & Hb & Hnone).
  eexists _, _, _, _, _. split; [reflexivity|]. apply (quiet_step N X data e t (a ++ b) s m w); try done.
  - apply finish_pools; [apply B|done|]. by rewrite (bi_batch _ _ _ _ B).
  - right. exists (UDPAddr_AddrPort (lc_ua l)), (lc_retried l). split; [done|]. unfold first_try in Ha.
    rewrite emitted_app. unfold send_outcome. destruct (lc_retried l).
    + destruct Ha as [k1 ->]. eexists _, err, k1, k. rewrite Hb. split; [reflexivity|]. split; [done|].
      rewrite <- Hb. done.
    + rewrite Ha. cbn. by exists k.
  - rewrite Hpc. cbn. lia.
Qed.

(** The socket and the wires of an event. *)
Lemma filter_pairs (p c : conn) (l : list wire) :
  (filter (fun x : conn * wire => x.1 = c) (map (pair p) l)).*2 = if decide (c = p) then l else [].
Proof.
  induction l as [|x l IH]; [by case_decide|]. cbn [map]. destruct (decide (c = p)) as [->|Hne].
  - rewrite filter_cons_True by done. rewrite fmap_cons. by rewrite IH.
  - by rewrite filter_cons_False by (cbn; congruence).
Qed.
Lemma snd_pairs {A B} (p : A) (l : list B) : (map (pair p) l).*2 = l.
Proof. induction l as [|x l IH]; [done|]. cbn [map]. rewrite fmap_cons. by rewrite IH. Qed.

(** An iteration of the loop of [send] hands a prefix to the kernel, all of it
    when the loop ends without an error, and makes progress otherwise. *)
Lemma send_once_spec l m rest w :
  Forall addressed rest ->
  exists r new w', send_once Linux l m rest w = Ret (r, new, w') /\
    open_conns w' = open_conns w /\
    (forall c, sent w' c = sent w c ++ (filter (fun x => x.1 = c) new).*2) /\
    (exists k, new.*2 = take k (map (wire_of m) rest)) /\
    match r with
    | inl err => err = None -> new.*2 = map (wire_of m) rest
    | inr rest' => map (wire_of m) rest = new.*2 ++ map (wire_of m) rest' /\
        (exists k, rest' = drop k rest) /\ length rest' < length rest
    end.
Proof.
  intros Ha. unfold send_once. cbn [linux_or_android]. destruct (lc_br l) as [p|].
  - destruct (env_write_batch p (map (wire_of m) rest) w) as [[n err] w1] eqn:E.
    destruct (frame_write_batch _ _ _ _ _ E) as [Ho Hfr]. apply law_write_batch in E as (Hn & Hs & Hpos).
    set (ws := map (wire_of m) rest) in *.
    assert (forall c, sent w1 c = sent w c ++ (filter (fun x => x.1 = c) (map (pair p) (take n ws))).*2) as Hs'.
    { intros c. rewrite filter_pairs. case_decide as Hc; [by subst|]. by rewrite Hfr, app_nil_r by done. }
    assert (length ws = length rest) as Hlen by (unfold ws; apply length_map).
    destruct err as [er|]; [|destruct (Nat.eqb_spec n (length ws)) as [Hall|Hne]].
    + eexists _, _, _. split; [reflexivity|]. rewrite snd_pairs. split_and!; try done. by exists n.
    + eexists _, _, _. split; [reflexivity|]. rewrite snd_pairs. split_and!; try done; [by exists n|].
      intros _. rewrite Hall. apply take_ge. lia.
    + rewrite (proj2 (Nat.leb_le _ _) Hn). cbn [check mbind go_mbind].
      eexists _, _, _. split; [reflexivity|]. rewrite snd_pairs. split_and!; try done; [by exists n| |by exists n|].
      * unfold ws. rewrite <- skipn_map. by rewrite take_drop.
      * assert (0 < n) by (apply Hpos; [done|]; intros Hw; rewrite Hw in *; cbn in *; lia). rewrite length_drop. lia.
  - destruct rest as [|msg rest].
    { eexists _, _, _. split; [reflexivity|]. split_and!; try done; [|by exists 0].
      intros c. cbn. by rewrite app_nil_r. }
    inversion Ha as [|? ? (b & a & Hb & Haddr) Ha']; subst. unfold buf0. rewrite Hb, Haddr.
    cbn [lookup list_lookup must mbind go_mbind].
    destruct (env_write_msg (lc_conn l) _ _ _ w) as [err w1] eqn:E.
    destruct (frame_write_msg _ _ _ _ _ _ _ E) as [Ho Hfr]. apply law_write_msg in E.
    assert (wire_of m msg = mkWire [load m b] (gb_bytes (m_OOB msg)) (Some (UDPAddr_AddrPort a))) as Hw
      by (unfold wire_of; by rewrite Hb, Haddr).
    destruct err as [er|].
    + eexists _, _, _. split; [reflexivity|]. split_and!; try done; [|by exists 0]. intros c. cbn [filter].
      destruct (decide (c = lc_conn l)) as [->|Hne]; [done|]. rewrite Hfr by done. cbn. by rewrite app_nil_r.
    + eexists _, _, _. split; [reflexivity|]. split; [done|]. split; [|split; [|split; [|split]]].
      * intros c. change [(lc_conn l, ?x)] with (map (pair (lc_conn l)) [x]). rewrite filter_pairs.
        case_decide as Hc; [by subst|]. by rewrite Hfr, app_nil_r by done.
      * exists 1. cbn. by rewrite Hw.
      * cbn. by rewrite Hw.
      * by exists 1.
      * cbn. lia.
Qed.

Lemma write_well N X data e cm cu t ev s m w l rest :
  call_inv N data e m t ev -> bind_inv N X s w -> sc_pc t = S_write l rest -> steps_well N X data e cm cu t ev s m w.
Proof.
  intros C B Hpc. unfold steps_well, send_step. rewrite Hpc.
  assert (running t) as Hrun by (intros err0; by rewrite Hpc).
  pose proof (ci_pc _ _ _ _ _ _ C) as I. unfold pc_inv in I. rewrite Hpc in I.
  destruct I as (Hl & Haddr & Hwin & Hlen & a & b & -> & Hfirst & Hem).
  destruct (send_once_spec l m rest w Haddr) as (r & new & w' & HE & Ho & Hs & [k Hk] & Hr).
  rewrite HE. cbn [mbind go_mbind]. eexists _, _, _, _, _. split; [reflexivity|].
  assert (exists j, emitted (b ++ new.*2) = take j (at_dst (UDPAddr_AddrPort (lc_ua l)) data)) as [j Hj].
  { rewrite <- Hem, Hk. eexists. rewrite emitted_app.
    destruct (emitted_take k (map (wire_of m) rest)) as [rs Hrs].
    rewrite (emitted_app b (map _ rest)), Hrs, app_assoc. eapply prefix_take. reflexivity. }
  split; [|split; [|split; [|split; [|split]]]]; try done.
  - eapply set_pc_inv; [done|exact C|]. rewrite <- app_assoc.
    destruct r as [err|rest']; [unfold after_send; destruct (lc_offload l && _) eqn:Eoff|].
    + apply andb_true_iff in Eoff as [Eoff _]. split; [done|]. exists j. unfold first_try in Hfirst.
      rewrite (lo_once _ _ _ Hl Eoff) in Hfirst. by rewrite emitted_app, Hfirst.
    + split; [done|]. exists a, (b ++ new.*2), j. split_and!; try done. intros Hn. by rewrite (Hr Hn).
    + destruct Hr as (Hsplit & [d ->] & Hlt). split; [done|]. split; [by apply Forall_drop|].
      split; [by apply Forall_drop|]. split; [lia|].
      exists a, (b ++ new.*2). split_and!; try done. rewrite <- app_assoc. by rewrite <- Hsplit.
  - eapply send_rel_inv; [exact B|apply send_rel_refl|apply B|done].
  - rewrite Hpc. destruct r as [err|rest']; cbn [sc_pc set_pc].
    + unfold after_send. destruct (lc_offload l) eqn:Eo; cbn [andb]; [|cbn; lia]. destruct (match err with Some _ => _ | None => _ end);
        cbn; rewrite ?Eo; lia.
    + cbn. destruct Hr as (_ & _ & Hlt). lia.
Qed.

(** Every call that has not returned can take a step, and every step is fine. *)
Lemma call_steps_well N X data e cm cu t ev s m w :
  call_inv N data e m t ev -> bind_inv N X s w -> running t -> steps_well N X data e cm cu t ev s m w.
Proof.
  intros C B Hnd. destruct (sc_pc t) as [|f c|l|l rest|l|l err|err] eqn:Hpc.
  - by apply start_well.
  - by eapply pools_well.
  - by eapply retry_well.
  - by eapply write_well.
  - by eapply disable_well.
  - by eapply put_well.
  - by destruct (Hnd err).
Qed.

(** *** All interleavings *)

(** What call [i] sent, and what went out on socket [c]. *)
Definition log_of (i : nat) (log : list (nat * (conn * wire))) : list wire :=
  ((filter (fun x => x.1 = i) log).*2).*2.
Definition log_on (c : conn) (log : list (nat * (conn * wire))) : list wire :=
  (filter (fun x => x.1 = c) log.*2).*2.
#[local] Arguments log_of : simpl never.
#[local] Arguments log_on : simpl never.

Lemma log_of_app i log log' : log_of i (log ++ log') = log_of i log ++ log_of i log'.
Proof. unfold log_of. by rewrite filter_app, !fmap_app. Qed.
Lemma log_on_app c log log' : log_on c (log ++ log') = log_on c log ++ log_on c log'.
Proof. unfold log_on. by rewrite fmap_app, filter_app, fmap_app. Qed.
Lemma log_of_same i ev : log_of i (map (pair i) ev) = ev.*2.
Proof.
  unfold log_of. f_equal. induction ev as [|x ev IH]; [done|]. cbn [map].
  rewrite filter_cons_True by done. rewrite fmap_cons. by rewrite IH.
Qed.
Lemma log_of_other i j ev : i <> j -> log_of j (map (pair i) ev) = [].
Proof.
  intros Hne. unfold log_of. induction ev as [|x ev IH]; [done|]. cbn [map].
  by rewrite filter_cons_False.
Qed.
Lemma log_of_fresh i log : Forall (fun x => x.1 < i) log -> log_of i log = [].
Proof.
  unfold log_of. induction 1 as [|x log Hx _ IH]; [done|]. rewrite filter_cons_False; [done|lia].
Qed.

(** The invariant of a system that started in the world [w0]. *)
Record sys_inv (N : nat) (X : gset conn) (w0 : W) (σ : bind_sys W) : Prop := {
  si_bind : bind_inv N X (sy_bind σ) (sy_world σ);
  si_reqs : length (sy_calls σ) = length (sy_reqs σ);
  si_calls i t data e : sy_calls σ !! i = Some t -> sy_reqs σ !! i = Some (data, e) ->
    call_inv N data e (sy_mem σ) t (log_of i (sy_log σ));
  si_apart i j t u : i <> j -> sy_calls σ !! i = Some t -> sy_calls σ !! j = Some u ->
    running t -> running u -> apart (sc_bufs t) (sc_bufs u);
  si_sent c : sent (sy_world σ) c = sent w0 c ++ log_on c (sy_log σ);
  si_ids : Forall (fun x => x.1 < length (sy_calls σ)) (sy_log σ);
}.

(** Steps that leave the calls alone. *)
Lemma other_step_inv N X w0 s m w ts qs log s' m' w' :
  sys_inv N X w0 (mkSys s m w ts qs log) -> bind_inv N X s' w' -> sent w' = sent w ->
  Forall (fun t => running t -> same_windows (sc_bufs t) m m') ts ->
  sys_inv N X w0 (mkSys s' m' w' ts qs log).
Proof.
  intros [] B E Hm. split; cbn in *; try done; [|by rewrite E].
  intros i t data e Ht Hq. eapply call_inv_mem; [|by eauto]. exact (Forall_lookup_1 _ _ _ _ Hm Ht).
Qed.

Lemma same_mem (ts : list send_call) m : Forall (fun t => running t -> same_windows (sc_bufs t) m m) ts.
Proof. apply list.Forall_true. by intros t _ x own _ _ Hx. Qed.

Lemma apart_sym l l' : apart l l' -> apart l' l.
Proof.
  unfold apart. rewrite !list.Forall_forall. intros Ha b Hb. apply list.Forall_forall. intros b' Hb'.
  apply sep_sym. specialize (Ha b' Hb'). rewrite list.Forall_forall in Ha. by apply Ha.
Qed.

Lemma call_step_inv N X w0 s m w ts qs log bufs e :
  sys_inv N X w0 (mkSys s m w ts qs log) -> call_ok (sb_batchSize s) m bufs e -> free ts bufs ->
  sys_inv N X w0 (mkSys s m w (ts ++ [mkCall bufs (EpStd e) S_start]) (qs ++ [(map (load m) bufs, e)]) log).
Proof.
  intros [B Hl Hc Ha Hs Hids] K Hfree. cbn in *.
  assert (forall i t, (ts ++ [mkCall bufs (EpStd e) S_start]) !! i = Some t ->
    (ts !! i = Some t) \/ (i = length ts /\ t = mkCall bufs (EpStd e) S_start)) as Hsplit.
  { intros i t Hi. apply lookup_app_Some in Hi as [Hi|[Hge Hi]]; [by left|]. right.
    destruct (i - length ts) as [|n] eqn:En; [|by destruct n]. injection Hi as <-. split; [lia|done]. }
  split; cbn; try done.
  - rewrite !length_app. cbn. lia.
  - intros i t data e' Hi Hq. destruct (Hsplit i t Hi) as [Hi'|[-> ->]].
    + apply Hc; [done|]. rewrite lookup_app_l in Hq; [done|]. rewrite <- Hl. by eapply lookup_lt_Some.
    + rewrite Hl, lookup_app_r, Nat.sub_diag in Hq by lia. injection Hq as <- <-. rewrite (log_of_fresh _ _ Hids).
      destruct K. rewrite (bi_batch _ _ _ _ B) in *. by split; cbn.
  - intros i j t u Hij Hi Hj Ht Hu. destruct (Hsplit i t Hi) as [Hi'|[-> ->]], (Hsplit j u Hj) as [Hj'|[-> ->]].
    + by eapply (Ha i j).
    + apply apart_sym. by apply (Forall_lookup_1 _ _ _ _ Hfree Hi').
    + by apply (Forall_lookup_1 _ _ _ _ Hfree Hj').
    + done.
  - eapply list.Forall_impl; [exact Hids|]. intros x Hx. rewrite length_app. cbn in *. lia.
Qed.

Lemma step_running cm cu t s m w r : send_step Linux cm cu t s m w = Some r -> running t.
Proof. intros HE err Hpc. unfold send_step in HE. by rewrite Hpc in HE. Qed.

Lemma send_step_inv N X w0 s m w ts qs log i t cm cu t' ev s' m' w' :
  sys_inv N X w0 (mkSys s m w ts qs log) -> ts !! i = Some t ->
  send_step Linux cm cu t s m w = Some (Ret (t', ev, s', m', w')) ->
  sys_inv N X w0 (mkSys s' m' w' (<[i := t']> ts) qs (log ++ map (pair i) ev)) /\
  steps_left N (sc_pc t') < steps_left N (sc_pc t).
Proof.
  intros [B Hl Hc Ha Hs Hids] Ht HE. cbn in *. pose proof (lookup_lt_Some _ _ _ Ht) as Hi.
  destruct (lookup_lt_is_Some_2 qs i ltac:(lia)) as [[data e] Hq]. pose proof (Hc i t data e Ht Hq) as C.
  pose proof (step_running _ _ _ _ _ _ _ HE) as Hrun.
  destruct (call_steps_well N X data e cm cu t _ s m w C B Hrun) as
    (t1 & ev1 & s1 & m1 & w1 & HE1 & C' & B' & Hb' & Hu & S' & M').
  rewrite HE in HE1. injection HE1 as <- <- <- <- <-. split; [|done].
  assert (forall j u, <[i := t']> ts !! j = Some u -> (j = i /\ u = t') \/ (j <> i /\ ts !! j = Some u)) as Hlook.
  { intros j u Hj. destruct (decide (i = j)) as [<-|Hne].
    - rewrite list_lookup_insert_eq in Hj by lia. injection Hj as <-. by left.
    - rewrite list_lookup_insert_ne in Hj by done. right. by split; [intros ->|]. }
  split; cbn; try done.
  - by rewrite length_insert.
  - intros j t2 data2 e2 Hj Hq2. rewrite log_of_app. destruct (Hlook j t2 Hj) as [[-> ->]|[Hne Hj']].
    + rewrite Hq in Hq2. injection Hq2 as <- <-. by rewrite log_of_same.
    + rewrite log_of_other, app_nil_r by done. eapply call_inv_mem; [|by apply Hc].
      intros Hr. eapply untouched_windows; [exact Hu|]. by eapply (Ha i j).
  - intros j k t2 u Hjk Hj Hk Ht2 Hu2.
    destruct (Hlook j t2 Hj) as [[-> ->]|[Hne Hj']], (Hlook k u Hk) as [[-> ->]|[Hne' Hk']]; try done; rewrite ?Hb'.
    + by eapply (Ha i k).
    + by eapply (Ha j i).
    + by eapply (Ha j k).
  - intros c. rewrite S', Hs, log_on_app, <- app_assoc. do 2 f_equal. unfold log_on. by rewrite snd_pairs.
  - rewrite length_insert. apply Forall_app. split; [done|]. apply Forall_map, list.Forall_true. done.
Qed.

Lemma bind_step_inv N X w0 σ σ' :
  (forall c, wrap_depth c < fuel) -> sys_inv N X w0 σ -> bind_step σ σ' -> sys_inv N X w0 σ'.
Proof.
  intros Hf I Hst.
  destruct Hst as [s m w ts qs log bufs e K Hfree|s m w ts qs log i t cm cu t' ev s' m' w' Ht HE|
    s m w ts qs log uport r e s' w' Hu HO|s m w ts qs log err s' w' HC|s m w ts qs log c mark|
    s m w ts qs log cm br c rx bufs o r Hok Hfree HR|s m w ts qs log m' Hm].
  - by apply call_step_inv.
  - by eapply send_step_inv.
  - eapply other_step_inv; [exact I|eapply Open_inv; [done|done|apply I|exact HO]| |apply same_mem].
    refine (Open_frame sent frame_setsockopt frame_close _ _ _ _ _ _ _ _ _ _ HO).
    intros ctl net addr x Hctl. destruct (env_listen ctl net addr x) as [? x'] eqn:E. by eapply frame_listen.
  - eapply other_step_inv; [exact I|eapply Close_inv; [apply I|exact HC]| |apply same_mem].
    exact (Close_frame sent frame_close _ _ _ _ _ HC).
  - eapply other_step_inv; [exact I| |apply (set_mark_on_frame sent frame_setsockopt)|apply same_mem].
    eapply send_rel_inv; [apply I|apply send_rel_refl|apply I|]. apply (set_mark_on_frame open_conns law_setsockopt).
  - pose proof (bi_pools _ _ _ _ (si_bind _ _ _ _ I)) as Hp. cbn in Hp.
    destruct (receiveIP_pools _ _ _ _ _ _ _ _ _ _ Hp HR) as (P & R & O & E).
    eapply other_step_inv; [exact I|eapply send_rel_inv; [apply I|done..]|done|].
    destruct (receiveIP_writes _ _ _ _ _ _ _ _ _ _ Hp Hok HR) as [Hunt _].
    eapply list.Forall_impl; [exact Hfree|]. intros t Ht Hr. eapply untouched_windows; [exact Hunt|by apply Ht].
  - eapply other_step_inv; [exact I|apply I|done|done].
Qed.

(** A bind that was just made, before any call. *)
Definition new_system (network : bool) (opts : StdNetBindOptions) (m0 : mem) (w0 : W) : bind_sys W :=
  mkSys (NewStdNetBindWithOptions Linux network opts) m0 w0 [] [] [].

Lemma new_system_inv network opts m0 w0 :
  sys_inv (stdNetBindBatchSize Linux network opts) (open_conns w0) w0 (new_system network opts m0 w0).
Proof.
  split; cbn; try done; [|intros c; unfold log_on; cbn; by rewrite app_nil_r].
  split; try done; unfold bind_conns, conns; cbn; set_solver.
Qed.

Lemma reachable_inv network opts m0 w0 σ :
  (forall c, wrap_depth c < fuel) -> rtc bind_step (new_system network opts m0 w0) σ ->
  sys_inv (stdNetBindBatchSize Linux network opts) (open_conns w0) w0 σ.
Proof.
  intros Hf Hr. pose proof (new_system_inv network opts m0 w0) as I.
  induction Hr as [|σ σ1 σ2 Hst _ IH]; [done|]. apply IH. by eapply bind_step_inv.
Qed.

(** C12: On Linux a bind stays well formed under every interleaving of sends,
    receives, [Open], [Close] and [SetMark]: a family without a socket has no
    batched connection, no offload and no blackhole; the batched connection of
    an open family is that of its socket; the pools hold blank headers and
    usable addresses only; and the sockets that are open are those that were
    open before plus those of the bind, which it shares with nobody. *)
Theorem concurrent_bind network opts m0 w0 σ :
  (forall c, wrap_depth c < fuel) -> rtc bind_step (new_system network opts m0 w0) σ ->
  bind_typed Linux fuel (sy_bind σ) /\ pools_ok (os := Linux) (sy_bind σ) /\
  sb_batchSize (sy_bind σ) = stdNetBindBatchSize Linux network opts /\
  open_conns (sy_world σ) = bind_conns (sy_bind σ) ∪ open_conns w0 /\
  bind_conns (sy_bind σ) ## open_conns w0.
Proof. intros Hf Hr. by destruct (si_bind _ _ _ _ (reachable_inv _ _ _ _ _ Hf Hr)). Qed.


(** C13: [Send] returns whatever the other goroutines do (Linux): a call takes
    at most twice the batch size and ten steps; until it has returned it can
    take a step for every choice of the pools, without a panic; each of its
    steps brings it closer to its return, and no other step sets it back. *)
Theorem concurrent_send_returns network opts m0 w0 σ i t :
  (forall c, wrap_depth c < fuel) -> rtc bind_step (new_system network opts m0 w0) σ -> sy_calls σ !! i = Some t ->
  let N := stdNetBindBatchSize Linux network opts in
  steps_left N (sc_pc t) <= 2 * N + 10 /\
  ((exists err, sc_pc t = S_done err) \/
   forall cm cu, exists t' ev s' m' w',
     send_step Linux cm cu t (sy_bind σ) (sy_mem σ) (sy_world σ) = Some (Ret (t', ev, s', m', w')) /\
     steps_left N (sc_pc t') < steps_left N (sc_pc t)) /\
  forall σ', bind_step σ σ' -> exists t', sy_calls σ' !! i = Some t' /\
    (t' = t \/ steps_left N (sc_pc t') < steps_left N (sc_pc t)).
Proof.
  intros Hf Hr Ht N. pose proof (reachable_inv _ _ _ _ _ Hf Hr) as I. fold N in I.
  pose proof (lookup_lt_Some _ _ _ Ht) as Hi. rewrite (si_reqs _ _ _ _ I) in Hi.
  destruct (lookup_lt_is_Some_2 _ _ Hi) as [[data e] Hq]. pose proof (si_calls _ _ _ _ I i t data e Ht Hq) as C.
  split; [|split].
  - pose proof (ci_pc _ _ _ _ _ _ C) as P. unfold pc_inv in P.
    destruct (sc_pc t) as [|f c|l|l rest|l|l err|err]; cbn; try lia; [destruct (lc_offload l); lia|].
    destruct P as (_ & _ & _ & Hl & _). destruct (lc_offload l); lia.
  - destruct (sc_pc t) as [|f c|l|l rest|l|l err|err] eqn:Hpc; [..|left; by exists err]; right; intros cm cu.
    all: rewrite <- Hpc; destruct (call_steps_well N _ data e cm cu t _ _ _ _ C (si_bind _ _ _ _ I)) as
      (t' & ev & s' & m' & w' & HE & _ & _ & _ & _ & _ & HM); [intros ?; by rewrite Hpc|]; by eexists _, _, _, _, _.
  - intros σ' Hst. destruct Hst as [s m w ts qs log bufs e' K|s m w ts qs log j t1 cm cu t2 ev s' m' w' Ht1 HE| | | | |];
      cbn in Ht |- *; try (exists t; split; [done|by left]).
    + exists t. rewrite lookup_app_l by (by apply lookup_lt_Some in Ht). split; [done|by left].
    + destruct (decide (j = i)) as [->|Hne]; [|exists t; rewrite list_lookup_insert_ne by done; split; [done|by left]].
      rewrite Ht in Ht1. injection Ht1 as <-. exists t2.
      rewrite list_lookup_insert_eq by (by apply lookup_lt_Some in Ht). split; [done|]. right.
      by destruct (send_step_inv _ _ _ _ _ _ _ _ _ _ _ _ _ _ _ _ _ _ I Ht HE).
Qed.

(** *** Schedules *)

#[local] Instance running_dec t : Decision (running t).
Proof.
  unfold running. destruct (sc_pc t) as [|f c|l|l rest|l|l err|err]; [left; done..|].
  right. intros Hr. by apply (Hr err).
Defined.
#[local] Instance apart_dec l l' : Decision (apart l l').
Proof. unfold apart. apply _. Defined.
#[local] Instance free_dec ts bufs : Decision (free ts bufs).
Proof. unfold free. apply _. Defined.

(** A schedule is a list of actions; the pools hand out their entries [cm] and
    [cu]. *)
Inductive action :=
| A_call (bufs : list slice) (e : StdNetEndpoint)
| A_send (i cm cu : nat)
| A_open (uport : Z)
| A_close.

(** [checked] says whether callers are held to pass buffers of their own. *)
Definition exec (checked : bool) (a : action) (σ : bind_sys W) : option (bind_sys W) :=
  let '(mkSys s m w ts qs log) := σ in
  match a with
  | A_call bufs e =>
      if decide (Forall (slice_ok m) bufs /\ (checked = true -> free ts bufs))
      then Some (mkSys s m w (ts ++ [mkCall bufs (EpStd e) S_start]) (qs ++ [(map (load m) bufs, e)]) log) else None
  | A_send i cm cu =>
      match ts !! i ≫= fun t => send_step Linux cm cu t s m w with
      | Some (Ret (t, ev, s, m, w)) => Some (mkSys s m w (<[i := t]> ts) qs (log ++ map (pair i) ev))
      | _ => None
      end
  | A_open uport =>
      match Open Linux fuel s uport w with Ret (_, _, s, w) => Some (mkSys s m w ts qs log) | _ => None end
  | A_close => let '(_, s, w) := Close s w in Some (mkSys s m w ts qs log)
  end.
Fixpoint schedule (checked : bool) (l : list action) (σ : bind_sys W) : option (bind_sys W) :=
  match l with [] => Some σ | a :: l' => exec checked a σ ≫= schedule checked l' end.

Definition action_ok (N : nat) (a : action) : Prop :=
  match a with
  | A_call bufs e => exists m, call_ok N m bufs e
  | A_open uport => (0 <= uport < 65536)%Z
  | _ => True
  end.

Lemma exec_step a σ σ' : action_ok (sb_batchSize (sy_bind σ)) a -> exec true a σ = Some σ' -> bind_step σ σ'.
Proof.
  destruct σ as [s m w ts qs log], a as [bufs e|i cm cu|uport|]; cbn; intros Ha HE.
  - case_decide as Hd; [|done]. injection HE as <-. destruct Hd as [Hok Hfree], Ha as [m0 []].
    constructor; [by split|by apply Hfree].
  - destruct (ts !! i) as [t|] eqn:Ht; [|done]. cbn in HE.
    destruct (send_step Linux cm cu t s m w) as [[[[[[t' ev] s'] m'] w']| |]|] eqn:Hs; try done.
    injection HE as <-. by eapply step_send.
  - destruct (Open Linux fuel s uport w) as [[[[r e] s'] w']| |] eqn:HO; try done.
    injection HE as <-. by eapply step_open.
  - destruct (Close s w) as [[err s'] w'] eqn:HC. injection HE as <-. by eapply step_close.
Qed.

Lemma schedule_reachable network opts m0 w0 l : forall σ σ',
  (forall c, wrap_depth c < fuel) -> Forall (action_ok (stdNetBindBatchSize Linux network opts)) l ->
  rtc bind_step (new_system network opts m0 w0) σ -> schedule true l σ = Some σ' ->
  rtc bind_step (new_system network opts m0 w0) σ'.
Proof.
  induction l as [|a l IH]; intros σ σ' Hf Hok Hr HE; cbn in HE; [by injection HE as <-|].
  destruct (exec true a σ) as [σ1|] eqn:Ha; [|done]. inversion Hok as [|? ? Hok1 Hok2]; subst.
  apply (IH σ1); try done. eapply rtc_r; [exact Hr|]. eapply exec_step; [|exact Ha].
  by rewrite (bi_batch _ _ _ _ (si_bind _ _ _ _ (reachable_inv _ _ _ _ _ Hf Hr))).
Qed.
End System.

(** ** On the simulated machine *)

Lemma ex_depth c : wrap_depth (W := sim) c < 1.
Proof. cbn. lia. Qed.

(** Memory for two calls, and the buffers of the second one. *)
Definition ex_mem2 : mem :=
  list_to_map [(0, [x01; x02; x00; x00; x00; x00]); (1, [x03; x04]); (2, [x05]);
               (3, [x06; x07; x00; x00; x00; x00]); (4, [x08; x09]); (5, [x0a])].
Definition ex_bufs2 : list slice := [Slice 3 0 2 6; Slice 4 0 2 2; Slice 5 0 1 1].

Lemma ex_call_ok bufs : bufs = ex_bufs \/ bufs = ex_bufs2 -> call_ok (U := linux64) 128 ex_mem2 bufs ex_ep4.
Proof.
  destruct ex_send_pre as [_ ? ? ? ? ? ? ? ? _]. intros [-> | ->]; (split; [| | | |done..]);
    by apply (bool_decide_unpack _); vm_compute.
Qed.

(** Two sends whose steps alternate; the bind is closed while they run. *)
Definition ex_schedule : list action :=
  [A_open 0; A_call ex_bufs ex_ep4; A_call ex_bufs2 ex_ep4;
   A_send 0 0 0; A_send 1 0 0; A_send 0 0 0; A_send 1 0 0; A_send 1 0 0; A_send 0 0 0;
   A_send 0 0 0; A_close; A_send 1 0 0; A_send 1 0 0; A_send 0 0 0].
Definition ex_new : bind_sys sim := new_system true default_options ex_mem2 sim1.
Definition ex_final : bind_sys sim := default ex_new (schedule (U := linux64) 1 true ex_schedule ex_new).

Lemma ex_schedule_ok : Forall (action_ok (U := linux64) 128) ex_schedule.
Proof.
  repeat (apply Forall_cons_2; [first [exact I|exists ex_mem2; apply ex_call_ok; by auto|cbn; lia]|]). apply Forall_nil_2.
Qed.

Lemma ex_reachable : rtc (bind_step (U := linux64) 1) ex_new ex_final.
Proof.
  apply (schedule_reachable (U := linux64) 1 true default_options ex_mem2 sim1 ex_schedule ex_new).
  - intros c. cbn. lia.
  - apply ex_schedule_ok.
  - apply rtc_refl.
  - assert (bool_decide (is_Some (schedule (U := linux64) 1 true ex_schedule ex_new)) = true) as E by (vm_compute; reflexivity).
    apply bool_decide_eq_true in E as [σ Hσ]. unfold ex_final. by rewrite Hσ.
Qed.

Lemma Send_steps_witness :
  exists err s' m' w', rtc (alone (U := linux64) Linux 0 0)
    (mkCall ex_bufs (EpStd ex_ep4) S_start, ex_opened, ex_mem, ex_world)
    (mkCall ex_bufs (EpStd ex_ep4) (S_done err), s', m', w').
Proof.
  destruct (Send (U := linux64) Linux 0 0 ex_opened ex_mem ex_bufs (EpStd ex_ep4) ex_world)
    as [[[[err s'] m'] w']| |] eqn:E.
  - exists err, s', m', w'. exact (Send_steps (U := linux64) Linux 0 0 _ _ _ _ _ _ _ _ _ E).
  - vm_compute in E. discriminate E.
  - vm_compute in E. discriminate E.
Defined.

Lemma concurrent_bind_witness :
  bind_typed Linux 1 (sy_bind ex_final) /\
  open_conns (sy_world ex_final) = bind_conns (sy_bind ex_final) ∪ open_conns sim1.
Proof.
  destruct (concurrent_bind (U := linux64) 1 true default_options ex_mem2 sim1 ex_final
    ex_depth ex_reachable) as (T & _ & _ & O & _).
  exact (conj T O).
Defined.


Lemma concurrent_send_returns_witness :
  exists t, sy_calls ex_final !! 0 = Some t /\ steps_left 128 (sc_pc t) <= 266.
Proof.
  destruct (sy_calls ex_final !! 0) as [t|] eqn:Ht; [|vm_compute in Ht; discriminate Ht].
  exists t. split; [reflexivity|].
  exact (proj1 (concurrent_send_returns (U := linux64) 1 true default_options ex_mem2 sim1 ex_final 0 t
    ex_depth ex_reachable Ht)).
Defined.

(** Callers must keep their buffers apart: coalescing writes into the spare
    capacity of the first buffer, so that of two calls that share it, one sends
    the other's datagrams. *)
Theorem shared_buffer_mixes_calls :
  match schedule (U := linux64) 1 false
    [A_open 0; A_call ex_bufs ex_ep4; A_call (Slice 0 0 2 6 :: tail ex_bufs2) ex_ep4;
     A_send 0 0 0; A_send 1 0 0; A_send 0 0 0; A_send 1 0 0; A_send 0 0 0; A_send 1 0 0; A_send 0 0 0] ex_new with
  | Some σ =>
      map fst (sy_reqs σ) = [[[x01; x02]; [x03; x04]; [x05]]; [[x01; x02]; [x08; x09]; [x0a]]] /\
      map fst (emitted (U := linux64) (log_of 0 (sy_log σ))) = [[x01; x02]; [x08; x09]; [x0a]]
  | None => False
  end.
Proof. vm_compute. done. Qed.

(** Offload is switched off for the family, not for the socket that rejected
    it: a call whose write was rejected on a socket that is closed and replaced
    before the call takes the lock again switches off the offload of the new
    socket, on which nothing was ever written. *)
Definition ex_stale : option (bind_sys sim) :=
  schedule (U := linux64) 1 true
    [A_open 0; A_call ex_bufs ex_ep4; A_send 0 0 0; A_send 0 0 0; A_send 0 0 0; A_send 0 0 0;
     A_close; A_open 0] (new_system true default_options ex_mem2 (no_gso sim1)).

Theorem stale_send_disables_offload :
  match ex_stale with
  | Some σ =>
      sb_ipv4TxOffload (sy_bind σ) = true /\ sy_log σ = [] /\
      match exec (U := linux64) 1 true (A_send 0 0 0) σ with
      | Some σ' => sb_ipv4 (sy_bind σ') = sb_ipv4 (sy_bind σ) /\ is_Some (sb_ipv4 (sy_bind σ')) /\
          sb_ipv4TxOffload (sy_bind σ') = false /\ sy_log σ' = []
      | None => False
      end
  | None => False
  end.
Proof. vm_compute. split_and!; try reflexivity. by eexists. Qed.
