(* ===== verification/BatchingConn.v ===== *)
(** * Batching connections (batching_conn.go, batching_conn_linux.go,
      batching_conn_default.go)

    A packet connection upgraded with batched reads and writes.  Unlike the
    bind, it coalesces by collecting buffers (scatter/gather) instead of
    copying, so the caller's memory is never written by a send. *)

From S2P Require Import Prelude Errors GoMem Netip Cmsg Gso Sticky Message Coalesce Split Env SimNet ControlFns Conn StdNet StdSend StdRecv.

(** [batchingSendBatch] *)
Record batchingSendBatch := mkBatch { ba_msgs : list Message; ba_ua : UDPAddr }.

(** [linuxBatchingConn] *)
Record linuxBatchingConn := mkBatchingConn {
  bc_conn : conn;
  bc_xpc : conn;
  bc_rxOffload : bool;
  bc_txOffload : bool;
  bc_batchSize : nat;
  bc_sendBatchPool : list batchingSendBatch;
}.

(** [gonnect.PacketConn] values that the upgrade distinguishes. *)
Inductive PacketConn :=
| PBatching (c : linuxBatchingConn)
| PUDP (c : conn)
| POther (id : nat).

Section Coalesce.
Context {U : UnixABI} (os : GOOS) (addr : UDPAddr).

(** The total length of the buffers of a message. *)
Definition buffers_len (msg : Message) : nat := sum_list (map s_len (m_Buffers msg)).

Definition bc_maxPayloadLen : Z :=
  match IP_To4 (gb_bytes (ua_IP addr)) with
  | None => maxIPv6PayloadLen
  | Some _ => maxIPv4PayloadLen
  end.

Record bc_st := mkBc {
  bs_msgs : list Message; bs_base : Z; bs_gsoSize : nat; bs_dgramCnt : nat; bs_endBatch : bool;
}.

(** The part of the loop body that starts a new message. *)
Definition bc_start (buf : slice) (st : bc_st) : go bc_st :=
  msgs ← (if (1 <? bs_dgramCnt st)%nat
          then mark_gso (setGSOSize os) (bs_msgs st) (bs_base st) (bs_gsoSize st) else Ret (bs_msgs st));
  let base := (bs_base st + 1)%Z in
  m ← msg_at msgs base;
  oob ← gb_reslice (m_OOB m) 0;
  m ← set_buf0 (set_OOB m oob) buf;
  Ret (mkBc (put_msg msgs base (set_Addr m (Some addr))) base (s_len buf) 1 false).

Definition bc_step (n i : nat) (buf : slice) (st : bc_st) : go bc_st :=
  if (0 <? i)%nat then
    let msgLen := s_len buf in
    m ← msg_at (bs_msgs st) (bs_base st);
    let baseLenBefore := buffers_len m in
    if (Z.of_nat (msgLen + baseLenBefore) <=? bc_maxPayloadLen)%Z
       && (msgLen <=? bs_gsoSize st)%nat
       && (bs_dgramCnt st <? udpSegmentMaxDatagrams)%nat
       && negb (bs_endBatch st)
    then
      let msgs := put_msg (bs_msgs st) (bs_base st) (set_Buffers m (m_Buffers m ++ [buf])) in
      msgs ← (if (i =? n - 1)%nat then mark_gso (setGSOSize os) msgs (bs_base st) (bs_gsoSize st) else Ret msgs);
      Ret (mkBc msgs (bs_base st) (bs_gsoSize st) (bs_dgramCnt st + 1)
             (if (msgLen <? bs_gsoSize st)%nat then true else bs_endBatch st))
    else bc_start buf st
  else bc_start buf st.

Fixpoint bc_loop (n i : nat) (bufs : list slice) (st : bc_st) : go bc_st :=
  match bufs with
  | [] => Ret st
  | buf :: rest => st ← bc_step n i buf st; bc_loop n (S i) rest st
  end.

(** [linuxBatchingConn.coalesceMessages] *)
Definition bc_coalesceMessages (bufs : list slice) (msgs : list Message) : go (nat * list Message) :=
  st ← bc_loop (length bufs) 0 bufs (mkBc msgs (-1) 0 0 false);
  Ret (Z.to_nat (bs_base st + 1), bs_msgs st).
End Coalesce.

Section BatchingConn.
Context {U : UnixABI} `{Env W} (os : GOOS).

Definition bc_BatchSize (c : linuxBatchingConn) : nat := bc_batchSize c.
Definition ReadFromUDP (c : linuxBatchingConn) : error := ErrSinglePacketReadUnsupported.
Definition ReadFromUDPAddrPort (c : linuxBatchingConn) : error := ErrSinglePacketReadUnsupported.

(** [msgs[i].OOB = msgs[i].OOB[:cap(msgs[i].OOB)]] for the messages given. *)
Definition full_oob (msg : Message) : Message :=
  set_OOB msg (GoBuf (gb_arr (m_OOB msg)) (gb_cap (m_OOB msg))).

Definition ReadBatch (c : linuxBatchingConn) (m : mem) (msgs : list Message) (w : W)
    : go ((nat * option error) * list Message * mem * W) :=
  match msgs with
  | [] => Ret ((0, None), msgs, m, w)
  | _ =>
      if negb (bc_rxOffload c) || (length msgs <? 2)%nat then
        Ret (env_read_batch (bc_xpc c) m (map full_oob msgs) w)
      else
        let readAt := (length msgs - 2)%nat in
        let tail := map full_oob (drop readAt msgs) in
        let '((n, err), tail, m, w) := env_read_batch (bc_xpc c) m tail w in
        let msgs := take readAt msgs ++ tail in
        if match err with Some _ => true | None => (n =? 0)%nat end then Ret ((0, err), msgs, m, w)
        else
          '(n, err, msgs, m) ← splitCoalescedMessages (getGSOSize os) m msgs readAt;
          Ret ((n, err), msgs, m, w)
  end.

(** The loop over [WriteBatch] is the one of [send]. *)
Definition writeBatch (c : linuxBatchingConn) (m : mem) (msgs : list Message) (w : W) : go (option error * W) :=
  send_batch (S (length msgs)) (bc_xpc c) (map (wire_of m) msgs) w.

(** The value that the pool makes. *)
Definition new_sendBatch (batchSize : nat) : batchingSendBatch :=
  let ua := mkUDPAddr (gb_make 16 16) 0 "" in
  mkBatch (replicate batchSize
    (mkMessage [Slice 0 0 0 0] (gb_make 0 (gsoControlSize os)) (Some ua) 0 0 0)) ua.

Definition with_pool (c : linuxBatchingConn) (p : list batchingSendBatch) : linuxBatchingConn :=
  mkBatchingConn (bc_conn c) (bc_xpc c) (bc_rxOffload c) (bc_txOffload c) (bc_batchSize c) p.
Definition getSendBatch (choice : nat) (c : linuxBatchingConn) : batchingSendBatch * linuxBatchingConn :=
  let '(b, p) := pool_get choice (bc_sendBatchPool c) (new_sendBatch (bc_batchSize c)) in (b, with_pool c p).

(** A header put back: one buffer (of those it has), no control data. *)
Definition clean_send (msg : Message) : Message :=
  mkMessage (take 1 (m_Buffers msg)) (GoBuf (gb_arr (m_OOB msg)) 0) None 0 0 0.
Definition putSendBatch (b : batchingSendBatch) (c : linuxBatchingConn) : linuxBatchingConn :=
  with_pool c (mkBatch (map clean_send (ba_msgs b)) (ba_ua b) :: bc_sendBatchPool c).

Definition disable_txOffload (c : linuxBatchingConn) : linuxBatchingConn :=
  mkBatchingConn (bc_conn c) (bc_xpc c) (bc_rxOffload c) false (bc_batchSize c) (bc_sendBatchPool c).

(** The loop without offload. *)
Fixpoint bc_fill (ua : UDPAddr) (bufs : list slice) (msgs : list Message) : go (list Message) :=
  match bufs, msgs with
  | [], _ => Ret msgs
  | _ :: _, [] => Panic
  | buf :: bufs', msg :: msgs' =>
      msg ← set_buf0 msg buf;
      let msg := set_Addr msg (Some ua) in
      oob ← gb_reslice (m_OOB msg) 0;
      rest ← bc_fill ua bufs' msgs';
      Ret (set_OOB msg oob :: rest)
  end.

Definition bc_send_plain (c : linuxBatchingConn) (ua : UDPAddr) (m : mem) (bufs : list slice)
    (msgs : list Message) (w : W) : go (option error * list Message * W) :=
  msgs ← bc_fill ua bufs msgs;
  '(err, w) ← writeBatch c m (take (length bufs) msgs) w;
  Ret (err, msgs, w).

(** [WriteBatchTo], run alone: [txOffload] is read once per round. *)
Definition WriteBatchTo (choice : nat) (c : linuxBatchingConn) (m : mem) (bufs : list slice)
    (addr : AddrPort) (w : W) : go (option error * linuxBatchingConn * W) :=
  if (bc_batchSize c <? length bufs)%nat then Ret (Some ErrBatchTooLarge, c, w) else
  match bufs with
  | [] => Ret (None, c, w)
  | _ =>
      let '(batch, c) := getSendBatch choice c in
      ua ← set_dst (ba_ua batch) (ap_addr addr);
      let ua := mkUDPAddr (ua_IP ua) (ap_port addr) (ua_Zone ua) in
      if bc_txOffload c then
        '(n, msgs) ← bc_coalesceMessages os ua bufs (ba_msgs batch);
        '(err, w) ← writeBatch c m (take n msgs) w;
        if match err with Some e => errShouldDisableUDPGSO os e | None => false end then
          let c := disable_txOffload c in
          '(err, msgs, w) ← bc_send_plain c ua m bufs msgs w;
          Ret (Some (ErrUDPGSODisabled (env_local_addr (bc_conn c) w) err),
               putSendBatch (mkBatch msgs ua) c, w)
        else Ret (err, putSendBatch (mkBatch msgs ua) c, w)
      else
        '(err, msgs, w) ← bc_send_plain c ua m bufs (ba_msgs batch) w;
        Ret (err, putSendBatch (mkBatch msgs ua) c, w)
  end.

(** [TryUpgradeToBatchingConn] of batching_conn_linux.go *)
Definition TryUpgradeToBatchingConn_linux (fuel : nat) (pconn : PacketConn) (network : string) (batchSize : Z)
    (w : W) : go PacketConn :=
  match pconn with
  | PBatching _ => Ret pconn
  | POther _ => Ret pconn
  | PUDP c =>
      if negb (bool_decide (network = "udp4"%string)) && negb (bool_decide (network = "udp6"%string))
      then Ret pconn
      else
        native ← unwrapUDPConn fuel (Some c);
        match native with
        | None => Ret pconn
        | Some xpc =>
            let batchSize := if (batchSize <=? 0)%Z then IdealBatchSize else Z.to_nat batchSize in
            let '(tx, rx) := supportsUDPOffload os c w in
            Ret (PBatching (mkBatchingConn c xpc rx tx batchSize []))
        end
  end.
(** batching_conn_default.go *)
Definition TryUpgradeToBatchingConn_default (pconn : PacketConn) : PacketConn := pconn.
Definition MinControlMessageSize_default : nat := 0.
(** The functions that the build tags select. *)
Definition TryUpgradeToBatchingConn (fuel : nat) (pconn : PacketConn) (network : string) (batchSize : Z)
    (w : W) : go PacketConn :=
  if linux_or_android os then TryUpgradeToBatchingConn_linux fuel pconn network batchSize w
  else Ret (TryUpgradeToBatchingConn_default pconn).
Definition MinControlMessageSize : nat :=
  if linux_or_android os then gsoControlSize os else MinControlMessageSize_default.
End BatchingConn.

(** ** Coalescing *)

Section BcCorrect.
Context {U : UnixABI} {UL : UnixLaws U} {os : GOOS} (Hos : linux_or_android os = true).
Context {addr : UDPAddr} {m : mem}.
Local Open Scope nat_scope.

(** A header before use. *)
Definition bc_ready (msg : Message) : Prop :=
  (exists b, m_Buffers msg = [b]) /\ gsoControlSize_linux <= gb_cap (m_OOB msg).

Lemma ready_none o : oob_ok_android o -> segment_size (gb_bytes o) = None.
Proof. intros Ho. apply (cc_none (ControlContract := control_android (mkEndpoint (mkAddrPort AddrZero 0) None)) o Ho). Qed.
Lemma ready_gso o g : oob_ok_android o -> (0 <= g < 2 ^ 16)%Z ->
  exists o', setGSOSize os o g = Ret o' /\ segment_size (gb_bytes o') = Some g.
Proof.
  intros Ho Hg. unfold setGSOSize. rewrite Hos.
  apply (cc_gso (ControlContract := control_android (mkEndpoint (mkAddrPort AddrZero 0) None)) o g Ho Hg).
Qed.

(** The limits of one UDP_SEGMENT send. *)
Definition bc_limits (G : list (list byte)) : Prop :=
  length G <= udpSegmentMaxDatagrams /\
  (1 < length G -> (Z.of_nat (length (concat G)) <= bc_maxPayloadLen addr)%Z).

Definition bc_closed (msg : Message) (G : list (list byte)) : Prop :=
  m_Addr msg = Some addr /\ wire_datagrams m msg = G /\ map (load m) (m_Buffers msg) = G /\ G <> [] /\ bc_limits G.

Definition bc_open (msg : Message) (G : list (list byte)) (gso : nat) (endb : bool) : Prop :=
  m_Addr msg = Some addr /\ oob_ok_android (m_OOB msg) /\ bc_limits G /\
  map (load m) (m_Buffers msg) = G /\ Forall (slice_ok m) (m_Buffers msg) /\
  gso_group gso G /\ 0 < gso /\ (1 < length G -> (Z.of_nat gso < 2 ^ 16)%Z) /\
  (endb = false -> Forall (fun p => length p = gso) G).

Lemma bc_buffers_len msg G gso endb : bc_open msg G gso endb -> buffers_len msg = length (concat G).
Proof.
  intros (_ & _ & _ & <- & Hok & _). unfold buffers_len. clear -Hok.
  induction Hok as [|b bs Hb _ IH]; [done|]. cbn. rewrite length_app, length_load by done. cbn in IH. lia.
Qed.

Lemma bc_open_single msg G gso endb : length G = 1 -> bc_open msg G gso endb -> bc_closed msg G.
Proof.
  intros HG (Ha & Ho & Hl & HGb & _). split_and!; try done; [|by destruct G|apply Hl..].
  unfold wire_datagrams. rewrite (ready_none _ Ho). unfold payload. rewrite HGb.
  destruct G as [|p [|]]; try done. cbn. by rewrite app_nil_r.
Qed.

Lemma bc_mark_closes done cur rest G gso endb :
  1 < length G -> bc_open cur G gso endb ->
  exists cur', mark_gso (setGSOSize os) (done ++ cur :: rest) (Z.of_nat (length done)) gso
    = Ret (done ++ cur' :: rest) /\ bc_closed cur' G.
Proof.
  intros HG (Ha & Ho & Hl & HGb & Hok & Hg & Hpos & H16 & _). specialize (H16 HG).
  unfold mark_gso, msg_at, put_msg. rewrite (proj2 (Z.leb_le _ _)) by lia. cbn [check mbind go_mbind].
  rewrite Nat2Z.id, list_lookup_middle by done. cbn [must mbind go_mbind].
  rewrite u16_nat by done.
  destruct (ready_gso (m_OOB cur) (Z.of_nat gso) Ho) as (o' & -> & Hseg); [lia|]. cbn [mbind go_mbind].
  exists (set_OOB cur o'). rewrite insert_app_r_alt by lia. rewrite Nat.sub_diag. cbn.
  split; [done|]. split_and!; try done; [|by destruct G; cbn in HG; [lia|]|apply Hl..].
  unfold wire_datagrams. cbn. rewrite Hseg, Nat2Z.id. unfold payload. cbn. rewrite HGb. by apply chunks_group.
Qed.

(** The loop invariant after the first buffer. *)
Definition bc_inv (st : bc_st) (rem : list slice) (done_ : list (list byte)) : Prop :=
  exists closed cur rest Gs G,
    bs_msgs st = closed ++ cur :: rest /\ bs_base st = Z.of_nat (length closed) /\
    Forall2 bc_closed closed Gs /\ bc_open cur G (bs_gsoSize st) (bs_endBatch st) /\
    length G = bs_dgramCnt st /\ concat Gs ++ G = done_ /\
    Forall bc_ready rest /\ length rem <= length rest.

Definition bc_post (st : bc_st) (dgrams : list (list byte)) : Prop :=
  exists used rest Gs, bs_msgs st = used ++ rest /\ (bs_base st + 1 = Z.of_nat (length used))%Z /\
    Forall2 bc_closed used Gs /\ Forall bc_ready rest /\ concat Gs = dgrams.

(** Starting a message behind finished ones. *)
Lemma bc_start_fresh st closed msg rest buf :
  bs_msgs st = closed ++ msg :: rest -> (bs_base st + 1 = Z.of_nat (length closed))%Z ->
  bs_dgramCnt st <= 1 -> bc_ready msg -> slice_ok m buf -> 0 < s_len buf ->
  exists cur, bc_start os addr buf st =
      Ret (mkBc (closed ++ cur :: rest) (Z.of_nat (length closed)) (s_len buf) 1 false) /\
    bc_open cur [load m buf] (s_len buf) false.
Proof.
  intros Hm Hb Hd [[b0 Hb0] Hc] Hok Hpos. unfold bc_start. rewrite (proj2 (Nat.ltb_ge 1 _)) by lia.
  cbn [mbind go_mbind]. rewrite Hb, Hm. unfold msg_at, put_msg. rewrite (proj2 (Z.leb_le _ _)) by lia.
  cbn [check mbind go_mbind]. rewrite Nat2Z.id, list_lookup_middle by done. cbn [must mbind go_mbind].
  unfold gb_reslice. cbn [Nat.leb check mbind go_mbind]. unfold set_buf0. cbn [m_Buffers set_OOB]. rewrite Hb0.
  cbn [mbind go_mbind]. rewrite insert_app_r_alt by lia. rewrite Nat.sub_diag. cbn [insert list_insert].
  eexists. split; [reflexivity|]. pose proof (length_load m buf Hok) as Hl.
  assert (oob_ok_android (GoBuf (gb_arr (m_OOB msg)) 0)) as Hoob.
  { unfold oob_ok_android, gb_ok, gb_cap in *. cbn [gb_arr gb_len]. lia. }
  split; [done|]. split; [exact Hoob|]. split; [split; cbn; unfold udpSegmentMaxDatagrams; lia|].
  split; [done|]. split; [by constructor|]. split; [rewrite <- Hl; apply gso_group_single; lia|].
  split; [done|]. split; [cbn; lia|]. intros _. by constructor.
Qed.

(** Closing the current message and starting the next one. *)
Lemma bc_start_next st rem buf done_ :
  bc_inv st (buf :: rem) done_ -> slice_ok m buf -> 0 < s_len buf ->
  exists st', bc_start os addr buf st = Ret st' /\ bc_inv st' rem (done_ ++ [load m buf]) /\
    bs_dgramCnt st' = 1.
Proof.
  intros (closed & cur & rest & Gs & G & Hm & Hb & Hcl & Hop & Hc & Hd & Hr & Hl) Hok Hpos.
  destruct rest as [|nxt rest]; [cbn in Hl; lia|]. inversion Hr as [|? ? Hr1 Hr2]; subst.
  assert (exists cur', (if (1 <? bs_dgramCnt st)%nat then
      mark_gso (setGSOSize os) (bs_msgs st) (bs_base st) (bs_gsoSize st) else Ret (bs_msgs st))
      = Ret ((closed ++ [cur']) ++ nxt :: rest) /\ bc_closed cur' G) as (cur' & HE & Hcur').
  { rewrite Hm, Hb, <- Hc. destruct (Nat.ltb_spec 1 (length G)) as [Hgt|Hle].
    - destruct (bc_mark_closes closed cur (nxt :: rest) G _ _ Hgt Hop) as (cur' & -> & Hcur').
      exists cur'. by rewrite <- app_assoc.
    - exists cur. rewrite <- app_assoc. split; [done|]. eapply bc_open_single; [|exact Hop].
      destruct Hop as (_ & _ & _ & _ & _ & (i & l & -> & _) & _). rewrite length_app in *. cbn in *. lia. }
  destruct (bc_start_fresh (mkBc ((closed ++ [cur']) ++ nxt :: rest) (bs_base st) 0 1 false)
    (closed ++ [cur']) nxt rest buf) as (cur2 & HS & Hop2); try done.
  { cbn. rewrite Hb, length_app. cbn. lia. }
  exists (mkBc ((closed ++ [cur']) ++ cur2 :: rest) (Z.of_nat (length (closed ++ [cur']))) (s_len buf) 1 false).
  split; [|split; [|done]].
  - unfold bc_start in *. cbn [bs_dgramCnt bs_msgs bs_base Nat.ltb Nat.leb] in HS. rewrite HE. exact HS.
  - exists (closed ++ [cur']), cur2, rest, (Gs ++ [G]), [load m buf]. cbn [bs_msgs bs_base bs_gsoSize bs_endBatch bs_dgramCnt].
    split_and!; try done.
    + apply Forall2_app; [done|by constructor].
    + rewrite concat_app. cbn. by rewrite app_nil_r.
    + cbn in Hl. lia.
Qed.

Lemma bc_maxPayload_u16 : (bc_maxPayloadLen addr < 2 ^ 16)%Z.
Proof. unfold bc_maxPayloadLen, maxIPv6PayloadLen, maxIPv4PayloadLen. destruct (IP_To4 _); lia. Qed.

(** Adding a buffer to the current message. *)
Lemma bc_extend cur G gso buf :
  bc_open cur G gso false -> G <> [] -> slice_ok m buf -> 0 < s_len buf <= gso ->
  length G < udpSegmentMaxDatagrams ->
  (Z.of_nat (s_len buf + buffers_len cur) <= bc_maxPayloadLen addr)%Z ->
  bc_open (set_Buffers cur (m_Buffers cur ++ [buf])) (G ++ [load m buf]) gso (s_len buf <? gso).
Proof.
  intros Hop Hne Hok Hlen HG Hmax. pose proof (bc_buffers_len _ _ _ _ Hop) as Hbl.
  destruct Hop as (Ha & Ho & _ & HGb & Hoks & Hg & Hpos & _ & Hfull). specialize (Hfull eq_refl).
  pose proof (length_load m buf Hok) as Hl. rewrite Hbl in Hmax.
  assert (gso <= length (concat G)) as Hgso.
  { destruct G as [|p G]; [done|]. inversion Hfull; subst. cbn. rewrite length_app. lia. }
  pose proof bc_maxPayload_u16.
  split; [done|]. split; [done|]. split.
  { split; [rewrite length_app; cbn; lia|]. intros _. rewrite concat_app, length_app. cbn. rewrite app_nil_r. lia. }
  split; [cbn; rewrite map_app; by rewrite HGb|]. split; [cbn; apply Forall_app; by split; [|constructor]|].
  split; [apply gso_group_snoc; [done|lia]|]. split; [done|]. split; [intros; lia|].
  intros Hn. bool_simp. apply Forall_app. split; [done|]. constructor; [lia|constructor].
Qed.

(** One iteration: the invariant, or the end state after the last buffer. *)
Lemma bc_step_inv n i buf rem st done_ :
  0 < i -> n = S i + length rem -> bc_inv st (buf :: rem) done_ -> slice_ok m buf -> 0 < s_len buf ->
  exists st', bc_step os addr n i buf st = Ret st' /\
    (if decide (rem = []) then bc_post st' (done_ ++ [load m buf])
     else bc_inv st' rem (done_ ++ [load m buf])).
Proof.
  intros Hi Hn Hinv Hok Hpos.
  assert (forall st', bc_start os addr buf st = Ret st' -> bs_dgramCnt st' = 1 ->
    bc_inv st' rem (done_ ++ [load m buf]) ->
    if decide (rem = []) then bc_post st' (done_ ++ [load m buf]) else bc_inv st' rem (done_ ++ [load m buf])) as Hpost.
  { intros st' _ Hd Hinv'. case_decide; [|done].
    destruct Hinv' as (closed & cur & rest & Gs & G & Hm & Hb & Hcl & Hop & Hc & Hdn & Hr & _).
    exists (closed ++ [cur]), rest, (Gs ++ [G]). rewrite <- app_assoc, length_app. cbn [app length].
    split_and!; [done|lia| |done|rewrite concat_app; cbn; by rewrite app_nil_r].
    apply Forall2_app; [done|]. constructor; [|constructor]. eapply bc_open_single; [lia|exact Hop]. }
  unfold bc_step. rewrite (proj2 (Nat.ltb_lt 0 i)) by done.
  pose proof Hinv as (closed & cur & rest & Gs & G & Hm & Hb & Hcl & Hop & Hc & Hdn & Hr & Hlr).
  assert (msg_at (bs_msgs st) (bs_base st) = Ret cur) as ->.
  { unfold msg_at. rewrite Hb, Hm, (proj2 (Z.leb_le _ _)) by lia. cbn [check mbind go_mbind].
    rewrite Nat2Z.id, list_lookup_middle by done. done. }
  cbn [mbind go_mbind]. destruct (_ && _) eqn:Econd.
  2: { destruct (bc_start_next st rem buf done_ Hinv Hok Hpos) as (st' & HS & Hinv' & Hd). exists st'. split; [done|].
       by apply Hpost. }
  apply andb_true_iff in Econd as [Econd Hend]. apply andb_true_iff in Econd as [Econd Hcnt].
  apply andb_true_iff in Econd as [Hmax Hgs]. bool_simp. rewrite Hend in *.
  assert (G <> []) as Hne by (destruct Hop as (_ & _ & _ & _ & _ & (? & ? & -> & _) & _); by destruct x).
  rewrite <- Hc in *.
  pose proof (bc_extend cur G _ buf Hop Hne Hok ltac:(lia) ltac:(lia) ltac:(lia)) as Hop'.
  set (cur' := set_Buffers cur _) in *.
  assert (put_msg (bs_msgs st) (bs_base st) cur' = closed ++ cur' :: rest) as ->.
  { unfold put_msg. rewrite Hm, Hb, Nat2Z.id, insert_app_r_alt by lia. by rewrite Nat.sub_diag. }
  destruct (Nat.eqb_spec i (n - 1)) as [Hlast|Hmore].
  - assert (rem = []) as -> by (destruct rem; [done|cbn in Hn; lia]).
    assert (1 < length (G ++ [load m buf])) as H1 by (rewrite length_app; destruct G; [done|cbn; lia]).
    destruct (bc_mark_closes closed cur' rest _ _ _ H1 Hop') as (cur2 & HM & Hcl2).
    rewrite Hb, HM. cbn [mbind go_mbind]. eexists. split; [reflexivity|]. rewrite decide_True by done.
    exists (closed ++ [cur2]), rest, (Gs ++ [G ++ [load m buf]]). cbn [bs_msgs bs_base].
    rewrite <- app_assoc, length_app. cbn [app length]. split_and!; [done|lia| |done|].
    + apply Forall2_app; [done|]. by constructor.
    + rewrite concat_app. cbn. rewrite app_nil_r. by rewrite <- Hdn, <- app_assoc.
  - cbn [mbind go_mbind]. eexists. split; [reflexivity|]. rewrite decide_False by (intros ->; cbn in Hn; lia).
    exists closed, cur', rest, Gs, (G ++ [load m buf]).
    cbn [bs_msgs bs_base bs_gsoSize bs_endBatch bs_dgramCnt]. split_and!; try done.
    + by destruct (s_len buf <? bs_gsoSize st).
    + rewrite length_app. cbn. lia.
    + rewrite <- Hdn. by rewrite app_assoc.
    + cbn in Hlr. lia.
Qed.

Lemma bc_loop_inv n rem : forall i st done_,
  0 < i -> n = i + length rem -> rem <> [] -> bc_inv st rem done_ ->
  Forall (slice_ok m) rem -> Forall (fun b => 0 < s_len b) rem ->
  exists st', bc_loop os addr n i rem st = Ret st' /\ bc_post st' (done_ ++ map (load m) rem).
Proof.
  induction rem as [|buf rem IH]; intros i st done_ Hi Hn Hne Hinv Hok Hpos; [done|].
  inversion Hok; subst. inversion Hpos; subst. cbn [bc_loop].
  destruct (bc_step_inv (i + length (buf :: rem)) i buf rem st done_) as (st' & -> & Hst'); try done; [cbn; lia|].
  cbn [mbind go_mbind]. case_decide as Hr.
  - subst rem. exists st'. by split.
  - destruct (IH (S i) st' (done_ ++ [load m buf])) as (st2 & HE & Hp);
      [lia|cbn; lia|done..|].
    exists st2. split; [done|]. cbn [map]. by rewrite <- app_assoc in Hp.
Qed.

(** The buffers of the first message only grow. *)
Definition grows0 (msgs msgs' : list Message) : Prop :=
  forall msg, msgs !! 0 = Some msg -> exists msg', msgs' !! 0 = Some msg' /\ m_Buffers msg `prefix_of` m_Buffers msg'.

Lemma grows0_refl msgs : grows0 msgs msgs.
Proof. intros msg ?. by exists msg. Qed.
Lemma grows0_trans msgs1 msgs2 msgs3 : grows0 msgs1 msgs2 -> grows0 msgs2 msgs3 -> grows0 msgs1 msgs3.
Proof.
  intros H1 H2 msg Hm. destruct (H1 msg Hm) as (msg2 & Hm2 & ?). destruct (H2 msg2 Hm2) as (msg3 & ? & ?).
  exists msg3. split; [done|]. by etrans.
Qed.
Lemma grows0_put msgs base msg msg' :
  msg_at msgs base = Ret msg -> m_Buffers msg `prefix_of` m_Buffers msg' -> grows0 msgs (put_msg msgs base msg').
Proof.
  intros Ha Hp msg0 H0. unfold msg_at in Ha. apply go_bind_Ret in Ha as (_ & _ & Ha). apply must_Ret in Ha.
  unfold put_msg. destruct (decide (Z.to_nat base = 0)) as [Hz|Hz].
  - rewrite Hz in *. rewrite H0 in Ha. injection Ha as ->. exists msg'. split; [|done].
    rewrite list_lookup_insert_eq by by eapply lookup_lt_Some. done.
  - rewrite list_lookup_insert_ne by done. by exists msg0.
Qed.
Lemma mark_gso_grows msgs base g msgs' : mark_gso (setGSOSize os) msgs base g = Ret msgs' -> grows0 msgs msgs'.
Proof.
  unfold mark_gso. intros HE. apply go_bind_Ret in HE as (msg & Ha & HE). apply go_bind_Ret in HE as (o & _ & [= <-]).
  eapply grows0_put; [exact Ha|done].
Qed.

Lemma bc_start_first buf st st' :
  (0 <= bs_base st)%Z -> bc_start os addr buf st = Ret st' ->
  (0 <= bs_base st')%Z /\ grows0 (bs_msgs st) (bs_msgs st').
Proof.
  intros Hb HE. unfold bc_start in HE. apply go_bind_Ret in HE as (msgs & Hm & HE).
  apply go_bind_Ret in HE as (msg & _ & HE). apply go_bind_Ret in HE as (o & _ & HE).
  apply go_bind_Ret in HE as (msg' & _ & [= <-]). cbn [bs_base bs_msgs]. split; [lia|].
  eapply grows0_trans with msgs.
  - destruct (_ <? _); [by eapply mark_gso_grows|injection Hm as <-; apply grows0_refl].
  - intros msg0 H0. exists msg0. split; [|done]. unfold put_msg. by rewrite list_lookup_insert_ne by lia.
Qed.

Lemma bc_step_first n i buf st st' :
  0 < i -> (0 <= bs_base st)%Z -> bc_step os addr n i buf st = Ret st' ->
  (0 <= bs_base st')%Z /\ grows0 (bs_msgs st) (bs_msgs st').
Proof.
  intros Hi Hb HE. unfold bc_step in HE. rewrite (proj2 (Nat.ltb_lt _ _) Hi) in HE.
  apply go_bind_Ret in HE as (msg & Ha & HE). destruct (_ && _) in HE; [|by apply bc_start_first in HE].
  apply go_bind_Ret in HE as (msgs & Hm & [= <-]). cbn [bs_base bs_msgs]. split; [done|].
  apply (grows0_trans _ (put_msg (bs_msgs st) (bs_base st) (set_Buffers msg (m_Buffers msg ++ [buf]))));
    [eapply grows0_put; [exact Ha|by eexists]|].
  destruct (_ =? _); [by eapply mark_gso_grows|injection Hm as <-; apply grows0_refl].
Qed.

Lemma bc_loop_first n rem : forall i st st',
  0 < i -> (0 <= bs_base st)%Z -> bc_loop os addr n i rem st = Ret st' -> grows0 (bs_msgs st) (bs_msgs st').
Proof.
  induction rem as [|buf rem IH]; intros i st st' Hi Hb HE; cbn [bc_loop] in HE.
  { injection HE as <-. apply grows0_refl. }
  apply go_bind_Ret in HE as (st1 & Hs & HE). destruct (bc_step_first _ _ _ _ _ Hi Hb Hs) as (Hb1 & H1).
  eapply grows0_trans; [exact H1|]. by apply (IH (S i)) in HE; [|lia|].
Qed.

(** The result of the whole function: the datagrams in groups, one per message. *)
Lemma bc_coalesce_spec bufs msgs :
  Forall (slice_ok m) bufs -> Forall (fun b => 0 < s_len b) bufs ->
  Forall bc_ready msgs -> length bufs <= length msgs ->
  exists Gs msgs', bc_coalesceMessages os addr bufs msgs = Ret (length Gs, msgs') /\
    concat Gs = map (load m) bufs /\ Forall2 bc_closed (take (length Gs) msgs') Gs /\
    Forall bc_ready (drop (length Gs) msgs').
Proof.
  intros Hok Hpos Hr Hl. unfold bc_coalesceMessages.
  assert (exists st, bc_loop os addr (length bufs) 0 bufs (mkBc msgs (-1) 0 0 false) = Ret st /\
    bc_post st (map (load m) bufs)) as (st & -> & used & rest & Gs & Hm & Hb & Hcl & Hrest & Hd).
  { destruct bufs as [|buf rem].
    { eexists. split; [done|]. exists [], msgs, []. by split_and!. }
    destruct msgs as [|msg rest]; [cbn in Hl; lia|].
    inversion Hok; subst. inversion Hpos; subst. inversion Hr; subst. cbn [bc_loop].
    destruct (bc_start_fresh (mkBc (msg :: rest) (-1) 0 0 false) [] msg rest buf) as (cur & HS & Hop); try done.
    { cbn. lia. }
    unfold bc_step. cbn [Nat.ltb Nat.leb]. rewrite HS. cbn [mbind go_mbind length app].
    assert (bc_inv (mkBc (cur :: rest) (Z.of_nat 0) (s_len buf) 1 false) rem [load m buf]) as Hinv.
    { exists [], cur, rest, [], [load m buf]. cbn in Hl. split_and!; try done. cbn; lia. }
    destruct rem as [|r rem].
    - eexists. split; [done|]. exists [cur], rest, [[load m buf]]. split_and!; try done.
      constructor; [|constructor]. by eapply bc_open_single.
    - destruct (bc_loop_inv (S (length (r :: rem))) (r :: rem) 1 _ _ ltac:(lia) eq_refl ltac:(done) Hinv)
        as (st & HE & Hp); [done..|]. by exists st. }
  pose proof (Forall2_length _ _ _ Hcl) as Hlen. cbn [mbind go_mbind]. exists Gs, (bs_msgs st).
  rewrite Hb, Nat2Z.id, Hm, <- Hlen, take_app_length, drop_app_length. done.
Qed.

(** Two buffers that fit together share the first message. *)
Lemma bc_coalesce_first b0 b1 bufs msg0 msgs k msgs' :
  bc_ready msg0 -> s_len b1 <= s_len b0 ->
  (Z.of_nat (s_len b0 + s_len b1) <= bc_maxPayloadLen addr)%Z ->
  bc_coalesceMessages os addr (b0 :: b1 :: bufs) (msg0 :: msgs) = Ret (k, msgs') ->
  exists msg1, msgs' !! 0 = Some msg1 /\ [b0; b1] `prefix_of` m_Buffers msg1.
Proof.
  intros [[b Hb] Hc] Hle Hmax HE. unfold bc_coalesceMessages in HE. apply go_bind_Ret in HE as (st & HE & [= _ <-]).
  cbn [bc_loop] in HE. apply go_bind_Ret in HE as (st1 & H1 & HE). apply go_bind_Ret in HE as (st2 & H2 & HE).
  unfold bc_step, bc_start in H1. cbn [Nat.ltb Nat.leb bs_dgramCnt mbind go_mbind bs_msgs bs_base] in H1.
  change (-1 + 1)%Z with 0%Z in H1. unfold msg_at, gb_reslice, set_buf0, put_msg in H1.
  change (Z.to_nat 0) with 0 in H1.
  cbn [Z.leb Z.compare check mbind go_mbind lookup list_lookup must Nat.leb m_Buffers set_OOB insert list_insert] in H1.
  rewrite Hb in H1. cbn [mbind go_mbind] in H1. injection H1 as <-.
  unfold bc_step, msg_at, put_msg in H2. cbn [Nat.ltb Nat.leb bs_msgs bs_base] in H2. change (Z.to_nat 0) with 0 in H2.
  cbn [Z.leb Z.compare check mbind go_mbind lookup list_lookup must insert list_insert] in H2.
  unfold buffers_len in H2. cbn [m_Buffers set_Addr set_Buffers map sum_list bs_gsoSize bs_dgramCnt bs_endBatch] in H2.
  destruct (_ && _ && _ && _) eqn:Ec in H2.
  2: { exfalso. revert Ec. apply not_false_iff_true. repeat (apply andb_true_iff; split); try done.
       - apply Z.leb_le. cbn. lia.
       - by apply Nat.leb_le. }
  apply go_bind_Ret in H2 as (msgs2 & Hm & [= <-]).
  apply bc_loop_first in HE; [|lia|cbn; lia]. cbn [bs_msgs] in HE.
  set (first := _ :: msgs) in Hm. assert (grows0 first msgs2) as Hg.
  { destruct (_ =? _); [by eapply mark_gso_grows|injection Hm as <-; apply grows0_refl]. }
  destruct (grows0_trans _ _ _ Hg HE _ eq_refl) as (msg1 & ? & ?). by exists msg1.
Qed.
End BcCorrect.

(** ** Writing *)

Section Write.
Context {U : UnixABI} {UL : UnixLaws U} `{Env W} {L : EnvLaws W} {os : GOOS}.
Hypothesis Hos : linux_or_android os = true.

(** A header during use: at least one buffer, room for a segment size. *)
Definition bc_used (msg : Message) : Prop :=
  m_Buffers msg <> [] /\ gsoControlSize_linux <= gb_cap (m_OOB msg).
Definition bc_hdrs (n : nat) (msgs : list Message) : Prop := length msgs = n /\ Forall bc_used msgs.
Definition batch_ok (n : nat) (b : batchingSendBatch) : Prop :=
  length (ba_msgs b) = n /\ Forall bc_ready (ba_msgs b) /\ udpaddr_ok (ba_ua b).
Definition bc_pool_ok (c : linuxBatchingConn) : Prop := Forall (batch_ok (bc_batchSize c)) (bc_sendBatchPool c).

Lemma bc_ready_used msg : bc_ready msg -> bc_used msg.
Proof. intros [[b Hb] Hc]. split; [by rewrite Hb|done]. Qed.

Lemma new_sendBatch_ok n : batch_ok n (new_sendBatch os n).
Proof.
  unfold new_sendBatch, batch_ok. cbn [ba_msgs ba_ua]. split; [apply length_replicate|]. split.
  - apply Forall_replicate. split; [by eexists|]. unfold gb_cap, gsoControlSize. rewrite Hos. cbn.
    by rewrite length_replicate.
  - split_and!; try done. by right.
Qed.

Lemma clean_send_ready msgs n :
  bc_hdrs n msgs -> length (map clean_send msgs) = n /\ Forall bc_ready (map clean_send msgs).
Proof.
  intros [Hl Hf]. rewrite length_map. split; [done|]. apply Forall_map. eapply list.Forall_impl; [exact Hf|].
  intros msg [Hb Hc]. split; [|done]. cbn. destruct (m_Buffers msg) as [|b bs]; [done|]. by exists b.
Qed.

Lemma bc_hdrs_put n msgs base msg : bc_hdrs n msgs -> bc_used msg -> bc_hdrs n (put_msg msgs base msg).
Proof. intros [? ?] ?. split; [unfold put_msg; by rewrite length_insert|by apply Forall_insert]. Qed.
Lemma bc_hdrs_at n msgs base msg : bc_hdrs n msgs -> msg_at msgs base = Ret msg -> bc_used msg.
Proof.
  intros [_ Hf] HE. unfold msg_at in HE. apply go_bind_Ret in HE as (? & _ & HE).
  apply must_Ret in HE. by eapply Forall_lookup_1.
Qed.
Lemma bc_used_buf0 msg b msg' : bc_used msg -> set_buf0 msg b = Ret msg' -> bc_used msg'.
Proof. intros [Hb Hc]. unfold set_buf0. destruct (m_Buffers msg); [done|]. by intros [= <-]. Qed.
Lemma bc_mark_hdrs n msgs base g msgs' :
  bc_hdrs n msgs -> mark_gso (setGSOSize os) msgs base g = Ret msgs' -> bc_hdrs n msgs'.
Proof.
  intros Hh HE. unfold mark_gso in HE.
  apply go_bind_Ret in HE as (msg & Hm & HE). apply go_bind_Ret in HE as (o & Ho & [= <-]).
  apply bc_hdrs_put; [done|]. apply setGSOSize_cap in Ho.
  destruct (bc_hdrs_at _ _ _ _ Hh Hm). split; [done|]. cbn. by rewrite Ho.
Qed.

Lemma bc_start_hdrs addr n buf st st' :
  bc_hdrs n (bs_msgs st) -> bc_start os addr buf st = Ret st' -> bc_hdrs n (bs_msgs st').
Proof.
  intros Hh HE. unfold bc_start in HE. apply go_bind_Ret in HE as (msgs & Hm & HE).
  assert (bc_hdrs n msgs) as Hh' by (destruct (_ <? _)%nat; [by eapply bc_mark_hdrs|by injection Hm as <-]).
  apply go_bind_Ret in HE as (msg & Ha & HE). apply go_bind_Ret in HE as (o & Ho & HE).
  apply go_bind_Ret in HE as (msg' & Hb & [= <-]). apply gb_reslice_Ret in Ho as [_ ->].
  cbn. apply bc_hdrs_put; [done|]. pose proof (bc_hdrs_at _ _ _ _ Hh' Ha) as [? ?].
  eapply (bc_used_buf0 _ _ msg') in Hb; [by destruct Hb|]. by split.
Qed.

Lemma bc_step_hdrs addr n N i buf st st' :
  bc_hdrs n (bs_msgs st) -> bc_step os addr N i buf st = Ret st' -> bc_hdrs n (bs_msgs st').
Proof.
  intros Hh HE. unfold bc_step in HE. destruct (0 <? i)%nat; [|by eapply bc_start_hdrs].
  apply go_bind_Ret in HE as (msg & Ha & HE). destruct (_ && _) in HE; [|by eapply bc_start_hdrs].
  apply go_bind_Ret in HE as (msgs & Hm & [= <-]). cbn.
  assert (bc_hdrs n (put_msg (bs_msgs st) (bs_base st) (set_Buffers msg (m_Buffers msg ++ [buf])))) as Hp.
  { apply bc_hdrs_put; [done|]. destruct (bc_hdrs_at _ _ _ _ Hh Ha). split; [|done]. cbn. by destruct (m_Buffers msg). }
  destruct (_ =? _)%nat in Hm; [by eapply bc_mark_hdrs|by injection Hm as <-].
Qed.

Lemma bc_coalesce_hdrs addr n bufs msgs k msgs' :
  bc_hdrs n msgs -> bc_coalesceMessages os addr bufs msgs = Ret (k, msgs') -> bc_hdrs n msgs'.
Proof.
  intros Hh HE. unfold bc_coalesceMessages in HE. apply go_bind_Ret in HE as (st & Hl & [= <- <-]).
  assert (forall N bufs i st0 st1, bc_hdrs n (bs_msgs st0) ->
    bc_loop os addr N i bufs st0 = Ret st1 -> bc_hdrs n (bs_msgs st1)) as Hloop.
  { clear. intros N. induction bufs as [|b bufs IH]; intros i st0 st1 Hh HE; cbn in HE.
    - by injection HE as <-.
    - apply go_bind_Ret in HE as (st & Hs & HE). eapply IH; [|exact HE]. by eapply bc_step_hdrs. }
  by eapply Hloop; [|exact Hl].
Qed.

(** Filling headers: the first buffer of each is replaced. *)
Lemma bc_fill_spec ua bufs : forall msgs n,
  bc_hdrs n msgs -> length bufs <= n ->
  exists msgs', bc_fill ua bufs msgs = Ret msgs' /\ bc_hdrs n msgs' /\
    Forall3 (fun b msg msg' => m_Buffers msg' = b :: tail (m_Buffers msg) /\ m_Addr msg' = Some ua /\
      gb_bytes (m_OOB msg') = []) bufs (take (length bufs) msgs) (take (length bufs) msgs').
Proof.
  induction bufs as [|b bufs IH]; intros msgs n [Hl Hh] Hle.
  { exists msgs. split; [done|]. split; [done|constructor]. }
  destruct msgs as [|msg msgs]; [cbn in *; lia|].
  inversion Hh as [|? ? [Hb Hc] Hh']; subst. cbn [length] in *.
  destruct (IH msgs (length msgs)) as (msgs' & HE & [Hl' Hf'] & Hw); [done|lia|].
  cbn [bc_fill]. unfold set_buf0. destruct (m_Buffers msg) as [|b0 bs] eqn:Eb; [done|].
  cbn [mbind go_mbind]. unfold gb_reslice. cbn [Nat.leb check mbind go_mbind]. rewrite HE. cbn [mbind go_mbind].
  eexists. split; [reflexivity|]. split.
  - split; [cbn; lia|]. by constructor.
  - cbn [take]. constructor; [|done]. cbn. by rewrite Eb.
Qed.

(** Without a segment size in the control data a message is one datagram. *)
Lemma segment_size_nil : segment_size [] = None.
Proof. unfold segment_size. by rewrite scan_control_nil. Qed.

(** Headers that hold the groups [Gs] in their buffers, and one buffer each
    behind them. *)
Definition grouped (m : mem) (msgs : list Message) (Gs : list (list (list byte))) : Prop :=
  Forall2 (fun msg G => map (load m) (m_Buffers msg) = G) (take (length Gs) msgs) Gs /\
  Forall bc_ready (drop (length Gs) msgs).

(** The datagrams of a send without offload from headers with these groups: it
    replaces the first buffer of each header and keeps the others. *)
Fixpoint retry_dgrams (data : list (list byte)) (Gs : list (list (list byte))) : list (list byte) :=
  match data, Gs with
  | d :: data', G :: Gs' => (d ++ concat (tail G)) :: retry_dgrams data' Gs'
  | _, _ => data
  end.

Lemma retry_dgrams_length data : forall Gs, length (retry_dgrams data Gs) = length data.
Proof. induction data as [|d data IH]; intros [|G Gs]; cbn; [done..|]. by rewrite IH. Qed.
Lemma retry_dgrams_nil data : retry_dgrams data [] = data.
Proof. by destruct data. Qed.

Lemma bc_plain_dgrams ua m bufs : forall msgs msgs' Gs,
  grouped m msgs Gs ->
  Forall3 (fun b msg msg' => m_Buffers msg' = b :: tail (m_Buffers msg) /\ m_Addr msg' = Some ua /\
      gb_bytes (m_OOB msg') = []) bufs (take (length bufs) msgs) msgs' ->
  concat (map (wire_datagrams m) msgs') = retry_dgrams (map (load m) bufs) Gs /\
  Forall (fun msg => m_Addr msg = Some ua) msgs'.
Proof.
  induction bufs as [|b bufs IH]; intros msgs msgs' Gs HG HF.
  { inversion HF; subst. by destruct Gs. }
  destruct msgs as [|msg msgs]; [inversion HF|]. cbn [take length] in HF.
  inversion HF as [|? ? msg' ? ? msgs1 (Hb & Ha & Ho) HF']; subst.
  assert (exists Gs', grouped m msgs Gs' /\ retry_dgrams (map (load m) (b :: bufs)) Gs =
    (load m b ++ concat (map (load m) (tail (m_Buffers msg)))) :: retry_dgrams (map (load m) bufs) Gs') as (Gs' & HG' & ->).
  { destruct HG as [HG HR]. destruct Gs as [|G Gs]; cbn in HG, HR.
    - inversion HR as [|? ? [[b0 Hb0] _] HR']; subst. exists []. split; [by split|]. cbn. rewrite Hb0. cbn.
      by rewrite app_nil_r, retry_dgrams_nil.
    - inversion HG as [|? ? ? ? HG1 HG2]; subst. exists Gs. split; [by split|]. cbn. by destruct (m_Buffers msg). }
  destruct (IH _ _ _ HG' HF') as [IH1 IH2]. split; [|by constructor]. cbn [map concat]. rewrite IH1.
  unfold wire_datagrams. rewrite Ho, segment_size_nil. unfold payload. by rewrite Hb.
Qed.

Lemma ready_grouped m msgs : Forall bc_ready msgs -> grouped m msgs [].
Proof. intros Hr. by split; [constructor|]. Qed.

(** An attempt to send [ws], as the kernel answers it: the answer, and the
    prefix that went out, all of it when there is no error. *)
Definition bc_attempt (c : linuxBatchingConn) (w : W) (ws : list wire) (err : option error) (w' : W) : Prop :=
  batch_answers (bc_xpc c) w ws err w' /\
  exists k, sent w' (bc_xpc c) = sent w (bc_xpc c) ++ take k ws /\ (err = None -> take k ws = ws).

Lemma writeBatch_spec c m msgs w :
  exists err w', writeBatch c m msgs w = Ret (err, w') /\ bc_attempt c w (map (wire_of m) msgs) err w'.
Proof.
  unfold writeBatch.
  destruct (send_batch_spec (bc_xpc c) (S (length msgs)) (map (wire_of m) msgs) w) as (err & w' & k & HE & Hk & Hs & Hn & Ha);
    [rewrite length_map; lia|].
  exists err, w'. split; [done|]. split; [done|]. exists k. split; [done|]. intros He. by rewrite (Hn He), take_ge.
Qed.

(** The address that datagrams are sent to: the zone is not passed on. *)
Definition bc_dst (a : AddrPort) : AddrPort := mkAddrPort (WithZone (ap_addr a) "") (ap_port a).

(** What a write does with the answer [err1] to its first attempt [ws1], which
    left the world [w1]: unless UDP GSO was rejected it returns the answer;
    otherwise it clears the flag, attempts once more without offload, and wraps
    the answer to that.  What the second attempt sends is not always what was
    passed: see [retry_dgrams]. *)
Definition bc_result (c : linuxBatchingConn) (data : list (list byte)) (a : AddrPort) (ws1 : list wire)
    (err1 : option error) (w1 : W) (err : option error) (w' : W) (offload' : bool) : Prop :=
  (~ rejected (bc_txOffload c) err1 /\ err = err1 /\ w' = w1 /\ offload' = bc_txOffload c) \/
  (rejected (bc_txOffload c) err1 /\ offload' = false /\ exists r ws2,
     err = Some (ErrUDPGSODisabled (env_local_addr (bc_conn c) w') r) /\
     emitted ws2 = at_dst (bc_dst a) (retry_dgrams data (map wire_dgrams ws1)) /\
     bc_attempt c w1 ws2 r w').

Lemma put_pool_ok c b msgs ua n :
  bc_pool_ok c -> bc_batchSize c = n -> b = mkBatch msgs ua -> bc_hdrs n msgs -> udpaddr_ok ua ->
  bc_pool_ok (putSendBatch b c).
Proof.
  intros Hp Hn -> Hh Hu. subst n. unfold bc_pool_ok. cbn. constructor; [|done].
  destruct (clean_send_ready _ _ Hh). split_and!; try done; apply Hu.
Qed.

(** The arguments of a write, and the connection it is made on. *)
Record write_pre (choice : nat) (c : linuxBatchingConn) (m : mem) (bufs : list slice) (a : AddrPort) : Prop := {
  wp_pool : bc_pool_ok c;
  wp_slices : Forall (slice_ok m) bufs;
  wp_nonempty : Forall (fun b => 0 < s_len b) bufs;
  wp_size : 0 < length bufs <= bc_batchSize c;
  wp_addr : Addr_ok (ap_addr a) /\ ap_addr a <> AddrZero;
  wp_port : (0 <= ap_port a < 65536)%Z;
  wp_pooled : Is6 (ap_addr a) = true ->
    gb_len (ua_IP (ba_ua (pool_get choice (bc_sendBatchPool c) (new_sendBatch os (bc_batchSize c))).1)) = 16;
}.

Lemma rejected_linux offload err :
  offload && match err with Some e => errShouldDisableUDPGSO os e | None => false end = true <->
  rejected offload err.
Proof.
  rewrite <- rejected_dec. unfold errShouldDisableUDPGSO. rewrite Hos. by destruct err.
Qed.

(** The groups of a coalesced attempt. *)
Lemma closed_groups ua m Gs msgs :
  Forall2 (bc_closed (addr := ua) (m := m)) msgs Gs ->
  map wire_dgrams (map (wire_of m) msgs) = Gs /\ map (wire_datagrams m) msgs = Gs /\
  Forall (fun msg => m_Addr msg = Some ua) msgs /\ Forall2 (fun msg G => map (load m) (m_Buffers msg) = G) msgs Gs /\
  Forall (fun G => G <> []) Gs.
Proof.
  induction 1 as [|msg G msgs Gs (Ha & Hw & Hb & Hne & _) _ (IH1 & IH2 & IH3 & IH4 & IH5)]; [done|].
  cbn [map]. rewrite IH1, IH2, Hw. split_and!; [|done|by constructor..].
  f_equal. exact Hw.
Qed.

(** The send without offload. *)
Lemma bc_send_plain_spec c ua m bufs msgs Gs n w :
  bc_hdrs n msgs -> grouped m msgs Gs -> length bufs <= n ->
  exists err msgs' w' ws, bc_send_plain c ua m bufs msgs w = Ret (err, msgs', w') /\ bc_hdrs n msgs' /\
    emitted ws = at_dst (UDPAddr_AddrPort ua) (retry_dgrams (map (load m) bufs) Gs) /\ bc_attempt c w ws err w'.
Proof.
  intros Hh HG Hle. destruct (bc_fill_spec ua bufs msgs _ Hh Hle) as (msgs' & HF & Hh' & H3).
  unfold bc_send_plain. rewrite HF. cbn [mbind go_mbind].
  destruct (bc_plain_dgrams ua m _ _ _ Gs HG H3) as [Hd Ha].
  destruct (writeBatch_spec c m (take (length bufs) msgs') w) as (err & w' & HW & Hatt).
  rewrite HW. cbn [mbind go_mbind]. eexists _, _, _, _. split; [reflexivity|]. split; [done|]. split; [|exact Hatt].
  rewrite (emitted_to m ua) by done. by rewrite Hd.
Qed.

(** A coalesced attempt whose first two buffers fit in one message. *)
Definition pair_grouped (m : mem) (bufs : list slice) (Gs : list (list (list byte))) : Prop :=
  match bufs with
  | b0 :: b1 :: _ => s_len b1 <= s_len b0 -> (Z.of_nat (s_len b0 + s_len b1) <= maxIPv4PayloadLen)%Z ->
      exists tl Gs', Gs = (load m b0 :: load m b1 :: tl) :: Gs'
  | _ => True
  end.

Lemma coalesce_pair_grouped ua m bufs msgs Gs msgs' :
  Forall bc_ready msgs -> length bufs <= length msgs ->
  bc_coalesceMessages os ua bufs msgs = Ret (length Gs, msgs') ->
  Forall2 (fun msg G => map (load m) (m_Buffers msg) = G) (take (length Gs) msgs') Gs ->
  concat Gs = map (load m) bufs -> pair_grouped m bufs Gs.
Proof.
  intros Hr Hle HE HG HC. destruct bufs as [|b0 [|b1 bufs]]; [done..|]. intros H1 Hmax.
  destruct msgs as [|msg0 msgs]; [cbn in Hle; lia|]. inversion Hr; subst.
  destruct (bc_coalesce_first (os := os) (addr := ua) b0 b1 bufs msg0 msgs (length Gs) msgs') as (msg1 & Hm & [more Hp]); try done.
  { unfold bc_maxPayloadLen. destruct (IP_To4 _); [done|]. unfold maxIPv4PayloadLen, maxIPv6PayloadLen in *. lia. }
  destruct Gs as [|G Gs]; [done|]. destruct msgs' as [|msg1' msgs']; [done|]. injection Hm as ->.
  cbn in HG. inversion HG as [|? ? ? ? HG1 _]; subst. rewrite Hp. cbn. by eexists _, _.
Qed.

(** The whole call. *)
Lemma WriteBatchTo_runs choice c m bufs a w :
  write_pre choice c m bufs a ->
  exists err c' w' ws1 err1 w1,
    WriteBatchTo os choice c m bufs a w = Ret (err, c', w') /\
    emitted ws1 = at_dst (bc_dst a) (map (load m) bufs) /\ bc_attempt c w ws1 err1 w1 /\
    bc_result c (map (load m) bufs) a ws1 err1 w1 err w' (bc_txOffload c') /\ bc_pool_ok c' /\
    (bc_txOffload c = true -> pair_grouped m bufs (map wire_dgrams ws1)).
Proof.
  intros [Hpool Hok Hpos [Hne Hle] [Hao Hnz] Hport Hua]. unfold WriteBatchTo.
  rewrite (proj2 (Nat.ltb_ge _ _) Hle). destruct bufs as [|buf0 rest] eqn:Ebufs; [cbn in Hne; lia|].
  rewrite <- Ebufs in *. clear Ebufs buf0 rest. unfold getSendBatch.
  destruct (pool_get_Forall _ choice _ (new_sendBatch os (bc_batchSize c)) Hpool (new_sendBatch_ok _))
    as [(Hlen & Hready & Huok) Hpool']. destruct (pool_get _ _ _) as [batch pool]. cbn [fst snd] in *.
  destruct (set_dst_spec (ba_ua batch) (ap_addr a) Huok Hao Hnz Hua) as (ua1 & Hset & Hdst).
  destruct (Hdst (ap_port a) Hport) as [Huok1 Huad]. rewrite Hset. cbn [mbind go_mbind].
  set (ua := mkUDPAddr _ _ _) in *. set (c1 := with_pool c pool). fold (bc_dst a) in Huad.
  assert (bc_pool_ok c1) as Hp1 by done.
  assert (bc_hdrs (bc_batchSize c) (ba_msgs batch)) as Hh
    by (split; [done|]; eapply list.Forall_impl; [exact Hready|]; apply bc_ready_used).
  change (bc_txOffload c1) with (bc_txOffload c). destruct (bc_txOffload c) eqn:Htx.
  - destruct (bc_coalesce_spec Hos (addr := ua) (m := m) bufs (ba_msgs batch)) as (Gs & msgs' & HE & HC & HG & HR); try done; [lia|].
    pose proof (bc_coalesce_hdrs _ _ _ _ _ _ Hh HE) as Hh'. destruct (closed_groups _ _ _ _ HG) as (Hwd & Hmd & Ha & Hb & _).
    pose proof (coalesce_pair_grouped ua m bufs (ba_msgs batch) Gs msgs' Hready ltac:(lia) HE Hb HC) as Hpair.
    rewrite HE. cbn [mbind go_mbind].
    destruct (writeBatch_spec c1 m (take (length Gs) msgs') w) as (err1 & w1 & HW & Hatt).
    assert (emitted (map (wire_of m) (take (length Gs) msgs')) = at_dst (bc_dst a) (map (load m) bufs)) as Hem.
    { rewrite (emitted_to m ua) by done. by rewrite Hmd, HC, Huad. }
    rewrite HW. cbn [mbind go_mbind]. pose proof (rejected_linux true err1) as Hrej. cbn [andb] in Hrej.
    destruct (match err1 with Some e => errShouldDisableUDPGSO os e | None => false end).
    + destruct (bc_send_plain_spec (disable_txOffload c1) ua m bufs msgs' Gs _ w1 Hh' (conj Hb HR) Hle)
        as (r & msgs2 & w' & ws2 & HP & Hh2 & Hem2 & Hatt2).
      rewrite HP. cbn [mbind go_mbind]. eexists _, _, _, _, err1, w1. split; [reflexivity|]. split; [exact Hem|].
      split; [exact Hatt|]. rewrite Hwd. split; [|split; [|done]].
      * right. rewrite Htx. split; [by apply Hrej|]. split; [done|]. exists r, ws2. rewrite Hwd, <- Huad. done.
      * by eapply (put_pool_ok _ _ msgs2 ua (bc_batchSize c)); [exact Hp1|..].
    + eexists _, _, _, _, err1, w1. split; [reflexivity|]. split; [exact Hem|]. split; [exact Hatt|].
      rewrite Hwd. split; [|split; [|done]].
      * left. rewrite Htx. split_and!; try done. by intros ?%Hrej.
      * by eapply (put_pool_ok _ _ msgs' ua (bc_batchSize c)); [exact Hp1|..].
  - destruct (bc_send_plain_spec c1 ua m bufs (ba_msgs batch) [] _ w Hh (ready_grouped _ _ Hready) Hle)
      as (err & msgs2 & w' & ws & HP & Hh2 & Hem & Hatt).
    rewrite HP. cbn [mbind go_mbind]. rewrite retry_dgrams_nil, Huad in Hem.
    eexists _, _, _, ws, err, w'. split; [reflexivity|]. split; [done|]. split; [exact Hatt|]. split; [|split; [|done]].
    + left. rewrite Htx. split_and!; try done. by intros [? _].
    + by eapply (put_pool_ok _ _ msgs2 ua (bc_batchSize c)); [exact Hp1|..].
Qed.

(** C9: [WriteBatchTo] delivers.  For one to batch size many non-empty datagrams
    to a valid address (an IPv6 one with a pooled address that is 16 bytes long;
    its zone is not passed on), the call returns.  Its first attempt asks the
    kernel to send exactly the datagrams passed, in order, to the address: all
    go out when the answer is no error, a prefix otherwise.  If offload was on
    and the answer is a rejection of UDP GSO, and only then, it switches offload
    off, attempts once more and reports [ErrUDPGSODisabled] with the answer; this
    second attempt sends the same number of datagrams, but each of the first
    ones is followed by the rest of the group that its header carried.  The pool
    holds clean batches afterwards, and memory is only read. *)
Theorem WriteBatchTo_delivers choice c m bufs a w :
  write_pre choice c m bufs a ->
  exists err c' w' ws1 err1 w1,
    WriteBatchTo os choice c m bufs a w = Ret (err, c', w') /\
    emitted ws1 = at_dst (bc_dst a) (map (load m) bufs) /\ bc_attempt c w ws1 err1 w1 /\
    bc_result c (map (load m) bufs) a ws1 err1 w1 err w' (bc_txOffload c') /\ bc_pool_ok c'.
Proof.
  intros P. destruct (WriteBatchTo_runs choice c m bufs a w P) as (err & c' & w' & ws1 & err1 & w1 & ? & ? & ? & ? & ? & _).
  by exists err, c', w', ws1, err1, w1.
Qed.

(** C39: The retry after a GSO rejection sends wrong datagrams: when the first
    two buffers were collected in one message (the second is not longer and they
    fit together), a write that reports a successful retry sent, as the first
    datagram of the retry, the concatenation of both (and of the buffers
    collected behind them) in place of the first. *)
Theorem retry_sends_concatenation choice c m b0 b1 bufs a w l c' w' :
  write_pre choice c m (b0 :: b1 :: bufs) a -> bc_txOffload c = true -> s_len b1 <= s_len b0 ->
  (Z.of_nat (s_len b0 + s_len b1) <= maxIPv4PayloadLen)%Z ->
  WriteBatchTo os choice c m (b0 :: b1 :: bufs) a w = Ret (Some (ErrUDPGSODisabled l None), c', w') ->
  bc_txOffload c' = false ->
  exists first retry k more, sent w' (bc_xpc c) = sent w (bc_xpc c) ++ first ++ retry /\
    emitted first = take k (at_dst (bc_dst a) (map (load m) (b0 :: b1 :: bufs))) /\
    length (emitted retry) = length (b0 :: b1 :: bufs) /\
    head (emitted retry) = Some (load m b0 ++ load m b1 ++ more, Some (bc_dst a)).
Proof.
  intros P Htx Hle Hmax HE Hoff.
  destruct (WriteBatchTo_runs choice c m _ a w P) as (err & c2 & w2 & ws1 & err1 & w1 & HE2 & Hem & Hatt & Hres & _ & Hpair).
  rewrite HE in HE2. injection HE2 as <- <- <-. destruct (Hpair Htx Hle Hmax) as (tl & Gs' & HG).
  destruct Hres as [(_ & _ & _ & Hc)|(_ & _ & r & ws2 & [= -> <-] & Hem2 & _ & k2 & Hs2 & Hn2)]; [congruence|].
  destruct Hatt as (_ & k1 & Hs1 & _). rewrite (Hn2 eq_refl) in Hs2.
  exists (take k1 ws1), ws2, (length (emitted (take k1 ws1))), (concat tl).
  split; [by rewrite Hs2, Hs1, app_assoc|]. split; [by apply emitted_prefix|]. rewrite Hem2, HG. split.
  - unfold at_dst. by rewrite length_map, retry_dgrams_length, length_map.
  - done.
Qed.
End Write.

(** ** Upgrading *)

(** What the upgrade is for: on Linux and Android, a UDP connection of network
    udp4 or udp6 whose innermost wrapped value [u] is a native one. *)
Definition upgradable `{Env W} (os : GOOS) (pconn : PacketConn) (network : string) (c u : conn) : Prop :=
  linux_or_android os = true /\ pconn = PUDP c /\ (network = "udp4"%string \/ network = "udp6"%string) /\
  wraps c u /\ env_wrapped u = None /\ env_is_udpconn u = true.

(** The offload flags as the socket options answer: UDP_SEGMENT can be read, and
    UDP_GRO reads one. *)
Definition offload_flags `{Env W} (c : conn) (w : W) (tx rx : bool) : Prop :=
  (tx = true <-> exists fd v, env_sockopt_fd c w = inr fd /\ env_getsockopt fd O_UDP_SEGMENT w = inr v) /\
  (rx = true <-> exists fd, env_sockopt_fd c w = inr fd /\ env_getsockopt fd O_UDP_GRO w = inr 1%Z).

Lemma supportsUDPOffload_flags `{Env W} os c w tx rx :
  linux_or_android os = true -> supportsUDPOffload os c w = (tx, rx) -> offload_flags c w tx rx.
Proof.
  intros Hos. unfold supportsUDPOffload, supportsUDPOffload_linux. rewrite Hos.
  destruct (env_sockopt_fd c w) as [e|fd] eqn:Efd; intros [= <- <-]; split.
  - split; [done|]. intros (fd & v & ? & _). congruence.
  - split; [done|]. intros (fd & ? & _). congruence.
  - destruct (env_getsockopt fd O_UDP_SEGMENT w) as [e|v] eqn:E; split; try done; [|by exists fd, v].
    intros (fd' & v & ? & ?). congruence.
  - destruct (env_getsockopt fd O_UDP_GRO w) as [e|v] eqn:E; split; try done; [|intros Hv|].
    + intros (fd' & ? & ?). congruence.
    + apply Z.eqb_eq in Hv as ->. by exists fd.
    + intros (fd' & ? & ?). apply Z.eqb_eq. congruence.
Qed.

(** C35: Upgrading a connection always returns.  Exactly the connections that are
    [upgradable] (Linux or Android, network udp4 or udp6, a native UDP connection
    inside) become batching ones: around the same connection, reading and writing
    batches on the native one, with the offload flags its socket options answer,
    the batch size asked for (128 unless it is positive) and an empty send pool;
    every other value is returned as it is.  Upgrading the result again returns
    it. *)
Theorem TryUpgrade_spec {U : UnixABI} `{Env W} {L : EnvLaws W} os fuel pconn network batchSize w :
  (forall c, wrap_depth c < fuel) ->
  exists r, TryUpgradeToBatchingConn os fuel pconn network batchSize w = Ret r /\
    (forall c u, upgradable os pconn network c u -> exists b, r = PBatching b /\
       bc_conn b = c /\ bc_xpc b = u /\ offload_flags c w (bc_txOffload b) (bc_rxOffload b) /\
       bc_batchSize b = (if (batchSize <=? 0)%Z then 128 else Z.to_nat batchSize) /\ bc_sendBatchPool b = []) /\
    ((forall c u, ~ upgradable os pconn network c u) -> r = pconn) /\
    TryUpgradeToBatchingConn os fuel r network batchSize w = Ret r.
Proof.
  intros Hf. unfold TryUpgradeToBatchingConn, upgradable.
  destruct (linux_or_android os) eqn:Hos; [|exists pconn; split_and!; try done; by intros ? ? [? _]].
  unfold TryUpgradeToBatchingConn_linux.
  destruct pconn as [b|c|id]; try (eexists; split_and!; try done; by intros ? ? (_ & ? & _)).
  destruct (negb _ && negb _) eqn:En.
  { eexists. split_and!; try done. intros ? ? (_ & _ & Hn & _).
    apply andb_true_iff in En as [E4 E6]. bool_simp. tauto. }
  assert (network = "udp4"%string \/ network = "udp6"%string) as Hnet.
  { apply andb_false_iff in En as [En|En]; bool_simp; auto. }
  destruct (unwrapValue_total fuel c (Hf c)) as (u & Hu & Hw & Hn).
  assert (forall u', wraps c u' -> env_wrapped u' = None -> u' = u) as Huniq by (intros; by eapply wraps_unique).
  cbn [unwrapUDPConn]. rewrite Hu. cbn [mbind go_mbind]. destruct (env_is_udpconn u) eqn:Eu.
  - destruct (supportsUDPOffload os c w) as [tx rx] eqn:Ef. eexists. split; [reflexivity|]. split_and!; try done.
    + intros c' u' (_ & [= <-] & _ & Hw' & Hn' & _). rewrite (Huniq _ Hw' Hn'). eexists. split; [reflexivity|].
      cbn. split_and!; try done; by apply supportsUDPOffload_flags in Ef as [? ?].
    + intros Hno. destruct (Hno c u). done.
  - eexists. split; [reflexivity|]. split_and!; try done; [|by rewrite Hu; cbn; rewrite Eu].
    intros c' u' (_ & [= <-] & _ & Hw' & Hn' & Hu'). rewrite (Huniq _ Hw' Hn') in Hu'. congruence.
Qed.

Lemma TryUpgrade_spec_witness :
  exists b, TryUpgradeToBatchingConn (W := sim) Linux 1 (PUDP 0) "udp4" 8 ex_world = Ret (PBatching b) /\
    bc_batchSize b = 8 /\ bc_xpc b = 0.
Proof.
  destruct (TryUpgrade_spec (U := linux64) (W := sim) Linux 1 (PUDP 0) "udp4" 8 ex_world)
    as (r & HE & Hup & _).
  - intros c. cbn. lia.
  - destruct (Hup 0 0) as (b & -> & _ & Hx & _ & Hb & _).
    + split_and!; try done; [by left|apply wraps_refl].
    + exists b. split; [exact HE|]. split; [exact Hb|exact Hx].
Defined.

(** *** Concrete inputs *)
Definition ex_bc : linuxBatchingConn := mkBatchingConn 0 0 true true 8 [].
Definition ex_dst : AddrPort := mkAddrPort (Addr4 [x7f; x00; x00; x01]) 9000.

Lemma ex_write_pre : write_pre (U := linux64) (os := Linux) 0 ex_bc ex_mem ex_bufs ex_dst.
Proof.
  split.
  - constructor.
  - by repeat constructor; vm_compute; lia.
  - by repeat constructor.
  - vm_compute. lia.
  - by vm_compute.
  - by vm_compute.
  - by vm_compute.
Defined.

Lemma WriteBatchTo_delivers_witness :
  exists err c' w' ws1 err1 w1,
    WriteBatchTo (U := linux64) (W := sim) Linux 0 ex_bc ex_mem ex_bufs ex_dst (no_gso ex_world) = Ret (err, c', w') /\
    emitted (U := linux64) ws1 = at_dst (bc_dst ex_dst) (map (load ex_mem) ex_bufs) /\
    bc_attempt ex_bc (no_gso ex_world) ws1 err1 w1 /\
    bc_result (U := linux64) ex_bc (map (load ex_mem) ex_bufs) ex_dst ws1 err1 w1 err w' (bc_txOffload c').
Proof.
  destruct (WriteBatchTo_delivers (U := linux64) (W := sim) (os := Linux) eq_refl 0 ex_bc ex_mem ex_bufs ex_dst (no_gso ex_world)
    ex_write_pre) as (err & c' & w' & ws1 & err1 & w1 & HE & Hem & Hatt & Hres & _).
  exists err, c', w', ws1, err1, w1. split; [exact HE|]. split; [exact Hem|]. split; [exact Hatt|exact Hres].
Defined.

Lemma retry_sends_concatenation_witness :
  exists l c' w' first retry k more,
    WriteBatchTo (U := linux64) (W := sim) Linux 0 ex_bc ex_mem ex_bufs ex_dst (no_gso ex_world)
      = Ret (Some (ErrUDPGSODisabled l None), c', w') /\
    sent w' 0 = sent (no_gso ex_world) 0 ++ first ++ retry /\
    emitted (U := linux64) first = take k (at_dst (bc_dst ex_dst) (map (load ex_mem) ex_bufs)) /\
    head (emitted (U := linux64) retry) = Some ([x01; x02] ++ [x03; x04] ++ more, Some (bc_dst ex_dst)).
Proof.
  destruct (WriteBatchTo (U := linux64) (W := sim) Linux 0 ex_bc ex_mem ex_bufs ex_dst (no_gso ex_world))
    as [[[err c'] w']| |] eqn:E; [|vm_compute in E; discriminate E..].
  assert (exists l, err = Some (ErrUDPGSODisabled l None) /\ bc_txOffload c' = false) as (l & -> & Hoff).
  { vm_compute in E. injection E as <- <- <-. by eexists. }
  destruct (retry_sends_concatenation (U := linux64) (W := sim) (os := Linux) eq_refl 0 ex_bc ex_mem _ _ _ ex_dst
    (no_gso ex_world) l c' w' ex_write_pre) as (first & retry & k & more & Hs & Hf & _ & Hh).
  - reflexivity.
  - vm_compute. lia.
  - by vm_compute.
  - exact E.
  - exact Hoff.
  - exists l, c', w', first, retry, k, more. split; [reflexivity|]. split; [exact Hs|]. split; [exact Hf|exact Hh].
Defined.

Example ex_write :
  match WriteBatchTo (U := linux64) (W := sim) Linux 0 ex_bc ex_mem ex_bufs ex_dst ex_world with
  | Ret (None, _, w') => length (sent w' 0) = 1 /\
      map fst (emitted (U := linux64) (sent w' 0)) = [[x01; x02]; [x03; x04]; [x05]]
  | _ => False
  end.
Proof. vm_compute. done. Qed.

(** ** Reading *)

Lemma full_oob_prepared {U : UnixABI} msgs bs :
  Forall2 (fun msg b => m_Buffers msg = [b]) msgs bs -> Forall2 prepared (map full_oob msgs) bs.
Proof. induction 1 as [|msg b msgs bs Hb _ IH]; [constructor|]. cbn. by constructor. Qed.

Lemma full_oob_slots {U : UnixABI} os m msgs bs k :
  rx_slots (os := os) m msgs bs -> rx_slots (os := os) m (take k msgs ++ map full_oob (drop k msgs)) bs.
Proof.
  intros (Hf & Hh & Hs & Hok). split_and!; try done.
  - rewrite <- (take_drop k bs). apply Forall2_app; [by apply Forall2_take|].
    eapply Forall2_impl; [by apply full_oob_prepared, Forall2_drop|]. by intros ? ? [? _].
  - apply Forall_app. split; [by apply Forall_take|]. apply Forall_map. by apply Forall_drop.
Qed.

(** What a read of the packets [pks] reports: their datagrams; and, when only
    one of the two messages of the window was filled, what the other one
    ([stale]) still held. *)
Definition reported {U : UnixABI} {os : GOOS} (pks : list packet) (stale : list (list byte * option UDPAddr))
    : list (list byte * option UDPAddr) :=
  map (fun '(d, a) => (d, Some a)) (datagrams (os := os) pks) ++
  if (length pks =? 1)%nat && negb (existsb is_empty pks) then stale else [].


(** Messages with empty control slices; the last holds a datagram of an earlier
    read. *)
Definition ex_rb_msgs : list Message :=
  map (fun a => mkMessage [Slice a 0 16 16] (gb_make 0 64) (Some ex_from) (if (a =? 127)%nat then 1 else 0) 0 0) (seq 0 128).


(** ** Defects *)

(** The retry on three datagrams. *)
Example ex_retry :
  match WriteBatchTo (U := linux64) (W := sim) Linux 0 ex_bc ex_mem ex_bufs ex_dst (no_gso ex_world) with
  | Ret (Some (ErrUDPGSODisabled _ None), _, w') =>
      map (load ex_mem) ex_bufs = [[x01; x02]; [x03; x04]; [x05]] /\
      map fst (emitted (U := linux64) (sent w' 0)) = [[x01; x02; x03; x04; x05]; [x03; x04]; [x05]]
  | _ => False
  end.
Proof. vm_compute. done. Qed.

(** Two reads through the same two messages. *)
Definition ex_reads : go (nat * nat * list (list byte)) :=
  let msg a := mkMessage [Slice a 0 16 16] (gb_make 0 64) None 0 0 0 in
  let pk d := mkPacket d [] ex_from in
  '((n1, _), msgs, m, w) ← ReadBatch (U := linux64) (W := sim) Linux ex_bc (rx_mem 2) [msg 0; msg 1]
    (rx_world [pk [x01]; pk [x02]]);
  '((n2, _), msgs, m, w) ← ReadBatch (U := linux64) (W := sim) Linux ex_bc m msgs
    (rx_world [pk [x03]]);
  Ret (n1, n2, map (fun msg => take (m_N msg) (payload m msg)) msgs).

(** [ReadBatch] delivers a datagram twice: it does not use the number of
    messages that were read, so that a message that the caller reuses still has
    the size of the previous read and is reported again. *)
Theorem ReadBatch_redelivers : ex_reads = Ret (2, 2, [[x03]; [x02]]).
Proof. vm_compute. done. Qed.
