(* ===== verification/BatchConc.v ===== *)
(** * Concurrent use of a batching connection (batching_conn_linux.go)

    [WriteBatchTo] takes no lock: [txOffload] is an atomic flag that it loads at
    the label [retry] and again after a failed write, and the headers come from
    a pool.  A call is a state machine whose steps are the atomic operations and
    the system calls; a system is a connection with any number of calls.
    [WriteBatchTo] never writes to memory, so that a call is modelled with the
    memory its caller passed; the caller leaves its buffers alone meanwhile. *)

From stdpp Require Import relations.
From S2P Require Import Prelude Errors GoMem Netip Cmsg Gso Sticky Message Coalesce Split Env SimNet ControlFns Conn StdNet StdSend StdRecv StdConc BatchingConn.

(** The local variables from [retry] on. *)
Record bc_locals := mkBl { bl_ua : UDPAddr; bl_msgs : list Message; bl_retried : bool }.

(** Program points: before the checks, at [retry], in the loop of [writeBatch]
    with the messages left and the branch taken, behind a failed coalesced
    write, before the store of [false], before the deferred call, returned. *)
Inductive bc_pc :=
| W_start
| W_retry (l : bc_locals)
| W_write (l : bc_locals) (coalesced : bool) (rest : list Message)
| W_test (l : bc_locals) (err : option error)
| W_store (l : bc_locals)
| W_put (l : bc_locals) (err : option error)
| W_done (err : option error).

Record bc_call := mkWcall { wc_bufs : list slice; wc_addr : AddrPort; wc_mem : mem; wc_pc : bc_pc }.
Definition wc_goto (t : bc_call) (pc : bc_pc) : bc_call := mkWcall (wc_bufs t) (wc_addr t) (wc_mem t) pc.

Section BcSteps.
Context {U : UnixABI} `{Env W} (os : GOOS).

(** One step: the call, what it handed to the kernel, the connection and the
    world; [None] when the call has returned. *)
Definition bc_call_step (choice : nat) (t : bc_call) (c : linuxBatchingConn) (w : W)
    : option (go (bc_call * list wire * linuxBatchingConn * W)) :=
  match wc_pc t with
  | W_start =>
      if (bc_batchSize c <? length (wc_bufs t))%nat then Some (Ret (wc_goto t (W_done (Some ErrBatchTooLarge)), [], c, w)) else
      match wc_bufs t with
      | [] => Some (Ret (wc_goto t (W_done None), [], c, w))
      | _ =>
          let '(batch, c) := getSendBatch os choice c in
          Some (ua ← set_dst (ba_ua batch) (ap_addr (wc_addr t));
                let ua := mkUDPAddr (ua_IP ua) (ap_port (wc_addr t)) (ua_Zone ua) in
                Ret (wc_goto t (W_retry (mkBl ua (ba_msgs batch) false)), [], c, w))
      end
  | W_retry l =>
      Some (if bc_txOffload c then
              '(n, msgs) ← bc_coalesceMessages os (bl_ua l) (wc_bufs t) (bl_msgs l);
              Ret (wc_goto t (W_write (mkBl (bl_ua l) msgs (bl_retried l)) true (take n msgs)), [], c, w)
            else
              msgs ← bc_fill (bl_ua l) (wc_bufs t) (bl_msgs l);
              Ret (wc_goto t (W_write (mkBl (bl_ua l) msgs (bl_retried l)) false (take (length (wc_bufs t)) msgs)), [], c, w))
  | W_write l coalesced rest =>
      let ws := map (wire_of (wc_mem t)) rest in
      let '((n, err), w) := env_write_batch (bc_xpc c) ws w in
      Some (if match err with Some _ => true | None => (n =? length ws)%nat end
            then Ret (wc_goto t (if coalesced then W_test l err else W_put l err), take n ws, c, w)
            else _ ← check (n <=? length ws)%nat; Ret (wc_goto t (W_write l coalesced (drop n rest)), take n ws, c, w))
  | W_test l err =>
      Some (Ret (wc_goto t (if match err with Some _ => true | None => false end && bc_txOffload c &&
                               match err with Some e => errShouldDisableUDPGSO os e | None => false end
                            then W_store l else W_put l err), [], c, w))
  | W_store l =>
      Some (Ret (wc_goto t (W_retry (mkBl (bl_ua l) (bl_msgs l) true)), [], disable_txOffload c, w))
  | W_put l err =>
      Some (Ret (wc_goto t (W_done (if bl_retried l
                  then Some (ErrUDPGSODisabled (env_local_addr (bc_conn c) w) err) else err)), [],
                 putSendBatch (mkBatch (bl_msgs l) (bl_ua l)) c, w))
  | W_done _ => None
  end.

(** *** A call that runs alone *)

Definition bc_alone (choice : nat) (x y : bc_call * linuxBatchingConn * W) : Prop :=
  exists ev, bc_call_step choice x.1.1 x.1.2 x.2 = Some (Ret (y.1.1, ev, y.1.2, y.2)).

Lemma write_loop_runs choice l coalesced c t : forall rest w err w',
  wc_pc t = W_write l coalesced rest -> writeBatch c (wc_mem t) rest w = Ret (err, w') ->
  rtc (bc_alone choice) (t, c, w) (wc_goto t (if coalesced then W_test l err else W_put l err), c, w').
Proof.
  unfold writeBatch. intros rest w err w'. generalize (S (length rest)) as fuel.
  intros fuel Hpc Hs. revert t rest w Hpc Hs.
  induction fuel as [|fuel IH]; intros t rest w Hpc Hs; [done|]. cbn [send_batch] in Hs.
  destruct (env_write_batch (bc_xpc c) _ w) as [[n e] w1] eqn:E.
  destruct (match e with Some _ => true | None => _ end) eqn:Ee.
  - injection Hs as -> ->. apply rtc_once. eexists. unfold bc_call_step. cbn [fst snd]. by rewrite Hpc, E, Ee.
  - destruct (n <=? _)%nat eqn:En; [|done]. cbn in Hs. rewrite skipn_map in Hs.
    eapply rtc_l; [|refine (IH (wc_goto t (W_write l coalesced (drop n rest))) _ _ eq_refl Hs)].
    eexists. unfold bc_call_step. cbn [fst snd]. by rewrite Hpc, E, Ee, En.
Qed.

(** The attempt without offload. *)
Lemma plain_runs choice l c t w err msgs w' :
  wc_pc t = W_retry l -> bc_txOffload c = false ->
  bc_send_plain c (bl_ua l) (wc_mem t) (wc_bufs t) (bl_msgs l) w = Ret (err, msgs, w') ->
  rtc (bc_alone choice) (t, c, w) (wc_goto t (W_put (mkBl (bl_ua l) msgs (bl_retried l)) err), c, w').
Proof.
  intros Hpc Hoff HE. unfold bc_send_plain in HE. apply go_bind_Ret in HE as (ms & Hf & HE).
  apply go_bind_Ret in HE as ([e w1] & Hs & [= <- <- <-]). set (l' := mkBl (bl_ua l) ms (bl_retried l)).
  eapply rtc_l with (wc_goto t (W_write l' false (take (length (wc_bufs t)) ms)), c, w).
  { eexists. unfold bc_call_step. cbn [fst snd]. by rewrite Hpc, Hoff, Hf. }
  exact (write_loop_runs choice l' false c (wc_goto t _) _ w e w1 eq_refl Hs).
Qed.

(** The steps are those of [WriteBatchTo]: a call that runs alone makes the
    same system calls and ends with the same result, connection and world. *)
Theorem WriteBatchTo_steps choice c m bufs addr w err c' w' :
  WriteBatchTo os choice c m bufs addr w = Ret (err, c', w') ->
  rtc (bc_alone choice) (mkWcall bufs addr m W_start, c, w) (mkWcall bufs addr m (W_done err), c', w').
Proof.
  unfold WriteBatchTo. intros HE.
  destruct (_ <? _)%nat eqn:Hlen.
  { injection HE as <- <- <-. apply rtc_once. eexists. unfold bc_call_step. cbn [fst snd wc_pc wc_bufs]. by rewrite Hlen. }
  destruct bufs as [|b0 bufs0].
  { injection HE as <- <- <-. apply rtc_once. eexists. unfold bc_call_step. cbn [fst snd wc_pc wc_bufs]. by rewrite Hlen. }
  set (bufs := b0 :: bufs0) in *. set (t := mkWcall bufs addr m W_start). destruct (getSendBatch os choice c) as [batch c1] eqn:Hg.
  apply go_bind_Ret in HE as (ua0 & Hset & HE). set (ua := mkUDPAddr _ _ _) in *.
  set (l := mkBl ua (ba_msgs batch) false).
  eapply rtc_l with (wc_goto t (W_retry l), c1, w).
  { eexists. unfold bc_call_step. cbn [fst snd wc_pc t wc_bufs wc_addr]. rewrite Hlen, Hg, Hset. done. }
  destruct (bc_txOffload c1) eqn:Hoff.
  - apply go_bind_Ret in HE as ([n ms] & Hco & HE). apply go_bind_Ret in HE as ([err1 w1] & Hs & HE).
    set (l1 := mkBl ua ms false).
    eapply rtc_l with (wc_goto t (W_write l1 true (take n ms)), c1, w).
    { eexists. unfold bc_call_step. cbn [fst snd wc_pc wc_goto bl_ua bl_msgs l wc_bufs t]. by rewrite Hoff, Hco. }
    etrans; [exact (write_loop_runs choice l1 true c1 (wc_goto t _) _ w err1 w1 eq_refl Hs)|].
    assert (forall pc, (if match err1 with Some e => errShouldDisableUDPGSO os e | None => false end
        then W_store l1 else W_put l1 err1) = pc ->
      bc_alone choice (wc_goto t (W_test l1 err1), c1, w1) (wc_goto t pc, c1, w1)) as Htest.
    { intros pc <-. eexists. unfold bc_call_step. cbn [fst snd wc_pc wc_goto]. rewrite Hoff. destruct err1; done. }
    destruct (match err1 with Some _ => _ | None => false end).
    + apply go_bind_Ret in HE as ([[err2 ms2] w2] & Hp & [= <- <- <-]).
      eapply rtc_l; [by apply Htest|].
      eapply rtc_l with (wc_goto t (W_retry (mkBl ua ms true)), disable_txOffload c1, w1); [by eexists|].
      eapply rtc_r; [exact (plain_runs choice (mkBl ua ms true) (disable_txOffload c1) (wc_goto t _) w1 err2 ms2 w2 eq_refl eq_refl Hp)|by eexists].
    + injection HE as <- <- <-. eapply rtc_l; [by apply Htest|]. apply rtc_once. by eexists.
  - apply go_bind_Ret in HE as ([[err2 ms2] w2] & Hp & [= <- <- <-]).
    eapply rtc_r; [exact (plain_runs choice l c1 (wc_goto t _) w err2 ms2 w2 eq_refl Hoff Hp)|by eexists].
Qed.
End BcSteps.

(** ** The system *)

(** A connection with its calls of [WriteBatchTo], the request behind each call,
    and what each handed to the kernel. *)
Record bc_sys (W : Type) := mkBcSys {
  by_conn : linuxBatchingConn; by_world : W; by_calls : list bc_call;
  by_reqs : list (list (list byte) * AddrPort); by_log : list (nat * (conn * wire));
}.
Arguments mkBcSys {W}. Arguments by_conn {W}. Arguments by_world {W}. Arguments by_calls {W}.
Arguments by_reqs {W}. Arguments by_log {W}.

(** What a caller passes. *)
Record write_ok (m : mem) (bufs : list slice) (a : AddrPort) : Prop := {
  wo_slices : Forall (slice_ok m) bufs;
  wo_nonempty : Forall (fun b => 0 < s_len b) bufs;
  wo_addr : Addr_ok (ap_addr a) /\ ap_addr a <> AddrZero;
  wo_port : (0 <= ap_port a < 65536)%Z;
}.

Section BcSystem.
Context {U : UnixABI} {UL : UnixLaws U} `{Env W} {L : EnvLaws W} {F : EnvFrame W} {os : GOOS}.
Hypothesis Hos : linux_or_android os = true.

(** A new call, a step of a call, or a read. *)
Inductive bc_sys_step : bc_sys W -> bc_sys W -> Prop :=
| by_call c w ts qs log m bufs a :
    write_ok m bufs a ->
    bc_sys_step (mkBcSys c w ts qs log)
      (mkBcSys c w (ts ++ [mkWcall bufs a m W_start]) (qs ++ [(map (load m) bufs, a)]) log)
| by_write c w ts qs log i t choice t' ev c' w' :
    ts !! i = Some t -> bc_call_step os choice t c w = Some (Ret (t', ev, c', w')) ->
    bc_sys_step (mkBcSys c w ts qs log)
      (mkBcSys c' w' (<[i := t']> ts) qs (log ++ map (pair i) (map (pair (bc_xpc c)) ev)))
| by_read c w ts qs log m msgs r msgs' m' w' :
    ReadBatch os c m msgs w = Ret (r, msgs', m', w') ->
    bc_sys_step (mkBcSys c w ts qs log) (mkBcSys c w' ts qs log).

(** The connection: pooled batches are clean, and nothing but the pool and the
    flag ever changes; the flag goes from on to off only. *)
Definition conn_inv (c0 c : linuxBatchingConn) : Prop :=
  bc_conn c = bc_conn c0 /\ bc_xpc c = bc_xpc c0 /\ bc_rxOffload c = bc_rxOffload c0 /\
  bc_batchSize c = bc_batchSize c0 /\ bc_pool_ok c.
Definition quieter (c c' : linuxBatchingConn) : Prop := bc_txOffload c = false -> bc_txOffload c' = false.

Lemma quieter_refl c : quieter c c.
Proof. by intros ?. Qed.
Lemma quieter_disable c : quieter c (disable_txOffload c).
Proof. done. Qed.
#[local] Hint Resolve quieter_refl quieter_disable : core.

Definition dst_is (a : AddrPort) (dst : AddrPort) : Prop :=
  Is6 (ap_addr a) = false -> dst = mkAddrPort (WithZone (ap_addr a) "") (ap_port a).

(** Groups of datagrams in the order of a request. *)
Definition groups (data : list (list byte)) (Gs : list (list (list byte))) : Prop :=
  concat Gs = data /\ Forall (fun G => G <> []) Gs.

(** What a call that returned has sent: nothing that is too large; a prefix of
    its datagrams, all of them without an error; or it reports that it fell
    back, the connection has no offload, and it sent a prefix of its datagrams
    and then a prefix of what the retry sends (all of that when the retry
    succeeded): its datagrams, the first ones followed by the rest of the groups
    that were collected before. *)
Definition write_outcome (c : linuxBatchingConn) (data : list (list byte)) (a : AddrPort)
    (em : list (list byte * option AddrPort)) (err : option error) : Prop :=
  (err = Some ErrBatchTooLarge /\ em = []) \/
  (exists l r dst k k' Gs, err = Some (ErrUDPGSODisabled l r) /\ bc_txOffload c = false /\ dst_is a dst /\
     groups data Gs /\
     em = take k (at_dst dst data) ++ take k' (at_dst dst (retry_dgrams data Gs)) /\
     (r = None -> em = take k (at_dst dst data) ++ at_dst dst (retry_dgrams data Gs))) \/
  exists dst k, dst_is a dst /\ em = take k (at_dst dst data) /\ (err = None -> em = at_dst dst data).

Record bl_ok (N : nat) (a : AddrPort) (c : linuxBatchingConn) (l : bc_locals) : Prop := {
  bo_hdrs : bc_hdrs N (bl_msgs l);
  bo_ua : udpaddr_ok (bl_ua l);
  bo_dst : dst_is a (UDPAddr_AddrPort (bl_ua l));
  bo_off : bl_retried l = true -> bc_txOffload c = false;
}.

(** What a call sends in all when no write fails any more. *)
Definition target (data : list (list byte)) (l : bc_locals) (T : list (list byte * option AddrPort)) : Prop :=
  let dst := UDPAddr_AddrPort (bl_ua l) in
  if bl_retried l then exists k Gs, groups data Gs /\ T = take k (at_dst dst data) ++ at_dst dst (retry_dgrams data Gs)
  else T = at_dst dst data.
Definition collected (m : mem) (data : list (list byte)) (l : bc_locals) : Prop :=
  exists Gs, groups data Gs /\ grouped m (bl_msgs l) Gs.

Definition write_pc_inv (N : nat) (data : list (list byte)) (c : linuxBatchingConn) (t : bc_call) (ev : list wire) : Prop :=
  let want l := at_dst (UDPAddr_AddrPort (bl_ua l)) data in
  match wc_pc t with
  | W_start => ev = []
  | W_retry l => bl_ok N (wc_addr t) c l /\ length (wc_bufs t) <= N /\
      if bl_retried l then collected (wc_mem t) data l /\ exists k, emitted ev = take k (want l)
      else ev = [] /\ Forall bc_ready (bl_msgs l)
  | W_write l co rest => bl_ok N (wc_addr t) c l /\ length (wc_bufs t) <= N /\ length rest <= N /\
      (co = true -> bl_retried l = false /\ collected (wc_mem t) data l) /\
      target data l (emitted (ev ++ map (wire_of (wc_mem t)) rest))
  | W_test l err => bl_ok N (wc_addr t) c l /\ length (wc_bufs t) <= N /\ bl_retried l = false /\
      collected (wc_mem t) data l /\ exists k, emitted ev = take k (want l) /\ (err = None -> emitted ev = want l)
  | W_store l => bl_ok N (wc_addr t) c l /\ length (wc_bufs t) <= N /\
      collected (wc_mem t) data l /\ exists k, emitted ev = take k (want l)
  | W_put l err => bl_ok N (wc_addr t) c l /\
      exists T k, target data l T /\ emitted ev = take k T /\ (err = None -> emitted ev = T)
  | W_done err => write_outcome c data (wc_addr t) (emitted ev) err
  end.

Record write_inv (N : nat) (data : list (list byte)) (c : linuxBatchingConn) (t : bc_call) (ev : list wire) : Prop := {
  wi_ok : write_ok (wc_mem t) (wc_bufs t) (wc_addr t);
  wi_data : map (load (wc_mem t)) (wc_bufs t) = data;
  wi_pc : write_pc_inv N data c t ev;
}.

Definition write_steps_left (N : nat) (pc : bc_pc) : nat :=
  match pc with
  | W_start => 2 * N + 10
  | W_retry l => if bl_retried l then N + 3 else 2 * N + 9
  | W_write _ co rest => (if co then N + 6 else 0) + length rest + 2
  | W_test _ _ => N + 6
  | W_store _ => N + 4
  | W_put _ _ => 1
  | W_done _ => 0
  end.

(** A call keeps its invariant when the flag goes off. *)
Lemma write_inv_quieter N data c c' t ev : quieter c c' -> write_inv N data c t ev -> write_inv N data c' t ev.
Proof.
  intros Q [K D P]. split; try done.
  assert (forall l, bl_ok N (wc_addr t) c l -> bl_ok N (wc_addr t) c' l) as Hl
    by (intros l []; split; try done; intros Hr; apply Q; auto).
  unfold write_pc_inv, write_outcome, quieter in *. destruct (wc_pc t); naive_solver.
Qed.

Definition write_good (c0 c : linuxBatchingConn) (data : list (list byte)) (t : bc_call) (ev : list wire) (w : W)
    (t' : bc_call) (new : list wire) (c' : linuxBatchingConn) (w' : W) : Prop :=
  write_inv (bc_batchSize c0) data c' t' (ev ++ new) /\ conn_inv c0 c' /\ quieter c c' /\
  (forall s, sent w' s = sent w s ++ if decide (s = bc_xpc c0) then new else []) /\
  write_steps_left (bc_batchSize c0) (wc_pc t') < write_steps_left (bc_batchSize c0) (wc_pc t).

Lemma write_quiet c0 c data t ev w pc c' :
  write_inv (bc_batchSize c0) data c t ev -> conn_inv c0 c' -> quieter c c' ->
  write_pc_inv (bc_batchSize c0) data c' (wc_goto t pc) ev ->
  write_steps_left (bc_batchSize c0) pc < write_steps_left (bc_batchSize c0) (wc_pc t) ->
  write_good c0 c data t ev w (wc_goto t pc) [] c' w.
Proof.
  intros [K D P] C Q P' M. split; [|split; [|split; [|split]]]; try done.
  - rewrite app_nil_r. by split.
  - intros s. case_decide; by rewrite app_nil_r.
Qed.

Definition write_steps_well (c0 : linuxBatchingConn) (data : list (list byte)) (choice : nat) (t : bc_call)
    (ev : list wire) (c : linuxBatchingConn) (w : W) : Prop :=
  exists t' new c' w', bc_call_step os choice t c w = Some (Ret (t', new, c', w')) /\
    write_good c0 c data t ev w t' new c' w'.

Lemma w_start_well c0 data choice t ev c w :
  write_inv (bc_batchSize c0) data c t ev -> conn_inv c0 c -> wc_pc t = W_start ->
  write_steps_well c0 data choice t ev c w.
Proof.
  intros I C Hpc. pose proof I as [K D P]. pose proof C as (C1 & C2 & C3 & C4 & C5).
  unfold write_pc_inv in P. rewrite Hpc in P. subst ev.
  unfold write_steps_well, bc_call_step. rewrite Hpc.
  destruct (_ <? _)%nat eqn:Hlen.
  { eexists _, _, _, _. split; [reflexivity|]. apply write_quiet; try done; [by left|]. rewrite Hpc. cbn. lia. }
  apply Nat.ltb_ge in Hlen. rewrite C4 in Hlen.
  destruct (wc_bufs t) as [|b0 bs] eqn:Hb.
  { eexists _, _, _, _. split; [reflexivity|]. apply write_quiet; try done; [|rewrite Hpc; cbn; lia].
    right. right. exists (mkAddrPort (WithZone (ap_addr (wc_addr t)) "") (ap_port (wc_addr t))), 0. rewrite <- D. done. }
  rewrite <- Hb in *. unfold getSendBatch.
  destruct (pool_get_Forall _ choice _ (new_sendBatch os (bc_batchSize c)) C5 (new_sendBatch_ok Hos _))
    as [(Hl & Hready & Huok) Hpool']. destruct (pool_get _ _ _) as [batch pool]. cbn [fst snd] in *.
  destruct (wo_addr _ _ _ K) as [Hao Hnz].
  destruct (set_dst_total (ba_ua batch) (ap_addr (wc_addr t)) (ap_port (wc_addr t)) Huok Hao Hnz (wo_port _ _ _ K))
    as (ua & Hset & Hu & Hd). rewrite Hset. cbn [mbind go_mbind].
  eexists _, _, _, _. split; [reflexivity|].
  apply write_quiet; [done|by split_and!|by intros ?| |rewrite Hpc; cbn; lia].
  split; [split; cbn|split]; try done.
  split; [congruence|]. eapply list.Forall_impl; [exact Hready|]. apply bc_ready_used.
Qed.

Lemma w_retry_well c0 data choice t ev c w l :
  write_inv (bc_batchSize c0) data c t ev -> conn_inv c0 c -> wc_pc t = W_retry l ->
  write_steps_well c0 data choice t ev c w.
Proof.
  intros I C Hpc. pose proof I as [K D P]. unfold write_pc_inv in P. rewrite Hpc in P.
  destruct P as ([Hh Hua Hdst Hoff] & Hle & Hfresh). unfold write_steps_well, bc_call_step. rewrite Hpc.
  destruct (bc_txOffload c) eqn:Htx.
  - assert (bl_retried l = false) as Hnr by (destruct (bl_retried l); [by specialize (Hoff eq_refl)|done]).
    rewrite Hnr in Hfresh. destruct Hfresh as [-> Hready].
    destruct (bc_coalesce_spec Hos (addr := bl_ua l) (m := wc_mem t) (wc_bufs t) (bl_msgs l)
      (wo_slices _ _ _ K) (wo_nonempty _ _ _ K) Hready) as (Gs & msgs' & HE & HC & HG & HR); [destruct Hh; lia|].
    destruct (closed_groups _ _ _ _ HG) as (_ & Hmd & Ha & Hb & Hne).
    pose proof (bc_coalesce_hdrs _ _ _ _ _ _ Hh HE) as Hh'. rewrite HE. cbn [mbind go_mbind].
    eexists _, _, _, _. split; [reflexivity|]. apply write_quiet; try done.
    + split; [split; cbn; (done || congruence)|]. split; [done|]. split; [rewrite length_take; destruct Hh'; lia|].
      split; [intros _; split; [done|]; exists Gs; split; [split; [congruence|done]|by split]|].
      unfold target. cbn [bl_retried bl_ua app wc_mem wc_goto]. rewrite Hnr, (emitted_to (wc_mem t) (bl_ua l)) by done.
      by rewrite Hmd, HC, D.
    + rewrite Hpc. cbn. rewrite Hnr, length_take. destruct Hh'. lia.
  - destruct (bc_fill_spec (bl_ua l) (wc_bufs t) (bl_msgs l) _ Hh Hle) as (msgs2 & HF & Hh2 & H3).
    rewrite HF. cbn [mbind go_mbind]. eexists _, _, _, _. split; [reflexivity|]. apply write_quiet; try done.
    + split; [by split|]. split; [done|]. split; [rewrite length_take; lia|]. split; [done|].
      unfold target. cbn [bl_retried bl_ua wc_mem wc_goto app]. destruct (bl_retried l).
      * destruct Hfresh as ((Gs & HGs & HG) & k & Hk). exists k, Gs. split; [done|].
        destruct (bc_plain_dgrams (bl_ua l) (wc_mem t) _ _ _ Gs HG H3) as [Hd Ha].
        rewrite emitted_app, Hk, (emitted_to (wc_mem t) (bl_ua l)) by done. by rewrite Hd, D.
      * destruct Hfresh as [-> Hready]. destruct (bc_plain_dgrams (bl_ua l) (wc_mem t) _ _ _ [] (ready_grouped _ _ Hready) H3) as [Hd Ha].
        cbn [app]. rewrite (emitted_to (wc_mem t) (bl_ua l)) by done. by rewrite Hd, retry_dgrams_nil, D.
    + rewrite Hpc. cbn. rewrite length_take. destruct (bl_retried l); lia.
Qed.

Lemma w_write_well c0 data choice t ev c w l co rest :
  write_inv (bc_batchSize c0) data c t ev -> conn_inv c0 c -> wc_pc t = W_write l co rest ->
  write_steps_well c0 data choice t ev c w.
Proof.
  intros I C Hpc. pose proof I as [K D P]. pose proof C as (_ & C2 & _). unfold write_pc_inv in P. rewrite Hpc in P.
  destruct P as (Hl & Hle & Hlen & Hco & Hem). unfold write_steps_well, bc_call_step. rewrite Hpc.
  set (ws := map (wire_of (wc_mem t)) rest) in *.
  assert (length ws = length rest) as Hws by (unfold ws; apply length_map).
  destruct (env_write_batch (bc_xpc c) ws w) as [[n err] w1] eqn:E.
  destruct (frame_write_batch _ _ _ _ _ E) as [_ Hfr]. apply law_write_batch in E as (Hn & Hs & Hpos).
  assert (forall s, sent w1 s = sent w s ++ if decide (s = bc_xpc c0) then take n ws else []) as Hsent.
  { intros s. case_decide as Hd; [rewrite Hd, <- C2; done|]. rewrite app_nil_r. apply Hfr. congruence. }
  assert (exists k, emitted (ev ++ take n ws) = take k (emitted (ev ++ ws))) as Hpre.
  { eexists. rewrite !emitted_app.
    destruct (emitted_take n ws) as [rs Hrs]. rewrite Hrs, app_assoc. eapply prefix_take. reflexivity. }
  destruct (match err with Some _ => true | None => (n =? length ws)%nat end) eqn:Ee.
  - eexists _, _, _, _. split; [reflexivity|].
    assert (err = None -> take n ws = ws) as Hall.
    { intros ->. apply Nat.eqb_eq in Ee. apply take_ge. lia. }
    destruct Hpre as [k Hk].
    split; [|split; [done|split; [done|split; [done|]]]].
    + split; try done. destruct co; cbn [wc_pc wc_goto].
      * destruct (Hco eq_refl) as [Hnr Hcol]. unfold target in Hem. rewrite Hnr in Hem.
        split; [done|]. split; [done|]. split; [done|]. split; [done|]. exists k. rewrite <- Hem. split; [done|].
        intros He. by rewrite (Hall He).
      * split; [done|]. eexists _, k. split; [exact Hem|]. split; [done|]. intros He. by rewrite (Hall He).
    + rewrite Hpc. destruct co; cbn; lia.
  - destruct err; [done|]. apply Nat.eqb_neq in Ee. rewrite (proj2 (Nat.leb_le _ _) Hn). cbn [check mbind go_mbind].
    assert (0 < n) by (apply Hpos; [done|]; intros Hw; rewrite Hw in *; cbn in *; lia).
    eexists _, _, _, _. split; [reflexivity|]. split; [|split; [done|split; [done|split; [done|]]]].
    + split; try done. split; [done|]. split; [done|]. split; [rewrite length_drop; lia|]. split; [done|].
      cbn [wc_mem wc_goto]. rewrite <- skipn_map, <- app_assoc, take_drop. done.
    + rewrite Hpc. cbn. rewrite length_drop. lia.
Qed.

Lemma w_rest_well c0 data choice t ev c w :
  write_inv (bc_batchSize c0) data c t ev -> conn_inv c0 c ->
  match wc_pc t with W_test _ _ | W_store _ | W_put _ _ => True | _ => False end ->
  write_steps_well c0 data choice t ev c w.
Proof.
  intros I C Hpc. pose proof I as [K D P]. pose proof C as (C1 & C2 & C3 & C4 & C5).
  unfold write_steps_well, bc_call_step. unfold write_pc_inv in P.
  destruct (wc_pc t) as [| | |l err|l|l err|] eqn:Epc; try done; (eexists _, _, _, _; split; [reflexivity|]).
  - destruct P as (Hl & Hle & Hnr & Hcol & k & Hk & Hout). apply write_quiet; try done.
    + destruct (_ && _); [split_and!; try done; by exists k|]. split; [done|].
      exists (at_dst (UDPAddr_AddrPort (bl_ua l)) data), k. unfold target. by rewrite Hnr.
    + rewrite Epc. destruct (_ && _); cbn; lia.
  - destruct P as ([] & Hle & Hcol & Hk). apply write_quiet; [done|by split_and!|done| |rewrite Epc; cbn; lia].
    split; [by split|]. by split.
  - destruct P as ([Hh Hua Hdst Hoff] & T & k & HT & Hk & Hout). apply write_quiet; [done| |by intros ?| |].
    + split_and!; try done. eapply put_pool_ok; [exact C5|exact C4|reflexivity|done|done].
    + right. unfold target in HT. destruct (bl_retried l).
      * left. destruct HT as (k0 & Gs & HG & ->). set (B := at_dst _ (retry_dgrams data Gs)) in *.
        assert (exists j j', emitted ev = take j (at_dst (UDPAddr_AddrPort (bl_ua l)) data) ++ take j' B /\
          (err = None -> emitted ev = take j (at_dst (UDPAddr_AddrPort (bl_ua l)) data) ++ B)) as (j & j' & Hj & Hj').
        { destruct err as [e|]; [|exists k0, (length B); rewrite (take_ge B) by done; by rewrite Hout].
          rewrite take_app, take_take in Hk. by eexists _, _. }
        eexists _, err, _, j, j', Gs. split; [reflexivity|]. split; [by apply Hoff|]. split; [exact Hdst|]. done.
      * right. subst T. by exists (UDPAddr_AddrPort (bl_ua l)), k.
    + rewrite Epc. cbn. lia.
Qed.

Lemma write_call_well c0 data choice t ev c w :
  write_inv (bc_batchSize c0) data c t ev -> conn_inv c0 c -> (forall err, wc_pc t <> W_done err) ->
  write_steps_well c0 data choice t ev c w.
Proof.
  intros I C Hnd. destruct (wc_pc t) as [|l|l co rest|l err|l|l err|err] eqn:Hpc.
  - by apply w_start_well.
  - by eapply w_retry_well.
  - by eapply w_write_well.
  - apply w_rest_well; [done..|by rewrite Hpc].
  - apply w_rest_well; [done..|by rewrite Hpc].
  - apply w_rest_well; [done..|by rewrite Hpc].
  - by destruct (Hnd err).
Qed.

(** A step keeps the arguments of the call. *)
Lemma step_addr choice t c w t' ev c' w' :
  bc_call_step os choice t c w = Some (Ret (t', ev, c', w')) -> wc_addr t' = wc_addr t.
Proof.
  unfold bc_call_step. intros HE.
  destruct (wc_pc t); try (injection HE as HE); repeat first
    [ progress simplify_eq/= | apply go_bind_Ret in HE as (? & ? & HE) | injection HE as <- _ _ _ | case_match ]; done.
Qed.

(** *** The invariant of the system *)

#[local] Arguments log_of : simpl never.
#[local] Arguments log_on : simpl never.

Lemma log_on_pairs s i p ev : log_on s (map (pair i) (map (pair p) ev)) = if decide (s = p) then ev else [].
Proof.
  unfold log_on. rewrite snd_pairs. induction ev as [|x ev IH]; cbn [map]; [by case_decide|].
  case_decide as Hd; [rewrite filter_cons_True by done; rewrite fmap_cons; by rewrite IH|].
  rewrite filter_cons_False; [done|]. cbn. congruence.
Qed.

Record bc_sys_inv (c0 : linuxBatchingConn) (w0 : W) (σ : bc_sys W) : Prop := {
  yi_conn : conn_inv c0 (by_conn σ);
  yi_quieter : quieter c0 (by_conn σ);
  yi_reqs : length (by_calls σ) = length (by_reqs σ);
  yi_calls i t data a : by_calls σ !! i = Some t -> by_reqs σ !! i = Some (data, a) ->
    wc_addr t = a /\ write_inv (bc_batchSize c0) data (by_conn σ) t (log_of i (by_log σ));
  yi_sent s : sent (by_world σ) s = sent w0 s ++ log_on s (by_log σ);
  yi_ids : Forall (fun x => x.1 < length (by_calls σ)) (by_log σ);
}.

Lemma bc_write_inv c0 w0 c w ts qs log i t choice t' ev c' w' :
  bc_sys_inv c0 w0 (mkBcSys c w ts qs log) -> ts !! i = Some t ->
  bc_call_step os choice t c w = Some (Ret (t', ev, c', w')) ->
  bc_sys_inv c0 w0 (mkBcSys c' w' (<[i := t']> ts) qs (log ++ map (pair i) (map (pair (bc_xpc c)) ev))) /\
  write_steps_left (bc_batchSize c0) (wc_pc t') < write_steps_left (bc_batchSize c0) (wc_pc t).
Proof.
  intros [C Q Hl Hc Hs Hids] Ht HE. cbn in *. pose proof (lookup_lt_Some _ _ _ Ht) as Hi.
  destruct (lookup_lt_is_Some_2 qs i ltac:(lia)) as [[data a] Hq]. destruct (Hc i t data a Ht Hq) as [Ha I].
  destruct (write_call_well c0 data choice t _ c w I C) as (t1 & ev1 & c1 & w1 & HE1 & I' & C' & Q' & S' & M').
  { intros err Hpc. unfold bc_call_step in HE. by rewrite Hpc in HE. }
  rewrite HE in HE1. injection HE1 as <- <- <- <-. split; [|done]. split; cbn; try done.
  - intros Hoff. by apply Q', Q.
  - by rewrite length_insert.
  - intros j t2 data2 a2 Hj Hq2. rewrite log_of_app. destruct (decide (i = j)) as [<-|Hne].
    + rewrite list_lookup_insert_eq in Hj by lia. injection Hj as <-. rewrite Hq in Hq2. injection Hq2 as <- <-.
      rewrite log_of_same, snd_pairs. split; [|done]. rewrite <- Ha. by eapply step_addr.
    + rewrite list_lookup_insert_ne in Hj by done. rewrite log_of_other, app_nil_r by done.
      destruct (Hc j t2 data2 a2 Hj Hq2). split; [done|]. by eapply write_inv_quieter.
  - intros s. rewrite S', Hs, log_on_app, <- app_assoc. do 2 f_equal. by rewrite log_on_pairs, (proj1 (proj2 C)).
  - rewrite length_insert. apply Forall_app. split; [done|]. apply Forall_map, list.Forall_true. done.
Qed.

Lemma bc_call_inv c0 w0 c w ts qs log m bufs a :
  bc_sys_inv c0 w0 (mkBcSys c w ts qs log) -> write_ok m bufs a ->
  bc_sys_inv c0 w0 (mkBcSys c w (ts ++ [mkWcall bufs a m W_start]) (qs ++ [(map (load m) bufs, a)]) log).
Proof.
  intros [C Q Hl Hc Hs Hids] K. cbn in *. split; cbn; try done.
  - rewrite !length_app. cbn. lia.
  - intros i t data a'. destruct (decide (i < length ts)) as [Hi|Hi].
    + rewrite !lookup_app_l by lia. apply Hc.
    + rewrite !lookup_app_r by lia. rewrite Hl.
      destruct (i - length qs) as [|n] eqn:En; cbn; [|by destruct n].
      intros [= <-] [= <- <-]. assert (i = length ts) as -> by lia. rewrite (log_of_fresh _ _ Hids). by split.
  - eapply list.Forall_impl; [exact Hids|]. intros x Hx. rewrite length_app. cbn in *. lia.
Qed.

Lemma ReadBatch_sent c m msgs w r msgs' m' w' : ReadBatch os c m msgs w = Ret (r, msgs', m', w') -> sent w' = sent w.
Proof.
  unfold ReadBatch. destruct msgs as [|msg msgs0]; [by intros [= <- <- <- <-]|].
  destruct (negb _ || _).
  - intros [= HE]. exact (proj2 (frame_read_batch _ _ _ _ _ _ _ _ HE)).
  - destruct (env_read_batch _ _ _ _) as [[[[n err] tl] m1] w1] eqn:E.
    pose proof (proj2 (frame_read_batch _ _ _ _ _ _ _ _ E)) as Hs.
    destruct (match err with Some _ => true | None => _ end); [by intros [= <- <- <- <-]|].
    intros HE. by apply go_bind_Ret in HE as ([[[? ?] ?] ?] & _ & [= <- <- <- <-]).
Qed.

Lemma bc_sys_step_inv c0 w0 σ σ' : bc_sys_inv c0 w0 σ -> bc_sys_step σ σ' -> bc_sys_inv c0 w0 σ'.
Proof.
  intros I Hst. destruct Hst as [c w ts qs log m bufs a K|c w ts qs log i t choice t' ev c' w' Ht HE|
    c w ts qs log m msgs r msgs' m' w' HR].
  - by apply bc_call_inv.
  - by eapply bc_write_inv.
  - destruct I. split; cbn in *; try done. by rewrite (ReadBatch_sent _ _ _ _ _ _ _ _ HR).
Qed.

Lemma bc_reachable_inv c0 w0 σ :
  bc_pool_ok c0 -> rtc bc_sys_step (mkBcSys c0 w0 [] [] []) σ -> bc_sys_inv c0 w0 σ.
Proof.
  intros Hp Hr. assert (bc_sys_inv c0 w0 (mkBcSys c0 w0 [] [] [])) as I.
  { split; cbn; try done. intros s. unfold log_on. cbn. by rewrite app_nil_r. }
  induction Hr as [|σ σ1 σ2 Hst _ IH]; [done|]. apply IH. by eapply bc_sys_step_inv.
Qed.



(** *** Schedules *)

(** Each action starts a call or is a step of call [i]. *)
Definition bc_exec (x : (mem * list slice * AddrPort) + nat) (σ : bc_sys W) : option (bc_sys W) :=
  let '(mkBcSys c w ts qs log) := σ in
  match x with
  | inl (m, bufs, a) => Some (mkBcSys c w (ts ++ [mkWcall bufs a m W_start]) (qs ++ [(map (load m) bufs, a)]) log)
  | inr i =>
      match ts !! i ≫= fun t => bc_call_step os 0 t c w with
      | Some (Ret (t, ev, c', w)) =>
          Some (mkBcSys c' w (<[i := t]> ts) qs (log ++ map (pair i) (map (pair (bc_xpc c)) ev)))
      | _ => None
      end
  end.
Fixpoint bc_schedule (l : list ((mem * list slice * AddrPort) + nat)) (σ : bc_sys W) : option (bc_sys W) :=
  match l with [] => Some σ | a :: l' => bc_exec a σ ≫= bc_schedule l' end.

Lemma bc_schedule_steps l : forall σ σ',
  Forall (fun x => match x with inl (m, bufs, a) => write_ok m bufs a | inr _ => True end) l ->
  bc_schedule l σ = Some σ' -> rtc bc_sys_step σ σ'.
Proof.
  induction l as [|x l IH]; intros σ σ' Hok HE; cbn in HE; [injection HE as <-; apply rtc_refl|].
  inversion Hok as [|? ? H1 H2]; subst. destruct (bc_exec x σ) as [σ1|] eqn:Hx; [|done].
  eapply rtc_l; [|by apply IH]. destruct σ as [c w ts qs log], x as [[[m bufs] a]|i]; cbn in Hx.
  - injection Hx as <-. by constructor.
  - destruct (ts !! i) as [t|] eqn:Ht; [|done]. cbn in Hx.
    destruct (bc_call_step os 0 t c w) as [[[[[t' ev] c'] w']| |]|] eqn:Hs; try done.
    injection Hx as <-. by eapply by_write.
Qed.
End BcSystem.

(** ** On the simulated machine *)

Definition ex_call : (mem * list slice * AddrPort) + nat := inl (ex_mem, ex_bufs, ex_dst).
Definition ex_writes : list ((mem * list slice * AddrPort) + nat) :=
  [ex_call; ex_call; inr 0; inr 1; inr 1; inr 0; inr 0; inr 0; inr 1; inr 1; inr 1; inr 0].
Definition ex_written : option (bc_sys sim) :=
  bc_schedule (U := linux64) (os := Linux) ex_writes (mkBcSys ex_bc ex_world [] [] []).

(** The retry after a rejection can be lost: of two calls whose coalesced
    writes are both rejected, the one that tests the flag after the other has
    cleared it does not retry: it returns the rejection of a feature that is
    off by now, and sends nothing. *)
Definition ex_lost : option (bc_sys sim) :=
  bc_schedule (U := linux64) (os := Linux)
    [ex_call; ex_call; inr 0; inr 0; inr 0; inr 1; inr 1; inr 1; inr 0; inr 0; inr 1; inr 1]
    (mkBcSys ex_bc (no_gso ex_world) [] [] []).

Theorem retry_lost :
  match ex_lost with
  | Some σ =>
      (wc_pc <$> by_calls σ !! 1) = Some (W_done (Some (EWrap "write udp" (ESyscall "sendmmsg" (EErrno EIO))))) /\
      log_of 1 (by_log σ) = [] /\ bc_txOffload (by_conn σ) = false
  | None => False
  end.
Proof. vm_compute. done. Qed.

Lemma WriteBatchTo_steps_witness :
  exists err c' w', rtc (bc_alone (U := linux64) Linux 0)
    (mkWcall ex_bufs ex_dst ex_mem W_start, ex_bc, no_gso ex_world)
    (mkWcall ex_bufs ex_dst ex_mem (W_done err), c', w').
Proof.
  destruct (WriteBatchTo (U := linux64) Linux 0 ex_bc ex_mem ex_bufs ex_dst (no_gso ex_world))
    as [[[err c'] w']| |] eqn:E.
  - exists err, c', w'. exact (WriteBatchTo_steps (U := linux64) Linux 0 _ _ _ _ _ _ _ _ E).
  - vm_compute in E. discriminate E.
  - vm_compute in E. discriminate E.
Defined.

Lemma ex_write_ok : write_ok ex_mem ex_bufs ex_dst.
Proof.
  destruct ex_send_pre. by split.
Qed.

Lemma ex_writes_ok :
  Forall (fun x => match x with inl (m, bufs, a) => write_ok m bufs a | inr _ => True end) ex_writes.
Proof. repeat (apply Forall_cons_2; [first [exact I|exact ex_write_ok]|]). apply Forall_nil_2. Qed.

Lemma ex_written_reachable σ : ex_written = Some σ ->
  rtc (bc_sys_step (U := linux64) (os := Linux)) (mkBcSys ex_bc ex_world [] [] []) σ.
Proof. unfold ex_written. apply bc_schedule_steps, ex_writes_ok. Qed.

Lemma ex_written_steps : exists σ, ex_written = Some σ /\
  rtc (bc_sys_step (U := linux64) (os := Linux)) (mkBcSys ex_bc ex_world [] [] []) σ.
Proof.
  assert (bool_decide (is_Some ex_written) = true) as E by (vm_compute; reflexivity).
  apply bool_decide_eq_true in E as [σ Hσ]. exists σ. split; [exact Hσ|]. exact (ex_written_reachable σ Hσ).
Qed.


