(* ===== verification/WinRio.v ===== *)
(** * Registered I/O (winrio/rio_windows.go)

    The wrappers around the RIO extension functions and the one-time probe
    [Initialize].  [WinSys] lists the Windows calls that the package makes;
    [WinLaws] states which of them acquire and release resources, [WinQueues]
    how requests and completions are counted. *)

From S2P Require Import Prelude Errors GoMem Netip.
Local Open Scope Z_scope.

Definition invalidBufferId : Z := 4294967295.
Definition invalidCq : Z := 0.
Definition invalidRq : Z := 0.
Definition corruptCq : Z := 4294967295.

Definition InvalidHandle : Z := 2 ^ 64 - 1.

(** The entries of [extensionFunctionTable] that the package calls. *)
Inductive rio_fn :=
| rioReceiveEx | rioSendEx | rioCloseCompletionQueue | rioCreateCompletionQueue
| rioCreateRequestQueue | rioDequeueCompletion | rioDeregisterBuffer | rioNotify | rioRegisterBuffer.

#[export] Instance rio_fn_eq_dec : EqDecision rio_fn.
Proof. solve_decision. Defined.

(** [Buffer] and [Result] *)
Record Buffer := mkBuffer { bf_Id : Z; bf_Offset : Z; bf_Length : Z }.
Record Result := mkResult {
  rs_Status : Z; rs_BytesTransferred : Z; rs_SocketContext : Z; rs_RequestContext : Z;
}.

(** What can be held: handles (sockets, ports), memory, registered buffers and
    completion queues. *)
Inductive resource := RHandle (h : Z) | RMem (p : Z) | RBuffer (id : Z) | RCq (cq : Z).
#[export] Instance resource_eq_dec : EqDecision resource.
Proof. solve_decision. Defined.
#[export] Instance resource_countable : Countable resource.
Proof.
  refine (inj_countable' (fun r => match r with
    | RHandle z => (0%nat, z) | RMem z => (1%nat, z) | RBuffer z => (2%nat, z) | RCq z => (3%nat, z) end)
    (fun x => match x with
    | (0%nat, z) => RHandle z | (1%nat, z) => RMem z | (2%nat, z) => RBuffer z | (_, z) => RCq z end) _).
  by intros [].
Defined.

(** Windows: the RIO entry points return a machine word and an errno. *)
Class WinSys (W : Type) := {
  sys_rio : rio_fn -> list Z -> W -> (Z * error) * W;
  (** RIODequeueCompletion also fills the array of results *)
  sys_dequeue : Z -> nat -> W -> Z * list Result * W;
  sys_WSASocket : Z -> Z -> Z -> Z -> W -> (error + Z) * W;
  sys_WSAIoctl : Z -> W -> option error * W;
  sys_CreateIoCompletionPort : W -> (error + Z) * W;
  sys_CloseHandle : Z -> W -> W;
  sys_VirtualAlloc : Z -> W -> (error + Z) * W;
  sys_VirtualFree : Z -> W -> W;
  sys_NtMajor : Z;
  sys_log : string -> W -> W;
  (** sockets: bind(2), getsockname (family and port), setsockopt *)
  sys_Bind : Z -> Z -> Z -> W -> option error * W;
  sys_Getsockname : Z -> W -> error + Z * Z;
  sys_SetsockoptInt : Z -> Z -> Z -> Z -> W -> option error * W;
  (** completion ports *)
  sys_PostQueuedCompletionStatus : Z -> W -> W;
  sys_GetQueuedCompletionStatus : Z -> W -> option error * W;
  sys_procyield : W -> W;
  (** the network's [SubscribeCloser] and the function it returns *)
  sys_SubscribeCloser : W -> (error + Z) * W;
  sys_unsubscribe : Z -> W -> W;
  (** the atomic [isOpen] of the bind, which other goroutines change between
      any two calls *)
  sys_isOpen : W -> Z;
  sys_store_isOpen : Z -> W -> W;
  (** a packet of a ring by its address: endpoint and data *)
  sys_read_packet : Z -> W -> list byte * list byte;
  sys_write_packet : Z -> list byte -> list byte -> W -> W;
}.

Section WinRio.
Context `{WinSys W}.

Definition AF_INET : Z := 2.
Definition AF_INET6 : Z := 23.
Definition SOCK_DGRAM : Z := 2.
Definition IPPROTO_UDP : Z := 17.
Definition WSA_FLAG_REGISTERED_IO : Z := 256.

Definition Socket (af typ proto : Z) (w : W) : (error + Z) * W :=
  sys_WSASocket af typ proto WSA_FLAG_REGISTERED_IO w.

Definition CloseCompletionQueue (cq : Z) (w : W) : W := (sys_rio rioCloseCompletionQueue [cq] w).2.

(** The three constructors of completion queues; the notification structure is
    passed by address, here by its fields. *)
Definition eventCompletion : Z := 1.
Definition iocpCompletion : Z := 2.
Record eventNotificationCompletion := mkEventNotification {
  en_completionType : Z; en_event : Z; en_notifyReset : Z;
}.
Record iocpNotificationCompletion := mkIocpNotification {
  in_completionType : Z; in_iocp : Z; in_key : Z; in_overlapped : Z;
}.
Definition event_fields (n : eventNotificationCompletion) : list Z :=
  [en_completionType n; en_event n; en_notifyReset n].
Definition iocp_fields (n : iocpNotificationCompletion) : list Z :=
  [in_completionType n; in_iocp n; in_key n; in_overlapped n].

Definition create_cq (queueSize : Z) (notification : list Z) (w : W) : (error + Z) * W :=
  let '((ret, err), w) := sys_rio rioCreateCompletionQueue (queueSize :: notification) w in
  if ret =? invalidCq then (inl err, w) else (inr ret, w).
Definition CreateEventCompletionQueue (queueSize event : Z) (notifyReset : bool) (w : W) : (error + Z) * W :=
  create_cq queueSize (event_fields (mkEventNotification eventCompletion event (if notifyReset then 1 else 0))) w.
Definition CreateIOCPCompletionQueue (queueSize iocp key overlapped : Z) (w : W) : (error + Z) * W :=
  create_cq queueSize (iocp_fields (mkIocpNotification iocpCompletion iocp key overlapped)) w.
Definition CreatePolledCompletionQueue (queueSize : Z) (w : W) : (error + Z) * W :=
  create_cq queueSize [] w.

Definition CreateRequestQueue (socket maxOutstandingReceive maxReceiveDataBuffers maxOutstandingSend
    maxSendDataBuffers receiveCq sendCq socketContext : Z) (w : W) : (error + Z) * W :=
  let '((ret, err), w) := sys_rio rioCreateRequestQueue [socket; maxOutstandingReceive; maxReceiveDataBuffers;
    maxOutstandingSend; maxSendDataBuffers; receiveCq; sendCq; socketContext] w in
  if ret =? invalidRq then (inl err, w) else (inr ret, w).

Definition DequeueCompletion (cq : Z) (n : nat) (w : W) : go (Z * list Result * W) :=
  let '(ret, results, w) := sys_dequeue cq n w in
  if ret =? corruptCq then Panic else Ret (u32 ret, results, w).

Definition DeregisterBuffer (id : Z) (w : W) : W := (sys_rio rioDeregisterBuffer [id] w).2.

Definition RegisterPointer (ptr size : Z) (w : W) : (error + Z) * W :=
  let '((ret, err), w) := sys_rio rioRegisterBuffer [ptr; size] w in
  if ret =? invalidBufferId then (inl err, w) else (inr ret, w).
Definition RegisterBuffer (ptr len : Z) (w : W) : (error + Z) * W :=
  RegisterPointer (if 0 <? len then ptr else 0) (u32 len) w.

Definition post_ex (fn : rio_fn) (rq : Z) (buf : Buffer) (dataBufferCount : Z) (remote : Buffer)
    (sflags requestContext : Z) (w : W) : option error * W :=
  let '((ret, err), w) := sys_rio fn [rq; bf_Id buf; bf_Offset buf; bf_Length buf; dataBufferCount;
    bf_Id remote; bf_Offset remote; bf_Length remote; sflags; requestContext] w in
  if ret =? 0 then (Some err, w) else (None, w).
Definition SendEx := post_ex rioSendEx.
Definition ReceiveEx := post_ex rioReceiveEx.

Definition Notify (cq : Z) (w : W) : option error * W :=
  let '((ret, _), w) := sys_rio rioNotify [cq] w in
  if ret =? 0 then (None, w) else (Some (EErrno (ErrnoOther ret)), w).

(** ** [Initialize] *)

(** The package variables [initialized] and [available]. *)
Record rio_state := mkRio { ri_initialized : bool; ri_available : bool }.

(** The deferred log line. *)
Definition log_failure (err : option error) (w : W) : W :=
  match err with
  | None => w
  | Some _ => if sys_NtMajor <=? 7 then w else sys_log "Registered I/O is unavailable" w
  end.

(** The body of the [Once] function: whether RIO works; deferred calls run in
    reverse order. *)
Definition probe (w : W) : bool * W :=
  match Socket AF_INET SOCK_DGRAM IPPROTO_UDP w with
  | (inl err, w) => (false, log_failure (Some err) w)
  | (inr socket, w) =>
      let close_socket r w := log_failure r (sys_CloseHandle socket w) in
      match sys_WSAIoctl socket w with
      | (Some err, w) => (false, close_socket (Some err) w)
      | (None, w) =>
          match sys_CreateIoCompletionPort w with
          | (inl err, w) => (false, close_socket (Some err) w)
          | (inr iocp, w) =>
              let close_iocp r w := close_socket r (sys_CloseHandle iocp w) in
              match CreateIOCPCompletionQueue 2 iocp 0 0 w with
              | (inl err, w) => (false, close_iocp (Some err) w)
              | (inr cq, w) =>
                  let close_cq r w := close_iocp r (CloseCompletionQueue cq w) in
                  match CreateRequestQueue socket 1 1 1 1 cq cq 0 w with
                  | (inl err, w) => (false, close_cq (Some err) w)
                  | (inr _, w) => (true, close_cq None w)
                  end
              end
          end
      end
  end.

Definition Initialize (s : rio_state) (w : W) : bool * rio_state * W :=
  if ri_initialized s then (ri_available s, s, w)
  else let '(ok, w) := probe w in
       let available := ok || ri_available s in (available, mkRio true available, w).
End WinRio.

(** ** Laws *)

Class WinLaws (W : Type) `{WinSys W} := {
  held : W -> gset resource;
  law_socket a t p f w r w' : sys_WSASocket a t p f w = (r, w') ->
    match r with inr h => h <> 0 /\ (RHandle h ∉ held w) /\ held w' = ({[RHandle h]} ∪ held w)
               | inl _ => held w' = held w end;
  law_iocp w r w' : sys_CreateIoCompletionPort w = (r, w') ->
    match r with inr h => h <> 0 /\ (RHandle h ∉ held w) /\ held w' = ({[RHandle h]} ∪ held w)
               | inl _ => held w' = held w end;
  law_close_handle h w : held (sys_CloseHandle h w) = held w ∖ {[RHandle h]};
  law_alloc n w r w' : sys_VirtualAlloc n w = (r, w') ->
    match r with inr p => p <> 0 /\ (RMem p ∉ held w) /\ held w' = ({[RMem p]} ∪ held w)
               | inl _ => held w' = held w end;
  law_free p w : held (sys_VirtualFree p w) = held w ∖ {[RMem p]};
  law_register args w ret err w' : sys_rio rioRegisterBuffer args w = ((ret, err), w') ->
    if ret =? invalidBufferId then held w' = held w
    else ret <> 0 /\ (RBuffer ret ∉ held w) /\ held w' = ({[RBuffer ret]} ∪ held w);
  law_deregister id w : held (sys_rio rioDeregisterBuffer [id] w).2 = held w ∖ {[RBuffer id]};
  law_create_cq args w ret err w' : sys_rio rioCreateCompletionQueue args w = ((ret, err), w') ->
    if ret =? invalidCq then held w' = held w
    else (RCq ret ∉ held w) /\ held w' = ({[RCq ret]} ∪ held w);
  law_close_cq cq w : held (sys_rio rioCloseCompletionQueue [cq] w).2 = held w ∖ {[RCq cq]};
  law_rq args w : held (sys_rio rioCreateRequestQueue args w).2 = held w;
  law_post fn args w : fn = rioReceiveEx \/ fn = rioSendEx \/ fn = rioNotify ->
    held (sys_rio fn args w).2 = held w;
  law_dequeue cq n w : held (sys_dequeue cq n w).2 = held w;
  law_ioctl h w : held (sys_WSAIoctl h w).2 = held w;
  law_log s w : held (sys_log s w) = held w;
  (** the other calls acquire and release nothing *)
  law_bind h f p w : held (sys_Bind h f p w).2 = held w;
  law_subscribe w : held (sys_SubscribeCloser w).2 = held w;
  law_unsubscribe z w : held (sys_unsubscribe z w) = held w;
  law_store_isOpen z w : held (sys_store_isOpen z w) = held w;
  law_isOpen z w : sys_isOpen (sys_store_isOpen z w) = z;
  law_pqcs h w : held (sys_PostQueuedCompletionStatus h w) = held w;
  law_invalid w : RHandle InvalidHandle ∉ held w;
  (** [isOpen] changes only under [bind.mu]: releasing resources, which needs
      the write lock, leaves it alone *)
  law_release_isOpen w :
    (forall h, sys_isOpen (sys_CloseHandle h w) = sys_isOpen w) /\
    (forall p, sys_isOpen (sys_VirtualFree p w) = sys_isOpen w) /\
    (forall u, sys_isOpen (sys_unsubscribe u w) = sys_isOpen w) /\
    (forall fn a, fn = rioCloseCompletionQueue \/ fn = rioDeregisterBuffer ->
       sys_isOpen (sys_rio fn [a] w).2 = sys_isOpen w);
  (** getsockname on a bound socket *)
  law_getsockname h f p w w' f' p' : sys_Bind h f p w = (None, w') -> sys_Getsockname h w' = inr (f', p') ->
    f' = f /\ 0 < p' < 65536 /\ (0 < p < 65536 -> p' = p);
  (** RIODequeueCompletion fills at most the array it was given *)
  law_dequeue_count cq n w ret rs w' : sys_dequeue cq n w = (ret, rs, w') ->
    ret = corruptCq \/ (0 <= ret <= Z.of_nat n /\ length rs = Z.to_nat ret);
}.

(** *** Queues

    Calls that touch no queue. *)
Inductive quiet_call `{WinSys W} (w : W) : W -> Prop :=
| q_socket a t p f : quiet_call w (sys_WSASocket a t p f w).2
| q_iocp : quiet_call w (sys_CreateIoCompletionPort w).2
| q_alloc n : quiet_call w (sys_VirtualAlloc n w).2
| q_bind h f p : quiet_call w (sys_Bind h f p w).2
| q_subscribe : quiet_call w (sys_SubscribeCloser w).2
| q_isOpen z : quiet_call w (sys_store_isOpen z w)
| q_wait h : quiet_call w (sys_GetQueuedCompletionStatus h w).2
| q_yield : quiet_call w (sys_procyield w)
| q_write p a d : quiet_call w (sys_write_packet p a d w)
| q_rio fn args : fn = rioRegisterBuffer \/ fn = rioNotify -> quiet_call w (sys_rio fn args w).2.

(** A socket that is bound keeps its name (a second bind of it fails). *)
Definition names_stay `{WinSys W} (w w' : W) : Prop :=
  forall h a, sys_Getsockname h w = inr a -> sys_Getsockname h w' = inr a.

(** How RIO accounts for requests: a completion queue reports one completion for
    each request that was accepted (and for nothing else); a request queue names
    the completion queues of its receives and sends. *)
Class WinQueues (W : Type) `{WinSys W} := {
  (** requests accepted and not yet dequeued, of a completion queue that exists *)
  outstanding : Z -> W -> option nat;
  (** the requests of a request queue that were accepted, oldest first *)
  accepted : rio_fn -> Z -> W -> list (list Z);
  (** the completion queue of its requests *)
  rq_cq : rio_fn -> Z -> W -> option Z;
  law_quiet w w' : quiet_call w w' ->
    (forall cq, outstanding cq w' = outstanding cq w) /\ (forall fn rq, accepted fn rq w' = accepted fn rq w) /\
    (forall fn rq, rq_cq fn rq w' = rq_cq fn rq w) /\ names_stay w w';
  law_new_cq args w ret err w' : sys_rio rioCreateCompletionQueue args w = ((ret, err), w') -> ret <> invalidCq ->
    outstanding ret w = None /\ outstanding ret w' = Some 0%nat /\
    (forall cq, cq <> ret -> outstanding cq w' = outstanding cq w) /\
    (forall fn rq, accepted fn rq w' = accepted fn rq w) /\
    (forall fn rq, rq_cq fn rq w' = rq_cq fn rq w) /\ names_stay w w';
  law_new_rq s a1 a2 a3 a4 rcq scq x w ret err w' :
    sys_rio rioCreateRequestQueue [s; a1; a2; a3; a4; rcq; scq; x] w = ((ret, err), w') -> ret <> invalidRq ->
    (forall fn, rq_cq fn ret w = None) /\ rq_cq rioReceiveEx ret w' = Some rcq /\ rq_cq rioSendEx ret w' = Some scq /\
    (forall fn rq, rq <> ret -> rq_cq fn rq w' = rq_cq fn rq w) /\
    (forall cq, outstanding cq w' = outstanding cq w) /\ (forall fn rq, accepted fn rq w' = accepted fn rq w) /\
    names_stay w w';
  (** RIOReceiveEx and RIOSendEx return FALSE when they refuse a request *)
  law_request fn rq args w ret err w' : fn = rioReceiveEx \/ fn = rioSendEx ->
    sys_rio fn (rq :: args) w = ((ret, err), w') ->
    (forall cq, outstanding cq w' =
       if negb (ret =? 0) && bool_decide (rq_cq fn rq w = Some cq) then S <$> outstanding cq w else outstanding cq w) /\
    (forall fn' rq', accepted fn' rq' w' = accepted fn' rq' w ++
       if negb (ret =? 0) && bool_decide (fn' = fn /\ rq' = rq) then [rq :: args] else []) /\
    (forall fn' rq', rq_cq fn' rq' w' = rq_cq fn' rq' w) /\ names_stay w w';
  law_completion cq n w ret rs w' : sys_dequeue cq n w = (ret, rs, w') -> ret <> corruptCq ->
    (forall k, outstanding cq w = Some k -> ret <= Z.of_nat k /\ outstanding cq w' = Some (k - Z.to_nat ret)%nat) /\
    (forall cq', cq' <> cq -> outstanding cq' w' = outstanding cq' w) /\
    (forall fn rq, accepted fn rq w' = accepted fn rq w) /\
    (forall fn rq, rq_cq fn rq w' = rq_cq fn rq w) /\ names_stay w w';
}.

(** The worlds that calls on a completion queue lead to, with the number of
    completions that were taken from it. *)
Inductive sys_run `{WinSys W} (cq : Z) (w : W) : nat -> W -> Prop :=
| run_nil : sys_run cq w 0 w
| run_quiet k w1 w2 : sys_run cq w k w1 -> quiet_call w1 w2 -> sys_run cq w k w2
| run_request k w1 fn args : fn = rioReceiveEx \/ fn = rioSendEx -> sys_run cq w k w1 -> sys_run cq w k (sys_rio fn args w1).2
| run_dequeue k w1 n ret rs w2 : sys_run cq w k w1 -> sys_dequeue cq n w1 = (ret, rs, w2) -> ret <> corruptCq ->
    sys_run cq w (k + Z.to_nat ret) w2.

Lemma run_trans `{WinSys W} cq w k w1 j w2 : sys_run cq w k w1 -> sys_run cq w1 j w2 -> sys_run cq w (k + j) w2.
Proof.
  intros H1. induction 1 as [|j w2 w3 _ IH Hq|j w2 fn args Hf _ IH|j w2 n ret rs w3 _ IH Hd Hc].
  - by rewrite Nat.add_0_r.
  - by eapply run_quiet.
  - by apply run_request.
  - rewrite Nat.add_assoc. by eapply run_dequeue.
Qed.

Section Probe.
Context `{WinSys W} {L : WinLaws W}.

Lemma held_log err w : held (log_failure err w) = held w.
Proof. unfold log_failure. destruct err; [|done]. destruct (_ <=? _); [done|]. apply law_log. Qed.

Lemma drop_new (r : resource) (X : gset resource) : r ∉ X -> ({[r]} ∪ X) ∖ {[r]} = X.
Proof. set_solver. Qed.

Lemma probe_held w : held (probe w).2 = held w.
Proof.
  unfold probe, Socket. destruct (sys_WSASocket _ _ _ _ w) as [[err|sock] w1] eqn:E1; apply law_socket in E1.
  { cbn [snd]. by rewrite held_log. }
  destruct E1 as (_ & Hn1 & H1).
  assert (forall r w2, held w2 = held w1 -> held (log_failure r (sys_CloseHandle sock w2)) = held w) as Hs.
  { intros r w2 E. rewrite held_log, law_close_handle, E, H1. by apply drop_new. }
  pose proof (law_ioctl sock w1) as E2. destruct (sys_WSAIoctl sock w1) as [[err|] w2]; cbn [snd] in E2; [by apply Hs|].
  destruct (sys_CreateIoCompletionPort w2) as [[err|iocp] w3] eqn:E3; apply law_iocp in E3;
    [apply Hs; congruence|]. destruct E3 as (_ & Hn3 & H3).
  assert (forall r w4, held w4 = held w3 -> held (log_failure r (sys_CloseHandle sock (sys_CloseHandle iocp w4))) = held w) as Hi.
  { intros r w4 E. apply Hs. rewrite law_close_handle, E, H3, drop_new by done. done. }
  unfold CreateIOCPCompletionQueue, create_cq.
  destruct (sys_rio rioCreateCompletionQueue _ w3) as [[ret err] w4] eqn:E4. apply law_create_cq in E4.
  destruct (ret =? invalidCq); [by apply Hi|]. destruct E4 as (Hn4 & H4).
  unfold CreateRequestQueue. match goal with |- context [sys_rio rioCreateRequestQueue ?a w4] => pose proof (law_rq a w4) as E5;
    destruct (sys_rio rioCreateRequestQueue a w4) as [[ret5 err5] w5] end. cbn [snd] in E5.
  assert (forall r, held (log_failure r (sys_CloseHandle sock (sys_CloseHandle iocp (CloseCompletionQueue ret w5)))) = held w) as Hc.
  { intros r. apply Hi. unfold CloseCompletionQueue. rewrite law_close_cq, E5, H4. by apply drop_new. }
  destruct (ret5 =? invalidRq); apply Hc.
Qed.

(** C37: The probe for registered I/O leaks nothing: whatever step fails, the
    socket, the completion port and the queue that were created are released;
    it runs once, and later calls return the same answer without effects. *)
Theorem Initialize_once s w ok s' w' :
  Initialize s w = (ok, s', w') ->
  held w' = held w /\ ri_initialized s' = true /\ forall w2, Initialize s' w2 = (ok, s', w2).
Proof.
  unfold Initialize. destruct (ri_initialized s) eqn:E.
  - intros [= <- <- <-]. rewrite E. done.
  - pose proof (probe_held w) as Hp. destruct (probe w) as [ok1 w1]. intros [= <- <- <-]. done.
Qed.
End Probe.
