(* ===== verification/WinSim.v ===== *)
(** * A simulated Windows

    A small machine that implements the calls of [WinSys] and satisfies
    [WinLaws]: it hands out even numbers as handles, addresses and identifiers
    until its quota is used up, and delivers the completions that were queued
    in advance, as far as requests are outstanding. *)

From S2P Require Import Prelude Errors GoMem Netip WinRio.
Local Open Scope Z_scope.

Record winsim := mkWinsim {
  wn_held : list resource;
  wn_quota : nat;                              (* creations left *)
  wn_isOpen : Z;
  wn_done : list (Z * Result);                 (* completions by queue *)
  wn_packets : gmap Z (list byte * list byte); (* memory of the rings *)
  wn_socks : gmap Z (Z * Z);                   (* family and port of bound sockets *)
  wn_log : list string;
  wn_out : gmap Z nat;                         (* outstanding requests by completion queue *)
  wn_acc : list (rio_fn * list Z);             (* accepted requests *)
  wn_rqs : list (Z * Z);                       (* the completion queues of the request queues *)
}.

Definition res_val (r : resource) : Z := match r with RHandle z | RMem z | RBuffer z | RCq z => z end.
Definition top_val (l : list resource) : Z := foldr (fun r m => Z.max (res_val r) m) 0 l.
(** An even number that is larger than all in use. *)
Definition next_val (l : list resource) : Z := 2 * (top_val l / 2 + 1).

Definition with_held (w : winsim) (l : list resource) (q : nat) : winsim :=
  mkWinsim l q (wn_isOpen w) (wn_done w) (wn_packets w) (wn_socks w) (wn_log w) (wn_out w) (wn_acc w) (wn_rqs w).
Definition with_queues (w : winsim) (done : list (Z * Result)) (out : gmap Z nat) (acc : list (rio_fn * list Z))
    (rqs : list (Z * Z)) : winsim :=
  mkWinsim (wn_held w) (wn_quota w) (wn_isOpen w) done (wn_packets w) (wn_socks w) (wn_log w) out acc rqs.
Definition acquire (mk : Z -> resource) (w : winsim) : option Z * winsim :=
  match wn_quota w with
  | O => (None, w)
  | S q => let z := next_val (wn_held w) in (Some z, with_held w (mk z :: wn_held w) q)
  end.
Definition release (r : resource) (w : winsim) : winsim :=
  with_held w (filter (fun x => x <> r) (wn_held w)) (wn_quota w).

Definition no_quota : error := EErrno (ErrnoOther 1450).
Definition or_err (x : option Z * winsim) : (error + Z) * winsim :=
  (match x.1 with Some z => inr z | None => inl no_quota end, x.2).
Definition or_ret (invalid : Z) (x : option Z * winsim) : (Z * error) * winsim :=
  ((default invalid x.1, no_quota), x.2).

(** The requests that a completion queue has to complete. *)
Definition winsim_outstanding (cq : Z) (w : winsim) : option nat :=
  if bool_decide (RCq cq ∈ wn_held w) then Some (default 0%nat (wn_out w !! cq)) else None.
Definition winsim_rq_cq (fn : rio_fn) (rq : Z) (w : winsim) : option Z :=
  if rq <=? 0 then None else
  match wn_rqs w !! Z.to_nat (rq - 1) with
  | Some (rcq, scq) => match fn with rioReceiveEx => Some rcq | rioSendEx => Some scq | _ => None end
  | None => None
  end.
Definition winsim_accepted (fn : rio_fn) (rq : Z) (w : winsim) : list (list Z) :=
  map snd (filter (fun x => x.1 = fn /\ head x.2 = Some rq) (wn_acc w)).

(** Accepts a request: always for receives, with quota left for sends. *)
Definition winsim_request (fn : rio_fn) (args : list Z) (ok : bool) (w : winsim) : (Z * error) * winsim :=
  if negb ok then ((0, no_quota), w) else
  let out := match winsim_rq_cq fn (default 0 (head args)) w with
             | Some cq => <[cq := S (default 0%nat (wn_out w !! cq))]> (wn_out w)
             | None => wn_out w
             end in
  ((1, no_quota), with_queues w (wn_done w) out (wn_acc w ++ [(fn, args)]) (wn_rqs w)).

Definition winsim_rio (fn : rio_fn) (args : list Z) (w : winsim) : (Z * error) * winsim :=
  match fn with
  | rioRegisterBuffer => or_ret invalidBufferId (acquire RBuffer w)
  | rioCreateCompletionQueue =>
      match acquire RCq w with
      | (Some cq, w) => ((cq, no_quota), with_queues w (wn_done w) (delete cq (wn_out w)) (wn_acc w) (wn_rqs w))
      | (None, w) => ((invalidCq, no_quota), w)
      end
  | rioCreateRequestQueue =>
      ((Z.of_nat (S (length (wn_rqs w))), no_quota),
       with_queues w (wn_done w) (wn_out w) (wn_acc w)
         (wn_rqs w ++ [(default 0 (args !! 5%nat), default 0 (args !! 6%nat))]))
  | rioDeregisterBuffer => ((1, no_quota), release (RBuffer (default 0 (args !! 0%nat))) w)
  | rioCloseCompletionQueue => ((1, no_quota), release (RCq (default 0 (args !! 0%nat))) w)
  | rioReceiveEx => winsim_request rioReceiveEx args true w
  | rioSendEx => winsim_request rioSendEx args (0 <? wn_quota w)%nat w
  | rioNotify => ((0, no_quota), w)
  | rioDequeueCompletion => ((1, no_quota), w)
  end.

(** No transfer is longer than a slot. *)
Definition clip (r : Result) : Result :=
  mkResult (rs_Status r) (Z.min 65507 (rs_BytesTransferred r)) (rs_SocketContext r) (rs_RequestContext r).
Definition winsim_dequeue (cq : Z) (n : nat) (w : winsim) : Z * list Result * winsim :=
  let k := Nat.min (Nat.min n 256) (default 0%nat (winsim_outstanding cq w)) in
  let mine := take k (map (fun x => clip x.2) (filter (fun x => x.1 = cq) (wn_done w))) in
  let rest := filter (fun x => x.1 <> cq) (wn_done w) ++ drop k (filter (fun x => x.1 = cq) (wn_done w)) in
  (Z.of_nat (length mine), mine,
   with_queues w rest (<[cq := (default 0 (wn_out w !! cq) - length mine)%nat]> (wn_out w)) (wn_acc w) (wn_rqs w)).

Definition winsim_set_open (z : Z) (w : winsim) : winsim :=
  mkWinsim (wn_held w) (wn_quota w) z (wn_done w) (wn_packets w) (wn_socks w) (wn_log w) (wn_out w) (wn_acc w) (wn_rqs w).

#[export] Instance winsim_sys : WinSys winsim := {|
  sys_rio := winsim_rio;
  sys_dequeue := winsim_dequeue;
  sys_WSASocket _ _ _ _ w := or_err (acquire RHandle w);
  sys_WSAIoctl _ w := (None, w);
  sys_CreateIoCompletionPort w := or_err (acquire RHandle w);
  sys_CloseHandle h w := let w := release (RHandle h) w in
    mkWinsim (wn_held w) (wn_quota w) (wn_isOpen w) (wn_done w) (wn_packets w) (delete h (wn_socks w)) (wn_log w)
      (wn_out w) (wn_acc w) (wn_rqs w);
  sys_VirtualAlloc _ w := or_err (acquire RMem w);
  sys_VirtualFree p w := release (RMem p) w;
  sys_NtMajor := 10;
  sys_log s w := mkWinsim (wn_held w) (wn_quota w) (wn_isOpen w) (wn_done w) (wn_packets w) (wn_socks w) (s :: wn_log w)
    (wn_out w) (wn_acc w) (wn_rqs w);
  sys_Bind h f p w :=
    match wn_socks w !! h with
    | Some _ => (Some no_quota, w)
    | None => (None, mkWinsim (wn_held w) (wn_quota w) (wn_isOpen w) (wn_done w) (wn_packets w)
        (<[h := (f, if (0 <? p) && (p <? 65536) then p else 50000)]> (wn_socks w)) (wn_log w)
        (wn_out w) (wn_acc w) (wn_rqs w))
    end;
  sys_Getsockname h w := match wn_socks w !! h with Some a => inr a | None => inl no_quota end;
  sys_SetsockoptInt _ _ _ _ w := (None, w);
  sys_PostQueuedCompletionStatus _ w := w;
  sys_GetQueuedCompletionStatus _ w := (None, w);
  sys_procyield w := w;
  sys_SubscribeCloser w := (inr 1, w);
  sys_unsubscribe _ w := w;
  sys_isOpen := wn_isOpen;
  sys_store_isOpen := winsim_set_open;
  sys_read_packet p w := default ([], []) (wn_packets w !! p);
  sys_write_packet p a d w := mkWinsim (wn_held w) (wn_quota w) (wn_isOpen w) (wn_done w)
    (<[p := (a, d)]> (wn_packets w)) (wn_socks w) (wn_log w) (wn_out w) (wn_acc w) (wn_rqs w);
|}.

Definition winsim_held (w : winsim) : gset resource := list_to_set (wn_held w) ∖ {[RHandle InvalidHandle]}.

Lemma top_val_bound l r : r ∈ l -> res_val r <= top_val l.
Proof.
  induction l as [|x l IH]; [by intros ?%not_elem_of_nil|].
  intros [->|Hr]%elem_of_cons; cbn; [lia|]. specialize (IH Hr). unfold top_val in IH. lia.
Qed.
Lemma top_val_nonneg l : 0 <= top_val l.
Proof. induction l; cbn in *; [lia|]. unfold top_val in *. lia. Qed.
Lemma next_val_fresh l r : r ∈ l -> res_val r <> next_val l.
Proof. intros H%top_val_bound. unfold next_val. dlia. Qed.
Lemma next_val_even l : 0 < next_val l /\ next_val l mod 2 = 0.
Proof. pose proof (top_val_nonneg l). unfold next_val. dlia. Qed.

Lemma acquire_held mk w r w' : (forall z, res_val (mk z) = z) -> acquire mk w = (r, w') ->
  match r with
  | Some z => z <> 0 /\ z <> invalidBufferId /\ (mk z ∉ winsim_held w) /\ winsim_held w' = {[mk z]} ∪ winsim_held w
  | None => w' = w
  end.
Proof.
  unfold acquire. intros Hmk. destruct (wn_quota w); intros [= <- <-]; [done|].
  pose proof (next_val_even (wn_held w)) as [Hp He]. pose proof (next_val_fresh (wn_held w)) as Hf.
  set (z := next_val (wn_held w)) in *. unfold winsim_held. cbn [wn_held with_held list_to_set].
  split_and!; [lia| | |].
  - intros Hz. rewrite Hz in He. discriminate He.
  - rewrite elem_of_difference, elem_of_list_to_set. intros [Hin _]. apply (Hf _ Hin). apply Hmk.
  - assert (mk z <> RHandle InvalidHandle).
    { intros E. apply (f_equal res_val) in E. rewrite Hmk in E. cbn in E. rewrite E in He. discriminate He. }
    set_solver.
Qed.

Lemma release_held r w : winsim_held (release r w) = winsim_held w ∖ {[r]}.
Proof.
  apply leibniz_equiv. intros x. unfold winsim_held, release. cbn [wn_held with_held].
  rewrite !elem_of_difference, !elem_of_list_to_set, list_elem_of_filter, !elem_of_singleton. tauto.
Qed.

Lemma or_err_held mk w r w' : (forall z, res_val (mk z) = z) -> or_err (acquire mk w) = (r, w') ->
  match r with
  | inr z => z <> 0 /\ (mk z ∉ winsim_held w) /\ winsim_held w' = {[mk z]} ∪ winsim_held w
  | inl _ => winsim_held w' = winsim_held w
  end.
Proof.
  intros Hmk. unfold or_err. destruct (acquire mk w) as [o w1] eqn:E. apply acquire_held in E; [|done].
  intros [= <- <-]. destruct o; naive_solver.
Qed.

Lemma winsim_dequeue_count cq n w ret rs w' : winsim_dequeue cq n w = (ret, rs, w') ->
  ret = corruptCq \/ (0 <= ret <= Z.of_nat n /\ length rs = Z.to_nat ret).
Proof. unfold winsim_dequeue. intros [= <- <- <-]. right. rewrite length_take. lia. Qed.

Lemma winsim_request_held fn args ok w : winsim_held (winsim_request fn args ok w).2 = winsim_held w.
Proof. unfold winsim_request. by destruct ok. Qed.

#[export] Program Instance winsim_laws : WinLaws winsim := {| held := winsim_held |}.
Solve All Obligations with
  try (by intros; eapply or_err_held); try (by intros; apply release_held); try done;
  try (by intros; eapply winsim_dequeue_count).
Next Obligation.
  intros args w ret err w'. cbn. unfold or_ret. destruct (acquire _ w) as [o w1] eqn:E.
  apply acquire_held in E; [|done]. intros [= <- <- <-]. destruct o as [z|]; cbn.
  - destruct E as (? & ? & ? & ?). rewrite (proj2 (Z.eqb_neq _ _)) by done. done.
  - by rewrite E.
Qed.
Next Obligation.
  intros args w ret err w'. cbn. destruct (acquire RCq w) as [o w1] eqn:E.
  apply acquire_held in E; [|done]. destruct o as [z|]; intros [= <- <- <-].
  - destruct E as (? & ? & ? & ?). rewrite (proj2 (Z.eqb_neq _ _)) by done. done.
  - by rewrite E.
Qed.
Next Obligation. intros fn args w [-> | [-> | ->]]; [exact (winsim_request_held _ _ _ w)..|done]. Qed.
Next Obligation. intros h f p w. cbn. by destruct (wn_socks w !! h). Qed.
Next Obligation. intros w. unfold winsim_held. set_solver. Qed.
Next Obligation. intros w. split_and!; try done. by intros fn a [-> | ->]. Qed.
Next Obligation.
  intros h f p w w' f' p'. cbn. destruct (wn_socks w !! h); [done|]. intros [= <-]. cbn. rewrite lookup_insert_eq.
  intros [= <- <-]. case_if; lia.
Qed.

(** Worlds with the same queues and at least the same names. *)
Definition same_queues (w w' : winsim) : Prop :=
  wn_out w' = wn_out w /\ wn_acc w' = wn_acc w /\ wn_rqs w' = wn_rqs w /\
  (forall cq, RCq cq ∈ wn_held w' <-> RCq cq ∈ wn_held w) /\
  (forall h a, wn_socks w !! h = Some a -> wn_socks w' !! h = Some a).

Lemma winsim_names w w' : (forall h a, wn_socks w !! h = Some a -> wn_socks w' !! h = Some a) -> names_stay w w'.
Proof. intros Hs h a. cbn. destruct (wn_socks w !! h) as [b|] eqn:E; [|done]. intros [= ->]. by rewrite (Hs _ _ E). Qed.

Lemma same_queues_laws w w' : same_queues w w' ->
  (forall cq, winsim_outstanding cq w' = winsim_outstanding cq w) /\
  (forall fn rq, winsim_accepted fn rq w' = winsim_accepted fn rq w) /\
  (forall fn rq, winsim_rq_cq fn rq w' = winsim_rq_cq fn rq w) /\ names_stay w w'.
Proof.
  intros (Ho & Ha & Hr & Hh & Hs). split_and!.
  - intros cq. unfold winsim_outstanding. rewrite Ho, (bool_decide_ext _ _ (Hh cq)). done.
  - intros fn rq. unfold winsim_accepted. by rewrite Ha.
  - intros fn rq. unfold winsim_rq_cq. by rewrite Hr.
  - by apply winsim_names.
Qed.

Lemma acquire_same mk w : (forall z cq, mk z <> RCq cq) -> same_queues w (acquire mk w).2.
Proof.
  intros Hmk. unfold acquire. destruct (wn_quota w); [by split_and!|]. cbn. split_and!; try done.
  intros cq. cbn. rewrite elem_of_cons. split; [intros [E|?]; [by destruct (Hmk _ _ (eq_sym E))|done]|by right].
Qed.

Lemma winsim_quiet w w' : quiet_call w w' -> same_queues w w'.
Proof.
  destruct 1 as [a t p f| |n|h f p| |z|h| |p a d|fn args [-> | ->]]; try by split_and!.
  - by apply acquire_same.
  - by apply acquire_same.
  - by apply acquire_same.
  - cbn. destruct (wn_socks w !! h) eqn:E; [by split_and!|]. split_and!; try done. intros h' a Ha. cbn.
    destruct (decide (h' = h)) as [->|Hne]; [congruence|]. by rewrite lookup_insert_ne.
  - cbn. unfold or_ret. by apply acquire_same.
Qed.

Lemma winsim_outstanding_insert cq k held q open done pk so lg (out : gmap Z nat) acc rqs cq' :
  winsim_outstanding cq' (mkWinsim held q open done pk so lg (<[cq := k]> out) acc rqs) =
  if decide (cq' = cq) then if bool_decide (RCq cq ∈ held) then Some k else None
  else winsim_outstanding cq' (mkWinsim held q open done pk so lg out acc rqs).
Proof.
  unfold winsim_outstanding. cbn. case_decide as E; [subst; by rewrite lookup_insert_eq|]. by rewrite lookup_insert_ne.
Qed.

#[export] Program Instance winsim_queues : WinQueues winsim := {|
  outstanding := winsim_outstanding; accepted := winsim_accepted; rq_cq := winsim_rq_cq |}.
Next Obligation. intros w w' Hq. by apply same_queues_laws, winsim_quiet. Qed.
Next Obligation.
  intros args w ret err w'. cbn. unfold acquire. destruct (wn_quota w); [by intros [= <- <- <-] ?|].
  intros [= <- <- <-] _. set (z := next_val (wn_held w)).
  assert (RCq z ∉ wn_held w) as Hf by (intros Hin; by apply (next_val_fresh _ _ Hin)).
  unfold winsim_outstanding. cbn [with_queues with_held wn_held wn_out]. split_and!; try done.
  - by rewrite bool_decide_eq_false_2.
  - rewrite bool_decide_eq_true_2 by apply list_elem_of_here. by rewrite lookup_delete_eq.
  - intros cq Hne. rewrite lookup_delete_ne by done. rewrite (bool_decide_ext _ (RCq cq ∈ wn_held w)); [done|].
    rewrite elem_of_cons. split; [intros [[= ->]|?]; done|by right].
  - by apply winsim_names.
Qed.
Next Obligation.
  intros s a1 a2 a3 a4 rcq scq x w ret err w' [= <- <- <-] _. set (k := length (wn_rqs w)).
  unfold winsim_rq_cq. cbn [with_queues wn_rqs]. rewrite (proj2 (Z.leb_gt _ _)) by lia.
  replace (Z.to_nat (Z.of_nat (S k) - 1)) with k by lia. split_and!; try done.
  - intros fn. rewrite lookup_ge_None_2 by done. done.
  - rewrite lookup_app_r, Nat.sub_diag by done. done.
  - rewrite lookup_app_r, Nat.sub_diag by done. done.
  - intros fn rq Hne. destruct (Z.leb_spec rq 0); [done|].
    destruct (decide (Z.to_nat (rq - 1) < k)%nat); [by rewrite lookup_app_l|].
    rewrite !lookup_ge_None_2; [done| |]; rewrite ?length_app; cbn [length]; fold k; lia.
  - by apply winsim_names.
Qed.
Next Obligation.
  intros fn rq args w ret err w' Hfn HE.
  assert (exists ok, winsim_request fn (rq :: args) ok w = ((ret, err), w')) as [ok HE'].
  { destruct Hfn as [-> | ->]; [exists true|exists (0 <? wn_quota w)%nat]; exact HE. }
  clear HE Hfn. unfold winsim_request in HE'. destruct ok; cbn [negb] in HE'; injection HE' as <- <- <-.
  2: { cbn [negb Z.eqb andb]. split_and!; try done; [intros; by rewrite app_nil_r|by apply winsim_names]. }
  cbn [negb Z.eqb andb Pos.eqb head default]. split_and!; try done.
  - intros cq. destruct (winsim_rq_cq fn rq w) as [q|] eqn:Eq; cbn [default head from_option].
    + unfold with_queues. rewrite winsim_outstanding_insert. unfold winsim_outstanding. cbn [wn_held wn_out].
      destruct (decide (cq = q)) as [->|Hne].
      * rewrite (bool_decide_eq_true_2 (Some q = Some q)) by done. by case_bool_decide.
      * rewrite (bool_decide_eq_false_2 (Some q = Some cq)) by congruence. done.
    + rewrite bool_decide_eq_false_2 by done. done.
  - intros fn' rq'. unfold winsim_accepted. cbn [with_queues wn_acc]. rewrite list.filter_app, map_app. f_equal.
    rewrite filter_cons. cbn. case_decide as Hd; case_bool_decide as Hb; try done.
    + destruct Hd as [-> [= ->]]. by destruct Hb.
    + destruct Hb as [-> ->]. by destruct Hd.
  - by apply winsim_names.
Qed.
Next Obligation.
  intros cq n w ret rs w' [= <- <- <-] _. set (mine := take _ _). split_and!; try done.
  - intros k Hk. assert (length mine <= k)%nat as Hle.
    { unfold mine. rewrite length_take, Hk. cbn. lia. }
    split; [lia|]. unfold with_queues. rewrite winsim_outstanding_insert, decide_True by done.
    unfold winsim_outstanding in Hk. case_bool_decide; [|done]. injection Hk as <-. by rewrite Nat2Z.id.
  - intros cq' Hne. unfold with_queues. rewrite winsim_outstanding_insert, decide_False by done. by destruct w.
  - by apply winsim_names.
Qed.

Definition winsim0 (quota : nat) : winsim := mkWinsim [RHandle 4] quota 0 [] ∅ ∅ [] ∅ [] [].

(** A machine without registered I/O: the probe fails and releases what it made. *)
Lemma Initialize_once_witness :
  exists ok s' w', Initialize (mkRio false false) (winsim0 2) = (ok, s', w') /\ ok = false /\
    held w' = held (winsim0 2) /\ forall w2, Initialize s' w2 = (ok, s', w2).
Proof.
  destruct (Initialize (mkRio false false) (winsim0 2)) as [[ok s'] w'] eqn:E.
  exists ok, s', w'. destruct (Initialize_once _ _ _ _ _ E) as (H1 & H2 & H3).
  split_and!; try done. vm_compute in E. congruence.
Defined.
