(* ===== verification/WinRing.v ===== *)
(** * WinRingBind (bind_windows.go, closer_tracking.go)

    A bind over Windows registered I/O: two rings of packet slots per address
    family, one whose slots wait for packets and one for packets on their way
    out. *)

From S2P Require Import Prelude Errors GoMem Netip Cmsg Gso Sticky Env Conn StdNet WinRio WinSim.
Local Open Scope Z_scope.

Definition packetsPerRing : Z := 256.
Definition bytesPerPacket : Z := 65507.
Definition receiveSpins : nat := 15.
(** [unsafe.Sizeof(WinRingEndpoint{})], the offset of [data] in a [ringPacket],
    and [unsafe.Sizeof(ringPacket{})], which is rounded up to two bytes. *)
Definition sizeofEndpoint : Z := 32.
Definition sizeofRingPacket : Z := 65540.

(** [ringBuffer] *)
Record ringBuffer := mkRing {
  rg_packets : Z; rg_head : Z; rg_tail : Z; rg_id : Z; rg_iocp : Z; rg_isFull : bool; rg_cq : Z;
}.
Definition zero_ring : ringBuffer := mkRing 0 0 0 0 0 false 0.

Definition with_ht (rb : ringBuffer) (h t : Z) (full : bool) : ringBuffer :=
  mkRing (rg_packets rb) h t (rg_id rb) (rg_iocp rb) full (rg_cq rb).

(** [Push]: the address of the slot; a full ring panics. *)
Definition Push (rb : ringBuffer) : go (Z * ringBuffer) :=
  if rg_isFull rb then Panic else
  let ret := rg_packets rb + (rg_tail rb mod packetsPerRing) * sizeofRingPacket in
  let tail := u32 (rg_tail rb + 1) in
  let full := if tail mod packetsPerRing =? rg_head rb mod packetsPerRing then true else rg_isFull rb in
  Ret (ret, with_ht rb (rg_head rb) tail full).

(** [Return] *)
Definition Return (rb : ringBuffer) (count : Z) : ringBuffer :=
  if (rg_head rb mod packetsPerRing =? rg_tail rb mod packetsPerRing) && negb (rg_isFull rb) then rb
  else with_ht rb (u32 (rg_head rb + count)) (rg_tail rb) false.

(** ** The ring implements a queue of slots

    The abstract state is the list of slots in flight, oldest first. *)
Definition in_flight (h : Z) (n : nat) : list Z := map (fun i => (h + Z.of_nat i) mod packetsPerRing) (seq 0 n).

Definition is_u32 (z : Z) : Prop := 0 <= z < 2 ^ 32.

(** [rb] has the slots [l] in flight. *)
Definition ring_holds (rb : ringBuffer) (l : list Z) : Prop :=
  is_u32 (rg_head rb) /\ is_u32 (rg_tail rb) /\
  (length l <= 256)%nat /\ l = in_flight (rg_head rb) (length l) /\
  rg_tail rb mod packetsPerRing = (rg_head rb + Z.of_nat (length l)) mod packetsPerRing /\
  rg_isFull rb = (length l =? 256)%nat.

Lemma u32_mod256 z : u32 z mod packetsPerRing = z mod packetsPerRing.
Proof.
  unfold u32, packetsPerRing. change (2 ^ 32) with (256 * 16777216).
  rewrite Z.rem_mul_r by lia. rewrite (Z.mul_comm 256), Z_mod_plus_full, Z.mod_mod by lia. done.
Qed.

Lemma in_flight_snoc h n : in_flight h (S n) = in_flight h n ++ [(h + Z.of_nat n) mod packetsPerRing].
Proof. unfold in_flight. by rewrite seq_S, map_app. Qed.

Lemma in_flight_drop h n k : (k <= n)%nat -> drop k (in_flight h n) = in_flight (h + Z.of_nat k) (n - k).
Proof.
  intros Hk. unfold in_flight. apply list_eq. intros i. rewrite lookup_drop, !list_lookup_fmap.
  destruct (decide (i < n - k)%nat).
  - rewrite !lookup_seq_lt by lia. cbn. do 2 f_equal. lia.
  - rewrite !lookup_seq_ge by lia. done.
Qed.

Lemma in_flight_u32 h n : in_flight (u32 h) n = in_flight h n.
Proof.
  unfold in_flight. apply map_ext. intros i. rewrite <- (Z.add_mod_idemp_l (u32 h)) by (unfold packetsPerRing; lia).
  rewrite u32_mod256. rewrite Z.add_mod_idemp_l by (unfold packetsPerRing; lia). done.
Qed.

(** Slots in flight are distinct. *)
Lemma in_flight_NoDup h n : (n <= 256)%nat -> NoDup (in_flight h n).
Proof.
  intros Hn. unfold in_flight. apply NoDup_fmap_2_strong; [|apply NoDup_seq].
  intros i j Hi%elem_of_seq Hj%elem_of_seq E. unfold packetsPerRing in E. zify. Z.to_euclidean_division_equations. lia.
Qed.

Lemma next_slot_fresh h n : (n < 256)%nat -> (h + Z.of_nat n) mod packetsPerRing ∉ in_flight h n.
Proof.
  intros Hn. pose proof (in_flight_NoDup h (S n) ltac:(lia)) as H. rewrite in_flight_snoc in H.
  apply NoDup_app in H as (_ & H & _). intros Hin. eapply H; [exact Hin|]. by apply list_elem_of_singleton.
Qed.

Lemma full_iff rb l : ring_holds rb l ->
  (rg_head rb mod packetsPerRing =? rg_tail rb mod packetsPerRing) && negb (rg_isFull rb) = bool_decide (l = []).
Proof.
  intros (_ & _ & Hn & _ & Ht & Hf). rewrite Ht, Hf. unfold packetsPerRing.
  destruct l as [|x l].
  - cbn. rewrite Z.add_0_r, Z.eqb_refl. done.
  - rewrite bool_decide_eq_false_2 by done. set (n := length (x :: l)) in *.
    assert (0 < n)%nat by (cbn; lia).
    destruct (Nat.eqb_spec n 256); [by rewrite andb_false_r|]. rewrite andb_true_r. apply Z.eqb_neq.
    zify. Z.to_euclidean_division_equations. lia.
Qed.

Lemma ring_holds_NoDup rb l : ring_holds rb l -> NoDup l.
Proof. intros (_ & _ & Hn & Hl & _). rewrite Hl. by apply in_flight_NoDup. Qed.

Lemma push_full rb l : ring_holds rb l -> length l = 256%nat -> Push rb = Panic.
Proof. intros (_ & _ & _ & _ & _ & Hf) E. unfold Push. by rewrite Hf, E. Qed.

(** The slot that [Push] takes is the one after the newest. *)
Lemma push_next rb l : ring_holds rb l -> length l <> 256%nat ->
  let slot := (rg_head rb + Z.of_nat (length l)) mod packetsPerRing in
  exists t f, Push rb = Ret (rg_packets rb + slot * sizeofRingPacket, with_ht rb (rg_head rb) t f) /\
    ring_holds (with_ht rb (rg_head rb) t f) (l ++ [slot]).
Proof.
  intros (Hh & Ht & Hn & Hl & Htm & Hf) E slot. assert (0 < packetsPerRing) as Hp by (unfold packetsPerRing; lia).
  unfold Push. rewrite Hf, (proj2 (Nat.eqb_neq _ _) E), Htm. fold slot. do 2 eexists. split; [reflexivity|].
  unfold ring_holds. rewrite length_app. cbn [length rg_head rg_tail rg_isFull with_ht].
  rewrite Nat.add_1_r, in_flight_snoc, <- Hl. split_and!; try done; [apply u32_range|lia| |].
  - rewrite u32_mod256, <- Z.add_mod_idemp_l, Htm, Z.add_mod_idemp_l by lia. f_equal. lia.
  - rewrite u32_mod256, <- Z.add_mod_idemp_l, Htm, Z.add_mod_idemp_l by lia.
    destruct (Nat.eqb_spec (S (length l)) 256) as [E'|E'].
    + replace (rg_head rb + Z.of_nat (length l) + 1) with (rg_head rb + 1 * packetsPerRing) by (unfold packetsPerRing; lia).
      by rewrite Z_mod_plus_full, Z.eqb_refl.
    + rewrite (proj2 (Z.eqb_neq _ _)); [done|]. unfold packetsPerRing. clear -Hn E E'. dlia.
Qed.

Lemma push_ok rb l : ring_holds rb l -> length l <> 256%nat ->
  exists slot t f, Push rb = Ret (rg_packets rb + slot * sizeofRingPacket, with_ht rb (rg_head rb) t f) /\
    0 <= slot < packetsPerRing /\ (slot ∉ l) /\ ring_holds (with_ht rb (rg_head rb) t f) (l ++ [slot]).
Proof.
  intros HR E. destruct (push_next rb l HR E) as (t & f & HP & HR'). do 3 eexists. split_and!; try exact HP; try exact HR'.
  1,2: apply Z.mod_pos_bound; unfold packetsPerRing; lia.
  destruct HR as (_ & _ & Hn & Hl & _). rewrite Hl at 2. apply next_slot_fresh. lia.
Qed.

Lemma return_ok rb l c : ring_holds rb l -> (0 < c <= length l)%nat ->
  ring_holds (Return rb (Z.of_nat c)) (drop c l) /\ rg_packets (Return rb (Z.of_nat c)) = rg_packets rb.
Proof.
  intros HR Hc. pose proof (full_iff rb l HR) as Hempty. destruct HR as (Hh & Ht & Hn & Hl & Htm & Hf).
  unfold Return. rewrite Hempty, bool_decide_eq_false_2 by (intros ->; cbn in *; lia).
  split; [|done]. unfold ring_holds. rewrite length_drop. cbn [rg_head rg_tail rg_isFull with_ht].
  split_and!; try done; [apply u32_range|lia| | |].
  - rewrite Hl at 1. rewrite in_flight_drop, in_flight_u32 by lia. done.
  - rewrite Htm. rewrite <- (Z.add_mod_idemp_l (u32 _)), u32_mod256, Z.add_mod_idemp_l by (unfold packetsPerRing; lia).
    f_equal. clear -Hc. lia.
  - symmetry. apply Nat.eqb_neq. clear -Hc Hn. lia.
Qed.

Lemma return_empty rb c : ring_holds rb [] -> Return rb c = rb.
Proof. intros HR. unfold Return. by rewrite (full_iff rb [] HR), bool_decide_eq_true_2. Qed.

(** C19: The ring buffer refines a queue of slots, also when its 32-bit counters
    wrap around.  [Push] panics exactly when all 256 slots are in flight;
    otherwise it hands out the address of a slot that is not in flight and
    appends it.  [Return c], for at most as many slots as are in flight, takes
    the [c] oldest out; on an empty ring it does nothing. *)
Theorem ring_refines_queue rb l :
  ring_holds rb l ->
  NoDup l /\
  (length l = 256%nat -> Push rb = Panic) /\
  (length l <> 256%nat -> exists slot rb', Push rb = Ret (rg_packets rb + slot * sizeofRingPacket, rb') /\
     0 <= slot < packetsPerRing /\ (slot ∉ l) /\ ring_holds rb' (l ++ [slot]) /\ rg_packets rb' = rg_packets rb) /\
  (forall c, (0 < c <= length l)%nat -> ring_holds (Return rb (Z.of_nat c)) (drop c l)) /\
  (l = [] -> forall c, Return rb c = rb).
Proof.
  intros HR. split_and!.
  - by eapply ring_holds_NoDup.
  - by apply push_full.
  - intros E. destruct (push_ok rb l HR E) as (slot & t & f & HP & Hs & Hn & HR'). eauto 10.
  - intros c Hc. by apply return_ok.
  - intros -> c. by apply return_empty.
Qed.

(** Three slots in flight across the wrap-around of the counters. *)
Definition ex_ring : ringBuffer := mkRing 4096 4294967294 1 7 8 false 9.
Lemma ring_refines_queue_witness :
  ring_holds ex_ring [254; 255; 0] /\ ring_holds (Return ex_ring 2) [0] /\
  exists slot rb', Push ex_ring = Ret (4096 + slot * sizeofRingPacket, rb') /\ ring_holds rb' [254; 255; 0; slot].
Proof.
  assert (ring_holds ex_ring [254; 255; 0]) as H.
  { unfold ring_holds, is_u32. cbn -[Z.pow]. split_and!; (lia || reflexivity). }
  destruct (ring_refines_queue _ _ H) as (_ & _ & HP & HR & _). split; [done|]. split.
  - exact (HR 2%nat ltac:(cbn; lia)).
  - destruct (HP ltac:(discriminate)) as (slot & rb' & E & _ & _ & H' & _). by exists slot, rb'.
Defined.

(** ** Endpoints *)

(** [WinRingEndpoint]: the address family and 30 bytes of a sockaddr. *)
Record WinRingEndpoint := mkWinEndpoint { we_family : Z; we_data : list byte }.

(** [e.data[lo:hi]] *)
Definition we_slice (e : WinRingEndpoint) (lo hi : nat) : list byte := take (hi - lo) (drop lo (we_data e)).
Definition we_byte (e : WinRingEndpoint) (i : nat) : byte := default x00 (we_data e !! i).
(** [binary.BigEndian.Uint16(e.data[0:2])] and the scope id at offset 22. *)
Definition we_port (e : WinRingEndpoint) : Z := 256 * byte_val (we_byte e 0) + byte_val (we_byte e 1).
Definition we_scope (e : WinRingEndpoint) : Z := le_val (we_slice e 22 26).

Definition we_ClearSrc (e : WinRingEndpoint) : WinRingEndpoint := e.
Definition we_DstIP (e : WinRingEndpoint) : Addr :=
  if we_family e =? AF_INET then Addr4 (we_slice e 2 6)
  else if we_family e =? AF_INET6 then Addr6 (we_slice e 6 22) ""
  else AddrZero.
Definition we_SrcIP (e : WinRingEndpoint) : Addr := AddrZero.
Definition we_SrcToString (e : WinRingEndpoint) : string := "".

Definition we_DstToBytes (e : WinRingEndpoint) : list byte :=
  if we_family e =? AF_INET then we_slice e 2 6 ++ [we_byte e 1; we_byte e 0]
  else if we_family e =? AF_INET6 then we_slice e 6 22 ++ [we_byte e 1; we_byte e 0]
  else [].

(** [DstToString] prints this address, and the empty string for [None]. *)
Definition we_DstToString (e : WinRingEndpoint) : option AddrPort :=
  if we_family e =? AF_INET then Some (mkAddrPort (Addr4 (we_slice e 2 6)) (we_port e))
  else if we_family e =? AF_INET6 then
    let zone := if 0 <? we_scope e then pretty (we_scope e) else ""%string in
    Some (mkAddrPort (WithZone (Addr6 (we_slice e 6 22) "") zone) (we_port e))
  else None.

(** [ParseEndpoint], given what net.SplitHostPort, the UTF-16 conversions and
    GetAddrInfoW answer: the family, and the bytes of the sockaddr. *)
Definition we_ParseEndpoint (lookup : string -> error + Z * list byte) (s : string) : error + WinRingEndpoint :=
  match lookup s with
  | inl err => inl err
  | inr (family, addr) =>
      if (negb (family =? AF_INET) && negb (family =? AF_INET6)) || (sizeofEndpoint <? Z.of_nat (length addr))
      then inl (EErrno (ErrnoOther 487))
      else
        let dst := addr ++ replicate (32 - length addr) x00 in
        inr (mkWinEndpoint (le_val (take 2 dst)) (drop 2 dst))
  end.

(** The sockaddr_in and sockaddr_in6 of an address. *)
Definition sockaddr4 (ip : list byte) (port : Z) : list byte :=
  le_bytes 2 AF_INET ++ [byte_of (port / 256); byte_of port] ++ ip ++ replicate 8 x00.
Definition sockaddr6 (ip : list byte) (port scope : Z) : list byte :=
  le_bytes 2 AF_INET6 ++ [byte_of (port / 256); byte_of port] ++ replicate 4 x00 ++ ip ++ le_bytes 4 scope.

Lemma be_port port : 0 <= port < 65536 ->
  256 * byte_val (byte_of (port / 256)) + byte_val (byte_of port) = port.
Proof. intros. rewrite !byte_val_of. zify. Z.to_euclidean_division_equations. lia. Qed.

(** Destructs a list of known length. *)
Ltac list_of_length l H :=
  let x := fresh "b" in
  lazymatch type of H with
  | length _ = S ?n => destruct l as [|x l]; [discriminate H|injection H as H; list_of_length l H]
  | length _ = 0%nat => apply nil_length_inv in H; subst l
  end.

(** The name of a zone is not empty. *)
Lemma pretty_N_go_cons x : forall c s, pretty_N_go x (String c s) <> ""%string.
Proof.
  induction (N.lt_wf_0 x) as [x _ IH]; intros c s. destruct (decide (0 < x)%N) as [Hx|Hx].
  - rewrite pretty_N_go_step by done. apply IH. by apply N.div_lt.
  - assert (x = 0%N) as -> by lia. by rewrite pretty_N_go_0.
Qed.
Lemma pretty_zone scope : 0 < scope -> string_bytes (pretty scope) <> [].
Proof.
  intros Hs. destruct scope as [|p|p]; try lia. change (pretty (Z.pos p)) with (pretty_N (N.pos p)).
  unfold pretty_N. rewrite decide_False by done. rewrite pretty_N_go_step by lia.
  set (x := pretty_N_go _ _). intros E. destruct (pretty_N_go_cons (N.pos p `div` 10) (pretty_N_char (N.pos p `mod` 10)) ""). fold x. by destruct x.
Qed.

(** C33: Endpoints of the Windows bind: parsing an address yields an endpoint
    whose destination and printed form are that address.  Its bytes (the input of
    the mac2 cookie) are those of the portable bind for the same address exactly
    when it is an IPv4 address or an IPv6 one without a scope: the portable bytes
    of a scoped address contain the name of the zone, the Windows ones do not. *)
Theorem WinRingEndpoint_agrees lookup s src :
  (forall ip port, length ip = 4%nat -> 0 <= port < 65536 ->
    lookup s = inr (AF_INET, sockaddr4 ip port) ->
    exists e, we_ParseEndpoint lookup s = inr e /\ we_DstIP e = Addr4 ip /\
      we_DstToString e = Some (mkAddrPort (Addr4 ip) port) /\
      we_DstToBytes e = DstToBytes (mkEndpoint (mkAddrPort (Addr4 ip) port) src)) /\
  (forall ip port scope, length ip = 16%nat -> 0 <= port < 65536 -> 0 <= scope < 2 ^ 32 ->
    lookup s = inr (AF_INET6, sockaddr6 ip port scope) ->
    let zone := if 0 <? scope then pretty scope else ""%string in
    let portable := DstToBytes (mkEndpoint (mkAddrPort (Addr6 ip zone) port) src) in
    exists e, we_ParseEndpoint lookup s = inr e /\ we_DstIP e = Addr6 ip "" /\
      we_DstToString e = Some (mkAddrPort (Addr6 ip zone) port) /\
      we_DstToBytes e = ip ++ le_bytes 2 port /\ portable = ip ++ string_bytes zone ++ le_bytes 2 port /\
      (we_DstToBytes e = portable <-> scope = 0)).
Proof.
  split.
  - intros ip port Hip Hport Hl. unfold we_ParseEndpoint. rewrite Hl. list_of_length ip Hip.
    cbn [negb orb andb Z.eqb AF_INET]. eexists. split; [reflexivity|].
    unfold we_DstIP, we_DstToString, we_DstToBytes, we_port, we_byte, we_slice, DstToBytes, AddrPort_MarshalBinary.
    cbn -[byte_of byte_val pretty Z.div]. by rewrite be_port by done.
  - intros ip port scope Hip Hport Hscope Hl zone portable.
    assert (exists e, we_ParseEndpoint lookup s = inr e /\ we_DstIP e = Addr6 ip "" /\
      we_DstToString e = Some (mkAddrPort (Addr6 ip zone) port) /\ we_DstToBytes e = ip ++ le_bytes 2 port)
      as (e & He & Hip' & Hstr & Hby).
    { unfold we_ParseEndpoint. rewrite Hl. list_of_length ip Hip.
      cbn [negb orb andb Z.eqb AF_INET6]. eexists. split; [reflexivity|]. subst zone portable.
      unfold we_DstIP, we_DstToString, we_DstToBytes, we_port, we_byte, we_scope, we_slice.
      cbn -[byte_of byte_val pretty Z.div le_val Z.ltb]. rewrite be_port by done.
      change [byte_of scope; byte_of (scope / 256); byte_of (scope / 256 / 256); byte_of (scope / 256 / 256 / 256)]
        with (le_bytes 4 scope).
      rewrite le_val_bytes_small by (cbn; lia). done. }
    assert (portable = ip ++ string_bytes zone ++ le_bytes 2 port) as Hpo by (unfold portable; symmetry; apply app_assoc).
    exists e. split_and!; try done; rewrite Hby, Hpo. split.
    + intros E%(inj (app ip)). apply (f_equal length) in E. rewrite length_app in E.
      destruct (Z.ltb_spec 0 scope) as [Hs|Hs]; [|lia]. apply pretty_zone in Hs. subst zone.
      destruct (string_bytes (pretty scope)); [done|cbn in E; lia].
    + intros ->. done.
Qed.

Definition ex_ip6 : list byte := [xfe; x80] ++ replicate 13 x00 ++ [x01].
Lemma WinRingEndpoint_agrees_witness :
  (exists e, we_ParseEndpoint (fun _ => inr (AF_INET, sockaddr4 [x0a; x00; x00; x02] 51820)) "10.0.0.2:51820" = inr e /\
    we_DstToString e = Some (mkAddrPort (Addr4 [x0a; x00; x00; x02]) 51820) /\ length (we_DstToBytes e) = 6%nat) /\
  exists e, we_ParseEndpoint (fun _ => inr (AF_INET6, sockaddr6 ex_ip6 51820 7)) "[fe80::1%7]:51820" = inr e /\
    we_DstToString e = Some (mkAddrPort (Addr6 ex_ip6 "7") 51820) /\
    we_DstToBytes e <> DstToBytes (mkEndpoint (mkAddrPort (Addr6 ex_ip6 "7") 51820) None).
Proof.
  split.
  - destruct (WinRingEndpoint_agrees (fun _ => inr (AF_INET, sockaddr4 [x0a; x00; x00; x02] 51820)) "10.0.0.2:51820" None)
      as [H _].
    destruct (H [x0a; x00; x00; x02] 51820 eq_refl ltac:(lia) eq_refl) as (e & He & _ & Hs & Hb).
    exists e. rewrite Hb. done.
  - destruct (WinRingEndpoint_agrees (fun _ => inr (AF_INET6, sockaddr6 ex_ip6 51820 7)) "[fe80::1%7]:51820" None)
      as [_ H].
    destruct (H ex_ip6 51820 7 eq_refl ltac:(lia) ltac:(lia) eq_refl) as (e & He & _ & Hs & _ & _ & Hb).
    exists e. split; [exact He|]. split; [exact Hs|]. intros E. apply Hb in E. discriminate E.
Defined.

(** ** The bind *)

(** [afWinRingBind] *)
Record afWinRingBind := mkAf {
  af_sock : Z; af_rx : ringBuffer; af_tx : ringBuffer; af_rq : Z; af_blackhole : bool;
}.
Definition zero_af : afWinRingBind := mkAf 0 zero_ring zero_ring 0 false.

(** [WinRingBind]; [isOpen] is an atomic of the environment. *)
Record WinRingBind := mkWinBind {
  wb_v4 : afWinRingBind; wb_v6 : afWinRingBind; wb_subscriber : bool; wb_unsubscribe : option Z;
}.

Section WinRing.
Context `{WinSys W}.

(** [ringBuffer.CloseAndZero] *)
Definition ring_CloseAndZero (r : ringBuffer) (w : W) : ringBuffer * W :=
  let w := if rg_cq r =? 0 then w else CloseCompletionQueue (rg_cq r) w in
  let w := if rg_iocp r =? 0 then w else sys_CloseHandle (rg_iocp r) w in
  let w := if rg_id r =? 0 then w else DeregisterBuffer (rg_id r) w in
  let w := if rg_packets r =? 0 then w else sys_VirtualFree (rg_packets r) w in
  (zero_ring, w).

(** [afWinRingBind.CloseAndZero]; [rq] goes with the socket. *)
Definition af_CloseAndZero (b : afWinRingBind) (w : W) : afWinRingBind * W :=
  let '(rx, w) := ring_CloseAndZero (af_rx b) w in
  let '(tx, w) := ring_CloseAndZero (af_tx b) w in
  let w := if af_sock b =? 0 then w else sys_CloseHandle (af_sock b) w in
  (mkAf 0 rx tx (af_rq b) false, w).

(** [WinRingBind.closeAndZero] *)
Definition closeAndZero (b : WinRingBind) (w : W) : WinRingBind * W :=
  let w := sys_store_isOpen 0 w in
  let w := match wb_unsubscribe b with Some u => sys_unsubscribe u w | None => w end in
  let '(v4, w) := af_CloseAndZero (wb_v4 b) w in
  let '(v6, w) := af_CloseAndZero (wb_v6 b) w in
  (mkWinBind v4 v6 (wb_subscriber b) None, w).

(** [ringBuffer.Open]: the fields keep what was created before an error. *)
Definition ring_Open (r : ringBuffer) (w : W) : option error * ringBuffer * W :=
  let packetsLen := sizeofRingPacket * packetsPerRing in
  match sys_VirtualAlloc packetsLen w with
  | (inl err, w) => (Some err, mkRing 0 (rg_head r) (rg_tail r) (rg_id r) (rg_iocp r) (rg_isFull r) (rg_cq r), w)
  | (inr p, w) =>
      match RegisterPointer p (u32 packetsLen) w with
      | (inl err, w) => (Some err, mkRing p (rg_head r) (rg_tail r) 0 (rg_iocp r) (rg_isFull r) (rg_cq r), w)
      | (inr id, w) =>
          match sys_CreateIoCompletionPort w with
          | (inl err, w) => (Some err, mkRing p (rg_head r) (rg_tail r) id 0 (rg_isFull r) (rg_cq r), w)
          | (inr iocp, w) =>
              match CreateIOCPCompletionQueue packetsPerRing iocp 0 0 w with
              | (inl err, w) => (Some err, mkRing p (rg_head r) (rg_tail r) id iocp (rg_isFull r) 0, w)
              | (inr cq, w) => (None, mkRing p (rg_head r) (rg_tail r) id iocp (rg_isFull r) cq, w)
              end
          end
      end
  end.

(** [afWinRingBind.Open]: the error or the port, the bind and the world.  A
    failed [Socket] returns the invalid handle. *)
Definition af_Open (b : afWinRingBind) (family port : Z) (w : W) : (error + Z * Z) * afWinRingBind * W :=
  match Socket family SOCK_DGRAM IPPROTO_UDP w with
  | (inl err, w) => (inl err, mkAf InvalidHandle (af_rx b) (af_tx b) (af_rq b) (af_blackhole b), w)
  | (inr sock, w) =>
      match ring_Open (af_rx b) w with
      | (Some err, rx, w) => (inl err, mkAf sock rx (af_tx b) (af_rq b) (af_blackhole b), w)
      | (None, rx, w) =>
          match ring_Open (af_tx b) w with
          | (Some err, tx, w) => (inl err, mkAf sock rx tx (af_rq b) (af_blackhole b), w)
          | (None, tx, w) =>
              match CreateRequestQueue sock packetsPerRing 1 packetsPerRing 1 (rg_cq rx) (rg_cq tx) 0 w with
              | (inl err, w) => (inl err, mkAf sock rx tx 0 (af_blackhole b), w)
              | (inr rq, w) =>
                  let b := mkAf sock rx tx rq (af_blackhole b) in
                  match sys_Bind sock family port w with
                  | (Some err, w) => (inl err, b, w)
                  | (None, w) => (sys_Getsockname sock w, b, w)
                  end
              end
          end
      end
  end.

(** [InsertReceiveRequest] *)
Definition packet_buffers (r : ringBuffer) (packet len : Z) : Buffer * Buffer :=
  (mkBuffer (rg_id r) (u32 (packet + sizeofEndpoint - rg_packets r)) len,
   mkBuffer (rg_id r) (u32 (packet - rg_packets r)) sizeofEndpoint).

Definition InsertReceiveRequest (b : afWinRingBind) (w : W) : go (option error * afWinRingBind * W) :=
  '(packet, rx) ← Push (af_rx b);
  let b := mkAf (af_sock b) rx (af_tx b) (af_rq b) (af_blackhole b) in
  let '(dataBuffer, addressBuffer) := packet_buffers rx packet bytesPerPacket in
  let '(err, w) := ReceiveEx (af_rq b) dataBuffer 1 addressBuffer 0 packet w in
  Ret (err, b, w).

(** The loop of [Open] that arms the receive rings. *)
Fixpoint arm_rings (n : nat) (v4 v6 : afWinRingBind) (w : W) : go (option error * afWinRingBind * afWinRingBind * W) :=
  match n with
  | O => Ret (None, v4, v6, w)
  | S n' =>
      '(err, v4, w) ← InsertReceiveRequest v4 w;
      match err with
      | Some e => Ret (Some e, v4, v6, w)
      | None =>
          '(err, v6, w) ← InsertReceiveRequest v6 w;
          match err with
          | Some e => Ret (Some e, v4, v6, w)
          | None => arm_rings n' v4 v6 w
          end
      end
  end.

(** [WinRingBind.Open] without the deferred cleanup.  The type assertions on
    the socket address panic when the family is another one. *)
Definition wb_open_body (b : WinRingBind) (port : Z) (w : W) : go ((error + Z) * WinRingBind * W) :=
  if negb (sys_isOpen w =? 0) then Ret (inl ErrBindAlreadyOpen, b, w) else
  let '(r4, v4, w) := af_Open (wb_v4 b) AF_INET port w in
  let b := mkWinBind v4 (wb_v6 b) (wb_subscriber b) (wb_unsubscribe b) in
  match r4 with
  | inl err => Ret (inl err, b, w)
  | inr (f4, p4) =>
      _ ← check (f4 =? AF_INET);
      let '(r6, v6, w) := af_Open (wb_v6 b) AF_INET6 p4 w in
      let b := mkWinBind v4 v6 (wb_subscriber b) (wb_unsubscribe b) in
      match r6 with
      | inl err => Ret (inl err, b, w)
      | inr (f6, p6) =>
          _ ← check (f6 =? AF_INET6);
          let selectedPort := u16 p6 in
          '(err, v4, v6, w) ← arm_rings (Z.to_nat packetsPerRing) v4 v6 w;
          let b := mkWinBind v4 v6 (wb_subscriber b) (wb_unsubscribe b) in
          match err with
          | Some err => Ret (inl err, b, w)
          | None =>
              if wb_subscriber b then
                match sys_SubscribeCloser w with
                | (inl err, w) => Ret (inl err, b, w)
                | (inr u, w) =>
                    Ret (inr selectedPort, mkWinBind v4 v6 (wb_subscriber b) (Some u), sys_store_isOpen 1 w)
                end
              else Ret (inr selectedPort, b, sys_store_isOpen 1 w)
          end
      end
  end.

(** [WinRingBind.Open]: the deferred function closes everything on any error. *)
Definition wb_Open (b : WinRingBind) (port : Z) (w : W) : go ((error + Z) * WinRingBind * W) :=
  '(r, b, w) ← wb_open_body b port w;
  match r with
  | inl err => let '(b, w) := closeAndZero b w in Ret (inl err, b, w)
  | inr p => Ret (inr p, b, w)
  end.

(** [WinRingBind.Close] *)
Definition wb_Close (b : WinRingBind) (w : W) : option error * WinRingBind * W :=
  if negb (sys_isOpen w =? 1) then (None, b, w) else
  let w := sys_store_isOpen 2 w in
  let w := sys_PostQueuedCompletionStatus (rg_iocp (af_rx (wb_v4 b))) w in
  let w := sys_PostQueuedCompletionStatus (rg_iocp (af_tx (wb_v4 b))) w in
  let w := sys_PostQueuedCompletionStatus (rg_iocp (af_rx (wb_v6 b))) w in
  let w := sys_PostQueuedCompletionStatus (rg_iocp (af_tx (wb_v6 b))) w in
  let '(b, w) := closeAndZero b w in (None, b, w).

Definition wb_BatchSize (b : WinRingBind) : nat := 1.
Definition wb_SetMark (b : WinRingBind) (mark : Z) : option error := None.
End WinRing.

Definition with_rx (b : afWinRingBind) (rx : ringBuffer) : afWinRingBind :=
  mkAf (af_sock b) rx (af_tx b) (af_rq b) (af_blackhole b).

(** The offsets of the buffers of a slot fit the 32-bit fields. *)
Lemma packet_buffers_slot r slot len : 0 <= slot < packetsPerRing ->
  packet_buffers r (rg_packets r + slot * sizeofRingPacket) len =
  (mkBuffer (rg_id r) (slot * sizeofRingPacket + sizeofEndpoint) len,
   mkBuffer (rg_id r) (slot * sizeofRingPacket) sizeofEndpoint).
Proof.
  unfold packetsPerRing. intros Hs. unfold packet_buffers, sizeofRingPacket, sizeofEndpoint.
  rewrite !u32_small by lia. do 2 f_equal; lia.
Qed.

(** The arguments of a request for a slot. *)
Definition slot_request (rq : Z) (r : ringBuffer) (slot len ctx : Z) : list Z :=
  [rq; rg_id r; slot * sizeofRingPacket + sizeofEndpoint; len; 1;
   rg_id r; slot * sizeofRingPacket; sizeofEndpoint; 0; ctx].

(** The receive request of a slot: a full-size packet, its sender, and the
    address of the slot as the context. *)
Definition receive_request (b : afWinRingBind) (slot : Z) : list Z :=
  slot_request (af_rq b) (af_rx b) slot bytesPerPacket (rg_packets (af_rx b) + slot * sizeofRingPacket).

(** ** Resources of the bind *)

Section WinRingResources.
Context `{WinSys W} {L : WinLaws W} {Q : WinQueues W}.

Definition res_if (z : Z) (r : resource) : gset resource := if z =? 0 then ∅ else {[r]}.
(** In the order in which [Open] acquires them. *)
Definition ring_res (r : ringBuffer) : gset resource :=
  res_if (rg_packets r) (RMem (rg_packets r)) ∪ res_if (rg_id r) (RBuffer (rg_id r)) ∪
  res_if (rg_iocp r) (RHandle (rg_iocp r)) ∪ res_if (rg_cq r) (RCq (rg_cq r)).
Definition af_res (b : afWinRingBind) : gset resource :=
  res_if (af_sock b) (RHandle (af_sock b)) ∪ ring_res (af_rx b) ∪ ring_res (af_tx b).
(** What the bind holds. *)
Definition wb_res (b : WinRingBind) : gset resource := af_res (wb_v4 b) ∪ af_res (wb_v6 b).

(** The fields of a closed bind; [rq] may be stale. *)
Definition af_zero (b : afWinRingBind) : Prop :=
  af_sock b = 0 /\ af_rx b = zero_ring /\ af_tx b = zero_ring /\ af_blackhole b = false.
Definition wb_zero (b : WinRingBind) : Prop :=
  af_zero (wb_v4 b) /\ af_zero (wb_v6 b) /\ wb_unsubscribe b = None.

Lemma held_if (z : Z) (r : resource) (f : W -> W) w :
  held (f w) = held w ∖ {[r]} -> held (if z =? 0 then w else f w) = held w ∖ res_if z r.
Proof. unfold res_if. destruct (z =? 0); [set_solver|done]. Qed.

Lemma ring_close_held r w : held (ring_CloseAndZero r w).2 = held w ∖ ring_res r.
Proof.
  unfold ring_CloseAndZero, ring_res. cbn [snd].
  rewrite (held_if _ (RMem (rg_packets r)) (sys_VirtualFree _)) by apply law_free.
  rewrite (held_if _ (RBuffer (rg_id r)) (DeregisterBuffer _)) by apply law_deregister.
  rewrite (held_if _ (RHandle (rg_iocp r)) (sys_CloseHandle _)) by apply law_close_handle.
  rewrite (held_if _ (RCq (rg_cq r)) (CloseCompletionQueue _)) by apply law_close_cq.
  set_solver.
Qed.

Lemma ring_close_zero r w : (ring_CloseAndZero r w).1 = zero_ring.
Proof. done. Qed.

Lemma isOpen_if (z : Z) (f : W -> W) w : sys_isOpen (f w) = sys_isOpen w ->
  sys_isOpen (if z =? 0 then w else f w) = sys_isOpen w.
Proof. by destruct (z =? 0). Qed.

Lemma ring_close_isOpen r w : sys_isOpen (ring_CloseAndZero r w).2 = sys_isOpen w.
Proof.
  unfold ring_CloseAndZero. cbn [snd].
  rewrite (isOpen_if _ (sys_VirtualFree _)) by apply law_release_isOpen.
  rewrite (isOpen_if _ (DeregisterBuffer _)) by (apply law_release_isOpen; tauto).
  rewrite (isOpen_if _ (sys_CloseHandle _)) by apply law_release_isOpen.
  rewrite (isOpen_if _ (CloseCompletionQueue _)) by (apply law_release_isOpen; tauto).
  done.
Qed.

Lemma af_close b w : let r := af_CloseAndZero b w in
  af_zero r.1 /\ held r.2 = held w ∖ af_res b /\ sys_isOpen r.2 = sys_isOpen w.
Proof.
  unfold af_CloseAndZero, af_res.
  pose proof (ring_close_held (af_rx b) w) as H1. pose proof (ring_close_isOpen (af_rx b) w) as O1.
  pose proof (ring_close_zero (af_rx b) w) as Z1.
  destruct (ring_CloseAndZero (af_rx b) w) as [rx w1]. cbn [fst snd] in *.
  pose proof (ring_close_held (af_tx b) w1) as H2. pose proof (ring_close_isOpen (af_tx b) w1) as O2.
  pose proof (ring_close_zero (af_tx b) w1) as Z2.
  destruct (ring_CloseAndZero (af_tx b) w1) as [tx w2]. cbn [fst snd] in *.
  split; [by split_and!|]. split.
  - rewrite (held_if _ (RHandle (af_sock b)) (sys_CloseHandle _)) by apply law_close_handle.
    rewrite H2, H1, <- (assoc_L (∪) (res_if _ _)), (comm_L (∪) (res_if _ _)), !difference_difference_l_L.
    by rewrite ?(assoc_L (∪)).
  - rewrite (isOpen_if _ (sys_CloseHandle _)) by apply law_release_isOpen. congruence.
Qed.

(** [closeAndZero] releases what the bind holds. *)
Lemma closeAndZero_spec b w : let r := closeAndZero b w in
  wb_zero r.1 /\ held r.2 = held w ∖ wb_res b /\ sys_isOpen r.2 = 0.
Proof.
  unfold closeAndZero, wb_res.
  set (w0 := match wb_unsubscribe b with Some u => sys_unsubscribe u (sys_store_isOpen 0 w) | None => sys_store_isOpen 0 w end).
  assert (held w0 = held w /\ sys_isOpen w0 = 0) as [H0 O0].
  { subst w0. destruct (wb_unsubscribe b); rewrite ?law_unsubscribe, ?law_store_isOpen; split; try done.
    - destruct (law_release_isOpen (sys_store_isOpen 0 w)) as (_ & _ & -> & _). apply law_isOpen.
    - apply law_isOpen. }
  destruct (af_close (wb_v4 b) w0) as (Z4 & H4 & O4). destruct (af_CloseAndZero (wb_v4 b) w0) as [v4 w4]. cbn [fst snd] in *.
  destruct (af_close (wb_v6 b) w4) as (Z6 & H6 & O6). destruct (af_CloseAndZero (wb_v6 b) w4) as [v6 w6]. cbn [fst snd] in *.
  split; [by split_and!|]. split; [by rewrite H6, H4, H0, !difference_difference_l_L, ?(assoc_L (∪))|congruence].
Qed.

(** [w'] holds what [w] held and at most [R] besides. *)
Definition owns (R : gset resource) (w w' : W) : Prop := held w' ∖ R = held w.

Lemma owns_refl w w' : held w' = held w -> owns ∅ w w'.
Proof. unfold owns. intros ->. by rewrite difference_empty_L. Qed.
Lemma owns_same R w w1 w2 : owns R w w1 -> held w2 = held w1 -> owns R w w2.
Proof. unfold owns. congruence. Qed.
Lemma owns_trans R1 R2 w w1 w2 : owns R1 w w1 -> owns R2 w1 w2 -> owns (R1 ∪ R2) w w2.
Proof. unfold owns. intros <- <-. by rewrite difference_difference_l_L, (comm_L (∪) R2 R1). Qed.
Lemma owns_new R r w w1 w2 :
  owns R w w1 -> (r ∉ held w1) -> held w2 = {[r]} ∪ held w1 -> owns (R ∪ {[r]}) w w2.
Proof. intros HO Hn E. eapply owns_trans; [exact HO|]. unfold owns. rewrite E. by apply drop_new. Qed.
Lemma owns_more R r w w' : owns R w w' -> (r ∉ held w') -> owns (R ∪ {[r]}) w w'.
Proof. unfold owns. intros <- Hn. rewrite <- difference_difference_l_L. set_solver. Qed.

Lemma res_if_new (z : Z) (r : resource) : z <> 0 -> res_if z r = {[r]}.
Proof. intros Hz. unfold res_if. by rewrite (proj2 (Z.eqb_neq _ _) Hz). Qed.
Lemma res_if_0 (r : resource) : res_if 0 r = ∅.
Proof. done. Qed.
Lemma union_empty_r (X : gset resource) : X ∪ ∅ = X.
Proof. set_solver. Qed.
Create Rewrite HintDb res.
#[local] Hint Rewrite res_if_0 union_empty_r : res.

(** What [RegisterPointer] and the creation of a queue return. *)
Lemma register_new p n w r w' : RegisterPointer p n w = (r, w') ->
  match r with
  | inr id => id <> 0 /\ (RBuffer id ∉ held w) /\ held w' = {[RBuffer id]} ∪ held w
  | inl _ => held w' = held w
  end.
Proof.
  unfold RegisterPointer. destruct (sys_rio _ _ w) as [[ret e] w1] eqn:E. apply law_register in E.
  destruct (ret =? invalidBufferId); by intros [= <- <-].
Qed.
Lemma create_cq_new n l w r w' : create_cq n l w = (r, w') ->
  match r with
  | inr cq => cq <> 0 /\ (RCq cq ∉ held w) /\ held w' = {[RCq cq]} ∪ held w
  | inl _ => held w' = held w
  end.
Proof.
  unfold create_cq. destruct (sys_rio _ _ w) as [[ret e] w1] eqn:E. apply law_create_cq in E.
  destruct (Z.eqb_spec ret invalidCq); by intros [= <- <-].
Qed.

Lemma ring_Open_owns w err r' w' : ring_Open zero_ring w = (err, r', w') ->
  owns (ring_res r') w w' /\ (err = None -> ring_holds r' []).
Proof.
  unfold ring_Open. set (len := sizeofRingPacket * packetsPerRing).
  assert (forall p id iocp cq, ring_holds (mkRing p 0 0 id iocp false cq) []) as Hh.
  { intros. unfold ring_holds, is_u32. cbn -[Z.pow]. split_and!; (lia || done). }
  destruct (sys_VirtualAlloc len w) as [[e1|p] w1] eqn:E1; apply law_alloc in E1.
  { intros [= <- <- <-]. split; [by apply owns_refl|done]. }
  destruct E1 as (P1 & F1 & H1). assert (owns (res_if p (RMem p)) w w1) as O1.
  { rewrite res_if_new by done. rewrite <- (left_id_L ∅ (∪) {[RMem p]}). by eapply owns_new; [by apply owns_refl| |]. }
  destruct (RegisterPointer p (u32 len) w1) as [[e2|id] w2] eqn:E2; apply register_new in E2.
  { intros [= <- <- <-]. unfold ring_res. cbn. autorewrite with res. split; [by eapply owns_same|done]. }
  destruct E2 as (P2 & F2 & H2). pose proof (owns_new _ _ _ _ _ O1 F2 H2) as O2. rewrite <- (res_if_new id) in O2 by done.
  destruct (sys_CreateIoCompletionPort w2) as [[e3|iocp] w3] eqn:E3; apply law_iocp in E3.
  { intros [= <- <- <-]. unfold ring_res. cbn. autorewrite with res. split; [by eapply owns_same|done]. }
  destruct E3 as (P3 & F3 & H3). pose proof (owns_new _ _ _ _ _ O2 F3 H3) as O3. rewrite <- (res_if_new iocp) in O3 by done.
  unfold CreateIOCPCompletionQueue. destruct (create_cq _ _ w3) as [[e4|cq] w4] eqn:E4; apply create_cq_new in E4.
  { intros [= <- <- <-]. unfold ring_res. cbn. autorewrite with res. split; [by eapply owns_same|done]. }
  destruct E4 as (P4 & F4 & H4). pose proof (owns_new _ _ _ _ _ O3 F4 H4) as O4. rewrite <- (res_if_new cq) in O4 by done.
  intros [= <- <- <-]. done.
Qed.

Lemma zero_ring_res : ring_res zero_ring = ∅.
Proof. unfold ring_res. cbn. by autorewrite with res. Qed.
Hint Rewrite zero_ring_res : res.

Lemma request_queue_held a1 a2 a3 a4 a5 a6 a7 a8 w :
  held (CreateRequestQueue a1 a2 a3 a4 a5 a6 a7 a8 w).2 = held w.
Proof.
  unfold CreateRequestQueue. match goal with |- context [sys_rio ?f ?a w] => pose proof (law_rq a w) as E;
    destruct (sys_rio f a w) as [[ret err] w1] end. by case_if.
Qed.

(** A family after [Open]: its resources are the new ones, and after success
    the rings are empty. *)
Lemma af_Open_owns b family port w r b' w' : af_zero b -> af_Open b family port w = (r, b', w') ->
  owns (af_res b') w w' /\
  (forall f p, r = inr (f, p) -> f = family /\ 0 < p < 65536 /\ (0 < port < 65536 -> p = port) /\
     ring_holds (af_rx b') [] /\ ring_holds (af_tx b') []).
Proof.
  intros (_ & Hrx & Htx & _). unfold af_Open, Socket. rewrite Hrx, Htx. unfold af_res.
  destruct (sys_WSASocket _ _ _ _ w) as [[e1|sock] w1] eqn:E1; apply law_socket in E1.
  { intros [= <- <- <-]. cbn. autorewrite with res. split; [|done]. rewrite res_if_new by done.
    rewrite <- (left_id_L ∅ (∪) {[RHandle InvalidHandle]}). apply owns_more; [by apply owns_refl|apply law_invalid]. }
  destruct E1 as (P1 & F1 & H1). assert (owns (res_if sock (RHandle sock)) w w1) as O1.
  { rewrite res_if_new by done. rewrite <- (left_id_L ∅ (∪) {[RHandle sock]}). by eapply owns_new; [by apply owns_refl| |]. }
  destruct (ring_Open zero_ring w1) as [[e2 rx] w2] eqn:E2. apply ring_Open_owns in E2 as [O2 R2].
  pose proof (owns_trans _ _ _ _ _ O1 O2) as O2'. destruct e2 as [e2|].
  { intros [= <- <- <-]. cbn. autorewrite with res. done. }
  destruct (ring_Open zero_ring w2) as [[e3 tx] w3] eqn:E3. apply ring_Open_owns in E3 as [O3 R3].
  pose proof (owns_trans _ _ _ _ _ O2' O3) as O3'. destruct e3 as [e3|]; [by intros [= <- <- <-]|].
  pose proof (request_queue_held sock packetsPerRing 1 packetsPerRing 1 (rg_cq rx) (rg_cq tx) 0 w3) as H4.
  destruct (CreateRequestQueue _ _ _ _ _ _ _ _ w3) as [[e4|rq] w4]; cbn [snd] in H4.
  { intros [= <- <- <-]. split; [by eapply owns_same|done]. }
  pose proof (law_bind sock family port w4) as H5. destruct (sys_Bind sock family port w4) as [[e5|] w5] eqn:E5;
    cbn [snd] in H5; intros [= <- <- <-]; (split; [eapply owns_same; [done|cbn; congruence]|]); [done|].
  intros f p Ef. destruct (law_getsockname _ _ _ _ _ _ _ E5 Ef) as (-> & Hp & Hp'). cbn. split_and!; auto; lia.
Qed.

(** *** Queues *)

(** Nothing changes but the number of requests outstanding in the completion
    queues [cqs]. *)
Definition queues_but (cqs : list Z) (w w' : W) : Prop :=
  (forall cq, (cq ∉ cqs) -> outstanding cq w' = outstanding cq w) /\
  (forall fn rq, accepted fn rq w' = accepted fn rq w) /\
  (forall fn rq, rq_cq fn rq w' = rq_cq fn rq w) /\ names_stay w w'.

Lemma names_trans w w1 w2 : names_stay w w1 -> names_stay w1 w2 -> names_stay w w2.
Proof. unfold names_stay. auto. Qed.
Lemma queues_trans cqs cqs' w w1 w2 : queues_but cqs w w1 -> queues_but cqs' w1 w2 -> queues_but (cqs ++ cqs') w w2.
Proof.
  intros (O1 & A1 & R1 & N1) (O2 & A2 & R2 & N2). split_and!.
  - intros cq. rewrite elem_of_app. intros Hn. rewrite O2, O1 by tauto. done.
  - intros. by rewrite A2, A1.
  - intros. by rewrite R2, R1.
  - by eapply names_trans.
Qed.
Lemma queues_quiet w w' : quiet_call w w' -> queues_but [] w w'.
Proof. intros (O & A & R & N)%law_quiet. by split_and!. Qed.
Lemma quiet_then cqs w w1 w2 : quiet_call w w1 -> queues_but cqs w1 w2 -> queues_but cqs w w2.
Proof. intros ?%queues_quiet ?. by apply (queues_trans [] cqs w w1 w2). Qed.
Lemma then_quiet cqs w w1 w2 : queues_but cqs w w1 -> quiet_call w1 w2 -> queues_but cqs w w2.
Proof. intros ? ?%queues_quiet. rewrite <- (app_nil_r cqs). by eapply queues_trans. Qed.

(** A ring that was opened has a new completion queue. *)
Lemma ring_Open_queues w r' w' : ring_Open zero_ring w = (None, r', w') ->
  outstanding (rg_cq r') w = None /\ outstanding (rg_cq r') w' = Some 0%nat /\ queues_but [rg_cq r'] w w'.
Proof.
  unfold ring_Open, CreateIOCPCompletionQueue, create_cq, RegisterPointer. set (len := sizeofRingPacket * packetsPerRing).
  pose proof (q_alloc w len) as Q1. destruct (sys_VirtualAlloc len w) as [[e1|p] w1]; [done|]. cbn [snd] in Q1.
  match goal with |- context [sys_rio rioRegisterBuffer ?a w1] => pose proof (q_rio w1 rioRegisterBuffer a (or_introl eq_refl)) as Q2;
    destruct (sys_rio rioRegisterBuffer a w1) as [[ret2 err2] w2] end. cbn [snd] in Q2.
  destruct (ret2 =? invalidBufferId); [done|].
  pose proof (q_iocp w2) as Q3. destruct (sys_CreateIoCompletionPort w2) as [[e3|iocp] w3]; [done|]. cbn [snd] in Q3.
  match goal with |- context [sys_rio rioCreateCompletionQueue ?a w3] =>
    destruct (sys_rio rioCreateCompletionQueue a w3) as [[ret4 err4] w4] eqn:E4 end.
  destruct (Z.eqb_spec ret4 invalidCq) as [|Hne]; [done|]. intros [= <- <-]. cbn [rg_cq].
  destruct (law_new_cq _ _ _ _ _ E4 Hne) as (H1 & H2 & H3 & H4 & H5 & H6).
  assert (queues_but [] w w3) as (O & _) by (do 2 (eapply quiet_then; [eassumption|]); by apply queues_quiet).
  split; [rewrite <- H1; symmetry; apply O, not_elem_of_nil|]. split; [done|].
  do 3 (eapply quiet_then; [eassumption|]). split_and!; try done. intros cq. rewrite list_elem_of_singleton. apply H3.
Qed.

(** A family that was opened, in a world where nothing of its own existed. *)
Record opened (family p : Z) (v : afWinRingBind) (w w' : W) : Prop := {
  on_name : sys_Getsockname (af_sock v) w' = inr (family, p);
  on_rx_new : outstanding (rg_cq (af_rx v)) w = None;
  on_tx_new : outstanding (rg_cq (af_tx v)) w = None;
  on_cqs : rg_cq (af_rx v) <> rg_cq (af_tx v);
  on_rx : outstanding (rg_cq (af_rx v)) w' = Some 0%nat;
  on_tx : outstanding (rg_cq (af_tx v)) w' = Some 0%nat;
  on_others cq : cq <> rg_cq (af_rx v) -> cq <> rg_cq (af_tx v) -> outstanding cq w' = outstanding cq w;
  on_rq_new fn : rq_cq fn (af_rq v) w = None;
  on_rq_rx : rq_cq rioReceiveEx (af_rq v) w' = Some (rg_cq (af_rx v));
  on_rq_tx : rq_cq rioSendEx (af_rq v) w' = Some (rg_cq (af_tx v));
  on_rqs fn rq : rq <> af_rq v -> rq_cq fn rq w' = rq_cq fn rq w;
  on_accepted fn rq : accepted fn rq w' = accepted fn rq w;
  on_names : names_stay w w';
}.

Lemma af_Open_queues b family port w f p v w' :
  af_zero b -> af_Open b family port w = (inr (f, p), v, w') -> opened f p v w w'.
Proof.
  intros (_ & Hrx & Htx & _). unfold af_Open, Socket, CreateRequestQueue. rewrite Hrx, Htx.
  match goal with |- context [sys_WSASocket ?a ?t ?pr ?fl w] => pose proof (q_socket w a t pr fl) as Q1;
    destruct (sys_WSASocket a t pr fl w) as [[e1|sock] w1] end; [done|]. cbn [snd] in Q1.
  destruct (ring_Open zero_ring w1) as [[[e2|] rx] w2] eqn:E2; [done|]. apply ring_Open_queues in E2 as (N2 & S2 & B2).
  destruct (ring_Open zero_ring w2) as [[[e3|] tx] w3] eqn:E3; [done|]. apply ring_Open_queues in E3 as (N3 & S3 & B3).
  match goal with |- context [sys_rio rioCreateRequestQueue ?a w3] =>
    destruct (sys_rio rioCreateRequestQueue a w3) as [[rq err4] w4] eqn:E4 end.
  destruct (Z.eqb_spec rq invalidRq) as [|Hrq]; [done|].
  destruct (law_new_rq _ _ _ _ _ _ _ _ _ _ _ _ E4 Hrq) as (R1 & R2 & R3 & R4 & R5 & R6 & R7).
  pose proof (q_bind w4 sock family port) as Q5. destruct (sys_Bind sock family port w4) as [[e5|] w5]; [done|].
  cbn [snd] in Q5. intros [= Hname <- <-]. apply law_quiet in Q5 as (O5 & A5 & C5 & N5).
  assert (rg_cq rx <> rg_cq tx) as Hne by (intros E; rewrite E in S2; congruence).
  pose proof (quiet_then _ _ _ _ Q1 B2) as B2'. pose proof (queues_trans _ _ _ _ _ B2' B3) as (O & A & C & N).
  apply law_quiet in Q1 as (O1 & _). destruct B2' as (O2' & _). destruct B2 as (O2 & _). destruct B3 as (O3 & _).
  split; cbn [af_sock af_rx af_tx af_rq]; try done.
  - by rewrite <- O1.
  - rewrite <- N3. symmetry. apply O2'. rewrite list_elem_of_singleton. congruence.
  - rewrite O5, R5, O3; [done|]. by rewrite list_elem_of_singleton.
  - by rewrite O5, R5.
  - intros cq H1 H2. rewrite O5, R5. apply O. cbn. rewrite !not_elem_of_cons. split_and!; try done. apply not_elem_of_nil.
  - intros fn. by rewrite <- C.
  - by rewrite C5.
  - by rewrite C5.
  - intros fn rq' Hn. by rewrite C5, R4, C.
  - intros fn rq'. by rewrite A5, R6, A.
  - eapply names_trans; [exact N|]. by eapply names_trans.
Qed.

(** A family with the slots [k] armed: its socket has the port, its request
    queue has its completion queues, Windows has accepted the receive request of
    each slot of [k] since the world [w0], and has them all to complete; nothing
    is being sent. *)
Record arming (family p : Z) (v : afWinRingBind) (k : list Z) (w0 w : W) : Prop := {
  ar_name : sys_Getsockname (af_sock v) w = inr (family, p);
  ar_cqs : rg_cq (af_rx v) <> rg_cq (af_tx v);
  ar_rq_rx : rq_cq rioReceiveEx (af_rq v) w = Some (rg_cq (af_rx v));
  ar_rq_tx : rq_cq rioSendEx (af_rq v) w = Some (rg_cq (af_tx v));
  ar_rx : ring_holds (af_rx v) k;
  ar_tx : ring_holds (af_tx v) [];
  ar_waiting : outstanding (rg_cq (af_rx v)) w = Some (length k);
  ar_idle : outstanding (rg_cq (af_tx v)) w = Some 0%nat;
  ar_accepted : accepted rioReceiveEx (af_rq v) w = accepted rioReceiveEx (af_rq v) w0 ++ map (receive_request v) k;
}.
Definition armed (family p : Z) (v : afWinRingBind) (w0 w : W) : Prop :=
  exists k, length k = 256%nat /\ arming family p v k w0 w.

(** What happens elsewhere does not matter. *)
Lemma arming_frame family p v k w0 w w' :
  arming family p v k w0 w -> names_stay w w' ->
  (forall fn, rq_cq fn (af_rq v) w' = rq_cq fn (af_rq v) w) ->
  (forall cq, cq = rg_cq (af_rx v) \/ cq = rg_cq (af_tx v) -> outstanding cq w' = outstanding cq w) ->
  accepted rioReceiveEx (af_rq v) w' = accepted rioReceiveEx (af_rq v) w -> arming family p v k w0 w'.
Proof. intros [] Hn Hr Ho Ha. split; rewrite ?Hr, ?Ho, ?Ha by auto; auto. Qed.

Lemma arming_quiet family p v k w0 w w' : arming family p v k w0 w -> quiet_call w w' -> arming family p v k w0 w'.
Proof. intros A (O & Ac & R & N)%law_quiet. by eapply arming_frame. Qed.

(** Two families share no queue. *)
Definition distinct (v v' : afWinRingBind) : Prop :=
  af_rq v <> af_rq v' /\
  forall cq, cq = rg_cq (af_rx v) \/ cq = rg_cq (af_tx v) -> cq <> rg_cq (af_rx v') /\ cq <> rg_cq (af_tx v').

(** Arming a slot takes the next one of the ring, posts its request and changes
    nothing else; the slot stays taken when the request is refused. *)
Lemma insert_request b l w : ring_holds (af_rx b) l -> length l <> 256%nat ->
  exists slot t f ret e w', let rx := with_ht (af_rx b) (rg_head (af_rx b)) t f in
    sys_rio rioReceiveEx (receive_request b slot) w = ((ret, e), w') /\
    InsertReceiveRequest b w = Ret (if ret =? 0 then Some e else None, with_rx b rx, w') /\
    held w' = held w /\ ring_holds rx (l ++ [slot]) /\ (slot ∉ l).
Proof.
  intros HR Hl. unfold InsertReceiveRequest.
  destruct (push_ok _ _ HR Hl) as (slot & t & f & -> & Hs & Hn & HR'). cbn [mbind go_mbind].
  set (rx := with_ht _ _ _ _) in *. change (rg_packets (af_rx b)) with (rg_packets rx).
  rewrite packet_buffers_slot by done. unfold ReceiveEx, post_ex. cbn [af_rq bf_Id bf_Offset bf_Length].
  pose proof (law_post rioReceiveEx (receive_request b slot) w ltac:(tauto)) as E.
  destruct (sys_rio rioReceiveEx (receive_request b slot) w) as [[ret e] w1] eqn:ER. cbn [snd] in E.
  exists slot, t, f, ret, e, w1. split; [done|]. split_and!; try done.
  unfold receive_request, slot_request in ER. cbn [rg_id rg_packets rx with_ht]. rewrite ER. by destruct (ret =? 0).
Qed.

Lemma insert_arming family p v k w0 w err v' w' :
  arming family p v k w0 w -> length k <> 256%nat -> InsertReceiveRequest v w = Ret (err, v', w') ->
  held w' = held w /\ af_res v' = af_res v /\
  (err = None -> exists slot, arming family p v' (k ++ [slot]) w0 w' /\
     (forall u, distinct v u -> distinct v' u) /\ (forall u, distinct u v -> distinct u v')) /\
  (forall family' p' u k', distinct v u -> arming family' p' u k' w0 w -> arming family' p' u k' w0 w').
Proof.
  intros A Hk HE. destruct (insert_request v k w (ar_rx _ _ _ _ _ _ A) Hk) as (slot & t & f & ret & e & w1 & ER & HI & Hh & HR & _).
  rewrite HE in HI. injection HI as -> -> ->.
  destruct (law_request _ _ _ _ _ _ _ (or_introl eq_refl) ER) as (Ho & Ha & Hr & Hn).
  split; [done|]. split; [done|]. split.
  - intros He. assert (ret <> 0) as Hret by (intros ->; discriminate). rewrite (proj2 (Z.eqb_neq _ _) Hret) in *.
    cbn [negb andb] in *. exists slot. split; [|by split; intros u []; split]. destruct A. split; cbn; try done.
    + by apply Hn.
    + by rewrite Hr.
    + by rewrite Hr.
    + rewrite Ho, ar_rq_rx0, bool_decide_eq_true_2 by done. rewrite ar_waiting0, length_app. cbn. f_equal. lia.
    + rewrite Ho, ar_rq_rx0, bool_decide_eq_false_2 by congruence. done.
    + rewrite Ha, bool_decide_eq_true_2 by done. rewrite ar_accepted0, map_app, <- app_assoc. done.
  - intros family' p' u k' [Drq Dcq] Au. eapply arming_frame; [exact Au|done|done| |].
    + intros cq Hcq. rewrite Ho, (ar_rq_rx _ _ _ _ _ _ A). destruct (negb (ret =? 0)); [|done]. cbn [andb].
      rewrite bool_decide_eq_false_2; [done|]. intros [= E]. destruct (Dcq cq); [by left|]. by destruct Hcq.
    + rewrite Ha. destruct (negb (ret =? 0)); cbn [andb]; [|by rewrite app_nil_r].
      rewrite bool_decide_eq_false_2, app_nil_r; [done|]. intros [_ ?]; congruence.
Qed.

Lemma arm_rings_ok n f4 f6 p v4 v6 k4 k6 w0 w :
  arming f4 p v4 k4 w0 w -> arming f6 p v6 k6 w0 w -> distinct v4 v6 -> distinct v6 v4 ->
  (length k4 + n = 256)%nat -> (length k6 + n = 256)%nat ->
  exists err v4' v6' w', arm_rings n v4 v6 w = Ret (err, v4', v6', w') /\ held w' = held w /\
    af_res v4' = af_res v4 /\ af_res v6' = af_res v6 /\
    (err = None -> armed f4 p v4' w0 w' /\ armed f6 p v6' w0 w').
Proof.
  revert v4 v6 k4 k6 w. induction n as [|n IH]; intros v4 v6 k4 k6 w A4 A6 D46 D64 L4 L6; cbn [arm_rings].
  { do 4 eexists. split; [reflexivity|]. do 3 (split; [done|]). intros _. split; eexists; (split; [|eassumption]); lia. }
  destruct (insert_request v4 k4 w (ar_rx _ _ _ _ _ _ A4) ltac:(lia)) as (? & ? & ? & ? & ? & w1 & _ & E4 & _).
  destruct (insert_arming _ _ _ _ _ _ _ _ _ A4 ltac:(lia) E4) as (Hw1 & Q4 & N4 & F4). rewrite E4. cbn [mbind go_mbind].
  destruct (_ =? 0). { do 4 eexists. split; [reflexivity|]. by split_and!. }
  destruct (N4 eq_refl) as (s4 & A4' & D1 & D2). specialize (F4 _ _ _ _ D46 A6). apply D1 in D46. apply D2 in D64.
  destruct (insert_request v6 k6 w1 (ar_rx _ _ _ _ _ _ F4) ltac:(lia)) as (? & ? & ? & ? & ? & w2 & _ & E6 & _).
  destruct (insert_arming _ _ _ _ _ _ _ _ _ F4 ltac:(lia) E6) as (Hw2 & Q6 & N6 & F6). rewrite E6. cbn [mbind go_mbind].
  destruct (_ =? 0). { do 4 eexists. split; [reflexivity|]. split_and!; (congruence || done). }
  destruct (N6 eq_refl) as (s6 & A6' & D3 & D4). specialize (F6 _ _ _ _ D64 A4'). apply D4 in D46. apply D3 in D64.
  match type of F6 with arming _ _ ?u4 _ _ _ => match type of A6' with arming _ _ ?u6 _ _ _ =>
    destruct (IH u4 u6 (k4 ++ [s4]) (k6 ++ [s6]) w2 F6 A6' D46 D64) as (err & y4 & y6 & w' & E & Hw & B4 & B6 & Hk);
      [rewrite length_app; cbn; lia..|] end end.
  rewrite E. do 4 eexists. split; [reflexivity|]. split_and!; try congruence; done.
Qed.

(** A family that was opened has no slot armed yet. *)
Lemma opened_arming family p v w w' : opened family p v w w' -> ring_holds (af_rx v) [] -> ring_holds (af_tx v) [] ->
  arming family p v [] w w'.
Proof. intros [] Hr Ht. split; try done. cbn. by rewrite app_nil_r. Qed.

(** The second family has queues of its own, and leaves those of the first alone. *)
Lemma opened_second f4 p4 v4 f6 p6 v6 w0 w1 w2 :
  opened f4 p4 v4 w0 w1 -> arming f4 p4 v4 [] w0 w1 -> opened f6 p6 v6 w1 w2 ->
  arming f4 p4 v4 [] w0 w2 /\ distinct v4 v6 /\ distinct v6 v4.
Proof.
  intros O4 A4 O6.
  assert (af_rq v4 <> af_rq v6) as Hrq.
  { intros E. pose proof (on_rq_new _ _ _ _ _ O6 rioReceiveEx) as HN. rewrite <- E, (on_rq_rx _ _ _ _ _ O4) in HN. done. }
  assert (forall cq, cq = rg_cq (af_rx v4) \/ cq = rg_cq (af_tx v4) -> cq <> rg_cq (af_rx v6) /\ cq <> rg_cq (af_tx v6)) as Hcq.
  { intros cq Hcq. assert (outstanding cq w1 = Some 0%nat) as Hs by (destruct Hcq as [-> | ->]; apply O4).
    split; intros ->; [rewrite (on_rx_new _ _ _ _ _ O6) in Hs|rewrite (on_tx_new _ _ _ _ _ O6) in Hs]; done. }
  split; [|split; split; [done|done|congruence|]].
  - eapply arming_frame; [exact A4|apply O6| | |apply O6].
    + intros fn. by apply O6.
    + intros cq E. destruct (Hcq cq E). by apply O6.
  - intros cq [-> | ->]; split; intros E; symmetry in E; destruct (Hcq _ (or_introl eq_refl)), (Hcq _ (or_intror eq_refl)); congruence.
Qed.

(** The body of [Open] never panics; on every path the bind names all that it
    acquired. *)
Lemma open_body_ok b port w : wb_zero b -> sys_isOpen w = 0 ->
  exists r b' w', wb_open_body b port w = Ret (r, b', w') /\ owns (wb_res b') w w' /\
    (forall p, r = inr p -> sys_isOpen w' = 1 /\ 0 < p < 65536 /\ (0 < port < 65536 -> p = port) /\
       armed AF_INET p (wb_v4 b') w w' /\ armed AF_INET6 p (wb_v6 b') w w').
Proof.
  intros (Z4 & Z6 & _) Hopen. unfold wb_open_body. rewrite Hopen. cbn [negb Z.eqb].
  assert (af_res (wb_v6 b) = ∅) as R6. { destruct Z6 as (E1 & E2 & E3 & _). unfold af_res. rewrite E1, E2, E3. by autorewrite with res. }
  destruct (af_Open (wb_v4 b) AF_INET port w) as [[r4 v4] w1] eqn:E4. pose proof E4 as E4'. apply af_Open_owns in E4 as [O4 S4]; [|done].
  destruct r4 as [e4|[f4 p4]].
  { do 3 eexists. split; [reflexivity|]. unfold wb_res. cbn. rewrite R6. by autorewrite with res. }
  destruct (S4 _ _ eq_refl) as (-> & Hp4 & Hq4 & Rx4 & Tx4). cbn [check Z.eqb AF_INET mbind go_mbind wb_v6].
  apply af_Open_queues in E4'; [|done]. pose proof (opened_arming _ _ _ _ _ E4' Rx4 Tx4) as A4.
  destruct (af_Open (wb_v6 b) AF_INET6 p4 w1) as [[r6 v6] w2] eqn:E6. pose proof E6 as E6'. apply af_Open_owns in E6 as [O6 S6]; [|done].
  pose proof (owns_trans _ _ _ _ _ O4 O6) as O. destruct r6 as [e6|[f6 p6]].
  { do 3 eexists. split; [reflexivity|]. by split. }
  destruct (S6 _ _ eq_refl) as (-> & Hp6 & Hq6 & Rx6 & Tx6). cbn [check Z.eqb AF_INET6 mbind go_mbind].
  apply af_Open_queues in E6'; [|done]. specialize (Hq6 ltac:(lia)) as ->.
  destruct (opened_second _ _ _ _ _ _ _ _ _ E4' A4 E6') as (A4' & D46 & D64).
  assert (arming AF_INET6 p4 v6 [] w w2) as A6'.
  { pose proof (opened_arming _ _ _ _ _ E6' Rx6 Tx6) as []. split; try done. rewrite ar_accepted0. f_equal. apply E4'. }
  destruct (arm_rings_ok (Z.to_nat packetsPerRing) _ _ _ _ _ _ _ _ _ A4' A6' D46 D64 eq_refl eq_refl)
    as (err & u4 & u6 & w3 & -> & H3 & B4 & B6 & Hk). cbn [mbind go_mbind wb_subscriber wb_unsubscribe].
  assert (forall s u w4, held w4 = held w3 -> owns (wb_res (mkWinBind u4 u6 s u)) w w4) as Hown.
  { intros s u w4 E. unfold wb_res. cbn. rewrite B4, B6. eapply owns_same; [exact O|congruence]. }
  destruct err as [err|]. { do 3 eexists. split; [reflexivity|]. split; [by apply Hown|done]. }
  destruct (Hk eq_refl) as ((k4 & L4 & K4) & (k6 & L6 & K6)).
  rewrite (u16_small p4) by lia. destruct (wb_subscriber b).
  - pose proof (law_subscribe w3) as H4. pose proof (q_subscribe w3) as Q4.
    destruct (sys_SubscribeCloser w3) as [[es|u] w4]; cbn [snd] in H4, Q4;
      (do 3 eexists; split; [reflexivity|]); (split; [apply Hown; by rewrite ?law_store_isOpen|]); [done|].
    intros p [= <-]. rewrite law_isOpen. split; [done|]. split; [lia|]. split; [auto|]. pose proof (q_isOpen w4 1) as Q5.
    split; [exists k4|exists k6]; (split; [done|]); (eapply arming_quiet; [|exact Q5]); by eapply arming_quiet.
  - do 3 eexists. split; [reflexivity|]. split; [apply Hown; by rewrite law_store_isOpen|].
    intros p [= <-]. rewrite law_isOpen. split; [done|]. split; [lia|]. split; [auto|]. pose proof (q_isOpen w3 1) as Q5.
    split; [exists k4|exists k6]; (split; [done|]); by eapply arming_quiet.
Qed.

Lemma wb_Open_ok b port w :
  wb_zero b -> sys_isOpen w = 0 ->
  exists r b' w', wb_Open b port w = Ret (r, b', w') /\
  match r with
  | inl _ => wb_zero b' /\ held w' = held w /\ sys_isOpen w' = 0
  | inr p => owns (wb_res b') w w' /\ sys_isOpen w' = 1 /\ 0 < p < 65536 /\ (0 < port < 65536 -> p = port) /\
      armed AF_INET p (wb_v4 b') w w' /\ armed AF_INET6 p (wb_v6 b') w w'
  end.
Proof.
  intros HZ HO. unfold wb_Open. destruct (open_body_ok b port w HZ HO) as (r & b1 & w1 & -> & Hown & Hs). cbn [mbind go_mbind].
  destruct r as [err|p].
  - destruct (closeAndZero_spec b1 w1) as (Hz & Hh & Ho). destruct (closeAndZero b1 w1) as [b2 w2]. cbn [fst snd] in *.
    do 3 eexists. split; [reflexivity|]. split_and!; try done. congruence.
  - do 3 eexists. split; [reflexivity|]. split; [done|]. by apply Hs.
Qed.

(** C7: Opening the ring bind never panics.  When any step fails, every socket,
    completion port, queue, buffer registration and memory block made on the
    way is released and the bind is closed again.  After success the sockets of
    both families have the returned port, which is the requested one unless that
    was zero; for each of the 256 slots of both receive rings Windows has
    accepted a receive request with exactly its buffers, and has them all still
    to complete; nothing is being sent. *)
Theorem wb_Open_spec b port w :
  wb_zero b -> sys_isOpen w = 0 ->
  exists r b' w', wb_Open b port w = Ret (r, b', w') /\
  match r with
  | inl _ => wb_zero b' /\ held w' = held w /\ sys_isOpen w' = 0
  | inr p => owns (wb_res b') w w' /\ sys_isOpen w' = 1 /\ 0 < p < 65536 /\ (0 < port < 65536 -> p = port) /\
      armed AF_INET p (wb_v4 b') w w' /\ armed AF_INET6 p (wb_v6 b') w w'
  end.
Proof. apply wb_Open_ok. Qed.

Lemma wb_Close_open b w : sys_isOpen w = 1 ->
  exists b' w', wb_Close b w = (None, b', w') /\ wb_zero b' /\ held w' = held w ∖ wb_res b /\ sys_isOpen w' = 0.
Proof.
  intros HO. unfold wb_Close. rewrite HO. cbn [negb Z.eqb Pos.eqb].
  match goal with |- context [closeAndZero b ?x] => set (w1 := x) end.
  assert (held w1 = held w) as E by (subst w1; by rewrite !law_pqcs, law_store_isOpen).
  destruct (closeAndZero_spec b w1) as (Hz & Hh & Ho). destruct (closeAndZero b w1) as [b2 w2]. cbn [fst snd] in *.
  do 2 eexists. split; [reflexivity|]. by rewrite Hh, E.
Qed.

(** Closing the ring bind after a successful [Open] gives back everything
    that [Open] acquired, whatever happened in between to resources that are
    not the bind's; closing a bind that is not open changes nothing. *)
Theorem wb_Open_Close b port w p b1 w1 w2 :
  wb_zero b -> sys_isOpen w = 0 -> wb_Open b port w = Ret (inr p, b1, w1) ->
  held w2 = held w1 -> sys_isOpen w2 = 1 ->
  exists b3 w3, wb_Close b1 w2 = (None, b3, w3) /\ wb_zero b3 /\ held w3 = held w /\
    wb_Close b3 w3 = (None, b3, w3).
Proof.
  intros HZ HO E Hh H2.
  assert (owns (wb_res b1) w w1) as Hown.
  { unfold wb_Open in E. destruct (open_body_ok b port w HZ HO) as (r & b' & w' & Eb & Hown & _).
    rewrite Eb in E. cbn [mbind go_mbind] in E. destruct r; [by destruct (closeAndZero b' w')|]. by injection E as [= -> -> ->]. }
  destruct (wb_Close_open b1 w2 H2) as (b3 & w3 & Ec & Hz & Hh3 & Ho3). exists b3, w3. split_and!; try done.
  - by rewrite Hh3, Hh.
  - unfold wb_Close. by rewrite Ho3.
Qed.

(** [Open] on a bind that is already open fails with [ErrBindAlreadyOpen],
    but its deferred cleanup runs as well: the open bind is closed and all its
    resources are gone. *)
Theorem wb_Open_twice_closes b port w :
  sys_isOpen w = 1 ->
  exists b' w', wb_Open b port w = Ret (inl ErrBindAlreadyOpen, b', w') /\
    wb_zero b' /\ held w' = held w ∖ wb_res b /\ sys_isOpen w' = 0.
Proof.
  intros HO. unfold wb_Open, wb_open_body. rewrite HO. cbn [negb Z.eqb mbind go_mbind].
  pose proof (closeAndZero_spec b w) as H1. destruct (closeAndZero b w) as [b2 w2]. eauto.
Qed.
End WinRingResources.

(** *** On the simulated machine *)

Definition ex_wb : WinRingBind := mkWinBind zero_af zero_af true None.
Lemma ex_wb_zero : wb_zero ex_wb.
Proof. done. Qed.

(** 18 creations suffice for [Open]; with 13 the second family fails. *)
Lemma ex_Open : match wb_Open ex_wb 0 (winsim0 18) with
  | Ret (inr p, _, w1) => p = 50000 /\ sys_isOpen w1 = 1
  | _ => False
  end.
Proof. vm_compute. done. Qed.

Lemma wb_Open_spec_witness :
  (exists p b' w', wb_Open ex_wb 0 (winsim0 18) = Ret (inr p, b', w') /\
     armed AF_INET p (wb_v4 b') (winsim0 18) w' /\ armed AF_INET6 p (wb_v6 b') (winsim0 18) w') /\
  exists err b' w', wb_Open ex_wb 0 (winsim0 13) = Ret (inl err, b', w') /\ held w' = held (winsim0 13) /\ sys_isOpen w' = 0.
Proof.
  split.
  - destruct (@wb_Open_spec winsim winsim_sys winsim_laws winsim_queues ex_wb 0 (winsim0 18) ex_wb_zero ltac:(reflexivity)) as (r & b' & w' & E & H).
    pose proof ex_Open as Hx. rewrite E in Hx. destruct r as [err|p]; [destruct Hx|].
    exists p, b', w'. destruct H as (_ & _ & _ & _ & H4 & H6). exact (conj E (conj H4 H6)).
  - destruct (@wb_Open_spec winsim winsim_sys winsim_laws winsim_queues ex_wb 0 (winsim0 13) ex_wb_zero ltac:(reflexivity)) as (r & b' & w' & E & H).
    destruct r as [err|p]; [exists err, b', w'; exact (conj E (proj2 H))|].
    exfalso. vm_compute in E. discriminate E.
Defined.

Lemma wb_Open_Close_witness :
  exists b1 w1 b3 w3, wb_Open ex_wb 0 (winsim0 18) = Ret (inr 50000, b1, w1) /\
    wb_Close b1 w1 = (None, b3, w3) /\ held w3 = held (winsim0 18).
Proof.
  pose proof ex_Open as Hx. destruct (wb_Open ex_wb 0 (winsim0 18)) as [[[[err|p] b1] w1]| |] eqn:E; [destruct Hx| |destruct Hx..].
  destruct Hx as [-> HO].
  destruct (@wb_Open_Close winsim winsim_sys winsim_laws winsim_queues ex_wb 0 (winsim0 18) _ _ _ w1 ex_wb_zero ltac:(reflexivity) E eq_refl HO) as (b3 & w3 & Ec & _ & Hh & _).
  exists b1, w1, b3, w3. exact (conj eq_refl (conj Ec Hh)).
Defined.

Lemma wb_Open_twice_closes_witness :
  exists b1 w1 b' w', wb_Open ex_wb 0 (winsim0 18) = Ret (inr 50000, b1, w1) /\
    wb_Open b1 0 w1 = Ret (inl ErrBindAlreadyOpen, b', w') /\ sys_isOpen w' = 0.
Proof.
  pose proof ex_Open as Hx. destruct (wb_Open ex_wb 0 (winsim0 18)) as [[[[err|p] b1] w1]| |] eqn:E; [destruct Hx| |destruct Hx..].
  destruct Hx as [-> HO].
  destruct (@wb_Open_twice_closes winsim winsim_sys winsim_laws b1 0 w1 HO) as (b' & w' & Ec & _ & _ & Ho).
  exists b1, w1, b', w'. exact (conj eq_refl (conj Ec Ho)).
Defined.
