(* ===== verification/WinIO.v ===== *)
(** * WinRingBind: receiving, sending and construction (bind_windows.go,
    closer_tracking.go, default.go)

    [Receive] takes a completion of the receive ring, gives the slot back to
    Windows and copies the packet out; [Send] reclaims finished slots, fills the
    next one and posts it. *)

From S2P Require Import Prelude Errors GoMem Netip Cmsg Env Conn StdNet WinRio WinSim WinRing.
Local Open Scope Z_scope.

Definition WSAEMSGSIZE : Z := 10040.
Definition zero_result : Result := mkResult 0 0 0 0.

(** The image of a [WinRingEndpoint] in a slot. *)
Definition we_bytes (e : WinRingEndpoint) : list byte := le_bytes 2 (we_family e) ++ we_data e.
Definition we_of_bytes (bs : list byte) : WinRingEndpoint := mkWinEndpoint (le_val (take 2 bs)) (drop 2 bs).

Definition with_tx (b : afWinRingBind) (tx : ringBuffer) : afWinRingBind :=
  mkAf (af_sock b) (af_rx b) tx (af_rq b) (af_blackhole b).

Section WinIO.
Context `{WinSys W}.

(** ** Receive *)

(** The polling loop: up to [left] more tries. *)
Fixpoint spin (left tries : nat) (cq : Z) (w : W) : go ((error + Z * list Result) * W) :=
  match left with
  | O => Ret (inr (0, []), w)
  | S left' =>
      if (0 <? tries)%nat && negb (sys_isOpen w =? 1) then Ret (inl ErrClosed, w) else
      let w := if (0 <? tries)%nat then sys_procyield w else w in
      '(count, rs, w) ← DequeueCompletion cq 1 w;
      if count =? 0 then spin left' (S tries) cq w else Ret (inr (count, rs), w)
  end.

(** The blocks of [Receive] and [Send] that wait for a notification. *)
Definition wait_completion (cq iocp : Z) (n : nat) (w : W) : go ((error + Z * list Result) * W) :=
  let '(err, w) := Notify cq w in
  match err with
  | Some e => Ret (inl e, w)
  | None =>
      let '(err, w) := sys_GetQueuedCompletionStatus iocp w in
      match err with
      | Some e => Ret (inl e, w)
      | None =>
          if negb (sys_isOpen w =? 1) then Ret (inl ErrClosed, w) else
          '(count, rs, w) ← DequeueCompletion cq n w;
          if count =? 0 then Ret (inl ErrNoProgress, w) else Ret (inr (count, rs), w)
      end
  end.

Definition next_completion (rx : ringBuffer) (w : W) : go ((error + Z * list Result) * W) :=
  '(r, w) ← spin receiveSpins 0 (rg_cq rx) w;
  match r with
  | inl e => Ret (inl e, w)
  | inr (count, rs) =>
      if count =? 0 then wait_completion (rg_cq rx) (rg_iocp rx) 1 w else Ret (inr (count, rs), w)
  end.

(** One pass from the label [retry]: [None] is [goto retry]. *)
Definition receive_once (b : afWinRingBind) (m : mem) (buf : slice) (w : W)
    : go (option (error + nat * WinRingEndpoint) * afWinRingBind * mem * W) :=
  '(r, w) ← next_completion (af_rx b) w;
  match r with
  | inl e => Ret (Some (inl e), b, m, w)
  | inr (_, rs) =>
      let res := default zero_result (rs !! 0%nat) in
      let b := with_rx b (Return (af_rx b) 1) in
      '(err, b, w) ← InsertReceiveRequest b w;
      match err with
      | Some e => Ret (Some (inl e), b, m, w)
      | None =>
          if rs_Status res =? WSAEMSGSIZE then
            if negb (sys_isOpen w =? 1) then Ret (Some (inl ErrClosed), b, m, w) else Ret (None, b, m, w)
          else if negb (rs_Status res =? 0) then Ret (Some (inl (EErrno (ErrnoOther (rs_Status res)))), b, m, w)
          else
            let '(addr, data) := sys_read_packet (rs_RequestContext res) w in
            _ ← check (rs_BytesTransferred res <=? bytesPerPacket);
            let data := take (Z.to_nat (rs_BytesTransferred res)) data in
            let n := Nat.min (s_len buf) (length data) in
            Ret (Some (inr (n, we_of_bytes addr)), b, store m buf 0 (take n data), w)
      end
  end.

Fixpoint receive_loop (fuel : nat) (b : afWinRingBind) (m : mem) (buf : slice) (w : W)
    : go ((error + nat * WinRingEndpoint) * afWinRingBind * mem * W) :=
  match fuel with
  | O => NoFuel
  | S fuel' =>
      '(r, b, m, w) ← receive_once b m buf w;
      match r with
      | Some r => Ret (r, b, m, w)
      | None => receive_loop fuel' b m buf w
      end
  end.

(** [afWinRingBind.Receive] *)
Definition Receive (fuel : nat) (b : afWinRingBind) (m : mem) (buf : slice) (w : W)
    : go ((error + nat * WinRingEndpoint) * afWinRingBind * mem * W) :=
  if negb (sys_isOpen w =? 1) then Ret (inl ErrClosed, b, m, w) else receive_loop fuel b m buf w.

(** The arrays that the caller of a [ReceiveFunc] passes. *)
Record wb_outputs := mkWbOut { wo_sizes : list nat; wo_eps : list (option WinRingEndpoint) }.

(** [receiveIPv4] and [receiveIPv6] after the choice of the family. *)
Definition wb_receive (v : WinRingBind -> afWinRingBind) (set : WinRingBind -> afWinRingBind -> WinRingBind)
    (fuel : nat) (b : WinRingBind) (m : mem) (bufs : list slice) (o : wb_outputs) (w : W)
    : go (nat * option error * wb_outputs * WinRingBind * mem * W) :=
  if negb (sys_isOpen w =? 1) then Ret (0%nat, Some ErrClosed, o, b, m, w) else
  match validateReceiveBuffers (length bufs) (length (wo_sizes o)) (length (wo_eps o)) (wb_BatchSize b) with
  | Some err => Ret (0%nat, Some err, o, b, m, w)
  | None =>
      buf ← must (bufs !! 0%nat);
      '(r, af, m, w) ← Receive fuel (v b) m buf w;
      let '(n, ep, err) := match r with inl e => (0%nat, None, Some e) | inr (n, ep) => (n, Some ep, None) end in
      Ret (1%nat, err, mkWbOut (<[0%nat := n]> (wo_sizes o)) (<[0%nat := ep]> (wo_eps o)), set b af, m, w)
  end.

Definition set_v4 (b : WinRingBind) (v : afWinRingBind) : WinRingBind :=
  mkWinBind v (wb_v6 b) (wb_subscriber b) (wb_unsubscribe b).
Definition set_v6 (b : WinRingBind) (v : afWinRingBind) : WinRingBind :=
  mkWinBind (wb_v4 b) v (wb_subscriber b) (wb_unsubscribe b).
Definition receiveIPv4 := wb_receive wb_v4 set_v4.
Definition receiveIPv6 := wb_receive wb_v6 set_v6.

(** ** Send *)

(** From [bind.tx.Push] on. *)
Definition post_send (b : afWinRingBind) (buf : list byte) (nend : WinRingEndpoint) (w : W)
    : go (option error * afWinRingBind * W) :=
  '(packet, tx) ← Push (af_tx b);
  let b := with_tx b tx in
  let old := (sys_read_packet packet w).2 in
  let w := sys_write_packet packet (we_bytes nend) (buf ++ drop (length buf) old) w in
  let '(dataBuffer, addressBuffer) := packet_buffers tx packet (u32 (Z.of_nat (length buf))) in
  let '(err, w) := SendEx (af_rq b) dataBuffer 1 addressBuffer 0 0 w in
  Ret (err, b, w).

(** [afWinRingBind.Send] *)
Definition af_Send (b : afWinRingBind) (buf : list byte) (nend : WinRingEndpoint) (w : W)
    : go (option error * afWinRingBind * W) :=
  if negb (sys_isOpen w =? 1) then Ret (Some ErrClosed, b, w)
  else if bytesPerPacket <? Z.of_nat (length buf) then Ret (Some ErrShortBuffer, b, w)
  else
    '(count, rs, w) ← DequeueCompletion (rg_cq (af_tx b)) (Z.to_nat packetsPerRing) w;
    '(r, w) ←
      (if (count =? 0) && rg_isFull (af_tx b)
       then wait_completion (rg_cq (af_tx b)) (rg_iocp (af_tx b)) (Z.to_nat packetsPerRing) w
       else Ret (inr (count, rs), w));
    match r with
    | inl e => Ret (Some e, b, w)
    | inr (count, _) =>
        let b := if 0 <? count then with_tx b (Return (af_tx b) count) else b in
        post_send b buf nend w
    end.

(** [endpoint.( *WinRingEndpoint )] of [WinRingBind.Send]: [None] is another
    type of endpoint. *)
Fixpoint wb_Send (b : WinRingBind) (bufs : list (list byte)) (endpoint : option WinRingEndpoint) (w : W)
    : go (option error * WinRingBind * W) :=
  match endpoint with
  | None => Ret (Some ErrWrongEndpointType, b, w)
  | Some nend =>
      match bufs with
      | [] => Ret (None, b, w)
      | buf :: rest =>
          if we_family nend =? AF_INET then
            if af_blackhole (wb_v4 b) then wb_Send b rest endpoint w
            else
              '(err, v, w) ← af_Send (wb_v4 b) buf nend w;
              match err with Some e => Ret (Some e, set_v4 b v, w) | None => wb_Send (set_v4 b v) rest endpoint w end
          else if we_family nend =? AF_INET6 then
            if af_blackhole (wb_v6 b) then wb_Send b rest endpoint w
            else
              '(err, v, w) ← af_Send (wb_v6 b) buf nend w;
              match err with Some e => Ret (Some e, set_v6 b v, w) | None => wb_Send (set_v6 b v) rest endpoint w end
          else wb_Send b rest endpoint w
      end
  end.

(** ** Binding to an interface *)

(** The index in network byte order, read as a machine integer. *)
Definition swap32 (z : Z) : Z := le_val (rev (le_bytes 4 z)).

Definition bindSocketToInterface4 (handle interfaceIndex : Z) (w : W) : option error * W :=
  sys_SetsockoptInt handle 0 31 (swap32 interfaceIndex) w.
Definition bindSocketToInterface6 (handle interfaceIndex : Z) (w : W) : option error * W :=
  sys_SetsockoptInt handle 41 31 interfaceIndex w.

Definition set_blackhole (v : afWinRingBind) (blackhole : bool) : afWinRingBind :=
  mkAf (af_sock v) (af_rx v) (af_tx v) (af_rq v) blackhole.
Definition wb_BindSocketToInterface4 (b : WinRingBind) (interfaceIndex : Z) (blackhole : bool) (w : W)
    : option error * WinRingBind * W :=
  if negb (sys_isOpen w =? 1) then (Some ErrClosed, b, w) else
  match bindSocketToInterface4 (af_sock (wb_v4 b)) interfaceIndex w with
  | (Some err, w) => (Some err, b, w)
  | (None, w) => (None, set_v4 b (set_blackhole (wb_v4 b) blackhole), w)
  end.
Definition wb_BindSocketToInterface6 (b : WinRingBind) (interfaceIndex : Z) (blackhole : bool) (w : W)
    : option error * WinRingBind * W :=
  if negb (sys_isOpen w =? 1) then (Some ErrClosed, b, w) else
  match bindSocketToInterface6 (af_sock (wb_v6 b)) interfaceIndex w with
  | (Some err, w) => (Some err, b, w)
  | (None, w) => (None, set_v6 b (set_blackhole (wb_v6 b) blackhole), w)
  end.
End WinIO.

(** ** StdNetBind on Windows, and the choice of a bind *)

Section WinStd.
Context {U : UnixABI} `{Env W} `{WinSys W}.

Definition set_blackhole4 (s : StdNetBind) (x : bool) : StdNetBind :=
  mkBind (sb_network s) (sb_options s) (sb_ipv4 s) (sb_ipv6 s) (sb_ipv4PC s) (sb_ipv6PC s)
    (sb_ipv4TxOffload s) (sb_ipv4RxOffload s) (sb_ipv6TxOffload s) (sb_ipv6RxOffload s)
    (sb_udpAddrPool s) (sb_msgsPool s) x (sb_blackhole6 s) (sb_batchSize s).
Definition set_blackhole6 (s : StdNetBind) (x : bool) : StdNetBind :=
  mkBind (sb_network s) (sb_options s) (sb_ipv4 s) (sb_ipv6 s) (sb_ipv4PC s) (sb_ipv6PC s)
    (sb_ipv4TxOffload s) (sb_ipv4RxOffload s) (sb_ipv6TxOffload s) (sb_ipv6RxOffload s)
    (sb_udpAddrPool s) (sb_msgsPool s) (sb_blackhole4 s) x (sb_batchSize s).

Definition sb_BindSocketToInterface4 (s : StdNetBind) (interfaceIndex : Z) (blackhole : bool) (w : W)
    : option error * StdNetBind * W :=
  match sb_ipv4 s with
  | None => (Some ErrClosed, s, w)
  | Some c =>
      match env_sockopt_fd c w with
      | inl err2 => (Some err2, s, w)
      | inr fd =>
          match bindSocketToInterface4 fd interfaceIndex w with
          | (Some err, w) => (Some err, s, w)
          | (None, w) => (None, set_blackhole4 s blackhole, w)
          end
      end
  end.
Definition sb_BindSocketToInterface6 (s : StdNetBind) (interfaceIndex : Z) (blackhole : bool) (w : W)
    : option error * StdNetBind * W :=
  match sb_ipv6 s with
  | None => (Some ErrClosed, s, w)
  | Some c =>
      match env_sockopt_fd c w with
      | inl err2 => (Some err2, s, w)
      | inr fd =>
          match bindSocketToInterface6 fd interfaceIndex w with
          | (Some err, w) => (Some err, s, w)
          | (None, w) => (None, set_blackhole6 s blackhole, w)
          end
      end
  end.

(** The values of type [Bind] that the package makes. *)
Inductive Bind := BStd (s : StdNetBind) | BRing (b : WinRingBind).

(** [winRingCloserSubscriber]; [subscribes] says whether the network has the
    method [SubscribeCloser]. *)
Definition winRingCloserSubscriber (network subscribes : bool) : bool :=
  if negb network || negb env_is_native then false else subscribes.

(** [NewWinRingBind], [NewDefaultBind] and [NewDefaultBindWithOptions] of
    bind_windows.go, with the state of winrio. *)
Definition NewWinRingBind (network subscribes : bool) (rio : rio_state) (w : W) : Bind * rio_state * W :=
  if negb (winRingCloserSubscriber network subscribes) then (BStd (NewStdNetBind Windows network), rio, w) else
  let '(ok, rio, w) := Initialize rio w in
  if negb ok then (BStd (NewStdNetBind Windows network), rio, w)
  else (BRing (mkWinBind zero_af zero_af true None), rio, w).

Definition NewDefaultBind_windows (network subscribes : bool) (rio : rio_state) (w : W) : Bind * rio_state * W :=
  if negb (winRingCloserSubscriber network subscribes) then (BStd (NewStdNetBind Windows network), rio, w)
  else NewWinRingBind network subscribes rio w.

Definition NewDefaultBindWithOptions_windows (network subscribes : bool) (opts : StdNetBindOptions)
    (rio : rio_state) (w : W) : Bind * rio_state * W :=
  if negb (bool_decide (o_FamilyOrder opts = FamilyOrderIPv4First)) || o_AllowSingleFamily opts ||
     o_OnFamilyOpenError opts || (0 <? o_BatchSize opts)
  then (BStd (NewStdNetBindWithOptions Windows network opts), rio, w)
  else NewDefaultBind_windows network subscribes rio w.

(** default.go, on the other systems. *)
Definition NewDefaultBind_other (os : GOOS) (network : bool) : Bind := BStd (NewStdNetBind os network).
Definition NewDefaultBindWithOptions_other (os : GOOS) (network : bool) (opts : StdNetBindOptions) : Bind :=
  BStd (NewStdNetBindWithOptions os network opts).

(** A bind for the ring is chosen exactly for native networks that track
    closers, when registered I/O works and the options ask for nothing that
    only the portable bind offers; otherwise the options are honoured by the
    portable bind, except that non-positive batch sizes count as unset. *)
Lemma ring_bind_chosen network subscribes opts rio w b rio' w' :
  NewDefaultBindWithOptions_windows network subscribes opts rio w = (b, rio', w') ->
  match b with
  | BRing r => r = mkWinBind zero_af zero_af true None /\ network = true /\ env_is_native = true /\
      subscribes = true /\ ri_available rio' = true /\ o_FamilyOrder opts = FamilyOrderIPv4First /\
      o_AllowSingleFamily opts = false /\ o_OnFamilyOpenError opts = false /\ o_BatchSize opts <= 0
  | BStd s => s = NewStdNetBindWithOptions Windows network opts \/ s = NewStdNetBind Windows network
  end.
Proof.
  unfold NewDefaultBindWithOptions_windows, NewDefaultBind_windows, NewWinRingBind, winRingCloserSubscriber.
  destruct (_ || _ || _ || _) eqn:Eo; [intros [= <- <- <-]; by left|].
  destruct (negb network || negb env_is_native) eqn:En; [intros [= <- <- <-]; by right|].
  destruct subscribes; cbn [negb]; [|intros [= <- <- <-]; by right].
  destruct (Initialize rio w) as [[ok rio1] w1] eqn:Ei. destruct ok; cbn [negb]; intros [= <- <- <-]; [|by right].
  bool_simp. assert (ri_available rio1 = true) as Ha.
  { unfold Initialize in Ei. destruct (ri_initialized rio); [by simplify_eq|]. destruct (probe w). by simplify_eq. }
  split_and!; done || lia.
Qed.
End WinStd.

(** ** Receiving *)

(** A computation returns a value with [P], or panics where [B] holds; it does
    not run out of fuel. *)
Definition go_spec {A} (P : A -> Prop) (B : Prop) (x : go A) : Prop :=
  match x with Ret a => P a | Panic => B | NoFuel => False end.

Lemma go_spec_bind {A C} (Q : A -> Prop) (P : C -> Prop) (B : Prop) (x : go A) (f : A -> go C) :
  go_spec Q B x -> (forall a, Q a -> go_spec P B (f a)) -> go_spec P B (x ≫= f).
Proof. destruct x; cbn; auto. Qed.
Lemma go_spec_mono {A} (Q P : A -> Prop) (B B' : Prop) (x : go A) :
  go_spec Q B x -> (forall a, Q a -> P a) -> (B -> B') -> go_spec P B' x.
Proof. destruct x; cbn; auto. Qed.

Section WinReceive.
Context `{WinSys W} {L : WinLaws W} {Q : WinQueues W}.

(** After calls on a completion queue, Windows reports it as corrupt; or it
    reports a transfer that is longer than a slot. *)
Definition corrupt (cq : Z) (w : W) : Prop :=
  exists k w1 n, sys_run cq w k w1 /\ (sys_dequeue cq n w1).1.1 = corruptCq.
Definition overlong (cq : Z) (w : W) : Prop :=
  exists k w1 n r, sys_run cq w k w1 /\ r ∈ (sys_dequeue cq n w1).1.2 /\ bytesPerPacket < rs_BytesTransferred r.

Lemma corrupt_run cq w k w1 : sys_run cq w k w1 -> corrupt cq w1 -> corrupt cq w.
Proof. intros Hr (j & w2 & n & Hj & Hc). exists (k + j)%nat, w2, n. split; [by eapply run_trans|done]. Qed.
Lemma overlong_run cq w k w1 : sys_run cq w k w1 -> overlong cq w1 -> overlong cq w.
Proof. intros Hr (j & w2 & n & r & Hj & Hc). exists (k + j)%nat, w2, n, r. split; [by eapply run_trans|done]. Qed.

(** Between [w] and [w'] exactly [c] completions were taken from the queue. *)
Record took (cq : Z) (w : W) (c : nat) (w' : W) : Prop := {
  tk_run : sys_run cq w c w';
  tk_out k : outstanding cq w = Some k -> (c <= k)%nat /\ outstanding cq w' = Some (k - c)%nat;
  tk_rq fn rq : rq_cq fn rq w' = rq_cq fn rq w;
}.

Lemma took_nil cq w : took cq w 0 w.
Proof. split; [constructor| |done]. intros k ->. rewrite Nat.sub_0_r. split; [lia|done]. Qed.
Lemma took_trans cq w c w1 c' w2 : took cq w c w1 -> took cq w1 c' w2 -> took cq w (c + c') w2.
Proof.
  intros [R1 O1 Q1] [R2 O2 Q2]. split; [by eapply run_trans| |intros; by rewrite Q2].
  intros k Hk. destruct (O1 k Hk) as [? H1]. destruct (O2 _ H1) as [? ->]. split; [lia|f_equal; lia].
Qed.
Lemma took_quiet cq w w' : quiet_call w w' -> took cq w 0 w'.
Proof.
  intros HQ. pose proof (law_quiet _ _ HQ) as (O & _ & R & _). split; [eapply run_quiet; [constructor|done]| |done].
  intros k Hk. rewrite O, Hk, Nat.sub_0_r. split; [lia|done].
Qed.

(** What a wait for completions returns. *)
Definition results_ok (cq : Z) (w : W) (n : nat) (r : error + Z * list Result) (w' : W) : Prop :=
  match r with
  | inl _ => took cq w 0 w'
  | inr (c, rs) => took cq w (Z.to_nat c) w' /\ 0 <= c <= Z.of_nat n /\
      Forall (fun x => bytesPerPacket < rs_BytesTransferred x -> overlong cq w) rs
  end.

Lemma results_run cq w w1 n r w' : took cq w 0 w1 -> results_ok cq w1 n r w' -> results_ok cq w n r w'.
Proof.
  intros T. destruct r as [e|[c rs]]; cbn; [by apply (took_trans cq w 0 w1 0)|].
  intros (Tk & Hc & Hf). split; [by apply (took_trans cq w 0 w1)|]. split; [done|].
  eapply list.Forall_impl; [exact Hf|]. intros x Hx Hb. eapply overlong_run; [apply T|]. auto.
Qed.

Lemma dequeue_ok cq n w : (n <= 256)%nat ->
  go_spec (fun '(c, rs, w') => results_ok cq w n (inr (c, rs)) w') (corrupt cq w) (DequeueCompletion cq n w).
Proof.
  intros Hn. unfold DequeueCompletion. destruct (sys_dequeue cq n w) as [[c rs] w'] eqn:E.
  destruct (Z.eqb_spec c corruptCq) as [->|Hc].
  { exists 0%nat, w, n. rewrite E. split; [constructor|done]. }
  destruct (law_dequeue_count _ _ _ _ _ _ E) as [?|[Hr Hl]]; [done|].
  destruct (law_completion _ _ _ _ _ _ E Hc) as (Ho & _ & _ & Hq & _).
  rewrite u32_small by lia. split; [|split; [done|]].
  - split; [|intros k Hk; destruct (Ho k Hk); split; [lia|done]|done].
    change (Z.to_nat c) with (0 + Z.to_nat c)%nat. eapply run_dequeue; [constructor|exact E|done].
  - apply list.Forall_forall. intros x Hx Hb. exists 0%nat, w, n, x. rewrite E. split; [constructor|]. done.
Qed.

Lemma spin_ok left : forall tries cq w,
  go_spec (fun '(r, w') => results_ok cq w 1 r w') (corrupt cq w) (spin left tries cq w).
Proof.
  induction left as [|left IH]; intros tries cq w; cbn [spin].
  { cbn. split; [apply took_nil|]. split; [lia|constructor]. }
  case_if; [apply took_nil|]. set (w0 := if (0 <? tries)%nat then _ else w).
  assert (took cq w 0 w0) as T0 by (subst w0; case_if; [apply took_quiet, q_yield|apply took_nil]). clearbody w0.
  eapply go_spec_bind.
  { eapply go_spec_mono; [apply (dequeue_ok cq 1 w0); lia|intros a Ha; exact Ha|]. by apply (corrupt_run _ _ 0), T0. }
  intros [[c rs] w1] HR. apply (results_run cq w w0 1 (inr (c, rs)) w1 T0) in HR. destruct (Z.eqb_spec c 0) as [->|Hc]; [|done].
  destruct HR as (T1 & _). eapply go_spec_mono; [apply IH| |by apply (corrupt_run _ _ 0), T1].
  intros [r w2]. by apply results_run.
Qed.

(** Waiting returns an error or at least one completion. *)
Lemma wait_ok cq iocp n w : (n <= 256)%nat ->
  go_spec (fun '(r, w') => results_ok cq w n r w' /\ forall c rs, r = inr (c, rs) -> 0 < c)
    (corrupt cq w) (wait_completion cq iocp n w).
Proof.
  intros Hn. unfold wait_completion, Notify.
  pose proof (took_quiet cq w _ (q_rio w rioNotify [cq] (or_intror eq_refl))) as T1.
  destruct (sys_rio rioNotify [cq] w) as [[ret err] w1]. cbn [snd] in T1.
  destruct (ret =? 0); [|by split].
  pose proof (took_trans _ _ _ _ _ _ T1 (took_quiet cq w1 _ (q_wait w1 iocp))) as T2. cbn in T2.
  destruct (sys_GetQueuedCompletionStatus iocp w1) as [[e|] w2]; cbn [snd] in T2; [by split|].
  case_if; [by split|]. eapply go_spec_bind.
  { eapply go_spec_mono; [by apply (dequeue_ok cq n w2)|intros a Ha; exact Ha|]. by apply (corrupt_run _ _ 0), T2. }
  intros [[c rs] w3] HR. apply (results_run cq w w2 n (inr (c, rs)) w3 T2) in HR.
  destruct (Z.eqb_spec c 0) as [->|Hc]; [split; [apply HR|done]|]. split; [done|]. intros ?? [= <- <-].
  destruct HR as (_ & ? & _). lia.
Qed.

(** The next completion: an error, or exactly one. *)
Lemma next_completion_ok rx w :
  go_spec (fun '(r, w') => results_ok (rg_cq rx) w 1 r w' /\ forall c rs, r = inr (c, rs) -> c = 1)
    (corrupt (rg_cq rx) w) (next_completion rx w).
Proof.
  unfold next_completion. eapply go_spec_bind; [apply spin_ok|]. intros [[e|[c rs]] w1] HR; [by split|].
  destruct (Z.eqb_spec c 0) as [->|Hc].
  - destruct HR as (T1 & _). eapply go_spec_mono; [apply (wait_ok (rg_cq rx) (rg_iocp rx) 1 w1); lia| |by apply (corrupt_run _ _ 0), T1].
    intros [r w2] [HR Hpos]. apply (results_run _ w) in HR; [|done]. split; [done|]. intros c rs' ->.
    specialize (Hpos _ _ eq_refl). destruct HR as (_ & ? & _). lia.
  - split; [done|]. intros ?? [= <- <-]. destruct HR as (_ & ? & _). lia.
Qed.

(** The ring of a receiver: all slots are taken, and Windows has [n] receive
    requests to complete. *)
Definition rx_inv (b : afWinRingBind) (n : nat) (w : W) : Prop :=
  (exists l, ring_holds (af_rx b) l /\ length l = 256%nat) /\
  rq_cq rioReceiveEx (af_rq b) w = Some (rg_cq (af_rx b)) /\ outstanding (rg_cq (af_rx b)) w = Some n.

(** The bind with other counters of the receive ring. *)
Definition rx_moved (b b' : afWinRingBind) : Prop := exists h t f, b' = with_rx b (with_ht (af_rx b) h t f).

Lemma rx_moved_refl b : rx_moved b b.
Proof. exists (rg_head (af_rx b)), (rg_tail (af_rx b)), (rg_isFull (af_rx b)). by destruct b as [? [] ? ? ?]. Qed.
Lemma rx_moved_res b b' : rx_moved b b' -> af_res b' = af_res b.
Proof. by intros (h & t & f & ->). Qed.

(** The state after a call that began with [n] requests: as many again, or one
    less, when Windows refused to arm the slot again (and the error says so). *)
Definition rearmed (b : afWinRingBind) (n : nat) (x : option (error + nat * WinRingEndpoint))
    (b' : afWinRingBind) (w' : W) : Prop :=
  rx_inv b' n w' \/
  exists e slot w1, x = Some (inl e) /\ sys_rio rioReceiveEx (receive_request b slot) w1 = ((0, e), w') /\
    (0 < n)%nat /\ rx_inv b' (n - 1) w'.

(** Giving the oldest slot back and arming it again. *)
Lemma rearm_ok b n w w1 : rx_inv b n w -> took (rg_cq (af_rx b)) w 1 w1 ->
  exists slot ret e b' w2,
    sys_rio rioReceiveEx (receive_request b slot) w1 = ((ret, e), w2) /\
    InsertReceiveRequest (with_rx b (Return (af_rx b) 1)) w1 = Ret (if ret =? 0 then Some e else None, b', w2) /\
    rx_moved b b' /\ sys_run (rg_cq (af_rx b)) w 1 w2 /\ (0 < n)%nat /\ rx_inv b' (if ret =? 0 then (n - 1)%nat else n) w2.
Proof.
  intros ((l & HR & Hl) & Hq & Ho) [Tr To Tq]. destruct (To _ Ho) as [Hn Ho1].
  destruct (return_ok _ l 1 HR ltac:(lia)) as [HR' _]. change (Z.of_nat 1) with 1 in HR'.
  assert (exists h t f, Return (af_rx b) 1 = with_ht (af_rx b) h t f) as (h & t & f & Er).
  { unfold Return. case_if; [|by do 3 eexists]. exists (rg_head (af_rx b)), (rg_tail (af_rx b)), (rg_isFull (af_rx b)). by destruct (af_rx b). }
  rewrite Er in *.
  destruct (insert_request (with_rx b (with_ht (af_rx b) h t f)) (drop 1 l) w1 HR') as (slot & t' & f' & ret & e & w2 & EP & EI & _ & HR2 & _);
    [rewrite length_drop; lia|].
  change (receive_request (with_rx b (with_ht (af_rx b) h t f)) slot) with (receive_request b slot) in EP.
  destruct (law_request _ _ _ _ _ _ _ (or_introl eq_refl) EP) as (Lo & _ & Lq & _).
  exists slot, ret, e, (with_rx b (with_ht (af_rx b) h t' f')), w2. split; [done|]. split; [exact EI|].
  split; [by do 3 eexists|]. split; [|split; [lia|]].
  { change 1%nat with (1 + 0)%nat. eapply run_trans; [exact Tr|].
    replace w2 with (sys_rio rioReceiveEx (receive_request b slot) w1).2 by by rewrite EP.
    apply run_request; [by left|constructor]. }
  split_and!.
  - eexists. split; [exact HR2|]. rewrite length_app, length_drop, Hl. done.
  - rewrite Lq, Tq. exact Hq.
  - cbn [af_rx with_rx rg_cq with_ht]. rewrite Lo, Tq, Hq, Ho1, bool_decide_eq_true_2 by done.
    destruct (ret =? 0); cbn [negb andb fmap option_fmap option_map]; [done|]. f_equal. lia.
Qed.

Lemma receive_once_ok b m buf w n : rx_inv b n w ->
  go_spec (fun '(x, b', m', w') => rx_moved b b' /\ rearmed b n x b' w' /\
      (x = None -> rx_inv b' n w' /\ sys_run (rg_cq (af_rx b)) w 1 w') /\
      forall k ep, x = Some (inr (k, ep)) -> (k <= s_len buf)%nat)
    (corrupt (rg_cq (af_rx b)) w \/ overlong (rg_cq (af_rx b)) w) (receive_once b m buf w).
Proof.
  intros HI. unfold receive_once. eapply go_spec_bind.
  { eapply go_spec_mono; [apply (next_completion_ok (af_rx b) w)|intros a Ha; exact Ha|by left]. }
  intros [r w1] [HR H1]. destruct r as [e|[c rs]].
  { split; [apply rx_moved_refl|]. split; [left|by split]. destruct HI as (? & Hq & Ho). destruct HR as [_ To Tq].
    split_and!; try done; [by rewrite Tq|]. destruct (To _ Ho) as [_ ->]. by rewrite Nat.sub_0_r. }
  specialize (H1 _ _ eq_refl) as ->. destruct HR as (T & _ & Hf).
  destruct (rearm_ok b n w w1 HI T) as (slot & ret & e & b' & w2 & EP & EI & Hm & Hrun & Hn & HI').
  rewrite EI. cbn [mbind go_mbind]. destruct (Z.eqb_spec ret 0) as [->|Hret].
  { split; [done|]. split; [right; by exists e, slot, w1|by split]. }
  assert (forall x, rearmed b n x b' w2) as HA by by left.
  set (res := default zero_result (rs !! 0%nat)).
  destruct (rs_Status res =? WSAEMSGSIZE). { case_if; by split_and!. }
  case_if; [by split_and!|]. destruct (sys_read_packet _ w2) as [addr data].
  destruct (Z.leb_spec (rs_BytesTransferred res) bytesPerPacket) as [Hb|Hb]; cbn [check mbind go_mbind go_spec].
  - split_and!; try done. intros k ep [= <- <-]. lia.
  - right. destruct rs as [|x rs]; [cbn in Hb; unfold bytesPerPacket in Hb; lia|]. inversion Hf; subst. auto.
Qed.

(** C11: [Receive] on a ring returns, and keeps the ring armed.  If fewer than
    [fuel] completions will come in on the queue, [fuel] passes are enough (each
    pass takes a completion; only packets that are reported as too large lead to
    another pass).  Of [n] receive requests that Windows had to complete it has
    [n] again, except when it refused to arm the slot again: then the call
    returns that error, and there is one less.  The bind changes only in the
    counters of the receive ring, and keeps its resources.  It panics only when
    Windows reports a corrupt queue or a transfer longer than a slot.  On a bind
    that is not open the result is [ErrClosed]. *)
Theorem Receive_total fuel b m buf w n :
  rx_inv b n w ->
  (forall k w', sys_run (rg_cq (af_rx b)) w k w' -> (k < fuel)%nat) ->
  go_spec (fun '(r, b', m', w') => rx_moved b b' /\ af_res b' = af_res b /\ rearmed b n (Some r) b' w' /\
      (forall k ep, r = inr (k, ep) -> (k <= s_len buf)%nat) /\
      (sys_isOpen w <> 1 -> r = inl ErrClosed /\ b' = b /\ w' = w))
    (corrupt (rg_cq (af_rx b)) w \/ overlong (rg_cq (af_rx b)) w) (Receive fuel b m buf w).
Proof.
  intros HI Hk. unfold Receive. destruct (Z.eqb_spec (sys_isOpen w) 1) as [Ho|Ho]; cbn [negb].
  2: { split_and!; try done; [apply rx_moved_refl|by left]. }
  apply (go_spec_mono (fun '(r, b', _, w') => rx_moved b b' /\ rearmed b n (Some r) b' w' /\
    forall k ep, r = inr (k, ep) -> (k <= s_len buf)%nat) _ (corrupt (rg_cq (af_rx b)) w \/ overlong (rg_cq (af_rx b)) w)); [| |done].
  2: { intros [[[r b'] m'] w'] (Hm & HR & Hn). split_and!; try done. by apply rx_moved_res. }
  clear Ho. revert b m w HI Hk. induction fuel as [|fuel IH]; intros b m w HI Hk.
  { specialize (Hk 0%nat w (run_nil _ _)). lia. }
  cbn [receive_loop]. eapply go_spec_bind; [by apply receive_once_ok|].
  intros [[[x b1] m1] w1] (Hm & HR & Hnone & Hlen). destruct x as [r|].
  { split_and!; try done. intros k ep ->. by eapply Hlen. }
  destruct (Hnone eq_refl) as [HI1 Hrun]. pose proof Hm as (h & t & f & ->).
  eapply go_spec_mono; [apply (IH _ m1 w1 HI1)| |].
  - intros k w' Hr. specialize (Hk _ _ (run_trans _ _ _ _ _ _ Hrun Hr)). lia.
  - intros [[[r b'] m'] w'] (Hm' & HR' & Hn'). by split_and!.
  - intros [Hc|Hc]; [left; by eapply corrupt_run|right; by eapply overlong_run].
Qed.

(** Returning the oldest slot of a full ring and taking the next one yields the
    same slot. *)
Lemma rearm_slot rb l : ring_holds rb l -> length l = 256%nat ->
  exists t f, Push (Return rb 1) = Ret (rg_packets rb + (rg_head rb mod packetsPerRing) * sizeofRingPacket,
                with_ht rb (u32 (rg_head rb + 1)) t f) /\
    ring_holds (with_ht rb (u32 (rg_head rb + 1)) t f) (drop 1 l ++ [rg_head rb mod packetsPerRing]).
Proof.
  intros HR Hl. destruct (return_ok rb l 1 HR ltac:(lia)) as [HR' _]. change (Z.of_nat 1) with 1 in HR'.
  assert (Return rb 1 = with_ht rb (u32 (rg_head rb + 1)) (rg_tail rb) false) as E.
  { unfold Return. rewrite (full_iff rb l HR), bool_decide_eq_false_2; [done|]. by intros ->. }
  rewrite E in *. destruct (push_next _ _ HR') as (t & f & HP & HQ); [rewrite length_drop; lia|].
  rewrite length_drop, Hl in HP, HQ. cbn [rg_head with_ht rg_packets] in HP, HQ. exists t, f.
  assert ((u32 (rg_head rb + 1) + Z.of_nat (256 - 1)) mod packetsPerRing = rg_head rb mod packetsPerRing) as Es.
  { rewrite <- Z.add_mod_idemp_l, u32_mod256, Z.add_mod_idemp_l by (unfold packetsPerRing; lia).
    replace (rg_head rb + 1 + Z.of_nat (256 - 1)) with (rg_head rb + 1 * packetsPerRing) by (unfold packetsPerRing; lia).
    apply Z_mod_plus_full. }
  rewrite Es in HP, HQ. done.
Qed.
End WinReceive.

Section WinDeliver.
Context `{WinSys W} {L : WinLaws W}.

Lemma rearm_request b l w ret e w2 :
  let slot := rg_head (af_rx b) mod packetsPerRing in
  ring_holds (af_rx b) l -> length l = 256%nat ->
  sys_rio rioReceiveEx (slot_request (af_rq b) (af_rx b) slot bytesPerPacket
    (rg_packets (af_rx b) + slot * sizeofRingPacket)) w = ((ret, e), w2) ->
  exists b', InsertReceiveRequest (with_rx b (Return (af_rx b) 1)) w = Ret (if ret =? 0 then Some e else None, b', w2) /\
    ring_holds (af_rx b') (drop 1 l ++ [slot]).
Proof.
  intros slot HR Hl Hp. unfold InsertReceiveRequest. destruct (rearm_slot _ _ HR Hl) as (t & f & HP & HQ).
  fold slot in HP, HQ. cbn [with_rx af_rx]. rewrite HP. cbn [mbind go_mbind]. set (rx := with_ht _ _ _ _) in *.
  change (rg_packets (af_rx b)) with (rg_packets rx) in *. change (rg_id (af_rx b)) with (rg_id rx) in *.
  rewrite packet_buffers_slot by (apply Z.mod_pos_bound; done). unfold ReceiveEx, post_ex.
  cbn [bf_Id bf_Offset bf_Length af_rq with_rx]. unfold slot_request in Hp. cbn [rg_id rx with_ht] in Hp |- *.
  match goal with |- context [sys_rio rioReceiveEx ?a w] => replace (sys_rio rioReceiveEx a w) with ((ret, e), w2) by (symmetry; exact Hp) end.
  destruct (ret =? 0); eexists; (split; [reflexivity|exact HQ]).
Qed.

Lemma next_completion_first rx rs w w1 : sys_dequeue (rg_cq rx) 1 w = (1, rs, w1) ->
  next_completion rx w = Ret (inr (1, rs), w1).
Proof.
  intros Hd. unfold next_completion. unfold receiveSpins. cbn [spin]. change (0 <? 0)%nat with false. cbn [andb].
  unfold DequeueCompletion. rewrite Hd. done.
Qed.

(** C24: [Receive] delivers: when a packet has arrived, the oldest slot is armed
    again for a full-size packet, and the caller gets the sender's address and
    as many bytes of the packet as fit into the buffer, copied from the slot
    named by the completion as it is after that request. *)
Theorem Receive_delivers fuel b m buf w l res w1 ret e w2 addr data :
  let slot := rg_head (af_rx b) mod packetsPerRing in
  ring_holds (af_rx b) l -> length l = 256%nat -> sys_isOpen w = 1 ->
  sys_dequeue (rg_cq (af_rx b)) 1 w = (1, [res], w1) ->
  rs_Status res = 0 -> 0 <= rs_BytesTransferred res <= bytesPerPacket ->
  sys_rio rioReceiveEx (slot_request (af_rq b) (af_rx b) slot bytesPerPacket
    (rg_packets (af_rx b) + slot * sizeofRingPacket)) w1 = ((ret, e), w2) -> ret <> 0 ->
  sys_read_packet (rs_RequestContext res) w2 = (addr, data) -> rs_BytesTransferred res <= Z.of_nat (length data) ->
  slice_ok m buf ->
  let n := Nat.min (s_len buf) (Z.to_nat (rs_BytesTransferred res)) in
  exists b' m', Receive (S fuel) b m buf w = Ret (inr (n, we_of_bytes addr), b', m', w2) /\
    ring_holds (af_rx b') (drop 1 l ++ [slot]) /\ take n (load m' buf) = take n data.
Proof.
  intros slot HR Hl Ho Hd Hst Hb Hp Hret Hrd Hlen Hok n. unfold Receive. rewrite Ho. cbn [negb Z.eqb Pos.eqb receive_loop].
  unfold receive_once. rewrite (next_completion_first _ _ _ _ Hd). cbn [mbind go_mbind].
  destruct (rearm_request _ _ _ _ _ _ HR Hl Hp) as (b' & HI & HQ).
  rewrite HI, (proj2 (Z.eqb_neq _ _) Hret). cbn [mbind go_mbind lookup list_lookup default from_option id].
  rewrite Hst. change (0 =? WSAEMSGSIZE) with false. cbn [Z.eqb negb].
  rewrite Hrd, (proj2 (Z.leb_le _ _) (proj2 Hb)). cbn [check mbind go_mbind].
  assert (Nat.min (s_len buf) (length (take (Z.to_nat (rs_BytesTransferred res)) data)) = n) as En.
  { subst n. rewrite length_take. lia. }
  rewrite En, take_take, Nat.min_l by (subst n; lia). do 2 eexists. split; [reflexivity|].
  split; [exact HQ|]. pose proof Hok as [Hc _].
  rewrite <- (load_store_prefix m buf (take n data) n) at 2; [|done|rewrite length_take; subst n; lia|subst n; lia].
  unfold load. cbn [s_len s_arr s_off]. rewrite take_take. f_equal. subst n; lia.
Qed.
End WinDeliver.

(** ** Sending *)

Section WinSend.
Context `{WinSys W} {L : WinLaws W} {Q : WinQueues W}.

(** The packet is in the slot, which was free, and the request names that slot. *)
Definition posted (b b' : afWinRingBind) (buf : list byte) (nend : WinRingEndpoint) (free : list Z) (slot : Z)
    (err : option error) (w' : W) : Prop :=
  exists w1 ret e,
    let addr := rg_packets (af_tx b) + slot * sizeofRingPacket in
    ring_holds (af_tx b') (free ++ [slot]) /\ (slot ∉ free) /\ 0 <= slot < packetsPerRing /\
    sys_rio rioSendEx (slot_request (af_rq b) (af_tx b) slot (Z.of_nat (length buf)) 0)
      (sys_write_packet addr (we_bytes nend) (buf ++ drop (length buf) (sys_read_packet addr w1).2) w1)
      = ((ret, e), w') /\
    err = (if ret =? 0 then Some e else None).

(** The ring of a sender: the slots [l] are taken, and Windows has [n] send
    requests to complete; slots of requests that it refused stay taken. *)
Definition tx_has (b : afWinRingBind) (l : list Z) (n : nat) (w : W) : Prop :=
  ring_holds (af_tx b) l /\ rq_cq rioSendEx (af_rq b) w = Some (rg_cq (af_tx b)) /\
  outstanding (rg_cq (af_tx b)) w = Some n /\ (n <= length l)%nat.

Lemma tx_took b l n w c w' : tx_has b l n w -> took (rg_cq (af_tx b)) w c w' ->
  (c <= n)%nat /\ rq_cq rioSendEx (af_rq b) w' = Some (rg_cq (af_tx b)) /\
  outstanding (rg_cq (af_tx b)) w' = Some (n - c)%nat.
Proof. intros (_ & Hq & Ho & _) [_ To Tq]. destruct (To _ Ho). by rewrite Tq. Qed.

Lemma tx_wait b l n w w' : tx_has b l n w -> took (rg_cq (af_tx b)) w 0 w' -> tx_has b l n w'.
Proof.
  intros HT T. destruct (tx_took _ _ _ _ _ _ HT T) as (_ & Hq & Ho). destruct HT as (HR & _ & _ & Hn).
  rewrite Nat.sub_0_r in Ho. done.
Qed.

(** The number of requests after one more, which [err] may have refused. *)
Definition one_more (n : nat) (err : option error) : nat := match err with None => S n | Some _ => n end.

(** Reclaiming [c] slots and posting one. *)
Lemma post_send_ok b buf nend w l n c w1 : tx_has b l n w -> took (rg_cq (af_tx b)) w c w1 ->
  (c = 0%nat -> length l <> 256%nat) -> Z.of_nat (length buf) <= bytesPerPacket ->
  go_spec (fun '(err, b', w') => exists slot, posted b b' buf nend (drop c l) slot err w' /\
      tx_has b' (drop c l ++ [slot]) (one_more (n - c) err) w')
    False (post_send (if 0 <? Z.of_nat c then with_tx b (Return (af_tx b) (Z.of_nat c)) else b) buf nend w1).
Proof.
  intros HT T Hz Hb. destruct (tx_took _ _ _ _ _ _ HT T) as (Hc & Hq & Ho). destruct HT as (HR & _ & _ & Hn).
  set (tx0 := if 0 <? Z.of_nat c then Return (af_tx b) (Z.of_nat c) else af_tx b).
  assert (ring_holds tx0 (drop c l) /\ rg_packets tx0 = rg_packets (af_tx b) /\ rg_id tx0 = rg_id (af_tx b) /\
    rg_cq tx0 = rg_cq (af_tx b)) as (HR0 & Ep & Ei & Ec).
  { unfold tx0. destruct (Z.ltb_spec 0 (Z.of_nat c)); [|by assert (c = 0%nat) as -> by lia].
    destruct (return_ok _ _ c HR ltac:(lia)). split; [done|]. unfold Return. by case_if. }
  assert ((if 0 <? Z.of_nat c then with_tx b (Return (af_tx b) (Z.of_nat c)) else b) = with_tx b tx0) as ->.
  { unfold tx0. case_if; [done|]. by destruct b. }
  unfold post_send. cbn [with_tx af_tx].
  assert (length (drop c l) <> 256%nat) as Hl.
  { rewrite length_drop. destruct HR as (_ & _ & ? & _). destruct c; [rewrite Nat.sub_0_r; auto|lia]. }
  destruct (push_ok _ _ HR0 Hl) as (slot & t & f & HP & Hs & Hnin & HR'). rewrite HP. cbn [mbind go_mbind].
  set (tx := with_ht tx0 _ t f) in *. unfold bytesPerPacket in Hb.
  change (rg_packets tx0) with (rg_packets tx). rewrite packet_buffers_slot, u32_small by (done || lia).
  unfold SendEx, post_ex. cbn [bf_Id bf_Offset bf_Length with_tx af_rq].
  set (addr := rg_packets tx + slot * sizeofRingPacket).
  set (w2 := sys_write_packet addr _ _ w1).
  match goal with |- context [sys_rio rioSendEx ?a w2] => destruct (sys_rio rioSendEx a w2) as [[ret e] w3] eqn:E end.
  pose proof E as E'. apply law_request in E' as (Lo & _ & Lq & _); [|by right].
  pose proof (law_quiet _ _ (q_write w1 addr (we_bytes nend) (buf ++ drop (length buf) (sys_read_packet addr w1).2))) as (Wo & _ & Wq & _).
  fold w2 in Wo, Wq.
  assert (posted b (with_tx b tx) buf nend (drop c l) slot (if ret =? 0 then Some e else None) w3) as HPo.
  { exists w1, ret, e. cbn zeta. rewrite <- Ep. split_and!; try done; [apply Hs..|].
    unfold slot_request. rewrite <- Ei. exact E. }
  assert (tx_has (with_tx b tx) (drop c l ++ [slot]) (one_more (n - c) (if ret =? 0 then Some e else None)) w3) as HTx.
  { split; [done|]. cbn [with_tx af_tx af_rq]. change (rg_cq tx) with (rg_cq tx0). rewrite Ec, Lq, Wq, Lo, Wq, Hq, Wo, Ho.
    rewrite bool_decide_eq_true_2 by done. split; [done|]. rewrite length_app, length_drop. cbn [length].
    destruct (ret =? 0); cbn; split; try done; lia. }
  destruct (ret =? 0); by exists slot.
Qed.

(** The whole call. *)
Lemma af_Send_runs b buf nend w l n : tx_has b l n w ->
  go_spec (fun '(err, b', w') =>
      (sys_isOpen w <> 1 -> err = Some ErrClosed /\ b' = b /\ w' = w) /\
      (sys_isOpen w = 1 -> bytesPerPacket < Z.of_nat (length buf) -> err = Some ErrShortBuffer /\ b' = b /\ w' = w) /\
      ((exists e, err = Some e /\ b' = b /\ tx_has b l n w' /\
          (sys_isOpen w <> 1 \/ bytesPerPacket < Z.of_nat (length buf) \/ length l = 256%nat)) \/
       exists c slot, (c <= n)%nat /\ posted b b' buf nend (drop c l) slot err w' /\
          tx_has b' (drop c l ++ [slot]) (one_more (n - c) err) w'))
    (corrupt (rg_cq (af_tx b)) w) (af_Send b buf nend w).
Proof.
  intros HT. unfold af_Send. destruct (Z.eqb_spec (sys_isOpen w) 1) as [Ho|Ho]; cbn [negb].
  2: { cbn. split_and!; try done. left. by exists ErrClosed; split_and!; [..|left]. }
  destruct (Z.ltb_spec bytesPerPacket (Z.of_nat (length buf))) as [Hb|Hb].
  { cbn. split_and!; try done. left. by exists ErrShortBuffer; split_and!; [..|right; left]. }
  set (P := fun '(err, b', w') => _ /\ _ /\ _). assert (forall c w1, took (rg_cq (af_tx b)) w c w1 -> (c = 0%nat -> length l <> 256%nat) ->
    go_spec P (corrupt (rg_cq (af_tx b)) w)
      (post_send (if 0 <? Z.of_nat c then with_tx b (Return (af_tx b) (Z.of_nat c)) else b) buf nend w1)) as Hgo.
  { intros c w1 T Hz. eapply go_spec_mono; [by apply (post_send_ok b buf nend w l n c w1)| |done].
    intros [[err b'] w'] (slot & HP & HT'). split_and!; [done|lia|]. right. exists c, slot. split_and!; try done.
    by destruct (tx_took _ _ _ _ _ _ HT T). }
  pose proof HT as (HR & _ & _ & Hn). pose proof HR as (_ & _ & Hl256 & _ & _ & Hfull).
  eapply go_spec_bind; [apply (dequeue_ok (rg_cq (af_tx b)) (Z.to_nat packetsPerRing) w); vm_compute; lia|].
  intros [[c0 rs0] w1] (T0 & Hc0 & _). destruct ((c0 =? 0) && rg_isFull (af_tx b)) eqn:Ew.
  - apply andb_true_iff in Ew as [Ez Ef]. apply Z.eqb_eq in Ez as ->. rewrite Hfull in Ef. apply Nat.eqb_eq in Ef.
    eapply go_spec_bind.
    { eapply go_spec_mono; [apply (wait_ok (rg_cq (af_tx b)) (rg_iocp (af_tx b)) (Z.to_nat packetsPerRing) w1); vm_compute; lia
        |intros a Ha; exact Ha|by apply (corrupt_run _ _ 0), T0]. }
    intros [[e|[c rs]] w2] [HR2 Hpos]; apply (results_run _ w) in HR2; try done.
    + cbn. split_and!; [done|lia|]. left. exists e. split_and!; [done..|by eapply tx_wait|by right; right].
    + destruct HR2 as (T2 & Hc2 & _). specialize (Hpos _ _ eq_refl). rewrite <- (Z2Nat.id c) by lia. apply Hgo; [done|lia].
  - cbn [mbind go_mbind]. rewrite <- (Z2Nat.id c0) by lia. apply Hgo; [done|]. intros E Hl.
    assert (c0 = 0) as -> by lia. rewrite Hfull, Hl in Ew. done.
Qed.


(** Sends one packet after the other, whatever the errors. *)
Fixpoint sends (ps : list (list byte * WinRingEndpoint)) (b : afWinRingBind) (w : W)
    : go (list (option error) * afWinRingBind * W) :=
  match ps with
  | [] => Ret ([], b, w)
  | (buf, nend) :: ps' =>
      '(err, b, w) ← af_Send b buf nend w;
      '(errs, b, w) ← sends ps' b w;
      Ret (err :: errs, b, w)
  end.

Lemma stuck_send b buf nend w l err b' w' : tx_has b l 0 w -> length l = 256%nat ->
  af_Send b buf nend w = Ret (err, b', w') -> is_Some err /\ b' = b /\ tx_has b l 0 w'.
Proof.
  intros HT Hl HE. pose proof (af_Send_runs b buf nend w l 0 HT) as HS. rewrite HE in HS.
  destruct HS as (_ & _ & [(e & -> & -> & HT' & _)|(c & slot & Hc & _ & HT')]); [done|].
  destruct HT' as ((_ & _ & Hlen & _) & _). assert (c = 0%nat) as -> by lia.
  rewrite drop_0, length_app, Hl in Hlen. cbn in Hlen. lia.
Qed.

End WinSend.

(** ** On the simulated machine *)

(** Every completion that is taken shortens the backlog of its queue. *)
Definition backlog (cq : Z) (w : winsim) : nat := length (filter (fun x => x.1 = cq) (wn_done w)).

Lemma filter_all {A} (P : A -> Prop) `{!forall x, Decision (P x)} l : Forall P l -> filter P l = l.
Proof. induction 1; [done|]. rewrite filter_cons_True by done. congruence. Qed.
Lemma filter_none {A} (P : A -> Prop) `{!forall x, Decision (P x)} l : Forall (fun x => ~ P x) l -> filter P l = [].
Proof. induction 1; [done|]. by rewrite filter_cons_False. Qed.

Lemma run_backlog cq (w : winsim) k w' : sys_run cq w k w' -> (k + backlog cq w' <= backlog cq w)%nat.
Proof.
  induction 1 as [|k w1 w2 _ IH Hq|k w1 fn args Hf _ IH|k w1 n ret rs w2 _ IH Hd Hc]; [lia| | |].
  - assert (wn_done w2 = wn_done w1) as E.
    { destruct Hq as [| | |h ? ?| | | | | |? ? [-> | ->]]; cbn; try done; unfold or_ret, or_err, acquire; cbn;
        try (by destruct (wn_quota w1)). by destruct (wn_socks w1 !! h). }
    unfold backlog in *. by rewrite E.
  - assert (wn_done (sys_rio fn args w1).2 = wn_done w1) as E.
    { destruct Hf as [-> | ->]; [done|]. cbn [sys_rio winsim_sys winsim_rio]. unfold winsim_request. by destruct (0 <? wn_quota w1)%nat. }
    unfold backlog in *. by rewrite E.
  - cbn in Hd. unfold winsim_dequeue in Hd. injection Hd as <- <- <-. unfold backlog in *. cbn [with_queues wn_done].
    rewrite list.filter_app, (filter_none _ (filter _ _)), (filter_all _ (drop _ _)).
    + cbn [app]. rewrite length_drop, length_take, length_map. lia.
    + apply Forall_drop, list.Forall_forall. by intros x [? _]%list_elem_of_filter.
    + apply list.Forall_forall. by intros x [? _]%list_elem_of_filter.
Qed.

(** A full receive ring at 4096 with queue 12, and a send ring at 8192 with queue
    18; the request queue is the first one. *)
Definition ex_af : afWinRingBind := mkAf 6 (mkRing 4096 0 256 8 10 true 12) (mkRing 8192 0 2 14 16 false 18) 1 false.
Definition ex_l : list Z := map Z.of_nat (seq 0 256).
Lemma ex_af_full : ring_holds (af_rx ex_af) ex_l.
Proof. unfold ring_holds, is_u32. cbn [af_rx ex_af rg_head rg_tail]. split_and!; try lia; by vm_compute. Qed.

(** A world with completions, packets, and so many requests outstanding. *)
Definition ex_win (quota : nat) (done : list (Z * Result)) (packets : gmap Z (list byte * list byte)) (rx tx : nat) : winsim :=
  mkWinsim [RCq 12; RCq 18] quota 1 done packets ∅ [] (<[12 := rx]> (<[18 := tx]> ∅)) [] [(12, 18)].

(** A packet that is too large, then one of three bytes. *)
Definition ex_rx_world : winsim :=
  ex_win 0 [(12, mkResult WSAEMSGSIZE 65507 0 4096); (12, mkResult 0 3 0 69636)]
    (<[69636 := (sockaddr4 [x0a; x00; x00; x02] 51820 ++ replicate 16 x00, [x01; x02; x03; x00])]> ∅) 256 2.
Definition ex_buf : slice := Slice 0 0 2 2.
Definition ex_buf_mem : mem := {[0%nat := [x00; x00]]}.

Lemma Receive_total_witness :
  exists b' m' w', Receive 3 ex_af ex_buf_mem ex_buf ex_rx_world =
      Ret (inr (2%nat, we_of_bytes (sockaddr4 [x0a; x00; x00; x02] 51820 ++ replicate 16 x00)), b', m', w') /\
    rx_inv b' 256 w'.
Proof.
  assert (match Receive 3 ex_af ex_buf_mem ex_buf ex_rx_world with Ret (x, _, _, _) =>
    x = inr (2%nat, we_of_bytes (sockaddr4 [x0a; x00; x00; x02] 51820 ++ replicate 16 x00)) | _ => False end) as Hr
    by (vm_compute; reflexivity).
  assert (go_spec (fun '(r, b', _, w') => rearmed ex_af 256 (Some r) b' w')
    (corrupt 12 ex_rx_world \/ overlong 12 ex_rx_world) (Receive 3 ex_af ex_buf_mem ex_buf ex_rx_world)) as HS.
  { eapply go_spec_mono; [apply (Receive_total 3 ex_af ex_buf_mem ex_buf ex_rx_world 256)| |].
    - split; [exists ex_l; split; [apply ex_af_full|reflexivity]|]. split; vm_compute; reflexivity.
    - intros k w' Hk. apply run_backlog in Hk. change (backlog (rg_cq (af_rx ex_af)) ex_rx_world) with 2%nat in Hk. lia.
    - intros [[[r b'] m'] w'] (_ & _ & HR & _). exact HR.
    - intros HB. exact HB. }
  destruct (Receive 3 ex_af ex_buf_mem ex_buf ex_rx_world) as [[[[r b'] m'] w']| |]; [|destruct Hr..]. subst r.
  exists b', m', w'. split; [reflexivity|]. destruct HS as [HS|(e & ? & ? & He & _)]; [exact HS|discriminate He].
Defined.

(** The second packet, in the next slot, goes out to a buffer of two bytes. *)
Definition ex_rx_world1 : winsim :=
  ex_win 0 [(12, mkResult 0 3 0 4096)]
    (<[4096 := (sockaddr4 [x0a; x00; x00; x02] 51820 ++ replicate 16 x00, [x01; x02; x03; x00])]> ∅) 256 2.
Lemma Receive_delivers_witness :
  exists b' m' w', Receive 1 ex_af ex_buf_mem ex_buf ex_rx_world1 =
      Ret (inr (2%nat, we_of_bytes (sockaddr4 [x0a; x00; x00; x02] 51820 ++ replicate 16 x00)), b', m', w') /\
    take 2 (load m' ex_buf) = [x01; x02].
Proof.
  destruct (Receive_delivers (H := winsim_sys) 0 ex_af ex_buf_mem ex_buf ex_rx_world1 ex_l _ _ _ _ _ _ _ ex_af_full eq_refl eq_refl eq_refl
    eq_refl ltac:(unfold bytesPerPacket; cbn; lia) eq_refl ltac:(discriminate) eq_refl
    ltac:(cbn; lia) ltac:(vm_compute; lia)) as (b' & m' & E & _ & Ht).
  exists b', m'. eexists. split; [exact E|]. exact Ht.
Defined.

Definition ex_nend : WinRingEndpoint := mkWinEndpoint AF_INET (drop 2 (sockaddr4 [x0a; x00; x00; x02] 51820) ++ replicate 16 x00).

(** Two of the send slots are in flight, and one of them has finished. *)
Definition ex_tx_world : winsim := ex_win 1 [(18, mkResult 0 1 0 0)] ∅ 256 2.


(** All send slots are taken by sends that were refused. *)
Definition ex_af_stuck : afWinRingBind := mkAf 6 (mkRing 4096 0 256 8 10 true 12) (mkRing 8192 0 256 14 16 true 18) 1 false.

(** From an empty ring, 256 refused sends take all slots. *)
Definition ex_af_idle : afWinRingBind := mkAf 6 (mkRing 4096 0 256 8 10 true 12) (mkRing 8192 0 0 14 16 false 18) 1 false.
Example ex_refused :
  match sends (replicate 256 ([x01], ex_nend)) ex_af_idle (ex_win 0 [] ∅ 256 0) with
  | Ret (errs, b, w) => errs = replicate 256 (Some no_quota) /\ rg_isFull (af_tx b) = true /\ outstanding 18 w = Some 0%nat
  | _ => False
  end.
Proof. vm_compute. done. Qed.
