(* ===== verification/ChannelBind.v ===== *)
(** * ChannelBind (bindtest/bindtest.go)

    The in-memory pair of binds: four buffered channels that cross-connect two
    binds, and a close signal per bind.  Channels live in a store ([chans]) that
    both binds share; an operation that would block has no result. *)

From S2P Require Import Prelude Errors GoMem Netip Env Conn.

(** Buffered channels by name, and which close signals are closed. *)
Record chans := mkChans { cw_queues : gmap nat (list (list byte)); cw_signals : gmap nat bool }.

Definition queue (w : chans) (ch : nat) : list (list byte) := default [] (cw_queues w !! ch).
Definition set_queue (w : chans) (ch : nat) (q : list (list byte)) : chans :=
  mkChans (<[ch := q]> (cw_queues w)) (cw_signals w).
Definition chan_cap : Z := 8192.

(** [ChannelEndpoint], a uint16. *)
Definition ChannelEndpoint : Type := Z.

Record ChannelBind := mkChannelBind {
  cb_rx4 : nat; cb_tx4 : nat; cb_rx6 : nat; cb_tx6 : nat;
  cb_closeSignal : option nat;
  cb_source4 : ChannelEndpoint; cb_source6 : ChannelEndpoint;
  cb_target4 : ChannelEndpoint; cb_target6 : ChannelEndpoint;
}.

(** The channels: 0 is [arx4], 1 [brx4], 2 [arx6], 3 [brx6]. *)
Definition NewChannelBinds : ChannelBind * ChannelBind * chans :=
  (mkChannelBind 0 1 2 3 None 2%Z 4%Z 1%Z 3%Z, mkChannelBind 1 0 3 2 None 1%Z 3%Z 2%Z 4%Z,
   mkChans (list_to_map (map (fun ch => (ch, [])) (seq 0 4))) ∅).

(** Endpoint methods. *)
Definition ce_ClearSrc (c : ChannelEndpoint) : ChannelEndpoint := c.
Definition ce_SrcToString (c : ChannelEndpoint) : string := "".
Definition ce_DstToString (c : ChannelEndpoint) : string := ("127.0.0.1:" +:+ pretty c)%string.
Definition ce_DstToBytes (c : ChannelEndpoint) : list byte := [byte_of c].
Definition ce_DstIP (c : ChannelEndpoint) : Addr := Addr4 [x7f; x00; x00; x01].
Definition ce_SrcIP (c : ChannelEndpoint) : Addr := AddrZero.

Definition with_signal (c : ChannelBind) (s : option nat) : ChannelBind :=
  mkChannelBind (cb_rx4 c) (cb_tx4 c) (cb_rx6 c) (cb_tx6 c) s
    (cb_source4 c) (cb_source6 c) (cb_target4 c) (cb_target6 c).

(** Is a receive from the close signal ready?  A nil channel never is. *)
Definition signalled (c : ChannelBind) (w : chans) : bool :=
  match cb_closeSignal c with Some s => default false (cw_signals w !! s) | None => false end.

(** [Open]: a new close signal, the channels the two functions read, and one of
    the two sources, by the random number [r]. *)
Definition cb_Open (c : ChannelBind) (r : Z) (w : chans) : list nat * Z * ChannelBind * chans :=
  let s := fresh (dom (cw_signals w)) in
  let c' := with_signal c (Some s) in
  let w' := mkChans (cw_queues w) (<[s := false]> (cw_signals w)) in
  ([cb_rx4 c; cb_rx6 c], if (Z.land r 1 =? 0)%Z then cb_source4 c else cb_source6 c, c', w').

(** [Close] *)
Definition cb_Close (c : ChannelBind) (w : chans) : chans :=
  match cb_closeSignal c with
  | Some s => if default false (cw_signals w !! s) then w
              else mkChans (cw_queues w) (<[s := true]> (cw_signals w))
  | None => w
  end.

Definition cb_BatchSize (c : ChannelBind) : nat := 1.
Definition cb_SetMark (c : ChannelBind) (mark : Z) : option error := None.

(** The arrays passed to a receive function. *)
Record ch_outputs := mkChOut { co_sizes : list nat; co_eps : list (option ChannelEndpoint) }.

Definition go_set {A} (l : list A) (i : nat) (x : A) : go (list A) :=
  _ ← check (i <? length l)%nat; Ret (<[i := x]> l).

(** The case of a packet. *)
Definition cb_deliver (c : ChannelBind) (ch : nat) (rx : list byte) (rest : list (list byte))
    (m : mem) (bufs : list slice) (o : ch_outputs) (w : chans) : go (nat * option error * ch_outputs * mem * chans) :=
  buf ← must (bufs !! 0);
  let copied := Nat.min (s_len buf) (length rx) in
  sizes ← go_set (co_sizes o) 0 copied;
  eps ← go_set (co_eps o) 0 (Some (cb_target6 c));
  Ret (1, None, mkChOut sizes eps, store m buf 0 (take copied rx), set_queue w ch rest).

(** The function that [makeReceiveFunc] makes for the channel [ch].  [select]
    with both cases ready takes either ([pick]); [None] blocks. *)
Definition cb_receive (c : ChannelBind) (ch : nat) (pick : bool) (m : mem) (bufs : list slice) (o : ch_outputs)
    (w : chans) : option (go (nat * option error * ch_outputs * mem * chans)) :=
  let closed := Ret (0, Some ErrClosed, o, m, w) in
  match signalled c w, queue w ch with
  | true, [] => Some closed
  | true, rx :: rest => Some (if pick then closed else cb_deliver c ch rx rest m bufs o w)
  | false, rx :: rest => Some (cb_deliver c ch rx rest m bufs o w)
  | false, [] => None
  end.

(** [*c.tx <- bc], which blocks when the buffer is full. *)
Definition push_chan (ch : nat) (b : list byte) (w : chans) : option chans :=
  if (Z.of_nat (length (queue w ch)) <? chan_cap)%Z then Some (set_queue w ch (queue w ch ++ [b])) else None.

(** One pass of the loop of [Send]: the [select] on the close signal and the
    [switch] on the endpoint yield an error or the channel to send to; an
    endpoint of another type makes the assertion panic ([None]). *)
Definition cb_select (c : ChannelBind) (ep : option ChannelEndpoint) (w : chans) : go (error + nat) :=
  if signalled c w then Ret (inl ErrClosed) else
  match ep with
  | None => Panic
  | Some ep =>
      if (ep =? cb_target4 c)%Z then Ret (inr (cb_tx4 c))
      else if (ep =? cb_target6 c)%Z then Ret (inr (cb_tx6 c))
      else Ret (inl ErrInvalid)
  end.
Definition cb_send_one (c : ChannelBind) (b : list byte) (ep : option ChannelEndpoint) (w : chans)
    : option (go (option error * chans)) :=
  match cb_select c ep w with
  | Ret (inl err) => Some (Ret (Some err, w))
  | Ret (inr ch) => w' ← push_chan ch b w; Some (Ret (None, w'))
  | Panic => Some Panic
  | NoFuel => Some NoFuel
  end.

Fixpoint cb_Send (c : ChannelBind) (bufs : list (list byte)) (ep : option ChannelEndpoint) (w : chans)
    : option (go (option error * chans)) :=
  match bufs with
  | [] => Some (Ret (None, w))
  | b :: rest =>
      r ← cb_send_one c b ep w;
      match r with
      | Ret (None, w') => cb_Send c rest ep w'
      | _ => Some r
      end
  end.

(** [ParseEndpoint], given netip.ParseAddrPort. *)
Definition cb_ParseEndpoint (ParseAddrPort : string -> error + AddrPort) (s : string) : error + ChannelEndpoint :=
  match ParseAddrPort s with inl e => inl e | inr a => inr (ap_port a) end.

Example cb_ping :
  let '(a, b, w) := NewChannelBinds in
  let '(_, pa, a, w) := cb_Open a 0 w in
  let '(_, pb, b, w) := cb_Open b 1 w in
  pa = 2%Z /\ pb = 3%Z /\
  exists w', cb_Send a [[x01]; [x02]] (Some pb) w = Some (Ret (None, w')) /\ queue w' 3 = [[x01]; [x02]].
Proof. cbn. split_and!; try reflexivity. eexists. split; reflexivity. Qed.

(** ** The pair as a concurrent system

    Any number of goroutines call the two binds.  A step is one atomic action on
    the channels: [Open], [Close], the check of [Send]'s loop, the send to the
    channel after it (which waits while the channel is full, also beyond a
    [Close]), or one call of a receive function. *)
Record csys := mkCsys { cs_a : ChannelBind; cs_b : ChannelBind; cs_w : chans }.
Definition cs_side (s : csys) (x : bool) : ChannelBind := if x then cs_b s else cs_a s.
Definition cs_set (s : csys) (x : bool) (c : ChannelBind) (w : chans) : csys :=
  if x then mkCsys (cs_a s) c w else mkCsys c (cs_b s) w.
Definition cs_store (s : csys) (w : chans) : csys := mkCsys (cs_a s) (cs_b s) w.

(** A goroutine of side [pd_from] that has passed the check for a packet to an
    endpoint, with its copy of the packet. *)
Record pend := mkPend { pd_from : bool; pd_ep : ChannelEndpoint; pd_ch : nat; pd_packet : list byte }.

(** What can be seen: a packet that is in the channel now, with its endpoint; a
    packet that a caller of a receive function got: the length of its buffer
    and the bytes it finds there, as many as it is told. *)
Inductive event :=
| EvOpen (x : bool) (port : Z)
| EvClose (x : bool)
| EvCheck (x : bool)
| EvSent (x : bool) (ep : ChannelEndpoint) (ch : nat) (b : list byte)
| EvSendErr (x : bool) (err : error)
| EvGot (x : bool) (ch : nat) (len : nat) (b : list byte)
| EvRecvErr (x : bool) (err : error).

Inductive cstep : csys * list pend -> event -> csys * list pend -> Prop :=
| cs_open s ps x r fns port c w :
    cb_Open (cs_side s x) r (cs_w s) = (fns, port, c, w) -> cstep (s, ps) (EvOpen x port) (cs_set s x c w, ps)
| cs_close s ps x : cstep (s, ps) (EvClose x) (cs_store s (cb_Close (cs_side s x) (cs_w s)), ps)
| cs_check s ps x ep ch b :
    cb_select (cs_side s x) (Some ep) (cs_w s) = Ret (inr ch) ->
    cstep (s, ps) (EvCheck x) (s, mkPend x ep ch b :: ps)
| cs_send s ps1 ps2 x ep ch b w :
    push_chan ch b (cs_w s) = Some w ->
    cstep (s, ps1 ++ mkPend x ep ch b :: ps2) (EvSent x ep ch b) (cs_store s w, ps1 ++ ps2)
| cs_send_err s ps x ep err :
    cb_select (cs_side s x) (Some ep) (cs_w s) = Ret (inl err) -> cstep (s, ps) (EvSendErr x err) (s, ps)
| cs_got s ps x ch pick m buf bufs o n size sizes eps m' w :
    ch = cb_rx4 (cs_side s x) \/ ch = cb_rx6 (cs_side s x) -> slice_ok m buf ->
    cb_receive (cs_side s x) ch pick m (buf :: bufs) o (cs_w s) = Some (Ret (n, None, mkChOut (size :: sizes) eps, m', w)) ->
    cstep (s, ps) (EvGot x ch (s_len buf) (take size (load m' buf))) (cs_store s w, ps)
| cs_recv_err s ps x ch pick m bufs o n err o' m' w :
    cb_receive (cs_side s x) ch pick m bufs o (cs_w s) = Some (Ret (n, Some err, o', m', w)) ->
    cstep (s, ps) (EvRecvErr x err) (cs_store s w, ps).

Inductive csteps : csys * list pend -> list event -> csys * list pend -> Prop :=
| csteps_nil s : csteps s [] s
| csteps_snoc s1 t s2 e s3 : csteps s1 t s2 -> cstep s2 e s3 -> csteps s1 (t ++ [e]) s3.

Definition csys0 : csys := let '(a, b, w) := NewChannelBinds in mkCsys a b w.

(** The packets that a side sent to an endpoint, and what the callers on a side
    got from a channel, in order. *)
Definition sent_to (x : bool) (ep : ChannelEndpoint) (t : list event) : list (list byte) :=
  omap (fun e => match e with EvSent y ep' _ b => if eqb x y && (ep =? ep')%Z then Some b else None | _ => None end) t.
Definition got_on (x : bool) (ch : nat) (t : list event) : list (nat * list byte) :=
  omap (fun e => match e with EvGot y c len b => if eqb x y && (c =? ch)%nat then Some (len, b) else None | _ => None end) t.
(** The same by channel alone. *)
Definition put_in (ch : nat) (t : list event) : list (list byte) :=
  omap (fun e => match e with EvSent _ _ c b => if (c =? ch)%nat then Some b else None | _ => None end) t.
Definition got_from (ch : nat) (t : list event) : list (nat * list byte) :=
  omap (fun e => match e with EvGot _ c len b => if (c =? ch)%nat then Some (len, b) else None | _ => None end) t.

(** A packet as a buffer of this length takes it. *)
Definition cut (p : list byte) (g : nat * list byte) : Prop := g.2 = take g.1 p.

Lemma queue_set_queue w ch ch' q : queue (set_queue w ch q) ch' = if (ch =? ch')%nat then q else queue w ch'.
Proof.
  unfold queue, set_queue. cbn. destruct (Nat.eqb_spec ch ch') as [->|Hn].
  - by rewrite lookup_insert_eq.
  - by rewrite lookup_insert_ne.
Qed.

Lemma push_chan_Some ch b w w' : push_chan ch b w = Some w' ->
  w' = set_queue w ch (queue w ch ++ [b]) /\ (Z.of_nat (length (queue w ch)) < chan_cap)%Z.
Proof. unfold push_chan. case_if; intros [= <-]; done. Qed.

Lemma cb_deliver_queue c ch rx rest m bufs o w r : cb_deliver c ch rx rest m bufs o w = Ret r ->
  r.2 = set_queue w ch rest /\ exists o' m', r.1 = (1, None, o', m').
Proof. unfold cb_deliver. intros. go_inv. cbn. eauto. Qed.

Lemma cb_deliver_bytes c ch rx rest m buf bufs o w n size sizes eps m' w' : slice_ok m buf ->
  cb_deliver c ch rx rest m (buf :: bufs) o w = Ret (n, None, mkChOut (size :: sizes) eps, m', w') ->
  w' = set_queue w ch rest /\ take size (load m' buf) = take (s_len buf) rx.
Proof.
  intros Hok HE. unfold cb_deliver in HE. cbn [lookup list_lookup must mbind go_mbind] in HE.
  set (k := Nat.min (s_len buf) (length rx)) in HE. unfold go_set in HE.
  destruct (0 <? length (co_sizes o))%nat; [|done]. destruct (0 <? length (co_eps o))%nat; [|done].
  cbn [check mbind go_mbind] in HE. injection HE as <- Hs <- <- <-. split; [done|].
  assert (size = k) as -> by (destruct (co_sizes o); [done|by injection Hs]).
  assert (length (take k rx) = k) as Hk by (rewrite length_take; subst k; lia).
  pose proof Hok as [Hc _]. pose proof (load_store_prefix m buf (take k rx) k Hok (eq_sym Hk) ltac:(subst k; lia)) as E.
  transitivity (take k rx); [|subst k; destruct (decide (s_len buf <= length rx)%nat);
    [by rewrite Nat.min_l by lia|rewrite Nat.min_r, !take_ge by lia; done]].
  rewrite <- E at 2. unfold load. cbn [s_len s_arr s_off]. rewrite take_take. f_equal. subst k. lia.
Qed.

Lemma cb_receive_got c ch pick m buf bufs o w n size sizes eps m' w' : slice_ok m buf ->
  cb_receive c ch pick m (buf :: bufs) o w = Some (Ret (n, None, mkChOut (size :: sizes) eps, m', w')) ->
  exists rx rest, queue w ch = rx :: rest /\ w' = set_queue w ch rest /\ take size (load m' buf) = take (s_len buf) rx.
Proof.
  intros Hok. unfold cb_receive. destruct (queue w ch) as [|rx rest]; [by destruct (signalled c w)|].
  intros HE. exists rx, rest. split; [done|]. destruct (signalled c w); [destruct pick; [done|]|];
    injection HE as HE; by eapply cb_deliver_bytes.
Qed.

Lemma cb_receive_err c ch pick m bufs o w n err o' m' w' :
  cb_receive c ch pick m bufs o w = Some (Ret (n, Some err, o', m', w')) -> w' = w /\ err = ErrClosed /\ n = 0 /\ o' = o.
Proof.
  unfold cb_receive. destruct (signalled c w), (queue w ch) as [|rx rest]; try discriminate; [by intros [= <- <- <- <- <-]| |].
  - destruct pick; [by intros [= <- <- <- <- <-]|]. intros [= E]. by apply cb_deliver_queue in E as (_ & ? & ? & [=]).
  - intros [= E]. by apply cb_deliver_queue in E as (_ & ? & ? & [=]).
Qed.

(** The store after one pass of [Send]. *)
Lemma cb_send_one_ok c b ep w w' : cb_send_one c b (Some ep) w = Some (Ret (None, w')) ->
  signalled c w = false /\
  let ch := if (ep =? cb_target4 c)%Z then cb_tx4 c else cb_tx6 c in
  w' = set_queue w ch (queue w ch ++ [b]) /\ (Z.of_nat (length (queue w ch)) < chan_cap)%Z.
Proof.
  unfold cb_send_one, cb_select. destruct (signalled c w); [discriminate|].
  destruct (ep =? cb_target4 c)%Z; [|destruct (ep =? cb_target6 c)%Z; [|discriminate]];
  intros (w1 & Hp & [= ->])%bind_Some; by apply push_chan_Some in Hp.
Qed.

(** *** The wiring of the pair *)

(** Side, endpoint and channel of a send; side and channel of a receive. *)
Definition wires : list (bool * Z * nat) := [(false, 1%Z, 1); (false, 3%Z, 3); (true, 2%Z, 0); (true, 4%Z, 2)].
Definition readers : list (bool * nat) := [(true, 1); (true, 3); (false, 0); (false, 2)].

Definition event_wired (e : event) : Prop :=
  match e with
  | EvSent x ep ch _ => (x, ep, ch) ∈ wires
  | EvGot x ch _ _ => (x, ch) ∈ readers
  | _ => True
  end.
(** Only the close signals of the binds ever change. *)
Definition pair_wired (s : csys) : Prop :=
  (exists k, cs_a s = with_signal (cs_a csys0) k) /\ (exists k, cs_b s = with_signal (cs_b csys0) k).

Lemma select_wired s x ep ch : pair_wired s -> cb_select (cs_side s x) (Some ep) (cs_w s) = Ret (inr ch) ->
  (x, ep, ch) ∈ wires.
Proof.
  intros [[ka Ha] [kb Hb]]. unfold cb_select. destruct (signalled _ _); [done|].
  destruct x; cbn [cs_side]; rewrite ?Ha, ?Hb; cbn -[Z.eqb];
    repeat match goal with |- context [(ep =? ?z)%Z] => destruct (Z.eqb_spec ep z) as [->|_] end; try done; intros [= <-];
    apply (bool_decide_unpack _); by vm_compute.
Qed.

Lemma rx_wired s x ch : pair_wired s -> ch = cb_rx4 (cs_side s x) \/ ch = cb_rx6 (cs_side s x) -> (x, ch) ∈ readers.
Proof.
  intros [[ka Ha] [kb Hb]]. destruct x; cbn [cs_side]; rewrite ?Ha, ?Hb; intros [-> | ->];
    apply (bool_decide_unpack _); by vm_compute.
Qed.

Definition chan_inv (t : list event) (s : csys) (ch : nat) : Prop :=
  (exists taken, put_in ch t = taken ++ queue (cs_w s) ch /\ Forall2 cut taken (got_from ch t)) /\
  (Z.of_nat (length (queue (cs_w s) ch)) <= chan_cap)%Z.

Record pair_inv (t : list event) (x : csys * list pend) : Prop := {
  pv_wired : pair_wired x.1;
  pv_pending : Forall (fun p => (pd_from p, pd_ep p, pd_ch p) ∈ wires) x.2;
  pv_events : Forall event_wired t;
  pv_chans ch : chan_inv t x.1 ch;
}.

Lemma put_in_snoc ch t e : put_in ch (t ++ [e]) = put_in ch t ++ put_in ch [e].
Proof. apply omap_app. Qed.
Lemma got_from_snoc ch t e : got_from ch (t ++ [e]) = got_from ch t ++ got_from ch [e].
Proof. apply omap_app. Qed.

Lemma chan_inv_same t s s' ch e :
  chan_inv t s ch -> queue (cs_w s') ch = queue (cs_w s) ch -> put_in ch [e] = [] -> got_from ch [e] = [] ->
  chan_inv (t ++ [e]) s' ch.
Proof. intros I Hq Hp Hg. unfold chan_inv. by rewrite put_in_snoc, got_from_snoc, Hp, Hg, !app_nil_r, Hq. Qed.

Lemma cs_set_w s x c w : cs_w (cs_set s x c w) = w.
Proof. by destruct x. Qed.

Lemma chan_inv_step t s ps e s' ps' ch : chan_inv t s ch -> cstep (s, ps) e (s', ps') -> chan_inv (t ++ [e]) s' ch.
Proof.
  intros I Hs. inversion Hs as [? ? x r fns port c w E|? ? x|? ? x ep c b E|? ps1 ps2 x ep c b w E|? ? x ep err E|
    ? ? x c pick m buf bufs o n size sizes eps m' w Hch Hok E|? ? x c pick m bufs o n err o' m' w E]; subst.
  - apply (chan_inv_same t s); try done. rewrite cs_set_w. unfold cb_Open in E. by injection E as _ _ _ <-.
  - apply (chan_inv_same t s); try done. cbn. unfold cb_Close. destruct (cb_closeSignal _); [case_if|]; done.
  - by apply (chan_inv_same t s').
  - apply push_chan_Some in E as [-> Hl]. destruct (Nat.eqb_spec c ch) as [->|Hn].
    + destruct I as [(taken & Hp & Hf) _]. unfold chan_inv. rewrite put_in_snoc, got_from_snoc. cbn [cs_w cs_store].
      rewrite queue_set_queue, Nat.eqb_refl. unfold put_in at 2, got_from at 2. cbn. rewrite Nat.eqb_refl, app_nil_r, length_app.
      split; [|cbn; lia]. exists taken. by rewrite Hp, app_assoc.
    + apply (chan_inv_same t s); try done; cbn; rewrite ?queue_set_queue, (proj2 (Nat.eqb_neq _ _) Hn); done.
  - by apply (chan_inv_same t s').
  - apply cb_receive_got in E as (rx & rest & Hq & -> & ->); [|done]. destruct (Nat.eqb_spec c ch) as [->|Hn].
    + destruct I as [(taken & Hp & Hf) Hc]. unfold chan_inv. rewrite put_in_snoc, got_from_snoc. cbn [cs_w cs_store].
      rewrite queue_set_queue, Nat.eqb_refl. unfold put_in at 2, got_from at 2. cbn. rewrite Nat.eqb_refl, app_nil_r.
      rewrite Hq in *. cbn in Hc. split; [|lia]. exists (taken ++ [rx]). rewrite Hp, <- app_assoc. split; [done|].
      apply Forall2_app; [done|]. by constructor.
    + apply (chan_inv_same t s); try done; cbn; rewrite ?queue_set_queue, (proj2 (Nat.eqb_neq _ _) Hn); done.
  - apply cb_receive_err in E as (-> & _). by apply (chan_inv_same t s).
Qed.

Lemma pair_inv_step t x e x' : pair_inv t x -> cstep x e x' -> pair_inv (t ++ [e]) x'.
Proof.
  intros [Hw Hp He Hc] Hs. destruct x as [s ps], x' as [s' ps']. cbn [fst snd] in *.
  assert (forall ch, chan_inv (t ++ [e]) s' ch) as Hc' by (intros ch; by eapply chan_inv_step).
  inversion Hs as [? ? x r fns port c w E|? ? x|? ? x ep c b E|? ps1 ps2 x ep c b w E|? ? x ep err E|
    ? ? x c pick m buf bufs o n size sizes eps m' w Hch Hok E|? ? x c pick m bufs o n err o' m' w E]; subst.
  - split; cbn [fst snd]; try done; [|by apply Forall_app; split; [|constructor]].
    unfold cb_Open in E. injection E as _ _ <- _. destruct Hw as [[ka Ha] [kb Hb]]. destruct x; cbn; split; eauto;
      unfold cs_set, cs_side; cbn; rewrite ?Ha, ?Hb; by eexists.
  - split; cbn [fst snd]; try done. by apply Forall_app; split; [|constructor].
  - split; cbn [fst snd]; try done; [|by apply Forall_app; split; [|constructor]].
    constructor; [|done]. cbn. by eapply select_wired.
  - apply Forall_app in Hp as [Hp1 Hp2]. inversion Hp2; subst. split; cbn [fst snd]; try done; [by apply Forall_app|].
    apply Forall_app. split; [done|]. by constructor.
  - split; cbn [fst snd]; try done. by apply Forall_app; split; [|constructor].
  - split; cbn [fst snd]; try done. apply Forall_app. split; [done|]. constructor; [|constructor]. by eapply rx_wired.
  - split; cbn [fst snd]; try done. by apply Forall_app; split; [|constructor].
Qed.

Lemma pair_inv_reach t x : csteps (csys0, []) t x -> pair_inv t x.
Proof.
  remember (csys0, []) as x0 eqn:E0. induction 1 as [x|x1 t x2 e x3 _ IH He]; [|by eapply pair_inv_step; [apply IH|]].
  subst x. split; cbn [fst snd]; try done; [split; by exists None|].
  intros ch. assert (queue (cs_w csys0) ch = []) as Hq.
  { unfold queue, csys0, NewChannelBinds. cbn [cs_w cw_queues]. destruct (list_to_map _ !! ch) as [q|] eqn:E; [|done].
    apply elem_of_list_to_map_2, list_elem_of_fmap in E as (c & [= _ ->] & _). done. }
  unfold chan_inv. rewrite Hq. split; [|done]. by exists [].
Qed.

(** A channel has one sending side and endpoint, and one receiving side. *)
Lemma sent_wired x ep ch t : (x, ep, ch) ∈ wires -> Forall event_wired t -> sent_to x ep t = put_in ch t.
Proof.
  intros Hw. induction 1 as [|e t He _ IH]; [done|]. unfold sent_to, put_in in *. cbn [omap list_omap].
  destruct e as [| | |y ep' c b| | |]; try exact IH. cbn in He.
  assert ((eqb x y && (ep =? ep')%Z) = (c =? ch)%nat) as ->; [|by destruct (c =? ch)%nat; rewrite IH].
  unfold wires in *. rewrite !elem_of_cons in Hw, He. 
  destruct Hw as [[= -> -> ->]|[[= -> -> ->]|[[= -> -> ->]|[[= -> -> ->]|[]%not_elem_of_nil]]]],
    He as [[= -> -> ->]|[[= -> -> ->]|[[= -> -> ->]|[[= -> -> ->]|[]%not_elem_of_nil]]]]; reflexivity.
Qed.
Lemma got_wired x ch t : (x, ch) ∈ readers -> Forall event_wired t -> got_on x ch t = got_from ch t.
Proof.
  intros Hw. induction 1 as [|e t He _ IH]; [done|]. unfold got_on, got_from in *. cbn [omap list_omap].
  destruct e as [| | | | |y c len b|]; try exact IH. cbn in He.
  assert ((eqb x y && (c =? ch)%nat) = (c =? ch)%nat) as ->; [|by destruct (c =? ch)%nat; rewrite IH].
  unfold readers in *. rewrite !elem_of_cons in Hw, He.
  destruct Hw as [[= -> ->]|[[= -> ->]|[[= -> ->]|[[= -> ->]|[]%not_elem_of_nil]]]],
    He as [[= -> ->]|[[= -> ->]|[[= -> ->]|[[= -> ->]|[]%not_elem_of_nil]]]]; reflexivity.
Qed.

(** The endpoint and the channel of a family. *)
Definition cb_target (six : bool) (c : ChannelBind) : ChannelEndpoint := if six then cb_target6 c else cb_target4 c.
Definition cb_rx (six : bool) (c : ChannelBind) : nat := if six then cb_rx6 c else cb_rx4 c.

(** C17: The pair of channel binds is a lossless, ordered network under every
    interleaving of senders, receivers, [Open] and [Close] on both sides.  For
    each side and family, the packets that the side put into the channel with its
    target endpoint are those taken out by the receive function of that family
    on the other side, followed by those still queued (at most 8192), in order;
    and the callers of that function got each of the former as its bytes, cut to
    the length of their buffer. *)
Theorem channel_fifo t s ps x six :
  csteps (csys0, []) t (s, ps) ->
  let ch := cb_rx six (cs_side s (negb x)) in
  exists taken, sent_to x (cb_target six (cs_side s x)) t = taken ++ queue (cs_w s) ch /\
    Forall2 cut taken (got_on (negb x) ch t) /\ (Z.of_nat (length (queue (cs_w s) ch)) <= chan_cap)%Z.
Proof.
  intros [Hw _ He Hc]%pair_inv_reach ch. cbn [fst] in *. destruct (Hc ch) as [(taken & Hp & Hf) Hl].
  destruct Hw as [[ka Ha] [kb Hb]]. exists taken. rewrite (sent_wired _ _ ch), (got_wired _ ch); try done;
    subst ch; unfold cb_rx, cb_target, cs_side; rewrite Ha, Hb; destruct x, six;
    apply (bool_decide_unpack _); by vm_compute.
Qed.

(** C30: Closing an opened channel bind wakes everyone and loses nothing: no
    receive function of it blocks any more, one whose channel is empty returns
    [ErrClosed] and leaves the caller's arrays alone, [Send] of at least one
    packet returns [ErrClosed] for any endpoint, and the queued packets stay. *)
Theorem cb_Close_unblocks c w :
  cb_closeSignal c <> None ->
  let w' := cb_Close c w in
  (forall ch, queue w' ch = queue w ch) /\
  (forall ch pick m bufs o, cb_receive c ch pick m bufs o w' <> None) /\
  (forall ch pick m bufs o, queue w' ch = [] -> cb_receive c ch pick m bufs o w' = Some (Ret (0, Some ErrClosed, o, m, w'))) /\
  (forall b rest ep, cb_Send c (b :: rest) ep w' = Some (Ret (Some ErrClosed, w'))).
Proof.
  intros Hs w'. assert (signalled c w' = true) as Hc.
  { subst w'. unfold signalled, cb_Close. destruct (cb_closeSignal c) as [s|]; [|done]. destruct (default false (cw_signals w !! s)) eqn:E; [exact E|].
    cbn. by rewrite lookup_insert_eq. }
  assert (cw_queues w' = cw_queues w) as Hq.
  { subst w'. unfold cb_Close. destruct (cb_closeSignal c); [case_if|]; done. }
  split_and!.
  - intros ch. unfold queue. by rewrite Hq.
  - intros. unfold cb_receive. rewrite Hc. by destruct (queue w' ch).
  - intros ch pick m bufs o E. unfold cb_receive. by rewrite Hc, E.
  - intros. cbn. unfold cb_send_one, cb_select. by rewrite Hc.
Qed.

(** What a receive function delivers: the oldest packet, cut to the buffer, and
    always the peer's IPv6 endpoint. *)
Lemma cb_receive_delivers c ch pick m buf w rx rest :
  signalled c w = false -> queue w ch = rx :: rest -> slice_ok m buf ->
  let n := Nat.min (s_len buf) (length rx) in
  exists m', cb_receive c ch pick m [buf] (mkChOut [0] [None]) w =
      Some (Ret (1, None, mkChOut [n] [Some (cb_target6 c)], m', set_queue w ch rest)) /\
    take n (load m' buf) = take n rx.
Proof.
  intros Hs Hq Hok n. unfold cb_receive. rewrite Hs, Hq. cbn. fold n. eexists. split; [reflexivity|].
  pose proof Hok as [Hc _]. pose proof (load_store_prefix m buf (take n rx) n Hok) as E.
  rewrite <- E at 2; [|rewrite length_take; subst n; lia|subst n; lia].
  unfold load. cbn [s_len s_arr s_off]. rewrite take_take. f_equal. subst n; lia.
Qed.

(** *** Witnesses *)

Definition ex_cs1 : csys :=
  let '(_, _, a, w) := cb_Open (cs_a csys0) 0 (cs_w csys0) in mkCsys a (cs_b csys0) w.
Definition ex_cs2 : csys :=
  mkCsys (cs_a ex_cs1) (cs_b ex_cs1) (set_queue (cs_w ex_cs1) 1 [[x2a]]).

Definition ex_cs3 : csys := mkCsys (cs_a ex_cs1) (cs_b ex_cs1) (set_queue (cs_w ex_cs2) 1 []).
Definition ex_cbuf : slice := Slice 0 0 4 4.
Definition ex_cmem : mem := {[0 := replicate 4 x00]}.
Definition ex_ctrace : list event := [EvOpen false 2; EvCheck false; EvSent false 1%Z 1 [x2a]; EvGot true 1 4 [x2a]].
(** One packet from the first bind to the second. *)
Lemma channel_fifo_witness :
  csteps (csys0, []) ex_ctrace (ex_cs3, []) /\
  exists taken, sent_to false 1%Z ex_ctrace = taken ++ queue (cs_w ex_cs3) 1 /\ Forall2 cut taken (got_on true 1 ex_ctrace).
Proof.
  assert (csteps (csys0, []) ex_ctrace (ex_cs3, [])) as Hs.
  { apply (csteps_snoc _ [EvOpen false 2; EvCheck false; EvSent false 1%Z 1 [x2a]] (ex_cs2, []));
      [apply (csteps_snoc _ [EvOpen false 2; EvCheck false] (ex_cs1, [mkPend false 1%Z 1 [x2a]]));
        [apply (csteps_snoc _ [EvOpen false 2] (ex_cs1, [])); [apply (csteps_snoc _ [] (csys0, [])); [constructor|]|]|]|].
    - apply (cs_open csys0 [] false 0 [0; 2]). reflexivity.
    - apply (cs_check ex_cs1 [] false 1%Z 1 [x2a]). reflexivity.
    - apply (cs_send ex_cs1 [] [] false 1%Z 1 [x2a] (cs_w ex_cs2)). reflexivity.
    - apply (cs_got ex_cs2 [] true 1 true ex_cmem ex_cbuf [] (mkChOut [0] [None]) 1 1 [] [Some 4%Z]
        (store ex_cmem ex_cbuf 0 [x2a]) (cs_w ex_cs3)); [by left|vm_compute; lia|reflexivity]. }
  split; [exact Hs|]. destruct (channel_fifo _ _ _ false false Hs) as (taken & H1 & H2 & _).
  exists taken. split; [exact H1|exact H2].
Defined.

Lemma cb_Close_unblocks_witness :
  cb_receive (cs_a ex_cs1) 0 true ∅ [] (mkChOut [] []) (cb_Close (cs_a ex_cs1) (cs_w ex_cs1)) =
    Some (Ret (0, Some ErrClosed, mkChOut [] [], ∅, cb_Close (cs_a ex_cs1) (cs_w ex_cs1))).
Proof.
  destruct (cb_Close_unblocks (cs_a ex_cs1) (cs_w ex_cs1) ltac:(discriminate)) as (_ & _ & H & _).
  apply H. reflexivity.
Defined.
