(* ===== verification/BindLife.v ===== *)
(** * The life cycle of a bind (the interface [Bind] of conn.go)

    [Bind] promises callers a life cycle: a bind is closed or listening, [Open]
    takes a closed bind to listening or fails and leaves it closed, [Close]
    takes it back, and closing again is allowed.  The class [BindLife] states
    that contract, with what a bind holds while it listens, and the three
    implementations are instances: any legal sequence of calls on one of them
    follows the abstract life cycle and leaks nothing.  Clients (the sessions of
    the example) are proved against the class. *)

From S2P Require Import Prelude Errors GoMem Netip Cmsg Env SimNet Conn StdNet StdSend StdConc WinRio WinSim WinRing ChannelBind.

(** ** The contract *)

(** [Open(port)] and [Close()]; receive functions are left to the theorems
    about them. *)
Class BindOps (B W : Type) := {
  bind_Open : B -> Z -> W -> go ((error + Z) * B * W);
  bind_Close : B -> W -> option error * B * W;
}.

(** [R] are the system objects that binds hold: [held_in w] is what the process
    holds, [owned b] what the bind [b] holds. *)
Class BindLife (B W R : Type) `{Countable R} `{!BindOps B W} := {
  held_in : W -> gset R;
  owned : B -> gset R;
  is_closed : B -> W -> Prop;
  is_listening : B -> W -> Prop;
  life_open b port w : is_closed b w -> (0 <= port < 65536)%Z ->
    exists r b' w', bind_Open b port w = Ret (r, b', w') /\
    match r with
    | inl _ => is_closed b' w' /\ held_in w' = held_in w
    | inr _ => is_listening b' w' /\ held_in w' ∖ owned b' = held_in w
    end;
  life_close b w : is_listening b w ->
    exists err b' w', bind_Close b w = (err, b', w') /\ is_closed b' w' /\ held_in w' = held_in w ∖ owned b;
  life_close_again b w : is_closed b w ->
    exists b' w', bind_Close b w = (None, b', w') /\ is_closed b' w' /\ held_in w' = held_in w;
}.

(** ** Callers *)

Inductive life := Closed | Listening.
#[export] Instance life_eq_dec : EqDecision life.
Proof. solve_decision. Defined.

(** Calls and what they return. *)
Inductive op := OpOpen (port : Z) | OpClose.
Inductive ret := ROpen (r : error + Z) | RClose (err : option error).

Section Client.
Context {B W R : Type} `{Countable R} `{!BindOps B W} {LIFE : BindLife B W R}.

Definition run_op (o : op) (b : B) (w : W) : go (ret * B * W) :=
  match o with
  | OpOpen port => '(r, b, w) ← bind_Open b port w; Ret (ROpen r, b, w)
  | OpClose => let '(err, b, w) := bind_Close b w in Ret (RClose err, b, w)
  end.
Fixpoint run_ops (os : list op) (b : B) (w : W) : go (list ret * B * W) :=
  match os with
  | [] => Ret ([], b, w)
  | o :: os' => '(r, b, w) ← run_op o b w; '(rs, b, w) ← run_ops os' b w; Ret (r :: rs, b, w)
  end.

(** The abstract life cycle, driven by what the calls return. *)
Definition life_step (l : life) (o : op) (r : ret) : option life :=
  match l, o, r with
  | Closed, OpOpen _, ROpen (inl _) => Some Closed
  | Closed, OpOpen _, ROpen (inr _) => Some Listening
  | Closed, OpClose, RClose None => Some Closed
  | Listening, OpClose, RClose _ => Some Closed
  | _, _, _ => None
  end.
Fixpoint life_run (l : life) (os : list op) (rs : list ret) : option life :=
  match os, rs with
  | [], [] => Some l
  | o :: os', r :: rs' => l' ← life_step l o r; life_run l' os' rs'
  | _, _ => None
  end.

(** A caller that never opens a bind twice: every [Open] comes first or behind
    a [Close]. *)
Fixpoint legal (may_open : bool) (os : list op) : Prop :=
  match os with
  | [] => True
  | OpOpen port :: os' => may_open = true /\ (0 <= port < 65536)%Z /\ legal false os'
  | OpClose :: os' => legal true os'
  end.

(** The state [l] of a bind whose process held [X] before. *)
Definition in_life (l : life) (X : gset R) (b : B) (w : W) : Prop :=
  match l with
  | Closed => is_closed b w /\ held_in w = X
  | Listening => is_listening b w /\ held_in w ∖ owned b = X
  end.

Lemma run_op_refines l X o b w :
  in_life l X b w -> match o with OpOpen port => l = Closed /\ (0 <= port < 65536)%Z | OpClose => True end ->
  exists r b' w' l', run_op o b w = Ret (r, b', w') /\ life_step l o r = Some l' /\ in_life l' X b' w' /\
    match o with OpClose => l' = Closed | OpOpen _ => True end.
Proof.
  intros I Ho. destruct o as [port|]; cbn [run_op].
  - destruct Ho as [-> Hp], I as [Hc Hx]. destruct (life_open b port w Hc Hp) as (r & b' & w' & -> & Hr).
    destruct r as [err|p]; cbn [mbind go_mbind]; eexists _, _, _, _; (split; [reflexivity|]);
      (split; [reflexivity|]); (split; [|done]); destruct Hr; split; (done || congruence).
  - destruct l; destruct I as [Hc Hx].
    + destruct (life_close_again b w Hc) as (b' & w' & -> & Hc' & Hh).
      eexists _, _, _, Closed. split; [reflexivity|]. split; [reflexivity|]. split; [|done]. split; [done|congruence].
    + destruct (life_close b w Hc) as (err & b' & w' & -> & Hc' & Hh).
      eexists _, _, _, Closed. split; [reflexivity|]. split; [reflexivity|]. split; [|done]. split; [done|congruence].
Qed.

Lemma run_ops_refines os : forall may l X b w,
  in_life l X b w -> (may = true -> l = Closed) -> legal may os ->
  exists rs b' w' l', run_ops os b w = Ret (rs, b', w') /\ life_run l os rs = Some l' /\ in_life l' X b' w'.
Proof.
  induction os as [|o os IH]; intros may l X b w I Hl Hos; cbn [run_ops].
  { by eexists [], _, _, l. }
  destruct (run_op_refines l X o b w I) as (r & b1 & w1 & l1 & -> & Hs & I1 & Hcl).
  { destruct o; [|done]. destruct Hos as (-> & Hp & _). by rewrite Hl. }
  cbn [mbind go_mbind].
  assert (exists may', legal may' os /\ (may' = true -> l1 = Closed)) as (may' & Hos' & Hl').
  { destruct o; [exists false|exists true]; [by destruct Hos as (_ & _ & ?)|by split; [|intros _]]. }
  destruct (IH may' l1 X b1 w1 I1 Hl' Hos') as (rs & b2 & w2 & l2 & -> & Hr & I2). cbn [mbind go_mbind].
  eexists (r :: rs), b2, w2, l2. split; [reflexivity|]. split; [|done]. cbn. by rewrite Hs.
Qed.

End Client.

(** The calls [os] on the bind [b] return, their results are those of the
    abstract life cycle from [Closed], and the bind ends in its last state: with
    nothing held besides what the process held before, or listening and with
    its own objects. *)
Definition follows_life `{Countable R} {B W : Type} (ops : BindOps B W) (closed listening : B -> W -> Prop)
    (held_by : W -> gset R) (own : B -> gset R) (os : list op) (b : B) (w : W) : Prop :=
  exists rs b' w' l, run_ops os b w = Ret (rs, b', w') /\ life_run Closed os rs = Some l /\
  match l with
  | Closed => closed b' w' /\ held_by w' = held_by w
  | Listening => listening b' w' /\ held_by w' ∖ own b' = held_by w
  end.

(** ** StdNetBind *)

Section StdLife.
Context {U : UnixABI} `{Env W} {L : EnvLaws W} (os : GOOS) (fuel : nat).
Hypothesis Hfuel : forall c, wrap_depth c < fuel.

Definition std_ops : BindOps StdNetBind W := {|
  bind_Open s port w := '(r, _, s, w) ← Open os fuel s port w;
    Ret (match r with inl err => inl err | inr (_, port) => inr port end, s, w);
  bind_Close := Close;
|}.

(** A bind in order: fields that fit together and pools of blank headers. *)
Definition std_good (s : StdNetBind) : Prop := bind_typed os fuel s /\ pools_ok (os := os) s.
Definition std_closed (s : StdNetBind) (w : W) : Prop :=
  std_good s /\ sb_ipv4 s = None /\ sb_ipv6 s = None.
Definition std_listening (s : StdNetBind) (w : W) : Prop :=
  std_good s /\ (sb_ipv4 s <> None \/ sb_ipv6 s <> None) /\ bind_conns s ⊆ open_conns w.

(** [Open] on a closed bind, seen from the sockets. *)
Lemma std_Open s port w : std_closed s w -> (0 <= port < 65536)%Z ->
  exists r s' w', bind_Open (BindOps := std_ops) s port w = Ret (r, s', w') /\
  sb_batchSize s' = sb_batchSize s /\
  match r with
  | inl _ => std_closed s' w' /\ open_conns w' = open_conns w
  | inr p => std_listening s' w' /\ open_conns w' = bind_conns s' ∪ open_conns w /\ bind_conns s' ## open_conns w /\
      (0 <= p < 65536)%Z
  end.
Proof.
  intros ([T P] & E4 & E6) Hp. cbn.
  destruct (Open_spec (os := os) fuel s port w Hfuel Hp E4 E6) as (r & ev & s' & w' & HO & Hr).
  assert (bind_typed os fuel s') as T'
    by (eapply Open_typed; [|exact T|exact HO]; intros c; apply unwrapUDPConn_total, Hfuel).
  rewrite HO. cbn [mbind go_mbind]. eexists _, _, _. split; [reflexivity|]. destruct r as [err|[fns p]].
  - destruct Hr as (-> & Hw & _). done.
  - destruct Hr as (Ho & Hd & Hne & _ & Hrange & _ & _ & (_ & _ & C3 & C4 & _ & _ & C7)).
    split; [done|]. split; [|split; [done|split; [done|lia]]].
    split; [split; [done|]; unfold pools_ok in *; by rewrite C3, C4, C7|]. split; [done|]. rewrite Ho. apply union_subseteq_l.
Qed.

Lemma std_Close s w err s' w' : std_good s -> Close s w = (err, s', w') ->
  std_closed s' w' /\ open_conns w' = open_conns w ∖ bind_conns s /\ sb_batchSize s' = sb_batchSize s.
Proof.
  intros [T P] HC. pose proof (Close_typed os fuel _ _ _ _ _ T HC) as T'. pose proof (Close_open _ _ _ _ _ HC) as Ho.
  unfold Close in HC. destruct (close_conn (sb_ipv4 s) w) as [e1 w1].
  destruct (close_conn (sb_ipv6 s) w1) as [e2 w2]. by injection HC as _ <- <-.
Qed.

Lemma closed_conns s w : std_closed s w -> bind_conns s = ∅.
Proof. intros (_ & E4 & E6). unfold bind_conns, conns. rewrite E4, E6. cbn. set_solver. Qed.

Definition std_life : BindLife (BindOps0 := std_ops) StdNetBind W conn.
Proof.
  refine (Build_BindLife _ _ _ _ _ std_ops open_conns bind_conns std_closed std_listening _ _ _).
  - intros s port w Hc Hp. destruct (std_Open s port w Hc Hp) as (r & s' & w' & HO & _ & Hr).
    exists r, s', w'. split; [exact HO|]. destruct r; [done|]. destruct Hr as (Hl & Ho & Hd & _).
    split; [done|]. rewrite Ho. clear -Hd. set_solver.
  - intros s w (G & _ & _). cbn. destruct (Close s w) as [[err s'] w'] eqn:HC.
    destruct (std_Close _ _ _ _ _ G HC) as (Hc & Ho & _). by eexists _, _, _.
  - intros s w Hc. pose proof Hc as (G & E4 & E6). cbn.
    destruct (Close s w) as [[err s'] w'] eqn:HC. destruct (std_Close _ _ _ _ _ G HC) as (Hc' & Ho & _).
    unfold Close in HC. rewrite E4, E6 in HC. injection HC as <- <- <-.
    by eexists _, _.
Defined.
End StdLife.

(** ** WinRingBind *)

Section RingLife.
Context `{WinSys W} {L : WinLaws W} {Q : WinQueues W}.

#[export] Instance ring_ops : BindOps WinRingBind W := {|
  bind_Open := wb_Open;
  bind_Close := wb_Close;
|}.

Definition ring_closed (b : WinRingBind) (w : W) : Prop := wb_zero b /\ sys_isOpen w = 0%Z.
(** Both families are on one port, with all their receive slots armed. *)
Definition ring_listening (b : WinRingBind) (w : W) : Prop :=
  sys_isOpen w = 1%Z /\ exists p w0, armed AF_INET p (wb_v4 b) w0 w /\ armed AF_INET6 p (wb_v6 b) w0 w.

#[export] Instance ring_life : BindLife WinRingBind W resource.
Proof.
  refine (Build_BindLife _ _ _ _ _ ring_ops held wb_res ring_closed ring_listening _ _ _)%Z.
  - intros b port w [Hz Ho] _. destruct (wb_Open_ok b port w Hz Ho) as (r & b' & w' & E & Hr).
    exists r, b', w'. split; [exact E|]. destruct r; [by destruct Hr as (? & ? & ?)|].
    destruct Hr as (Hown & HO & _ & _ & A4 & A6). split; [|exact Hown]. split; [exact HO|]. by eexists _, w.
  - intros b w [Ho _]. destruct (wb_Close_open b w Ho) as (b' & w' & E & Hz & Hh & Ho').
    by exists None, b', w'.
  - intros b w [Hz Ho]. exists b, w. cbn. unfold wb_Close. by rewrite Ho.
Defined.
End RingLife.

(** ** ChannelBind *)

Section ChannelLife.
(** The random number of [Open]. *)
Context (r : Z).

Definition channel_ops : BindOps ChannelBind chans := {|
  bind_Open c port w := let '(_, port, c, w) := cb_Open c r w in Ret (inr port, c, w);
  bind_Close c w := (None, c, cb_Close c w);
|}.

(** The close signals that are not closed yet. *)
Definition open_signals (w : chans) : gset nat := dom (filter (fun x => x.2 = false) (cw_signals w)).

Lemma elem_of_open_signals s w : s ∈ open_signals w <-> cw_signals w !! s = Some false.
Proof.
  unfold open_signals. rewrite elem_of_dom. split.
  - intros [b Hb]. apply map_lookup_filter_Some in Hb as [Hb E]. cbn in E. congruence.
  - intros Hs. exists false. by apply map_lookup_filter_Some.
Qed.

Definition cb_signals (c : ChannelBind) : gset nat := from_option singleton ∅ (cb_closeSignal c).
Definition channel_closed (c : ChannelBind) (w : chans) : Prop :=
  from_option (fun s => cw_signals w !! s = Some true) True (cb_closeSignal c).
Definition channel_listening (c : ChannelBind) (w : chans) : Prop :=
  exists s, cb_closeSignal c = Some s /\ cw_signals w !! s = Some false.

Definition channel_life : BindLife (BindOps0 := channel_ops) ChannelBind chans nat.
Proof.
  refine (Build_BindLife _ _ _ _ _ channel_ops open_signals cb_signals channel_closed channel_listening _ _ _).
  - intros c port w _ _. cbn. unfold cb_Open. eexists _, _, _. split; [reflexivity|].
    set (s := fresh (dom (cw_signals w))). cbn.
    assert (cw_signals w !! s = None) as Hs by apply not_elem_of_dom, is_fresh.
    split; [exists s; split; [done|]; cbn; by rewrite lookup_insert_eq|].
    apply set_eq. intros x. rewrite elem_of_difference, elem_of_singleton, !elem_of_open_signals. cbn.
    destruct (decide (x = s)) as [->|Hne]; [rewrite Hs; naive_solver|]. rewrite lookup_insert_ne by done. naive_solver.
  - intros c w (s & Hc & Hs). cbn. unfold cb_Close. rewrite Hc, Hs. cbn. eexists _, _, _. split; [reflexivity|].
    unfold channel_closed, cb_signals. rewrite Hc. cbn. split; [by rewrite lookup_insert_eq|].
    apply set_eq. intros x. rewrite elem_of_difference, elem_of_singleton, !elem_of_open_signals. cbn.
    destruct (decide (x = s)) as [->|Hne]; [rewrite lookup_insert_eq; naive_solver|].
    rewrite lookup_insert_ne by done. naive_solver.
  - intros c w Hc. cbn. unfold cb_Close. exists c. destruct (cb_closeSignal c) as [s|] eqn:Es; [|by exists w].
    unfold channel_closed in Hc. rewrite Es in Hc. cbn in Hc. rewrite Hc. cbn. exists w. unfold channel_closed. by rewrite Es.
Defined.

(** [ChannelBind.Open] does not look whether the bind is open: opening it again
    succeeds and replaces the close signal, so that no later [Close] closes the
    signal of the first opening, and a receive function that waits on it stays
    blocked. *)
Theorem cb_reopen_orphans_signal c w fns p c1 w1 fns' p' c2 w2 s :
  cb_Open c r w = (fns, p, c1, w1) -> cb_closeSignal c1 = Some s ->
  cb_Open c1 r w1 = (fns', p', c2, w2) ->
  cw_signals (cb_Close c2 w2) !! s = Some false.
Proof.
  unfold cb_Open, cb_Close. intros [= <- <- <- <-] [= <-] [= <- <- <- <-]. cbn.
  set (s := fresh (dom (cw_signals w))). rewrite lookup_insert_eq. cbn.
  assert (s <> fresh (dom (<[s:=false]> (cw_signals w)))) as Hne.
  { intros E. apply (is_fresh (dom (<[s:=false]> (cw_signals w)))). rewrite <- E. rewrite dom_insert_L. set_solver. }
  rewrite !lookup_insert_ne by done. apply lookup_insert_eq.
Qed.
End ChannelLife.

(** ** The three binds *)

Section Binds.
Context {U : UnixABI} `{Env W} {L : EnvLaws W} (goos : GOOS) (fuel : nat).
Context `{WinSys V} {LV : WinLaws V} {QV : WinQueues V}.
Hypothesis Hfuel : forall c, wrap_depth c < fuel.

(** C15: The three binds follow the life cycle that [Bind] documents.  For any
    sequence of [Open] and [Close] calls in which no [Open] follows another
    without a [Close] between, on a closed [StdNetBind], [WinRingBind] or
    [ChannelBind] (whatever its random numbers), all calls return and their
    results are those of the abstract life cycle: [Open] of a closed bind leads
    to listening or fails and leaves it closed, [Close] always leads to closed
    and without an error when the bind was closed already.  Whenever the bind is
    closed in the end the process holds exactly what it held before (open
    sockets, objects of Windows, close signals); when it is listening, just the
    bind's own besides, and the bind is ready: sockets that are open, both ring
    families on one port with all receive slots armed, a close signal not closed
    yet. *)
Theorem lifecycle_refines os : legal true os ->
  (forall s w, std_closed goos fuel s w ->
     follows_life (std_ops goos fuel) (std_closed goos fuel) (std_listening goos fuel) open_conns bind_conns os s w) /\
  (forall b (v : V), ring_closed b v -> follows_life ring_ops ring_closed ring_listening held wb_res os b v) /\
  (forall r c w, channel_closed c w ->
     follows_life (channel_ops r) channel_closed channel_listening open_signals cb_signals os c w).
Proof.
  intros Hos. split_and!.
  - intros s w Hc. by apply (run_ops_refines (LIFE := std_life goos fuel Hfuel) os true Closed).
  - intros b v Hc. by apply (run_ops_refines (LIFE := ring_life) os true Closed).
  - intros r c w Hc. by apply (run_ops_refines (LIFE := channel_life r) os true Closed).
Qed.
End Binds.

(** ** On the simulated machines *)

Definition ex_calls : list op := [OpClose; OpOpen 0; OpClose; OpClose; OpOpen 7000].

Lemma lifecycle_refines_witness :
  follows_life (std_ops Linux 1) (std_closed (U := linux64) Linux 1) (std_listening (U := linux64) Linux 1)
    open_conns bind_conns ex_calls ex_bind sim1 /\
  follows_life ring_ops ring_closed ring_listening held wb_res ex_calls ex_wb (winsim0 18) /\
  follows_life (channel_ops 0) channel_closed channel_listening open_signals cb_signals ex_calls
    NewChannelBinds.1.1 NewChannelBinds.2.
Proof.
  destruct (lifecycle_refines (U := linux64) (W := sim) Linux 1 (V := winsim) ex_depth ex_calls) as (Hs & Hr & Hc).
  { cbn. split_and!; (lia || done). }
  split; [|split].
  - apply Hs. split; [split; [done|by vm_compute]|done].
  - apply Hr. split; [exact ex_wb_zero|reflexivity].
  - apply Hc. exact I.
Defined.
