(* ===== verification/PingPong.v ===== *)
(** * The ping-pong example (examples/udp_pingpong/main.go)

    Validation of the configuration, payloads, the task group, the receive loop,
    and a session over the channel bind as a concurrent system. *)

From S2P Require Import Prelude Errors GoMem Netip Env Conn ChannelBind.
From stdpp Require Import relations.
Local Open Scope Z_scope.

Definition maxUDPPayload : Z := 65507.

Record config := mkConfig { cfg_mode : string; cfg_sessions : Z; cfg_roundTrips : Z; cfg_payloadSize : Z }.

(** ** Scenarios and validation *)

Inductive scenario := SChannel | SNative | SLoopback.
#[export] Instance scenario_eq_dec : EqDecision scenario.
Proof. solve_decision. Defined.
Definition sc_name (s : scenario) : string :=
  match s with SChannel => "channel" | SNative => "native" | SLoopback => "loopback" end.
Definition scenarios : list scenario := [SChannel; SNative; SLoopback].

Definition selectScenarios (mode : string) : error + list scenario :=
  if bool_decide (mode = "all"%string) then inr scenarios
  else match filter (fun sc => sc_name sc = mode) scenarios with
       | sc :: _ => inr [sc]
       | [] => inl (EOther "unknown mode")
       end.

(** [run]: the checks and the scenarios in order; [runScenario] is given. *)
Definition run_all {W} (runScenario : config -> scenario -> W -> option error * W) (cfg : config) :=
  fix run_all (selected : list scenario) (w : W) : option error * W :=
  match selected with
  | [] => (None, w)
  | sc :: rest =>
      match runScenario cfg sc w with
      | (Some err, w) => (Some (EWrap (sc_name sc) err), w)
      | (None, w) => run_all rest w
      end
  end.

Definition run {W} (runScenario : config -> scenario -> W -> option error * W) (cfg : config) (w : W) : option error * W :=
  if cfg_sessions cfg <=? 0 then (Some (EOther "sessions must be positive"), w)
  else if cfg_roundTrips cfg <=? 0 then (Some (EOther "round-trips must be positive"), w)
  else if cfg_payloadSize cfg <? 16 then (Some (EOther "payload-size must be at least 16 bytes"), w)
  else match selectScenarios (cfg_mode cfg) with
  | inl err => (Some err, w)
  | inr selected =>
      if (maxUDPPayload <? cfg_payloadSize cfg) &&
         existsb (fun sc => negb (bool_decide (sc_name sc = "channel"%string))) selected
      then (Some (EOther "payload-size exceeds max UDP payload"), w)
      else run_all runScenario cfg selected w
  end.

(** [main]: the defaults of the flags, which the command line may change, and
    the exit code. *)
Definition default_config : config := mkConfig "all" 64 128 (60 * 1024).
Definition main {W} (runScenario : config -> scenario -> W -> option error * W) (parse_flags : config -> config) (w : W)
    : Z * W :=
  let cfg := parse_flags default_config in
  match run runScenario cfg w with
  | (Some _, w) => (1, w)
  | (None, w) => (0, w)
  end.

Definition maxPacketBuffer (batchSize : nat) : nat :=
  if (1 <? batchSize)%nat then Z.to_nat maxUDPPayload else Z.to_nat maxUDPPayload.

(** [makePayload]; slices of [payload] panic when it is shorter than 16 bytes. *)
Definition payload_bytes (payloadSize : nat) (sessionID roundTrip : Z) : list byte :=
  le_bytes 8 sessionID ++ le_bytes 8 roundTrip ++
  map (fun i => byte_of (Z.land (sessionID * 31 + roundTrip * 17 + Z.of_nat i) 255)) (seq 16 (payloadSize - 16)).
Definition makePayload (payloadSize : nat) (sessionID roundTrip : Z) : go (list byte) :=
  _ ← check (16 <=? payloadSize)%nat;
  Ret (payload_bytes payloadSize sessionID roundTrip).

(** What [run] lets through. *)
Definition valid (cfg : config) (sc : scenario) : Prop :=
  0 < cfg_sessions cfg /\ 0 < cfg_roundTrips cfg /\ 16 <= cfg_payloadSize cfg /\
  (sc = SChannel \/ cfg_payloadSize cfg <= maxUDPPayload) /\
  (cfg_mode cfg = "all"%string \/ cfg_mode cfg = sc_name sc).

Lemma selectScenarios_in mode l : selectScenarios mode = inr l ->
  forall sc, sc ∈ l -> mode = "all"%string \/ mode = sc_name sc.
Proof.
  unfold selectScenarios. case_bool_decide; [by left|].
  destruct (filter _ scenarios) as [|x r] eqn:E; [done|]. intros [= <-] sc ->%list_elem_of_singleton. right.
  assert (x ∈ filter (fun sc => sc_name sc = mode) scenarios) as Hx by (rewrite E; left).
  by apply list_elem_of_filter in Hx as [-> _].
Qed.

(** Without flags every scenario runs, with a valid configuration. *)
Lemma default_config_valid sc : valid default_config sc /\ selectScenarios (cfg_mode default_config) = inr scenarios.
Proof. split; [|done]. unfold valid, maxUDPPayload. cbn. split_and!; try lia; by left. Qed.

(** Only valid combinations reach a scenario. *)
Lemma run_valid {W} f g cfg (w : W) :
  (forall sc w, valid cfg sc -> f cfg sc w = g cfg sc w) -> run f cfg w = run g cfg w.
Proof.
  intros Hfg. unfold run. repeat (case_if; [done|]). destruct (selectScenarios _) as [|l] eqn:E; [done|].
  pose proof (selectScenarios_in _ _ E) as Hin. destruct (_ && _) eqn:Ee; [done|].
  assert (forall sc, sc ∈ l -> valid cfg sc) as Hv.
  { intros sc Hsc. unfold valid. split_and!; try lia; [|by apply Hin].
    destruct (decide (sc = SChannel)) as [->|Hne]; [by left|right]. apply andb_false_iff in Ee as [Ee|Ee]; [lia|].
    exfalso. apply not_true_iff_false in Ee. apply Ee. apply existsb_exists. exists sc. split; [by apply list_elem_of_In|].
    by destruct sc. }
  clear E Ee Hin. revert w. induction l as [|sc l IH]; intros w; [done|]. cbn.
  rewrite Hfg by (apply Hv; left). destruct (g cfg sc w) as [[e|] w1]; [done|]. apply IH. intros. apply Hv. by right.
Qed.

Lemma payload_header n id k p : makePayload n id k = Ret p ->
  length p = n /\ le_val (take 8 p) = id mod 2 ^ 64 /\ le_val (take 8 (drop 8 p)) = k mod 2 ^ 64.
Proof.
  unfold makePayload, check. destruct (Nat.leb_spec 16 n); [|done]. cbn [mbind go_mbind]. intros [= <-]. unfold payload_bytes. split_and!.
  - rewrite !length_app, !length_le_bytes, length_map, length_seq. lia.
  - rewrite take_app_length' by (by rewrite length_le_bytes). apply (le_val_bytes 8).
  - rewrite drop_app_length' by (by rewrite length_le_bytes).
    rewrite take_app_length' by (by rewrite length_le_bytes). apply (le_val_bytes 8).
Qed.

(** Payloads of the example identify their round trip: from 16 bytes on
    [makePayload] succeeds with the requested length, and payloads of different
    sessions or rounds differ. *)
Theorem makePayload_unique n id k id' k' :
  (16 <= n)%nat -> 0 <= id < 2 ^ 63 -> 0 <= k < 2 ^ 63 -> 0 <= id' < 2 ^ 63 -> 0 <= k' < 2 ^ 63 ->
  exists p p', makePayload n id k = Ret p /\ makePayload n id' k' = Ret p' /\
    length p = n /\ length p' = n /\ (p = p' -> id = id' /\ k = k').
Proof.
  intros Hn H1 H2 H3 H4.
  assert (forall a b, exists p, makePayload n a b = Ret p) as Hex.
  { intros. unfold makePayload. rewrite (proj2 (Nat.leb_le _ _) Hn). eauto. }
  destruct (Hex id k) as [p Ep]. destruct (Hex id' k') as [p' Ep']. exists p, p'.
  destruct (payload_header _ _ _ _ Ep) as (L & A & B). destruct (payload_header _ _ _ _ Ep') as (L' & A' & B').
  split_and!; try done. intros ->. rewrite A in A'. rewrite B in B'. rewrite !Z.mod_small in A', B' by lia. done.
Qed.

Lemma makePayload_unique_witness :
  exists p p', makePayload 20 3 7 = Ret p /\ makePayload 20 3 8 = Ret p' /\ p <> p'.
Proof.
  destruct (makePayload_unique 20 3 7 3 8) as (p & p' & E & E' & _ & _ & H); try lia.
  exists p, p'. split; [exact E|]. split; [exact E'|]. intros Hp. destruct (H Hp) as [_ [=]].
Defined.

(** ** The task group *)

Definition Canceled : error := EOther "context canceled".

(** The error field, and the cause of the group's context once it is done. *)
Record taskGroup := mkGroup { tg_err : option error; tg_cause : option error }.
Definition newTaskGroup : taskGroup := mkGroup None None.

(** [g.cancel(err)] and the end of the parent context: the first cause stays. *)
Definition tg_cancel (g : taskGroup) (cause : error) : taskGroup :=
  mkGroup (tg_err g) (match tg_cause g with Some c => Some c | None => Some cause end).
Definition tg_fail (g : taskGroup) (err : error) : taskGroup :=
  match tg_err g with
  | Some _ => g
  | None => tg_cancel (mkGroup (Some err) (tg_cause g)) err
  end.
(** A task of [Go] returns. *)
Definition tg_done (g : taskGroup) (r : option error) : taskGroup :=
  match r with
  | Some err => if errors_Is err Canceled then g else tg_fail g err
  | None => g
  end.
Definition tg_Wait (g : taskGroup) : option error :=
  match tg_err g with
  | Some err => Some err
  | None => match tg_cause g with
            | Some err => if errors_Is err Canceled then None else Some err
            | None => None
            end
  end.

(** What happens to a group, in order: a task returns, or the parent is done. *)
Inductive tg_event := TaskDone (r : option error) | ParentDone (cause : error).
Definition tg_step (g : taskGroup) (e : tg_event) : taskGroup :=
  match e with TaskDone r => tg_done g r | ParentDone c => tg_cancel g c end.
Definition tg_failure (e : tg_event) : option error :=
  match e with TaskDone (Some err) => if errors_Is err Canceled then None else Some err | _ => None end.
Definition tg_parent (e : tg_event) : option error := match e with ParentDone c => Some c | _ => None end.

Lemma tg_err_steps evs g : tg_err (fold_left tg_step evs g) =
  match tg_err g with Some e => Some e | None => head (omap tg_failure evs) end.
Proof.
  revert g. induction evs as [|e evs IH]; intros g; cbn [fold_left]; [by destruct (tg_err g)|].
  rewrite IH. destruct e as [[err|]|c]; cbn; try done. destruct (errors_Is err Canceled); [done|].
  unfold tg_fail. by destruct (tg_err g) eqn:E; cbn; rewrite ?E.
Qed.

Lemma tg_cause_steps evs g : omap tg_failure evs = [] ->
  tg_cause (fold_left tg_step evs g) =
  match tg_cause g with Some e => Some e | None => head (omap tg_parent evs) end.
Proof.
  revert g. induction evs as [|e evs IH]; intros g Hf; cbn [fold_left]; [by destruct (tg_cause g)|].
  destruct e as [[err|]|c]; cbn in Hf |- *.
  - destruct (errors_Is err Canceled); [by apply IH|done].
  - by apply IH.
  - rewrite IH by done. cbn. by destruct (tg_cause g).
Qed.

(** A task group reports the first failure: whatever the order in which the
    tasks return and the parent context ends, [Wait] returns the first error of
    a task that is not a cancellation; without one, the cause with which the
    parent ended, unless that is a cancellation; otherwise nil. *)
Theorem taskGroup_first_error evs :
  tg_Wait (fold_left tg_step evs newTaskGroup) =
  match head (omap tg_failure evs) with
  | Some err => Some err
  | None => match head (omap tg_parent evs) with
            | Some c => if errors_Is c Canceled then None else Some c
            | None => None
            end
  end.
Proof.
  unfold tg_Wait. rewrite tg_err_steps. cbn [newTaskGroup tg_err].
  destruct (head (omap tg_failure evs)) eqn:E; [done|].
  rewrite tg_cause_steps; [done|]. by destruct (omap tg_failure evs).
Qed.

(** ** The receive loop *)

Section ReceiveLoop.
Context {St Ep : Type}.
(** The receive function on the contents of the buffers, sizes and endpoints;
    the handler; whether [ctx.Err()] is set. *)
Variable fn : list (list byte) -> list nat -> list (option Ep) -> St ->
  go ((nat * option error) * (list (list byte) * list nat * list (option Ep)) * St).
Variable handle : list byte -> Ep -> St -> option error * St.
Variable ctxErr : St -> bool.

(** [errors.Is(err, net.ErrClosed) || errors.Is(err, context.Canceled)] *)
Definition is_done (err : error) : bool := errors_Is err ErrClosed || errors_Is err Canceled.

(** The loop over the [n] results: [Some r] returns [r] from [receiveLoop]. *)
Fixpoint handle_all (todo i : nat) (packets : list (list byte)) (sizes : list nat) (eps : list (option Ep)) (s : St)
    : go (option (option error) * St) :=
  match todo with
  | O => Ret (None, s)
  | S todo' =>
      size ← must (sizes !! i);
      if (size =? 0)%nat then handle_all todo' (S i) packets sizes eps s else
      ep ← must (eps !! i);
      match ep with
      | None => handle_all todo' (S i) packets sizes eps s
      | Some ep =>
          packet ← must (packets !! i);
          _ ← check (size <=? length packet)%nat;
          match handle (take size packet) ep s with
          | (Some err, s) => Ret (Some (if is_done err then None else Some err), s)
          | (None, s) => handle_all todo' (S i) packets sizes eps s
          end
      end
  end.

Fixpoint receive_loop_from (fuel batchSize : nat) (packets : list (list byte)) (s : St) : go (option error * St) :=
  match fuel with
  | O => NoFuel
  | S fuel' =>
      '((n, err), (packets, sizes, eps), s) ← fn packets (replicate batchSize 0%nat) (replicate batchSize None) s;
      match err with
      | Some e => Ret (if is_done e then None else if ctxErr s then None else Some e, s)
      | None =>
          '(r, s) ← handle_all n 0 packets sizes eps s;
          match r with
          | Some r => Ret (r, s)
          | None => receive_loop_from fuel' batchSize packets s
          end
      end
  end.

Lemma receive_loop_S fuel batchSize packets s :
  receive_loop_from (S fuel) batchSize packets s =
  ('((n, err), (packets, sizes, eps), s) ← fn packets (replicate batchSize 0%nat) (replicate batchSize None) s;
   match err with
   | Some e => Ret (if is_done e then None else if ctxErr s then None else Some e, s)
   | None =>
       '(r, s) ← handle_all n 0 packets sizes eps s;
       match r with
       | Some r => Ret (r, s)
       | None => receive_loop_from fuel batchSize packets s
       end
   end).
Proof. done. Qed.

Definition receiveLoop (fuel batchSize : nat) (s : St) : go (option error * St) :=
  receive_loop_from fuel batchSize (replicate batchSize (replicate (maxPacketBuffer batchSize) x00)) s.
End ReceiveLoop.

(** *** Against a scripted receive function

    The state is the batches still to come and the packets handled so far. *)
Section Script.
Context {Ep : Type}.
Definition script : Type := (list (list (list byte * Ep)) * list (list byte * Ep)).

(** Overwrites the first elements. *)
Definition fill {A} (new l : list A) : list A := new ++ drop (length new) l.
Fixpoint fill_bufs (ds packets : list (list byte)) : list (list byte) :=
  match ds, packets with
  | d :: ds', p :: packets' => fill d p :: fill_bufs ds' packets'
  | _, _ => packets
  end.

Definition script_fn (packets : list (list byte)) (sizes : list nat) (eps : list (option Ep)) (s : script)
    : go ((nat * option error) * (list (list byte) * list nat * list (option Ep)) * script) :=
  match s.1 with
  | [] => Ret ((0%nat, Some ErrClosed), (packets, sizes, eps), s)
  | batch :: rest =>
      Ret ((length batch, None),
           (fill_bufs (map fst batch) packets, fill (map (length ∘ fst) batch) sizes, fill (map (Some ∘ snd) batch) eps),
           (rest, s.2))
  end.
Lemma script_fn_cons packets sizes eps batch rest log : script_fn packets sizes eps (batch :: rest, log) =
  Ret ((length batch, None),
       (fill_bufs (map fst batch) packets, fill (map (length ∘ fst) batch) sizes, fill (map (Some ∘ snd) batch) eps),
       (rest, log)).
Proof. done. Qed.
Definition script_handle (packet : list byte) (ep : Ep) (s : script) : option error * script :=
  (None, (s.1, s.2 ++ [(packet, ep)])).

(** The packets that a loop must handle. *)
Definition nonempty (batch : list (list byte * Ep)) : list (list byte * Ep) := filter (fun x => x.1 <> []) batch.

Definition fits_bufs (cap : nat) (packets : list (list byte)) : Prop := Forall (fun p => length p = cap) packets.

Lemma fill_bufs_fits cap ds packets : Forall (fun d => (length d <= cap)%nat) ds -> fits_bufs cap packets ->
  fits_bufs cap (fill_bufs ds packets) /\ length (fill_bufs ds packets) = length packets.
Proof.
  intros Hd Hp. revert packets Hp. induction Hd as [|d ds Hl _ IH]; intros packets Hp; [by destruct packets|].
  destruct Hp as [|p packets Hp Hps]; [by split; [constructor|]|]. cbn. destruct (IH packets Hps) as [H1 H2]. split; [|by f_equal].
  constructor; [|done]. unfold fill. rewrite length_app, length_drop. lia.
Qed.

Lemma fill_bufs_lookup cap ds packets i d : fits_bufs cap packets -> (length ds <= length packets)%nat ->
  Forall (fun d => (length d <= cap)%nat) ds -> ds !! i = Some d ->
  exists p, fill_bufs ds packets !! i = Some p /\ take (length d) p = d /\ (length d <= length p)%nat.
Proof.
  intros Hp. revert packets Hp i. induction ds as [|x ds IH]; intros packets Hp i Hl Hd Hi; [done|].
  destruct Hp as [|p packets Hp Hps]; [cbn in Hl; lia|]. inversion Hd; subst. destruct i as [|i]; cbn in Hi |- *.
  - injection Hi as ->. eexists. split; [reflexivity|]. unfold fill. rewrite take_app_length, length_app, length_drop. split; [done|lia].
  - apply IH; (done || cbn in Hl; lia).
Qed.

Lemma fill_lookup {A} (new l : list A) i x : new !! i = Some x -> fill new l !! i = Some x.
Proof. intros H. unfold fill. by apply lookup_app_l_Some. Qed.

Lemma handle_all_script cap batch packets sizes eps todo i rest log :
  fits_bufs cap packets -> (length batch <= length packets)%nat -> Forall (fun x => (length x.1 <= cap)%nat) batch ->
  (i + todo = length batch)%nat ->
  handle_all script_handle todo i (fill_bufs (map fst batch) packets) (fill (map (length ∘ fst) batch) sizes)
    (fill (map (Some ∘ snd) batch) eps) (rest, log) = Ret (None, (rest, log ++ nonempty (drop i batch))).
Proof.
  intros Hp Hl Hb. revert i log. induction todo as [|todo IH]; intros i log Hi; cbn [handle_all].
  { rewrite drop_ge by lia. cbn. by rewrite app_nil_r. }
  destruct (lookup_lt_is_Some_2 batch i ltac:(lia)) as [[d e] Hx].
  rewrite (fill_lookup _ _ _ (length d)) by (by rewrite list_lookup_fmap, Hx). cbn [must mbind go_mbind].
  rewrite (drop_S batch (d, e)) by done. unfold nonempty. rewrite filter_cons. fold (nonempty (drop (S i) batch)).
  destruct d as [|b0 d0]; cbn [length Nat.eqb].
  { rewrite decide_False by (by intros []). apply IH. lia. }
  rewrite decide_True by done. set (d := b0 :: d0) in *.
  rewrite (fill_lookup _ _ _ (Some e)) by (by rewrite list_lookup_fmap, Hx). cbn [must mbind go_mbind].
  destruct (fill_bufs_lookup cap (map fst batch) packets i d) as (p & -> & Ht & Hle);
    [done|by rewrite length_map|by apply Forall_map|by rewrite list_lookup_fmap, Hx|].
  cbn [must mbind go_mbind]. change (S (length d0)) with (length d). rewrite (proj2 (Nat.leb_le _ _) Hle), Ht.
  cbn [check mbind go_mbind script_handle fst snd]. rewrite IH by lia. by rewrite <- app_assoc.
Qed.
End Script.

(** C29: The receive loop of the example handles every packet once, in order, and
    nothing else: empty results are skipped, the contents passed to the handler
    are exactly the received bytes although the buffers are reused, and when the
    bind is closed the loop ends without an error. *)
Theorem receiveLoop_handles_all {Ep} (batches : list (list (list byte * Ep))) batchSize ctxErr :
  Forall (fun b => (length b <= batchSize)%nat /\ Forall (fun x => Z.of_nat (length x.1) <= maxUDPPayload) b) batches ->
  receiveLoop script_fn script_handle ctxErr (S (length batches)) batchSize (batches, []) =
    Ret (None, ([], concat (map nonempty batches))).
Proof.
  intros Hb. unfold receiveLoop. set (cap := maxPacketBuffer batchSize).
  assert (cap = Z.to_nat maxUDPPayload) as Hcap by (subst cap; unfold maxPacketBuffer; by case_if).
  set (packets := replicate batchSize (replicate cap x00)).
  assert (fits_bufs cap packets /\ length packets = batchSize) as [Hp Hl].
  { subst packets. split; [|by rewrite length_replicate]. apply Forall_replicate. by rewrite length_replicate. }
  clearbody packets. rewrite <- (app_nil_l (concat _)). generalize (@nil (list byte * Ep)) as log.
  revert packets Hp Hl. induction Hb as [|batch rest [Hn Hs] _ IH]; intros packets Hp Hl log; rewrite receive_loop_S.
  { cbn. by rewrite app_nil_r. }
  rewrite script_fn_cons. cbn [mbind go_mbind].
  assert (Forall (fun x : list byte * Ep => (length x.1 <= cap)%nat) batch) as Hs'.
  { eapply Forall_impl; [exact Hs|]. intros x Hx. cbn in Hx. rewrite Hcap. lia. }
  rewrite (handle_all_script cap) by (done || lia). cbn [mbind go_mbind].
  destruct (fill_bufs_fits cap (map fst batch) packets) as [Hf Hfl]; [by apply Forall_map|done|].
  rewrite IH; [|done|lia]. cbn [map concat drop]. by rewrite app_assoc.
Qed.

Lemma receiveLoop_handles_all_witness :
  receiveLoop script_fn script_handle (fun _ => false) 3 2 ([[([x01; x02], 4%nat); ([], 5%nat)]; [([x03], 6%nat)]], []) =
    Ret (None, ([], [([x01; x02], 4%nat); ([x03], 6%nat)])).
Proof.
  apply (receiveLoop_handles_all [[([x01; x02], 4%nat); ([], 5%nat)]; [([x03], 6%nat)]] 2 (fun _ => false)).
  repeat constructor; cbn; unfold maxUDPPayload; lia.
Defined.

(** ** A session over the channel binds

    [runSession] in mode "channel" as a step relation over its goroutines: the
    main goroutine and the receive loops, one per receive function of the two
    binds.  The client is the first bind of the pair.  The steps are those of the
    channels ([Send] is a check and then the send to a channel, as in the file
    about the bind), [Close] and the end of a [Wait].  The deadline of the context is not
    reached. *)

(** A receive loop is in its receive function, handles a packet, waits at the
    channel of a [Send], or has returned. *)
Inductive loop_pc :=
| LReceive
| LHandle (p : list byte) (ep : ChannelEndpoint)
| LPut (ch : nat) (p : list byte)
| LReturned (r : option error).
Record loop := mkLoop { lp_server : bool; lp_ch : nat; lp_pc : loop_pc }.

(** The main goroutine: at the [Send] of round [k] or at the channel of that
    [Send], at the [select], at the second [Close], at the two [Wait]s, about to run
    the deferred calls, or back. *)
Inductive main_state :=
| MSend (k : nat) | MPush (k ch : nat) | MWait (k : nat)
| MCloseServer | MWaitClient | MWaitServer | MDefer (r : option error) | MDone (r : option error).

Record session := mkSession {
  se_main : main_state; se_sys : csys; se_loops : list loop;
  se_cli : taskGroup; se_srv : taskGroup;
  se_recv : option (list byte);        (* clientRecv, a channel of one element *)
}.

(** Where a loop is after its receive function returned. *)
Definition after_call (ctxErr : bool) (n : nat) (err : option error) (o : ch_outputs) (m : mem) (buf : slice) : loop_pc :=
  match err with
  | Some e => LReturned (if is_done e then None else if ctxErr then None else Some e)
  | None =>
      match n, co_sizes o !! 0%nat, co_eps o !! 0%nat with
      | S _, Some (S k), Some (Some ep) => LHandle (take (S k) (load m buf)) ep
      | _, _, _ => LReceive
      end
  end.
(** Where it is after its handler returned. *)
Definition after_handle (err : option error) : loop_pc :=
  match err with
  | Some e => LReturned (if is_done e then None else Some e)
  | None => LReceive
  end.

(** The loop [i] goes on at [pc]; when it returns, its group gets the result. *)
Definition goto (st : session) (i : nat) (l : loop) (pc : loop_pc) : session :=
  let ls := <[i := mkLoop (lp_server l) (lp_ch l) pc]> (se_loops st) in
  let upd b g := match pc with LReturned r => if eqb b (lp_server l) then tg_done g r else g | _ => g end in
  mkSession (se_main st) (se_sys st) ls (upd false (se_cli st)) (upd true (se_srv st)) (se_recv st).

(** [ctx.Err() != nil] for the context of a group. *)
Definition tg_over (g : taskGroup) : bool := match tg_cause g with Some _ => true | None => false end.
Definition returned (server : bool) (ls : list loop) : bool :=
  forallb (fun l => match lp_pc l with LReturned _ => true | _ => negb (eqb server (lp_server l)) end) ls.
Definition mismatch : error := EOther "payload mismatch".

Section Session.
Variable pay : nat -> list byte.       (* makePayload of each round *)
Variable roundTrips : nat.
Variable serverEndpoint : ChannelEndpoint.

Inductive sstep : session -> session -> Prop :=
| ss_ping k s ls gc gs v sel : (k < roundTrips)%nat ->
    cb_select (cs_a s) (Some serverEndpoint) (cs_w s) = Ret sel ->
    sstep (mkSession (MSend k) s ls gc gs v)
      (mkSession (match sel with inl err => MDefer (Some (EWrap "send ping" err)) | inr ch => MPush k ch end) s ls gc gs v)
| ss_ping_send k ch s ls gc gs v w :
    push_chan ch (pay k) (cs_w s) = Some w ->
    sstep (mkSession (MPush k ch) s ls gc gs v) (mkSession (MWait k) (cs_store s w) ls gc gs v)
| ss_check k s ls gc gs p :
    sstep (mkSession (MWait k) s ls gc gs (Some p))
      (mkSession (if bool_decide (p = pay k) then MSend (S k) else MDefer (Some mismatch)) s ls gc gs None)
| ss_close_client s ls gc gs v :
    sstep (mkSession (MSend roundTrips) s ls gc gs v)
      (mkSession MCloseServer (cs_store s (cb_Close (cs_a s) (cs_w s))) ls gc gs v)
| ss_close_server s ls gc gs v :
    sstep (mkSession MCloseServer s ls gc gs v)
      (mkSession MWaitClient (cs_store s (cb_Close (cs_b s) (cs_w s))) ls gc gs v)
| ss_wait_client s ls gc gs v : returned false ls = true ->
    sstep (mkSession MWaitClient s ls gc gs v)
      (mkSession (match tg_Wait gc with Some err => MDefer (Some err) | None => MWaitServer end) s ls gc gs v)
| ss_wait_server s ls gc gs v : returned true ls = true ->
    sstep (mkSession MWaitServer s ls gc gs v) (mkSession (MDefer (tg_Wait gs)) s ls gc gs v)
| ss_defer r s ls gc gs v :
    sstep (mkSession (MDefer r) s ls gc gs v)
      (mkSession (MDone r) (cs_store s (cb_Close (cs_a s) (cb_Close (cs_b s) (cs_w s)))) ls gc gs v)
| ss_receive mn s ls gc gs v i x ch pick m buf n err o m' w :
    ls !! i = Some (mkLoop x ch LReceive) -> slice_ok m buf ->
    s_len buf = maxPacketBuffer (cb_BatchSize (cs_side s x)) ->
    cb_receive (cs_side s x) ch pick m [buf] (mkChOut [0%nat] [None]) (cs_w s) = Some (Ret (n, err, o, m', w)) ->
    sstep (mkSession mn s ls gc gs v)
      (goto (mkSession mn (cs_store s w) ls gc gs v) i (mkLoop x ch LReceive)
        (after_call (tg_over (if x then gs else gc)) n err o m' buf))
| ss_reply mn s ls gc gs v i ch p ep sel :
    ls !! i = Some (mkLoop true ch (LHandle p ep)) ->
    cb_select (cs_b s) (Some ep) (cs_w s) = Ret sel ->
    sstep (mkSession mn s ls gc gs v)
      (goto (mkSession mn s ls gc gs v) i (mkLoop true ch (LHandle p ep))
        (match sel with inl err => after_handle (Some err) | inr ch' => LPut ch' p end))
| ss_reply_send mn s ls gc gs v i ch ch' p w :
    ls !! i = Some (mkLoop true ch (LPut ch' p)) -> push_chan ch' p (cs_w s) = Some w ->
    sstep (mkSession mn s ls gc gs v)
      (goto (mkSession mn (cs_store s w) ls gc gs v) i (mkLoop true ch (LPut ch' p)) (after_handle None))
| ss_client_put mn s ls gc gs i ch p ep :
    ls !! i = Some (mkLoop false ch (LHandle p ep)) ->
    sstep (mkSession mn s ls gc gs None)
      (goto (mkSession mn s ls gc gs (Some p)) i (mkLoop false ch (LHandle p ep)) (after_handle None))
| ss_client_done mn s ls gc gs v i ch p ep :
    ls !! i = Some (mkLoop false ch (LHandle p ep)) -> tg_cause gc <> None ->
    sstep (mkSession mn s ls gc gs v)
      (goto (mkSession mn s ls gc gs v) i (mkLoop false ch (LHandle p ep)) (after_handle (Some Canceled))).
End Session.

(** The server and then the client are opened, and the loops started. *)
Definition session0 (rs rc : Z) : session * Z :=
  let '(serverFuncs, serverPort, b, w) := cb_Open (cs_b csys0) rs (cs_w csys0) in
  let '(clientFuncs, _, a, w) := cb_Open (cs_a csys0) rc w in
  (mkSession (MSend 0) (mkCsys a b w)
     (map (fun ch => mkLoop false ch LReceive) clientFuncs ++ map (fun ch => mkLoop true ch LReceive) serverFuncs)
     newTaskGroup newTaskGroup None,
   serverPort).

(** *** The invariant of a session *)

(** How the pair is connected. *)
Definition wired (s : csys) : Prop :=
  (cb_rx4 (cs_a s), cb_tx4 (cs_a s), cb_rx6 (cs_a s), cb_tx6 (cs_a s)) = (0, 1, 2, 3)%nat /\
  (cb_rx4 (cs_b s), cb_tx4 (cs_b s), cb_rx6 (cs_b s), cb_tx6 (cs_b s)) = (1, 0, 3, 2)%nat /\
  (cb_target4 (cs_a s), cb_target6 (cs_a s), cb_target4 (cs_b s), cb_target6 (cs_b s)) = (1, 3, 2, 4)%Z /\
  cb_closeSignal (cs_a s) <> None /\ cb_closeSignal (cs_b s) <> None.
(** Nothing is closed. *)
Definition live (s : csys) : Prop :=
  signalled (cs_a s) (cs_w s) = false /\ signalled (cs_b s) (cs_w s) = false /\ wired s.
Definition queues (s : csys) (q0 q1 q2 q3 : list (list byte)) : Prop :=
  queue (cs_w s) 0 = q0 /\ queue (cs_w s) 1 = q1 /\ queue (cs_w s) 2 = q2 /\ queue (cs_w s) 3 = q3.

(** A session whose loops are at these points and have reported no error. *)
Definition at_pcs (mn : main_state) (s : csys) (c4 c6 s4 s6 : loop_pc) (v : option (list byte)) : session :=
  mkSession mn s [mkLoop false 0 c4; mkLoop false 2 c6; mkLoop true 1 s4; mkLoop true 3 s6] newTaskGroup newTaskGroup v.

(** Where the packet [p] of the current round is, and how many steps remain
    until the main goroutine has it back. *)
Inductive token (p : list byte) (k : nat) : nat -> session -> Prop :=
| at_main4 s : queues s [] [] [] [] -> token p k 7 (at_pcs (MPush k 1) s LReceive LReceive LReceive LReceive None)
| at_main6 s : queues s [] [] [] [] -> token p k 7 (at_pcs (MPush k 3) s LReceive LReceive LReceive LReceive None)
| at_srv_queue4 s : queues s [] [p] [] [] -> token p k 6 (at_pcs (MWait k) s LReceive LReceive LReceive LReceive None)
| at_srv_queue6 s : queues s [] [] [] [p] -> token p k 6 (at_pcs (MWait k) s LReceive LReceive LReceive LReceive None)
| at_srv4 s : queues s [] [] [] [] -> token p k 5 (at_pcs (MWait k) s LReceive LReceive (LHandle p 4) LReceive None)
| at_srv6 s : queues s [] [] [] [] -> token p k 5 (at_pcs (MWait k) s LReceive LReceive LReceive (LHandle p 4) None)
| at_put4 s : queues s [] [] [] [] -> token p k 4 (at_pcs (MWait k) s LReceive LReceive (LPut 2 p) LReceive None)
| at_put6 s : queues s [] [] [] [] -> token p k 4 (at_pcs (MWait k) s LReceive LReceive LReceive (LPut 2 p) None)
| at_cli_queue s : queues s [] [] [p] [] -> token p k 3 (at_pcs (MWait k) s LReceive LReceive LReceive LReceive None)
| at_cli6 s ep : queues s [] [] [] [] -> token p k 2 (at_pcs (MWait k) s LReceive (LHandle p ep) LReceive LReceive None)
| at_recv s : queues s [] [] [] [] -> token p k 1 (at_pcs (MWait k) s LReceive LReceive LReceive LReceive (Some p)).

(** A loop at the end of the session, and the steps it has left. *)
Definition ending (l : loop_pc) (n : nat) : Prop := (l = LReceive /\ n = 1%nat) \/ (l = LReturned None /\ n = 0%nat).
Definition closed_a (s : csys) : Prop := signalled (cs_a s) (cs_w s) = true.
Definition closed_b (s : csys) : Prop := signalled (cs_b s) (cs_w s) = true.

(** *** Lemmas on the steps *)

Lemma queues_set s q0 q1 q2 q3 ch q : queues s q0 q1 q2 q3 ->
  queues (cs_store s (set_queue (cs_w s) ch q)) (if (ch =? 0)%nat then q else q0) (if (ch =? 1)%nat then q else q1)
    (if (ch =? 2)%nat then q else q2) (if (ch =? 3)%nat then q else q3).
Proof. intros (H0 & H1 & H2 & H3). unfold queues. cbn [cs_w cs_store]. rewrite !queue_set_queue. subst. done. Qed.

Lemma queues_push s q0 q1 q2 q3 ch p w : queues s q0 q1 q2 q3 -> push_chan ch p (cs_w s) = Some w -> queue (cs_w s) ch = [] ->
  queues (cs_store s w) (if (ch =? 0)%nat then [p] else q0) (if (ch =? 1)%nat then [p] else q1)
    (if (ch =? 2)%nat then [p] else q2) (if (ch =? 3)%nat then [p] else q3) /\ w = set_queue (cs_w s) ch [p].
Proof. intros Hq [-> _]%push_chan_Some E. rewrite E. split; [by apply queues_set|done]. Qed.

Lemma push_ready ch p w : queue w ch = [] -> push_chan ch p w = Some (set_queue w ch [p]).
Proof. intros E. unfold push_chan. by rewrite E. Qed.

Lemma live_set s ch q : live s -> live (cs_store s (set_queue (cs_w s) ch q)).
Proof. done. Qed.

Lemma Close_queues s c q0 q1 q2 q3 : queues s q0 q1 q2 q3 -> queues (cs_store s (cb_Close c (cs_w s))) q0 q1 q2 q3.
Proof.
  assert (cw_queues (cb_Close c (cs_w s)) = cw_queues (cs_w s)) as Hc
    by (unfold cb_Close; destruct (cb_closeSignal c); [case_if|]; done).
  unfold queues, queue. cbn. by rewrite Hc.
Qed.

Lemma Close_signals c w : cb_closeSignal c <> None -> signalled c (cb_Close c w) = true.
Proof.
  unfold signalled, cb_Close. destruct (cb_closeSignal c) as [k|]; [intros _|done].
  destruct (default false (cw_signals w !! k)) eqn:E; [done|]. cbn. by rewrite lookup_insert_eq.
Qed.

Lemma Close_keeps c c' w : signalled c w = true -> signalled c (cb_Close c' w) = true.
Proof.
  unfold signalled, cb_Close. destruct (cb_closeSignal c) as [k|]; [|done]. intros Hk.
  destruct (cb_closeSignal c') as [k'|]; [|done]. case_if; [done|]. cbn. destruct (decide (k' = k)) as [->|Hne].
  - by rewrite lookup_insert_eq.
  - by rewrite lookup_insert_ne.
Qed.

(** What one call of a receive function makes of a loop. *)
Lemma receive_cases c ch pick m buf n err o m' w w' ctx : slice_ok m buf -> s_len buf = maxPacketBuffer (cb_BatchSize c) ->
  cb_receive c ch pick m [buf] (mkChOut [0%nat] [None]) w = Some (Ret (n, err, o, m', w')) ->
  (signalled c w = true /\ w' = w /\ after_call ctx n err o m' buf = LReturned None) \/
  (exists rx rest, queue w ch = rx :: rest /\ w' = set_queue w ch rest /\
     (rx <> [] -> after_call ctx n err o m' buf = LHandle (take (Z.to_nat maxUDPPayload) rx) (cb_target6 c))).
Proof.
  intros Hok Hlen HE. destruct err as [e|].
  { left. destruct (signalled c w) eqn:Hs.
    - by apply cb_receive_err in HE as (-> & -> & -> & ->).
    - exfalso. unfold cb_receive in HE. rewrite Hs in HE. destruct (queue w ch); [done|]. apply (inj Some) in HE.
      apply cb_deliver_queue in HE as (_ & o1 & m1 & [=]). }
  right. destruct (queue w ch) as [|rx rest] eqn:Hq; [unfold cb_receive in HE; rewrite Hq in HE; by destruct (signalled c w)|].
  assert (cb_deliver c ch rx rest m [buf] (mkChOut [0%nat] [None]) w = Ret (n, None, o, m', w')) as HD.
  { unfold cb_receive in HE. rewrite Hq in HE. destruct (signalled c w); [destruct pick; [done|]|]; by apply (inj Some) in HE. }
  pose proof HD as HB. cbn in HD. injection HD as <- <- _ _. apply cb_deliver_bytes in HB as [-> HB]; [|done].
  exists rx, rest. split; [done|]. split; [done|]. intros Hne.
  assert (s_len buf = Z.to_nat maxUDPPayload) as Hmax by (rewrite Hlen; unfold maxPacketBuffer; by case_if).
  assert (0 < Z.to_nat maxUDPPayload)%nat as Hpos by (unfold maxUDPPayload; lia).
  rewrite Hmax in HB |- *. revert HB Hpos. generalize (Z.to_nat maxUDPPayload) as cap. intros cap HB Hpos.
  destruct (cap `min` length rx)%nat as [|j] eqn:E; [destruct rx; [done|cbn in E; lia]|].
  unfold after_call. cbn [co_sizes co_eps lookup list_lookup]. f_equal. exact HB.
Qed.

Lemma receive_empty c ch pick m buf n err o m' w w' ctx : slice_ok m buf -> s_len buf = maxPacketBuffer (cb_BatchSize c) ->
  cb_receive c ch pick m [buf] (mkChOut [0%nat] [None]) w = Some (Ret (n, err, o, m', w')) -> queue w ch = [] ->
  signalled c w = true /\ w' = w /\ after_call ctx n err o m' buf = LReturned None.
Proof.
  intros Hok Hlen HE Hq. destruct (receive_cases _ _ _ _ _ _ _ _ _ _ _ ctx Hok Hlen HE) as [?|(? & ? & E & _)]; [done|congruence].
Qed.

(** A receive loop has a buffer. *)
Definition loop_mem : mem := {[0%nat := replicate (Z.to_nat maxUDPPayload) x00]}.
Definition loop_buf : slice := Slice 0 0 (Z.to_nat maxUDPPayload) (Z.to_nat maxUDPPayload).
Lemma loop_buf_ok c : slice_ok loop_mem loop_buf /\ s_len loop_buf = maxPacketBuffer (cb_BatchSize c).
Proof.
  unfold maxPacketBuffer. change (1 <? cb_BatchSize c)%nat with false. split; [|done].
  unfold loop_mem, loop_buf, slice_ok, array. generalize (Z.to_nat maxUDPPayload) as cap. intros cap. cbn.
  rewrite lookup_singleton_eq. cbn. rewrite length_replicate. lia.
Qed.

Lemma receive_packet c ch w rx rest : signalled c w = false -> queue w ch = rx :: rest -> 
  exists o m', cb_receive c ch true loop_mem [loop_buf] (mkChOut [0%nat] [None]) w =
    Some (Ret (1%nat, None, o, m', set_queue w ch rest)).
Proof.
  intros Hs Hq. destruct (loop_buf_ok c) as [Hok _].
  destruct (cb_receive_delivers c ch true loop_mem loop_buf w rx rest Hs Hq Hok) as (m' & E & _). eauto.
Qed.

Lemma receive_closed c ch w : signalled c w = true ->
  cb_receive c ch true loop_mem [loop_buf] (mkChOut [0%nat] [None]) w =
    Some (Ret (0%nat, Some ErrClosed, mkChOut [0%nat] [None], loop_mem, w)).
Proof. intros Hs. unfold cb_receive. rewrite Hs. by destruct (queue w ch). Qed.

Section SessionInv.
Variable pay : nat -> list byte.
Variable roundTrips : nat.

(** The invariant, with the number of steps that remain. *)
Inductive session_inv : nat -> session -> Prop :=
| in_send k s : (k <= roundTrips)%nat -> live s -> queues s [] [] [] [] ->
    session_inv (8 * (roundTrips - k) + 9) (at_pcs (MSend k) s LReceive LReceive LReceive LReceive None)
| in_round k i st : (k < roundTrips)%nat -> live (se_sys st) -> token (pay k) k i st ->
    session_inv (8 * (roundTrips - S k) + 9 + i) st
| in_end mn left s c4 c6 s4 s6 n0 n1 n2 n3 :
    wired s -> queues s [] [] [] [] -> closed_a s -> ending c4 n0 -> ending c6 n1 -> ending s4 n2 -> ending s6 n3 ->
    match mn with
    | MCloseServer => left = 4%nat
    | MWaitClient => left = 3%nat /\ closed_b s
    | MWaitServer => left = 2%nat /\ closed_b s /\ n0 = 0%nat /\ n1 = 0%nat
    | MDefer None => left = 1%nat /\ closed_b s /\ n0 = 0%nat /\ n1 = 0%nat /\ n2 = 0%nat /\ n3 = 0%nat
    | MDone None => left = 0%nat /\ closed_b s /\ n0 = 0%nat /\ n1 = 0%nat /\ n2 = 0%nat /\ n3 = 0%nat
    | _ => False
    end ->
    session_inv (n0 + n1 + n2 + n3 + left) (at_pcs mn s c4 c6 s4 s6 None).

Section Good.
Variable serverEndpoint : ChannelEndpoint.
Hypothesis pay_len : forall k, 0 < Z.of_nat (length (pay k)) <= maxUDPPayload.
Hypothesis peer : serverEndpoint = 1 \/ serverEndpoint = 3.

Lemma take_pay k : take (Z.to_nat maxUDPPayload) (pay k) = pay k.
Proof. apply take_ge. specialize (pay_len k). lia. Qed.
Lemma pay_nonempty k : pay k <> [].
Proof. intros E. specialize (pay_len k). rewrite E in pay_len. cbn in pay_len. lia. Qed.

Definition step_ok (st st' : session) : Prop :=
  forall n, session_inv n st -> exists n', n = S n' /\ session_inv n' st'.

Ltac wires H :=
  destruct H as ([= ?A1 ?A2 ?A3 ?A4] & [= ?B1 ?B2 ?B3 ?B4] & [= ?T1 ?T2 ?T3 ?T4] & ?Ca & ?Cb).
Ltac wiring H := let Hw := fresh in destruct H as (?Sa & ?Sb & Hw); wires Hw.
(** The cases of the invariant, and of the place of the packet. *)
Ltac by_inv Hi :=
  inversion Hi as [k0 s0 Hk Hl Hq|k0 j st0 Hk Hl Htok|mn0 left s0 c4 c6 s4 s6 n0 n1 n2 n3 Hw Hq Hca E0 E1 E2 E3 Hmn];
  subst; try match goal with H : token _ _ _ _ |- _ =>
    inversion H as [s0 Hq|s0 Hq|s0 Hq|s0 Hq|s0 Hq|s0 Hq|s0 Hq|s0 Hq|s0 Hq|s0 ep0 Hq|s0 Hq]; subst end;
  try match goal with H : False |- _ => destruct H end.
(** One step less in the round [k]. *)
Ltac moves Hl i :=
  match goal with |- context [MWait ?k] => exists (8 * (roundTrips - S k) + 9 + i)%nat end;
  split; [lia|apply in_round; [assumption|exact Hl|]].

Lemma ping_ok k s ls gc gs v sel : (k < roundTrips)%nat ->
  cb_select (cs_a s) (Some serverEndpoint) (cs_w s) = Ret sel ->
  step_ok (mkSession (MSend k) s ls gc gs v)
    (mkSession (match sel with inl err => MDefer (Some (EWrap "send ping" err)) | inr ch => MPush k ch end) s ls gc gs v).
Proof.
  intros Hk' E n Hi. by_inv Hi. exists (8 * (roundTrips - S k) + 9 + 7)%nat. split; [lia|].
  unfold cb_select in E. pose proof Hl as Hl'. wiring Hl'. rewrite Sa, T1, T2, A2, A4 in E.
  destruct peer as [-> | ->]; cbn in E; injection E as <-; apply in_round; try done; by constructor.
Qed.

Lemma ping_send_ok k ch s ls gc gs v w : push_chan ch (pay k) (cs_w s) = Some w ->
  step_ok (mkSession (MPush k ch) s ls gc gs v) (mkSession (MWait k) (cs_store s w) ls gc gs v).
Proof.
  intros E n Hi. by_inv Hi; eapply queues_push in E as [Hq' ->];
    try (exact Hq || apply Hq); moves Hl 6%nat; by constructor.
Qed.

Lemma check_ok k s ls gc gs p :
  step_ok (mkSession (MWait k) s ls gc gs (Some p))
    (mkSession (if bool_decide (p = pay k) then MSend (S k) else MDefer (Some mismatch)) s ls gc gs None).
Proof.
  intros n Hi. by_inv Hi. rewrite bool_decide_eq_true_2 by done.
  exists (8 * (roundTrips - S k) + 9)%nat. split; [lia|]. by constructor.
Qed.

Lemma close_client_ok s ls gc gs v :
  step_ok (mkSession (MSend roundTrips) s ls gc gs v)
    (mkSession MCloseServer (cs_store s (cb_Close (cs_a s) (cs_w s))) ls gc gs v).
Proof.
  intros n Hi. by_inv Hi. exists (1 + 1 + 1 + 1 + 4)%nat. split; [lia|].
  destruct Hl as (_ & _ & Hw). apply in_end; try (done || by left); [by apply Close_queues|].
  apply Close_signals, Hw.
Qed.

Lemma close_server_ok s ls gc gs v :
  step_ok (mkSession MCloseServer s ls gc gs v)
    (mkSession MWaitClient (cs_store s (cb_Close (cs_b s) (cs_w s))) ls gc gs v).
Proof.
  intros n Hi. by_inv Hi. exists (n0 + n1 + n2 + n3 + 3)%nat. split; [lia|].
  apply in_end; try done; [by apply Close_queues|by apply Close_keeps|]. split; [done|]. apply Close_signals, Hw.
Qed.

Lemma ending_returned l n : ending l n -> match l with LReturned _ => true | _ => false end = true -> l = LReturned None /\ n = 0%nat.
Proof. intros [[-> ->]|[-> ->]]; done. Qed.

Lemma wait_client_ok s ls gc gs v : returned false ls = true ->
  step_ok (mkSession MWaitClient s ls gc gs v)
    (mkSession (match tg_Wait gc with Some err => MDefer (Some err) | None => MWaitServer end) s ls gc gs v).
Proof.
  intros Hr n Hi. by_inv Hi. destruct Hmn as [-> Hcb].
  assert (n0 = 0 /\ n1 = 0)%nat as [-> ->] by (destruct E0 as [[-> ->]|[-> ->]], E1 as [[-> ->]|[-> ->]]; done).
  exists (0 + 0 + n2 + n3 + 2)%nat. split; [lia|]. by apply in_end.
Qed.

Lemma wait_server_ok s ls gc gs v : returned true ls = true ->
  step_ok (mkSession MWaitServer s ls gc gs v) (mkSession (MDefer (tg_Wait gs)) s ls gc gs v).
Proof.
  intros Hr n Hi. by_inv Hi. destruct Hmn as (-> & Hcb & -> & ->).
  assert (n2 = 0 /\ n3 = 0)%nat as [-> ->].
  { destruct E2 as [[-> ->]|[-> ->]], E3 as [[-> ->]|[-> ->]]; try done; cbn in Hr; rewrite ?andb_false_r in Hr; done. }
  exists (0 + 0 + 0 + 0 + 1)%nat. split; [lia|]. by apply in_end.
Qed.

Lemma defer_ok r s ls gc gs v :
  step_ok (mkSession (MDefer r) s ls gc gs v)
    (mkSession (MDone r) (cs_store s (cb_Close (cs_a s) (cb_Close (cs_b s) (cs_w s)))) ls gc gs v).
Proof.
  intros n Hi. by_inv Hi. destruct r; [done|]. destruct Hmn as (-> & Hcb & -> & -> & -> & ->).
  exists (0 + 0 + 0 + 0 + 0)%nat. split; [lia|]. apply in_end; try done.
  - by apply (Close_queues (cs_store s _)), Close_queues.
  - by apply Close_keeps, Close_keeps.
  - split_and!; try done. by apply Close_keeps, Close_keeps.
Qed.

Lemma cs_store_same s : cs_store s (cs_w s) = s.
Proof. by destruct s. Qed.

(** The loop with index [i], found in the list. *)
Ltac find_loop Hl :=
  match type of Hl with ?l !! ?i = _ => destruct i as [|[|[|[|i]]]]; [..|destruct i; discriminate Hl] end;
  cbn in Hl; try discriminate Hl; inversion Hl; subst.
(** A receive on a channel that the invariant says is empty needs a closed bind. *)
Ltac none E :=
  eapply (receive_empty _ _ _ _ _ _ _ _ _ _ _ (tg_over newTaskGroup)) in E as (?Hs & -> & ?Hpc); [|eassumption|eassumption|
    match goal with H : queues _ _ _ _ _ |- _ => apply H end].
Ltac not_live H Hs := exfalso; cbn [cs_side se_sys at_pcs] in *; destruct H as (?Sa & ?Sb & _); congruence.

Lemma receive_pay c ch pick m buf n err o m' w w' ctx k : slice_ok m buf -> s_len buf = maxPacketBuffer (cb_BatchSize c) ->
  cb_receive c ch pick m [buf] (mkChOut [0%nat] [None]) w = Some (Ret (n, err, o, m', w')) ->
  signalled c w = false -> queue w ch = [pay k] ->
  w' = set_queue w ch [] /\ after_call ctx n err o m' buf = LHandle (pay k) (cb_target6 c).
Proof.
  intros Hok Hlen E Hs Hq. destruct (receive_cases _ _ _ _ _ _ _ _ _ _ _ ctx Hok Hlen E) as [[? _]|(rx & rest & Eq & -> & Hh)]; [congruence|].
  rewrite Hq in Eq. injection Eq as <- <-. split; [done|]. rewrite Hh by apply pay_nonempty. by rewrite take_pay.
Qed.

(** The receive [E] of the packet of round [k]. *)
Ltac got E k Hl :=
  let Hl' := fresh in pose proof Hl as Hl'; cbn [se_sys at_pcs] in Hl'; wiring Hl';
  eapply (receive_pay _ _ _ _ _ _ _ _ _ _ _ (tg_over newTaskGroup) k) in E as [-> ->]; [|eassumption|eassumption|eassumption|
    match goal with H : queues _ _ _ _ _ |- _ => apply H end].
(** A loop that returns at the end of the session. *)
Ltac exits E :=
  none E; match goal with H : after_call _ _ _ _ _ _ = _ |- _ => rewrite H, cs_store_same end;
  cbn [goto lp_server lp_ch se_loops se_cli se_srv se_main se_sys se_recv eqb tg_done insert list_insert].

Ltac ends n :=
  exists n; split; [lia|]; apply in_end; try done; [by right|];
  match goal with H : match ?mn with _ => _ end |- _ => destruct mn as [| | | | | |[]|[]] end;
  cbn [se_main se_sys]; intuition congruence.

Lemma receive_ok mn s ls gc gs v i x ch pick m buf n err o m' w :
  ls !! i = Some (mkLoop x ch LReceive) -> slice_ok m buf ->
  s_len buf = maxPacketBuffer (cb_BatchSize (cs_side s x)) ->
  cb_receive (cs_side s x) ch pick m [buf] (mkChOut [0%nat] [None]) (cs_w s) = Some (Ret (n, err, o, m', w)) ->
  step_ok (mkSession mn s ls gc gs v)
    (goto (mkSession mn (cs_store s w) ls gc gs v) i (mkLoop x ch LReceive)
      (after_call (tg_over (if x then gs else gc)) n err o m' buf)).
Proof.
  intros Hi Hok Hlen E r Hinv. by_inv Hinv; find_loop Hi.
  all: try by (none E; not_live Hl Hs).
  - got E k0 Hl. moves Hl 5%nat. cbn [cs_side]. rewrite T4. apply at_srv4. exact (queues_set _ _ _ _ _ 1%nat [] Hq).
  - got E k0 Hl. moves Hl 5%nat. cbn [cs_side]. rewrite T4. apply at_srv6. exact (queues_set _ _ _ _ _ 3%nat [] Hq).
  - got E k0 Hl. moves Hl 2%nat. apply at_cli6. exact (queues_set _ _ _ _ _ 2%nat [] Hq).
  - exits E. destruct E0 as [[_ ->]|[[=] _]]. ends (0 + n1 + n2 + n3 + left)%nat.
  - exits E. destruct E1 as [[_ ->]|[[=] _]]. ends (n0 + 0 + n2 + n3 + left)%nat.
  - exits E. destruct E2 as [[_ ->]|[[=] _]]. ends (n0 + n1 + 0 + n3 + left)%nat.
  - exits E. destruct E3 as [[_ ->]|[[=] _]]. ends (n0 + n1 + n2 + 0 + left)%nat.
Qed.

Lemma reply_ok mn s ls gc gs v i ch p ep sel :
  ls !! i = Some (mkLoop true ch (LHandle p ep)) ->
  cb_select (cs_b s) (Some ep) (cs_w s) = Ret sel ->
  step_ok (mkSession mn s ls gc gs v)
    (goto (mkSession mn s ls gc gs v) i (mkLoop true ch (LHandle p ep))
      (match sel with inl err => after_handle (Some err) | inr ch' => LPut ch' p end)).
Proof.
  intros Hi E r Hinv. by_inv Hinv; find_loop Hi; try by (destruct E2 as [[[=] _]|[[=] _]]); try by (destruct E3 as [[[=] _]|[[=] _]]).
  all: pose proof Hl as Hl'; cbn [se_sys at_pcs] in Hl'; wiring Hl'; unfold cb_select in E; rewrite Sb, T3, T4, B4 in E;
    cbn in E; injection E as <-; moves Hl 4%nat; by constructor.
Qed.

Lemma reply_send_ok mn s ls gc gs v i ch ch' p w :
  ls !! i = Some (mkLoop true ch (LPut ch' p)) -> push_chan ch' p (cs_w s) = Some w ->
  step_ok (mkSession mn s ls gc gs v)
    (goto (mkSession mn (cs_store s w) ls gc gs v) i (mkLoop true ch (LPut ch' p)) (after_handle None)).
Proof.
  intros Hi E r Hinv. by_inv Hinv; find_loop Hi; try by (destruct E2 as [[[=] _]|[[=] _]]); try by (destruct E3 as [[[=] _]|[[=] _]]).
  all: eapply queues_push in E as [Hq' ->]; [|exact Hq|apply Hq]; moves Hl 3%nat; by constructor.
Qed.

Lemma client_put_ok mn s ls gc gs i ch p ep :
  ls !! i = Some (mkLoop false ch (LHandle p ep)) ->
  step_ok (mkSession mn s ls gc gs None)
    (goto (mkSession mn s ls gc gs (Some p)) i (mkLoop false ch (LHandle p ep)) (after_handle None)).
Proof.
  intros Hi r Hinv. by_inv Hinv; find_loop Hi; try by (destruct E0 as [[[=] _]|[[=] _]]); try by (destruct E1 as [[[=] _]|[[=] _]]).
  moves Hl 1%nat; by constructor.
Qed.

Lemma session_inv_step st st' : sstep pay roundTrips serverEndpoint st st' -> step_ok st st'.
Proof.
  intros Hs. destruct Hs; [by apply ping_ok|by apply ping_send_ok|apply check_ok|apply close_client_ok|apply close_server_ok|
    by apply wait_client_ok|by apply wait_server_ok|apply defer_ok|by eapply receive_ok|by apply reply_ok|by apply reply_send_ok|
    by apply client_put_ok|].
  intros n Hi. by_inv Hi; done.
Qed.

(** Unless the session is done, some goroutine can run. *)
Lemma loop_can_end mn s ls gc gs v i x ch : ls !! i = Some (mkLoop x ch LReceive) -> signalled (cs_side s x) (cs_w s) = true ->
  exists st', sstep pay roundTrips serverEndpoint (mkSession mn s ls gc gs v) st'.
Proof.
  intros Hi Hs. destruct (loop_buf_ok (cs_side s x)) as [Hok Hlen].
  eexists. eapply ss_receive; [exact Hi|exact Hok|exact Hlen|by apply receive_closed].
Qed.

Lemma loop_can_receive mn s ls gc gs v i x ch p : ls !! i = Some (mkLoop x ch LReceive) ->
  signalled (cs_side s x) (cs_w s) = false -> queue (cs_w s) ch = [p] ->
  exists st', sstep pay roundTrips serverEndpoint (mkSession mn s ls gc gs v) st'.
Proof.
  intros Hi Hs Hq. destruct (loop_buf_ok (cs_side s x)) as [Hok Hlen]. destruct (receive_packet _ _ _ _ _ Hs Hq) as (o & m' & E).
  eexists. by eapply ss_receive.
Qed.

Lemma round_progress k i st : live (se_sys st) -> (k < roundTrips)%nat -> token (pay k) k i st ->
  exists st', sstep pay roundTrips serverEndpoint st st'.
Proof.
  intros Hl Hk Htok. destruct Htok as [s Hq|s Hq|s Hq|s Hq|s Hq|s Hq|s Hq|s Hq|s Hq|s ep Hq|s Hq]; cbn [se_sys at_pcs] in Hl;
    pose proof Hl as Hl'; wiring Hl'.
  - eexists. eapply ss_ping_send, push_ready, Hq.
  - eexists. eapply ss_ping_send, push_ready, Hq.
  - eapply (loop_can_receive _ _ _ _ _ _ 2); [reflexivity|done|apply Hq].
  - eapply (loop_can_receive _ _ _ _ _ _ 3); [reflexivity|done|apply Hq].
  - eexists. eapply (ss_reply _ _ _ _ _ _ _ _ _ 2); [reflexivity|]. unfold cb_select. by rewrite Sb, T3, T4.
  - eexists. eapply (ss_reply _ _ _ _ _ _ _ _ _ 3); [reflexivity|]. unfold cb_select. by rewrite Sb, T3, T4.
  - eexists. eapply (ss_reply_send _ _ _ _ _ _ _ _ _ 2); [reflexivity|apply push_ready, Hq].
  - eexists. eapply (ss_reply_send _ _ _ _ _ _ _ _ _ 3); [reflexivity|apply push_ready, Hq].
  - eapply (loop_can_receive _ _ _ _ _ _ 1); [reflexivity|done|apply Hq].
  - eexists. by eapply (ss_client_put _ _ _ _ _ _ _ _ 1).
  - eexists. apply ss_check.
Qed.

Lemma session_progress n st : session_inv (S n) st -> exists st', sstep pay roundTrips serverEndpoint st st'.
Proof.
  intros Hi. inversion Hi as [k s Hk Hl Hq|k j st0 Hk Hl Htok|mn left s c4 c6 s4 s6 n0 n1 n2 n3 Hw Hq Hca E0 E1 E2 E3 Hmn]; subst.
  - destruct (decide (k = roundTrips)) as [->|Hne]; [eexists; apply ss_close_client|].
    wiring Hl. destruct peer as [-> | ->]; eexists; (eapply ss_ping; [lia|]); unfold cb_select; by rewrite Sa, T1, T2.
  - by eapply round_progress.
  - destruct mn as [| | | | | |[]|[]]; try done.
    + eexists. apply ss_close_server.
    + destruct Hmn as [_ Hcb].
      destruct E0 as [[-> _]|[-> _]]; [by eapply (loop_can_end _ _ _ _ _ _ 0)|].
      destruct E1 as [[-> _]|[-> _]]; [by eapply (loop_can_end _ _ _ _ _ _ 1)|]. 
      eexists. apply ss_wait_client. cbn. destruct E2 as [[-> _]|[-> _]], E3 as [[-> _]|[-> _]]; done.
    + destruct Hmn as (_ & Hcb & _).
      destruct E2 as [[-> _]|[-> _]]; [by eapply (loop_can_end _ _ _ _ _ _ 2)|].
      destruct E3 as [[-> _]|[-> _]]; [by eapply (loop_can_end _ _ _ _ _ _ 3)|].
      eexists. apply ss_wait_server. cbn. destruct E0 as [[-> _]|[-> _]], E1 as [[-> _]|[-> _]]; done.
    + eexists. apply ss_defer.
    + destruct Hmn as (-> & _ & -> & -> & -> & ->). discriminate.
Qed.
End Good.
End SessionInv.

Lemma session0_inv pay roundTrips rs rc : session_inv pay roundTrips (8 * roundTrips + 9) (session0 rs rc).1.
Proof.
  rewrite <- (Nat.sub_0_r roundTrips) at 2. apply in_send; [lia|by vm_compute|by vm_compute].
Qed.

Lemma opened_port rs rc : (session0 rs rc).2 = 1 \/ (session0 rs rc).2 = 3.
Proof. unfold session0, cb_Open. cbn -[Z.land]. destruct (Z.land rs 1 =? 0); [by left|by right]. Qed.

(** The end of a session: the loops have returned without an error, both binds
    are closed and no packet is left. *)
Definition finished (st : session) : Prop :=
  se_main st = MDone None /\ Forall (fun l => lp_pc l = LReturned None) (se_loops st) /\
  closed_a (se_sys st) /\ closed_b (se_sys st) /\ queues (se_sys st) [] [] [] [] /\ se_recv st = None.

Lemma session_inv_0 pay roundTrips st : session_inv pay roundTrips 0 st -> finished st.
Proof.
  inversion 1 as [| |mn left s c4 c6 s4 s6 n0 n1 n2 n3 Hw Hq Hca E0 E1 E2 E3 Hmn]; subst; [lia..|].
  assert (n0 = 0 /\ n1 = 0 /\ n2 = 0 /\ n3 = 0 /\ left = 0)%nat as (-> & -> & -> & -> & ->) by lia.
  unfold ending in *. destruct E0 as [[_ [=]]|[-> _]], E1 as [[_ [=]]|[-> _]], E2 as [[_ [=]]|[-> _]], E3 as [[_ [=]]|[-> _]].
  destruct mn as [| | | | | |[]|[]]; try done; destruct Hmn as [Hz Hmn]; try discriminate Hz.
  destruct Hmn as (Hcb & _).
  split_and!; try done. by repeat constructor.
Qed.

(** C8: A session of the example over the channel binds, with payloads of 1 to
    65507 bytes (the receive buffers hold no more) and a context whose deadline
    is not reached, is correct under every schedule of its five goroutines: it
    never gets stuck, it takes exactly eight steps per round trip and nine to
    close the binds, end the four receive loops on [ErrClosed], get through both
    [Wait]s and run the deferred calls; and after these [runSession] has
    returned nil, so that no round reported an error or a mismatch, all loops
    have returned nil, both binds are closed and no packet is left. *)
Theorem session_correct pay roundTrips rs rc n st :
  (forall k, 0 < Z.of_nat (length (pay k)) <= maxUDPPayload) ->
  nsteps (sstep pay roundTrips (session0 rs rc).2) n (session0 rs rc).1 st ->
  (n <= 8 * roundTrips + 9)%nat /\
  (n < 8 * roundTrips + 9 -> exists st', sstep pay roundTrips (session0 rs rc).2 st st')%nat /\
  (n = 8 * roundTrips + 9 -> finished st)%nat /\
  (forall r, se_main st = MDone r -> n = 8 * roundTrips + 9)%nat.
Proof.
  intros Hp Hn. pose proof (opened_port rs rc) as Hport.
  assert (exists r, session_inv pay roundTrips r st /\ (n + r = 8 * roundTrips + 9)%nat) as (r & Hi & Hr).
  { pose proof (session0_inv pay roundTrips rs rc) as H0. revert H0. generalize (8 * roundTrips + 9)%nat as m.
    induction Hn as [st|n st1 st2 st3 Hs _ IH]; intros m H0; [by exists m|].
    destruct (session_inv_step _ _ _ Hp Hport _ _ Hs _ H0) as (m' & -> & H1). destruct (IH _ H1) as (r & Hi & Hr).
    exists r. split; [done|lia]. }
  split; [lia|]. split; [|split].
  - intros Hlt. destruct r as [|r]; [lia|]. by eapply session_progress.
  - intros ->. assert (r = 0%nat) as -> by lia. by eapply session_inv_0.
  - intros x E. destruct Hi as [k s ? ?|k j st0 ? ? Ht|mn ? ? ? ? ? ? ? ? ? ? ? ? ? ? ? ? ? Hmn]; [done|by destruct Ht|].
    cbn in E. subst mn. destruct x; [done|]. destruct Hmn as (-> & _ & -> & -> & -> & ->). lia.
Qed.

Definition ex_pay (k : nat) : list byte := payload_bytes 16 0 (Z.of_nat k).
(** Two rounds: some schedule goes through all 25 steps, and ends well. *)
Lemma session_correct_witness :
  exists st, nsteps (sstep ex_pay 2 (session0 0 1).2) 25 (session0 0 1).1 st /\ finished st.
Proof.
  assert (forall k, 0 < Z.of_nat (length (ex_pay k)) <= maxUDPPayload) as Hp.
  { intros k. unfold ex_pay, payload_bytes. rewrite !length_app, !length_le_bytes. cbn. unfold maxUDPPayload. lia. }
  assert (forall j, (j <= 25)%nat -> exists st, nsteps (sstep ex_pay 2 (session0 0 1).2) j (session0 0 1).1 st) as Hrun.
  { induction j as [|j IH]; intros Hj; [eexists; apply nsteps_O|]. destruct (IH ltac:(lia)) as [st Hst].
    destruct (session_correct ex_pay 2 0 1 j st Hp Hst) as (_ & Hnext & _). destruct (Hnext ltac:(lia)) as [st' Hs].
    exists st'. eapply nsteps_r; [exact Hst|exact Hs]. }
  destruct (Hrun 25%nat ltac:(lia)) as [st Hst]. exists st. split; [exact Hst|].
  destruct (session_correct ex_pay 2 0 1 25 st Hp Hst) as (_ & _ & Hf & _). apply Hf. lia.
Defined.

(** A packet of any size on its way into a loop. *)
Lemma loop_takes pay roundTrips serverEndpoint mn s ls gc gs v i x ch p :
  ls !! i = Some (mkLoop x ch LReceive) -> signalled (cs_side s x) (cs_w s) = false -> queue (cs_w s) ch = [p] -> p <> [] ->
  sstep pay roundTrips serverEndpoint (mkSession mn s ls gc gs v)
    (goto (mkSession mn (cs_store s (set_queue (cs_w s) ch [])) ls gc gs v) i (mkLoop x ch LReceive)
      (LHandle (take (Z.to_nat maxUDPPayload) p) (cb_target6 (cs_side s x)))).
Proof.
  intros Hi Hs Hq Hp. destruct (loop_buf_ok (cs_side s x)) as [Hok Hlen].
  destruct (receive_packet _ _ _ _ _ Hs Hq) as (o & m' & E).
  destruct (receive_cases _ _ _ _ _ _ _ _ _ _ _ (tg_over (if x then gs else gc)) Hok Hlen E)
    as [[? _]|(rx & rest & Eq & _ & Hh)]; [congruence|].
  rewrite Hq in Eq. injection Eq as <- <-. rewrite <- Hh by done. by eapply ss_receive.
Qed.

(** [run] accepts payloads above 65507 bytes in mode "channel", but the
    receive buffers hold 65507 bytes: the reply comes back cut, and the session
    fails with a payload mismatch in its first round. *)
Theorem channel_large_payload pay roundTrips :
  maxUDPPayload < Z.of_nat (length (pay 0%nat)) -> (0 < roundTrips)%nat ->
  exists st, nsteps (sstep pay roundTrips (session0 0 0).2) 8 (session0 0 0).1 st /\ se_main st = MDefer (Some mismatch).
Proof.
  intros Hlen HR. set (cut := take (Z.to_nat maxUDPPayload) (pay 0%nat)).
  assert (length cut = Z.to_nat maxUDPPayload) as Hcut by (subst cut; rewrite length_take; lia).
  assert (0 < Z.to_nat maxUDPPayload)%nat as Hmax by (unfold maxUDPPayload; lia).
  assert (pay 0%nat <> [] /\ cut <> []) as [Hne Hne'].
  { split; intros E; [rewrite E in Hlen|rewrite E in Hcut]; cbn in *; lia. }
  set (s := se_sys (session0 0 0).1). set (w1 := set_queue (cs_w s) 1 [pay 0%nat]).
  set (w3 := set_queue (set_queue w1 1 []) 2 [cut]).
  eexists. split.
  - eapply nsteps_l. { apply (ss_ping _ _ _ 0 s _ _ _ _ (inr 1%nat)); [done|reflexivity]. }
    eapply nsteps_l. { apply (ss_ping_send _ _ _ 0 1 s _ _ _ _ w1). reflexivity. }
    eapply nsteps_l. { by apply (loop_takes _ _ _ _ (cs_store s w1) _ _ _ _ 2). }
    eapply nsteps_l. { by apply (ss_reply _ _ _ _ _ _ _ _ _ 2 1 cut 4 (inr 2%nat)). }
    eapply nsteps_l. { by apply (ss_reply_send _ _ _ _ _ _ _ _ _ 2 1 2 cut w3). }
    eapply nsteps_l. { by apply (loop_takes _ _ _ _ (cs_store s w3) _ _ _ _ 1). }
    eapply nsteps_l. { by eapply (ss_client_put _ _ _ _ _ _ _ _ 1 2). }
    eapply nsteps_l. { apply ss_check. }
    apply nsteps_O.
  - cbn [se_main]. rewrite bool_decide_eq_false_2; [done|].
    intros E. rewrite <- E, length_take, Hcut in Hlen. lia.
Qed.

Lemma channel_large_payload_witness :
  exists st, nsteps (sstep (fun _ => replicate (Z.to_nat 65508) x2a) 1 (session0 0 0).2) 8 (session0 0 0).1 st /\
    se_main st = MDefer (Some mismatch).
Proof. apply channel_large_payload; [rewrite length_replicate; unfold maxUDPPayload; lia|lia]. Defined.
