(* ===== verification/Session.v ===== *)
(** * A session of the ping-pong example as a client of two binds
    ([runSession] and [runScenario] of examples/udp_pingpong/main.go)

    [runSession] opens a server and a client bind, exchanges payloads, closes
    both, and has deferred calls that close them again on every path.  It is
    modelled against the interface of a bind; the goroutines it starts show up
    as what happens to the binds and the world while it waits for a reply. *)

From S2P Require Import Prelude Errors GoMem Netip Cmsg Gso Sticky Message Coalesce Env SimNet ControlFns Conn StdNet StdSend StdRecv StdConc ChannelBind BindLife PingPong.
From stdpp Require Import relations.

(** ** Two binds in one process *)

(** What a session needs besides the life cycle: sending and parsing, and that
    operations on one bind do not disturb another. *)
Class SessionBind (B W R Ep : Type) `{BindLife B W R} := {
  sess_Send : B -> list byte -> Ep -> W -> go (option error * B * W);
  sess_ParseEndpoint : B -> string -> error + Ep;
  (** the endpoint of a server on the loopback address *)
  sess_parse b port : (0 <= port < 65536)%Z ->
    forall ep, sess_ParseEndpoint b (JoinHostPort "127.0.0.1" (pretty port)) = inr ep ->
    forall b' payload w, is_listening b' w -> payload <> [] ->
      exists err b'' w', sess_Send b' payload ep w = Ret (err, b'', w') /\
        is_listening b'' w' /\ owned b'' = owned b' /\ held_in w' = held_in w /\
        (forall a, is_listening a w -> is_listening a w');
  sess_port b port w p b' w' : is_closed b w -> (0 <= port < 65536)%Z ->
    bind_Open b port w = Ret (inr p, b', w') -> (0 <= p < 65536)%Z;
  (** another bind *)
  other_open a b port w r b' w' : is_closed b w -> (0 <= port < 65536)%Z ->
    bind_Open b port w = Ret (r, b', w') ->
    (is_closed a w -> is_closed a w') /\ (is_listening a w -> is_listening a w') /\
    (forall p, r = inr p -> is_listening a w -> owned b' ## owned a);
  other_close a b w e b' w' : bind_Close b w = (e, b', w') ->
    (is_closed a w -> is_closed a w') /\
    (is_listening a w -> is_closed b w \/ owned a ## owned b -> is_listening a w');
}.

(** [pairFactory], and the two factories of the scenarios: one that makes binds
    of a shared network and may take the network down, one that makes channel
    binds. *)
Record pairFactory (B W : Type) := mkFactory {
  pf_NewPair : W -> (error + B * B) * W;
  pf_Close : W -> option error * W;
}.
Arguments mkFactory {B W}. Arguments pf_NewPair {B W}. Arguments pf_Close {B W}.

Definition sharedNetworkFactory {B W} (newBind : W -> B * W) (close : option (W -> option error * W)) : pairFactory B W :=
  mkFactory (fun w => let '(client, w) := newBind w in let '(server, w) := newBind w in (inr (client, server), w))
    (fun w => match close with None => (None, w) | Some f => f w end).
Definition channelFactory : pairFactory ChannelBind chans :=
  mkFactory (fun _ => let '(a, b, w) := NewChannelBinds in (inr (a, b), w)) (fun w => (None, w)).

Section Session.
Context {B W R Ep : Type} `{BindLife B W R} {SB : SessionBind B W R Ep}.

(** The payload size, number of round trips and number of the session; the
    receive on [clientRecv] or on [ctx.Done()], with what the goroutines of the
    session did to the binds meanwhile; the results of the two groups. *)
Variable payloadSize : nat.
Variable roundTrips : nat.
Variable sessionID : Z.
Variable next_reply : B -> B -> W -> (error + list byte) * B * B * W.
Variable clientWait serverWait : W -> option error.

(** The loop of the round trips. *)
Fixpoint round_trips (todo : nat) (roundTrip : Z) (client server : B) (ep : Ep) (w : W)
    : go (option error * B * B * W) :=
  match todo with
  | O => Ret (None, client, server, w)
  | S todo' =>
      payload ← makePayload payloadSize sessionID roundTrip;
      '(err, client, w) ← sess_Send client payload ep w;
      match err with
      | Some e => Ret (Some (EWrap "send ping" e), client, server, w)
      | None =>
          let '(r, client, server, w) := next_reply client server w in
          match r with
          | inl cause => Ret (Some cause, client, server, w)
          | inr reply =>
              if bool_decide (reply = payload) then round_trips todo' (roundTrip + 1) client server ep w
              else Ret (Some (EOther "payload mismatch"), client, server, w)
          end
      end
  end.

(** [err != nil && !errors.Is(err, net.ErrClosed)] *)
Definition close_failed (err : option error) : bool :=
  match err with Some e => negb (errors_Is e ErrClosed) | None => false end.

(** The end of a session: both binds are closed, then both groups awaited. *)
Definition finish (client server : B) (w : W) : option error * B * B * W :=
  let '(err, client, w) := bind_Close client w in
  if close_failed err then (err, client, server, w) else
  let '(err, server, w) := bind_Close server w in
  if close_failed err then (err, client, server, w) else
  match clientWait w with
  | Some err => (Some err, client, server, w)
  | None => (serverWait w, client, server, w)
  end.

(** [runSession] between the deferred calls. *)
Definition session_body (client server : B) (w : W) : go (option error * B * B * W) :=
  '(r, server, w) ← bind_Open server 0 w;
  match r with
  | inl err => Ret (Some (EWrap "open server bind" err), client, server, w)
  | inr serverPort =>
      '(r, client, w) ← bind_Open client 0 w;
      match r with
      | inl err => Ret (Some (EWrap "open client bind" err), client, server, w)
      | inr _ =>
          match sess_ParseEndpoint client (JoinHostPort "127.0.0.1" (pretty serverPort)) with
          | inl err => Ret (Some (EWrap "parse server endpoint" err), client, server, w)
          | inr serverEndpoint =>
              '(err, client, server, w) ← round_trips roundTrips 0 client server serverEndpoint w;
              match err with
              | Some err => Ret (Some err, client, server, w)
              | None => Ret (finish client server w)
              end
          end
      end
  end.

(** [runSession]: the pair of the factory, the body, and the deferred closes,
    the last deferred first. *)
Definition runSession (factory : pairFactory B W) (w : W) : go (option error * option (B * B) * W) :=
  match pf_NewPair factory w with
  | (inl err, w) => Ret (Some err, None, w)
  | (inr (clientBind, serverBind), w) =>
      '(err, client, server, w) ← session_body clientBind serverBind w;
      let '(_, server, w) := bind_Close server w in
      let '(_, client, w) := bind_Close client w in
      Ret (err, Some (client, server), w)
  end.

(** [runScenario]: the sessions return in the order of [evs], into which the
    end of the timeout may fall; the factory is closed last. *)
Definition runScenario (sc_factory : error + pairFactory B W) (evs : list tg_event) (w : W) : option error * W :=
  match sc_factory with
  | inl err => (Some err, w)
  | inr factory => (tg_Wait (fold_left tg_step evs newTaskGroup), (pf_Close factory w).2)
  end.

(** *** What the goroutines may do

    While the session waits, both binds stay open and nothing else is opened
    or closed. *)
Hypothesis reply_keeps : forall client server w r client' server' w',
  next_reply client server w = (r, client', server', w') ->
  is_listening client w -> is_listening server w ->
  is_listening client' w' /\ is_listening server' w' /\
  owned client' = owned client /\ owned server' = owned server /\ held_in w' = held_in w.

(** The two binds of a session that began when the process held [X]. *)
Definition both_open (X : gset R) (client server : B) (w : W) : Prop :=
  is_listening client w /\ is_listening server w /\ owned client ## owned server /\
  held_in w ∖ owned client ∖ owned server = X.

Definition settled (X : gset R) (client server : B) (w : W) : Prop :=
  is_closed client w /\ is_closed server w /\ held_in w = X.

(** A state from which the deferred closes settle the session. *)
Inductive recoverable (X : gset R) (client server : B) (w : W) : Prop :=
| rec_both : both_open X client server w -> recoverable X client server w
| rec_server : is_closed client w -> is_listening server w -> held_in w ∖ owned server = X ->
    recoverable X client server w
| rec_none : settled X client server w -> recoverable X client server w.

Lemma difference_comm_L (A X Y : gset R) : A ∖ X ∖ Y = A ∖ Y ∖ X.
Proof. by rewrite !difference_difference_l_L, (comm_L (∪) X). Qed.

(** Closing a bind, open or not. *)
Lemma close_either b w e b' w' :
  bind_Close b w = (e, b', w') -> is_listening b w \/ is_closed b w ->
  is_closed b' w' /\ (is_listening b w -> held_in w' = held_in w ∖ owned b) /\
  (is_closed b w -> held_in w' = held_in w).
Proof.
  intros HC Hb. destruct Hb as [Hl|Hc].
  - destruct (life_close b w Hl) as (e1 & b1 & w1 & E & Hc & Hh). rewrite HC in E. injection E as <- <- <-.
    split; [done|]. split; [done|]. intros Hcl.
    destruct (life_close_again b w Hcl) as (b2 & w2 & E2 & _ & Hh2). rewrite HC in E2. by injection E2 as _ _ ->.
  - destruct (life_close_again b w Hc) as (b1 & w1 & E & Hc' & Hh). rewrite HC in E. injection E as -> <- <-.
    split; [done|]. split; [|done]. intros Hl.
    destruct (life_close b w Hl) as (e2 & b2 & w2 & E2 & _ & Hh2). rewrite HC in E2. by injection E2 as _ _ ->.
Qed.

(** The deferred closes settle every state a session can end in. *)
Lemma deferred_closes X client server w e s' w1 e' c' w2 :
  recoverable X client server w -> bind_Close server w = (e, s', w1) -> bind_Close client w1 = (e', c', w2) ->
  settled X c' s' w2.
Proof.
  intros Hr E1 E2. destruct (other_close client server w e s' w1 E1) as [Oc Ol].
  destruct (other_close s' client w1 e' c' w2 E2) as [Oc2 _].
  destruct Hr as [(Lc & Ls & D & Hh)|Cc Ls Hh|(Cc & Cs & Hh)].
  - destruct (close_either server w e s' w1 E1 (or_introl Ls)) as (Cs' & Hs & _).
    assert (is_listening client w1) as Lc1 by (apply Ol; auto).
    destruct (close_either client w1 e' c' w2 E2 (or_introl Lc1)) as (Cc' & Hc & _).
    split; [done|]. split; [by apply Oc2|]. rewrite Hc, Hs by done. by rewrite difference_comm_L.
  - destruct (close_either server w e s' w1 E1 (or_introl Ls)) as (Cs' & Hs & _).
    destruct (close_either client w1 e' c' w2 E2 (or_intror (Oc Cc))) as (Cc' & _ & Hc).
    split; [done|]. split; [by apply Oc2|]. rewrite Hc, Hs by auto. done.
  - destruct (close_either server w e s' w1 E1 (or_intror Cs)) as (Cs' & _ & Hs).
    destruct (close_either client w1 e' c' w2 E2 (or_intror (Oc Cc))) as (Cc' & _ & Hc).
    split; [done|]. split; [by apply Oc2|]. rewrite Hc, Hs by auto. done.
Qed.

Lemma finish_recoverable X client server w r c' s' w' :
  both_open X client server w -> finish client server w = (r, c', s', w') -> recoverable X c' s' w'.
Proof.
  intros (Lc & Ls & D & Hh). unfold finish.
  destruct (bind_Close client w) as [[e c1] w1] eqn:E1.
  destruct (close_either client w e c1 w1 E1 (or_introl Lc)) as (Cc & Hc & _).
  destruct (other_close server client w e c1 w1 E1) as [_ Ol].
  assert (is_listening server w1) as Ls1 by (apply Ol; [done|right; by symmetry]).
  assert (held_in w1 ∖ owned server = X) as H1 by (by rewrite Hc).
  destruct (close_failed e); [intros [= <- <- <- <-]; by apply rec_server|].
  destruct (bind_Close server w1) as [[e2 s1] w2] eqn:E2.
  destruct (close_either server w1 e2 s1 w2 E2 (or_introl Ls1)) as (Cs & Hs & _).
  destruct (other_close c1 server w1 e2 s1 w2 E2) as [Oc _].
  assert (settled X c1 s1 w2) as S by (split; [by apply Oc|split; [done|]]; by rewrite Hs).
  destruct (close_failed e2); [intros [= <- <- <- <-]; by apply rec_none|].
  destruct (clientWait w2); intros [= <- <- <- <-]; by apply rec_none.
Qed.

(** The exchange keeps both binds open and always returns. *)
Lemma round_trips_open X ep port b0 : (16 <= payloadSize) -> (0 <= port < 65536)%Z ->
  sess_ParseEndpoint b0 (JoinHostPort "127.0.0.1" (pretty port)) = inr ep ->
  forall todo k client server w, both_open X client server w ->
  exists err c' s' w', round_trips todo k client server ep w = Ret (err, c', s', w') /\ both_open X c' s' w'.
Proof.
  intros Hsize Hp Hep. induction todo as [|todo IH]; intros k client server w (Lc & Ls & D & Hh); cbn [round_trips].
  { by eexists _, _, _, _. }
  assert (exists payload, makePayload payloadSize sessionID k = Ret payload /\ payload <> []) as (payload & -> & Hne).
  { unfold makePayload. rewrite (proj2 (Nat.leb_le _ _) Hsize). eexists. split; [reflexivity|].
    unfold payload_bytes. by cbn. }
  cbn [mbind go_mbind].
  destruct (sess_parse b0 port Hp ep Hep client payload w Lc Hne) as (err & c1 & w1 & -> & Lc1 & O1 & H1 & Ho).
  cbn [mbind go_mbind].
  assert (both_open X c1 server w1) as B1.
  { split; [done|]. split; [by apply Ho|]. by rewrite O1, H1. }
  destruct err as [e|]; [by eexists _, _, _, _|].
  destruct (next_reply c1 server w1) as [[[r c2] s2] w2] eqn:EN.
  destruct B1 as (Lc' & Ls' & D' & Hh').
  destruct (reply_keeps _ _ _ _ _ _ _ EN Lc' Ls') as (Lc2 & Ls2 & O2 & O3 & H2).
  assert (both_open X c2 s2 w2) as B2 by (split; [done|]; split; [done|]; by rewrite O2, O3, H2).
  destruct r as [cause|reply]; [by eexists _, _, _, _|].
  case_bool_decide; [by apply IH|by eexists _, _, _, _].
Qed.

Lemma session_body_recoverable client server w :
  (16 <= payloadSize) -> is_closed client w -> is_closed server w ->
  exists err c' s' w', session_body client server w = Ret (err, c', s', w') /\
    recoverable (held_in w) c' s' w'.
Proof.
  intros Hsize Cc Cs. unfold session_body.
  destruct (life_open server 0 w Cs ltac:(lia)) as (r & s1 & w1 & E1 & Hr).
  destruct (other_open client server 0 w r s1 w1 Cs ltac:(lia) E1) as (Oc & _ & _).
  rewrite E1. cbn [mbind go_mbind]. destruct r as [err|port].
  { destruct Hr as [Cs1 Hh]. eexists _, _, _, _. split; [reflexivity|]. apply rec_none. by split; [apply Oc|]. }
  destruct Hr as [Ls1 Hh1]. pose proof (sess_port server 0 w port s1 w1 Cs ltac:(lia) E1) as Hport.
  specialize (Oc Cc). destruct (life_open client 0 w1 Oc ltac:(lia)) as (r & c1 & w2 & E2 & Hr2).
  destruct (other_open s1 client 0 w1 r c1 w2 Oc ltac:(lia) E2) as (_ & Ol & Od).
  specialize (Ol Ls1). rewrite E2. cbn [mbind go_mbind]. destruct r as [err|p2].
  { destruct Hr2 as [Cc2 Hh2]. eexists _, _, _, _. split; [reflexivity|]. apply rec_server; try done. by rewrite Hh2. }
  destruct Hr2 as [Lc2 Hh2].
  assert (both_open (held_in w) c1 s1 w2) as Hb.
  { split; [done|]. split; [done|]. split; [by apply (Od p2)|]. by rewrite Hh2. }
  destruct (sess_ParseEndpoint c1 _) as [err|ep] eqn:EP.
  { eexists _, _, _, _. split; [reflexivity|]. by apply rec_both. }
  destruct (round_trips_open _ ep port c1 Hsize Hport EP roundTrips 0 c1 s1 w2 Hb) as (err & c3 & s3 & w3 & -> & Hb3).
  cbn [mbind go_mbind]. destruct err as [err|].
  { eexists _, _, _, _. split; [reflexivity|]. by apply rec_both. }
  destruct (finish c3 s3 w3) as [[[r c4] s4] w4] eqn:EF. eexists _, _, _, _. split; [reflexivity|].
  by eapply finish_recoverable.
Qed.

(** A factory that makes closed binds and opens nothing itself. *)
Definition factory_ok (factory : pairFactory B W) : Prop :=
  forall w r w', pf_NewPair factory w = (r, w') -> held_in w' = held_in w /\
    match r with inl _ => True | inr (client, server) => is_closed client w' /\ is_closed server w' end.

(** C16: A session gives everything back.  For any factory of closed binds, any
    number of round trips and any behaviour of the receiving goroutines,
    [runSession] returns, and on every path (no pair, an [Open] that fails on
    either side, an endpoint that does not parse, a send error, a wrong reply,
    the end of the context, errors of the closes or of the groups, and success)
    both binds are closed at the end and the process holds exactly what it held
    before. *)
Theorem runSession_releases factory w :
  factory_ok factory -> 16 <= payloadSize ->
  exists err pair w', runSession factory w = Ret (err, pair, w') /\ held_in w' = held_in w /\
    match pair with
    | None => err <> None
    | Some (client, server) => is_closed client w' /\ is_closed server w'
    end.
Proof.
  intros Hf Hsize. unfold runSession. destruct (pf_NewPair factory w) as [[err|[client server]] w0] eqn:EN;
    apply Hf in EN as [Hh HN]; [by eexists _, _, _|].
  destruct HN as [Cc Cs].
  destruct (session_body_recoverable client server w0 Hsize Cc Cs) as (err & c1 & s1 & w1 & -> & Hr).
  cbn [mbind go_mbind]. destruct (bind_Close s1 w1) as [[e s2] w2] eqn:E1.
  destruct (bind_Close c1 w2) as [[e' c2] w3] eqn:E2. eexists _, _, _. split; [reflexivity|].
  destruct (deferred_closes _ _ _ _ _ _ _ _ _ _ Hr E1 E2) as (C1 & C2 & Hh3). by rewrite Hh3, Hh.
Qed.
End Session.

(** ** Sessions over StdNetBind on Linux *)

Section StdSession.
Context {U : UnixABI} {UL : UnixLaws U} `{Env W} {L : EnvLaws W} {F : EnvFrame W} (fuel : nat).
Hypothesis Hfuel : forall c, wrap_depth c < fuel.
(** netip.ParseAddrPort: what it finds in the text of an IPv4 loopback address
    and a port. *)
Variable ParseAddrPort : string -> error + AddrPort.
Hypothesis parse_loopback : forall port ap, (0 <= port < 65536)%Z ->
  ParseAddrPort (JoinHostPort "127.0.0.1" (pretty port)) = inr ap ->
  ap = mkAddrPort (Addr4 [x7f; x00; x00; x01]) port.

(** [Send([][]byte{payload}, ep)] with a new buffer. *)
Definition std_send1 (s : StdNetBind) (payload : list byte) (e : StdNetEndpoint) (w : W)
    : go (option error * StdNetBind * W) :=
  '(err, s, _, w) ← Send Linux 0 0 s {[0 := payload]} [Slice 0 0 (length payload) (length payload)] (EpStd e) w;
  Ret (err, s, w).

(** A bind for at least one packet at a time. *)
Definition batch_life : BindLife (BindOps0 := std_ops Linux fuel) StdNetBind W conn.
Proof.
  refine (Build_BindLife _ _ _ _ _ (std_ops Linux fuel) open_conns bind_conns
    (fun s w => std_closed Linux fuel s w /\ 0 < sb_batchSize s)
    (fun s w => std_listening Linux fuel s w /\ 0 < sb_batchSize s) _ _ _).
  - intros s port w [Hc Hb] Hp. destruct (std_Open Linux fuel Hfuel s port w Hc Hp) as (r & s' & w' & HO & Hn & Hr).
    exists r, s', w'. split; [exact HO|]. rewrite Hn. destruct r; [naive_solver|].
    destruct Hr as (Hl & Ho & Hd & _). split; [done|]. rewrite Ho. clear -Hd. set_solver.
  - intros s w [(G & _ & _) Hb]. cbn. destruct (Close s w) as [[err s'] w'] eqn:HC.
    destruct (std_Close Linux fuel _ _ _ _ _ G HC) as (Hc & Ho & Hn). eexists _, _, _. rewrite Hn. by split_and!.
  - intros s w [(G & E4 & E6) Hb]. cbn. destruct (Close s w) as [[err s'] w'] eqn:HC.
    destruct (std_Close Linux fuel _ _ _ _ _ G HC) as (Hc & Ho & Hn).
    unfold Close in HC. rewrite E4, E6 in HC. injection HC as <- <- <-. eexists _, _. by split_and!.
Defined.

(** A send on a listening bind returns and leaves it listening. *)
Lemma std_send1_ok s payload port w :
  std_listening Linux fuel s w -> 0 < sb_batchSize s -> payload <> [] -> (0 <= port < 65536)%Z ->
  exists err s' w',
    std_send1 s payload (mkEndpoint (mkAddrPort (Addr4 [x7f; x00; x00; x01]) port) None) w = Ret (err, s', w') /\
    std_listening Linux fuel s' w' /\ 0 < sb_batchSize s' /\ bind_conns s' = bind_conns s /\
    open_conns w' = open_conns w.
Proof.
  intros ([T P] & Hne & Hsub) Hb Hp Hport. set (e := mkEndpoint _ None). unfold std_send1.
  assert (exists err s' m' w', Send Linux 0 0 s {[0 := payload]} [Slice 0 0 (length payload) (length payload)] (EpStd e) w
    = Ret (err, s', m', w') /\ pools_ok (os := Linux) s') as (err & s' & m' & w' & HS & P').
  { destruct (fa_blackhole (family_of s false)) eqn:Hbl.
    { eexists _, _, _, _. split; [|exact P]. unfold Send. cbn [Endpoint_DstIP DstIP e ep_AddrPort ap_addr Is6]. by rewrite Hbl. }
    destruct (fa_conn (family_of s false)) as [c|] eqn:Hc.
    2: { eexists _, _, _, _. split; [|exact P]. unfold Send. cbn [Endpoint_DstIP DstIP e ep_AddrPort ap_addr Is6]. by rewrite Hbl, Hc. }
    assert (send_pre 0 s {[0 := payload]} [Slice 0 0 (length payload) (length payload)] e) as Hpre.
    { split; try done.
      - apply Forall_singleton. split; cbn [s_len s_cap s_off s_arr]; [done|].
        unfold array. rewrite lookup_singleton_eq. cbn. lia.
      - apply Forall_singleton. destruct payload; [done|]. cbn. lia.
      - split; [done|]. exists []. by split_and!; try constructor.
      - cbn. lia. }
    destruct (Send_linux_spec 0 0 s _ _ e w c Hpre Hbl Hc) as (err & s' & m' & w' & err1 & w1 & HS & _ & _ & _ & P').
    by eexists _, _, _, _. }
  rewrite HS. cbn [mbind go_mbind]. eexists _, _, _. split; [reflexivity|].
  apply Send_rel in HS as [R O].
  pose proof (send_rel_typed fuel _ _ R T) as T'. destruct R as (E1 & E2 & _ & _ & _ & _ & _ & _ & _ & _ & E11).
  assert (bind_conns s' = bind_conns s) as Hbc by (unfold bind_conns; by rewrite E1, E2).
  rewrite Hbc, O, E11. split_and!; try done. unfold std_listening. by rewrite E1, E2, Hbc, O.
Qed.

#[local] Existing Instances std_ops batch_life.

(** [StdNetBind] meets what a session needs. *)
Definition std_session : SessionBind StdNetBind W conn StdNetEndpoint (H0 := batch_life).
Proof.
  refine (Build_SessionBind _ _ _ _ _ _ _ batch_life std_send1 (fun _ => ParseEndpoint ParseAddrPort) _ _ _ _).
  - intros _ port Hport ep Hep s payload w [Hl Hb] Hne.
    assert (ep = mkEndpoint (mkAddrPort (Addr4 [x7f; x00; x00; x01]) port) None) as ->.
    { unfold ParseEndpoint in Hep. destruct (ParseAddrPort _) as [|ap] eqn:E; [done|]. injection Hep as <-.
      by rewrite (parse_loopback port ap Hport E). }
    destruct (std_send1_ok s payload port w Hl Hb Hne Hport) as (err & s' & w' & HE & Hl' & Hb' & Ho & Hw).
    exists err, s', w'. split_and!; try done.
    intros a [(G & Ha & Hsub) Hba]. split; [|done]. split; [done|]. split; [done|]. by rewrite Hw.
  - intros s port w p s' w' [Hc Hb] Hp HO.
    destruct (std_Open Linux fuel Hfuel s port w Hc Hp) as (r & s1 & w1 & HO1 & _ & Hr).
    rewrite HO in HO1. injection HO1 as <- <- <-. by destruct Hr as (_ & _ & _ & ?).
  - intros a s port w r s' w' [Hc Hb] Hp HO.
    destruct (std_Open Linux fuel Hfuel s port w Hc Hp) as (r1 & s1 & w1 & HO1 & _ & Hr).
    rewrite HO in HO1. injection HO1 as <- <- <-. split; [done|].
    assert (open_conns w ⊆ open_conns w') as Hsub.
    { destruct r; [by destruct Hr as [_ ->]|]. destruct Hr as (_ & -> & _). apply union_subseteq_r. }
    split.
    + intros [(G & Ha & Hs) Hba]. split; [|done]. split; [done|]. split; [done|]. by etrans.
    + intros p -> [(G & Ha & Hs) Hba]. destruct Hr as (_ & _ & Hd & _). cbn. clear -Hd Hs. set_solver.
  - intros a s w e s' w' HC. split; [done|]. intros [(G & Ha & Hs) Hba] Hor. split; [|done].
    split; [done|]. split; [done|]. cbn in HC. apply Close_open in HC. rewrite HC.
    destruct Hor as [[Hcl _]|Hd].
    + by rewrite (closed_conns _ _ _ _ Hcl), difference_empty_L.
    + cbn in Hd. clear -Hs Hd. set_solver.
Defined.
End StdSession.

(** *** On the simulated machine *)

Definition sim_parse (s : string) : error + AddrPort :=
  inr (mkAddrPort (Addr4 [x7f; x00; x00; x01]) (address_port s)).
Lemma sim_parse_loopback port ap : (0 <= port < 65536)%Z ->
  sim_parse (JoinHostPort "127.0.0.1" (pretty port)) = inr ap -> ap = mkAddrPort (Addr4 [x7f; x00; x00; x01]) port.
Proof.
  intros Hp [= <-]. f_equal. destruct (decide (port = 0%Z)) as [->|Hne]; [reflexivity|]. apply address_port_join. lia.
Qed.

(** A session over a shared network of two new binds; its first reply is wrong. *)
Lemma runSession_releases_witness :
  exists err pair w',
    runSession (BindOps0 := std_ops Linux 1) (H0 := batch_life (U := linux64) 1 ex_depth)
      (SB := std_session (U := linux64) 1 ex_depth sim_parse sim_parse_loopback)
      16 3 0 (fun c s w => (inr [x00], c, s, w)) (fun _ => None) (fun _ => None)
      (sharedNetworkFactory (fun w => (ex_bind, w)) None) sim1
      = Ret (err, pair, w') /\ open_conns w' = open_conns sim1.
Proof.
  destruct (runSession_releases (BindOps0 := std_ops Linux 1) (H0 := batch_life (U := linux64) 1 ex_depth)
    (SB := std_session (U := linux64) 1 ex_depth sim_parse sim_parse_loopback)
    16 3 0 (fun c s w => (inr [x00], c, s, w)) (fun _ => None) (fun _ => None)
    ltac:(intros ? ? ? ? ? ? ? [= <- <- <- <-] ? ?; done)
    (sharedNetworkFactory (fun w => (ex_bind, w)) None) sim1)
    as (err & pair & w' & HE & Hh & _).
  - intros w r w' [= <- <-]. split; [reflexivity|].
    split; (split; [split; [split; [done|by vm_compute]|done]|vm_compute; lia]).
  - apply Nat.le_refl.
  - exists err, pair, w'. exact (conj HE Hh).
Defined.
